(** * Notebook: persistence and security layer

    A shallow embedding of the note store of the notebook application
    ([src/scripts/utils.js], [src/scripts/crypto.js] and
    [src/scripts/notebook-manager.js]) together with the properties its
    specification states about it.

    JavaScript strings are sequences of UTF-16 code units, byte arrays
    ([Uint8Array]) are lists of bytes.  The browser interfaces the code calls
    are of two kinds.  The text codecs ([TextEncoder], [TextDecoder]) and
    the base64 methods of [Uint8Array] are standardised, deterministic
    functions: they are written out here after their standards.  Compression
    streams, the Web Crypto primitives, [JSON.parse] and
    [String.prototype.toLowerCase] are taken as the fields of a [Platform]
    whose laws are the ones their standards guarantee.

    The methods of the manager are functions from state to state.  What a
    method draws from its environment (the password typed, random bytes,
    a fresh identifier, the time) is an argument of the function.  A method
    runs to its end before the next one starts: the page is the only
    writer, and the promises a method awaits are settled by the platform
    alone. *)

From Stdlib Require Import NArith ZArith Lia List String Ascii Bool.
From Stdlib.Strings Require Byte.
From stdpp Require Import base option list gmap.
Import ListNotations.

Local Open Scope N_scope.

(** ** JavaScript strings *)

Abbreviation byte := Byte.byte.

(** A JavaScript string: its UTF-16 code units. *)
Definition jsstring := list N.

(** A string literal of the source, as code units. *)
Definition js (s : string) : jsstring :=
  map N_of_ascii (list_ascii_of_string s).

Definition byte_of_N (n : N) : byte :=
  match Byte.of_N (n mod 256) with
  | Some b => b
  | None => Byte.x00
  end.

Definition is_high_surrogate (u : N) : bool := (0xD800 <=? u) && (u <=? 0xDBFF).
Definition is_low_surrogate (u : N) : bool := (0xDC00 <=? u) && (u <=? 0xDFFF).

(** Well-formed UTF-16: every code unit fits 16 bits and every surrogate is
    half of a pair ("valid unicode text"). *)
Fixpoint well_formed (s : jsstring) : bool :=
  match s with
  | [] => true
  | u :: rest =>
      if is_high_surrogate u then
        match rest with
        | l :: rest' => is_low_surrogate l && well_formed rest'
        | [] => false
        end
      else if is_low_surrogate u then false
      else (u <? 0x10000) && well_formed rest
  end.

(** ** Text codecs of the platform (WHATWG Encoding Standard) *)

Module Encoding.

(** Conversion of a string to scalar values, as Web IDL does for a
    [USVString] argument: a surrogate pair is one code point, an unpaired
    surrogate becomes U+FFFD. *)
Fixpoint code_points (s : jsstring) : list N :=
  match s with
  | [] => []
  | u :: rest =>
      if is_high_surrogate u then
        match rest with
        | l :: rest' =>
            if is_low_surrogate l
            then (0x10000 + (u - 0xD800) * 0x400 + (l - 0xDC00)) :: code_points rest'
            else 0xFFFD :: code_points rest
        | [] => [0xFFFD]
        end
      else if is_low_surrogate u then 0xFFFD :: code_points rest
      else u :: code_points rest
  end.

(** The UTF-8 encoder, one scalar value at a time.  Shifts by 6 bits and
    masks with 0x3F are written as divisions and remainders by 64. *)
Definition utf8_encode_cp (c : N) : list byte :=
  if c <? 0x80 then [byte_of_N c]
  else if c <? 0x800 then
    [byte_of_N (0xC0 + c / 64); byte_of_N (0x80 + c mod 64)]
  else if c <? 0x10000 then
    [byte_of_N (0xE0 + c / 4096); byte_of_N (0x80 + (c / 64) mod 64);
     byte_of_N (0x80 + c mod 64)]
  else
    [byte_of_N (0xF0 + c / 262144); byte_of_N (0x80 + (c / 4096) mod 64);
     byte_of_N (0x80 + (c / 64) mod 64); byte_of_N (0x80 + c mod 64)].

(** [new TextEncoder().encode(s)] *)
Definition TextEncoder_encode (s : jsstring) : list byte :=
  flat_map utf8_encode_cp (code_points s).

(** State of the UTF-8 decoder: idle, or inside a sequence with the code
    point gathered so far, the number of bytes still needed and the bounds
    for the next byte. *)
Inductive utf8_dec :=
| Idle
| Pending (cp : N) (remaining : nat) (lower upper : N).

(** The decoder's handler on a byte met while no sequence is open. *)
Definition utf8_start (b : N) : list N * utf8_dec :=
  if b <=? 0x7F then ([b], Idle)
  else if (0xC2 <=? b) && (b <=? 0xDF) then
    ([], Pending (b - 0xC0) 1 0x80 0xBF)
  else if (0xE0 <=? b) && (b <=? 0xEF) then
    ([], Pending (b - 0xE0) 2 (if b =? 0xE0 then 0xA0 else 0x80)
                             (if b =? 0xED then 0x9F else 0xBF))
  else if (0xF0 <=? b) && (b <=? 0xF4) then
    ([], Pending (b - 0xF0) 3 (if b =? 0xF0 then 0x90 else 0x80)
                             (if b =? 0xF4 then 0x8F else 0xBF))
  else ([0xFFFD], Idle).

(** The UTF-8 decoder with replacement error mode: a malformed sequence
    yields U+FFFD and the offending byte is handled again from the idle
    state. *)
Fixpoint utf8_decode (st : utf8_dec) (bs : list byte) : list N :=
  match bs with
  | [] => match st with Idle => [] | Pending _ _ _ _ => [0xFFFD] end
  | b :: rest =>
      let v := Byte.to_N b in
      match st with
      | Idle => let '(out, st') := utf8_start v in out ++ utf8_decode st' rest
      | Pending c n lo hi =>
          if (lo <=? v) && (v <=? hi) then
            let c' := c * 64 + v mod 64 in
            match n with
            | 0%nat | 1%nat => c' :: utf8_decode Idle rest
            | S n' => utf8_decode (Pending c' n' 0x80 0xBF) rest
            end
          else
            let '(out, st') := utf8_start v in
            0xFFFD :: out ++ utf8_decode st' rest
      end
  end.

(** A decoder made with [new TextDecoder()] has [ignoreBOM] false: when the
    first code point it produces is U+FEFF, that code point is dropped. *)
Definition strip_bom (cps : list N) : list N :=
  match cps with
  | c :: rest => if c =? 0xFEFF then rest else cps
  | [] => []
  end.

Definition code_units_of_cp (c : N) : list N :=
  if c <? 0x10000 then [c]
  else [0xD800 + (c - 0x10000) / 0x400; 0xDC00 + (c - 0x10000) mod 0x400].

(** [new TextDecoder().decode(bytes)] *)
Definition TextDecoder_decode (bs : list byte) : jsstring :=
  flat_map code_units_of_cp (strip_bom (utf8_decode Idle bs)).

End Encoding.

Arguments byte_of_N : simpl never.

(** ** Base64 methods of [Uint8Array] (ECMAScript) *)

Module Base64.

(** The character of a sextet in the standard alphabet [A-Za-z0-9+/]. *)
Definition b64_char (v : N) : N :=
  if v <? 26 then 65 + v
  else if v <? 52 then 97 + (v - 26)
  else if v <? 62 then 48 + (v - 52)
  else if v =? 62 then 43
  else 47.

(** The sextet of a character of the standard alphabet. *)
Definition b64_value (c : N) : option N :=
  if (65 <=? c) && (c <=? 90) then Some (c - 65)
  else if (97 <=? c) && (c <=? 122) then Some (c - 97 + 26)
  else if (48 <=? c) && (c <=? 57) then Some (c - 48 + 52)
  else if c =? 43 then Some 62
  else if c =? 47 then Some 63
  else None.

(** [bytes.toBase64()] with its default options: the standard alphabet,
    padded with [=] (code unit 61). *)
Fixpoint toBase64 (bs : list byte) : jsstring :=
  match bs with
  | [] => []
  | [a] =>
      let a := Byte.to_N a in
      [b64_char (a / 4); b64_char ((a mod 4) * 16); 61; 61]
  | [a; b] =>
      let a := Byte.to_N a in
      let b := Byte.to_N b in
      [b64_char (a / 4); b64_char ((a mod 4) * 16 + b / 16);
       b64_char ((b mod 16) * 4); 61]
  | a :: b :: c :: rest =>
      let a := Byte.to_N a in
      let b := Byte.to_N b in
      let c := Byte.to_N c in
      b64_char (a / 4) :: b64_char ((a mod 4) * 16 + b / 16)
        :: b64_char ((b mod 16) * 4 + c / 64) :: b64_char (c mod 64)
        :: toBase64 rest
  end.

(** TAB, LF, FF, CR and SPACE. *)
Definition is_ascii_whitespace (c : N) : bool :=
  (c =? 9) || (c =? 10) || (c =? 12) || (c =? 13) || (c =? 32).

Fixpoint skip_ws (s : jsstring) : jsstring :=
  match s with
  | c :: rest => if is_ascii_whitespace c then skip_ws rest else s
  | [] => []
  end.

(** The bytes of a chunk of two, three or four sextets; the bits left over
    in a short chunk are dropped. *)
Definition decode_chunk (chunk : list N) : list byte :=
  match chunk with
  | [a; b] => [byte_of_N (a * 4 + b / 16)]
  | [a; b; c] =>
      [byte_of_N (a * 4 + b / 16); byte_of_N ((b mod 16) * 16 + c / 4)]
  | [a; b; c; d] =>
      [byte_of_N (a * 4 + b / 16); byte_of_N ((b mod 16) * 16 + c / 4);
       byte_of_N ((c mod 4) * 64 + d)]
  | _ => []
  end.

(** The decoding loop of [Uint8Array.fromBase64(s)] with its default
    options (standard alphabet, loose handling of the last chunk).  [chunk]
    holds the sextets read since the last complete group; [None] is the
    [SyntaxError] the method throws. *)
Fixpoint fromBase64_loop (chunk : list N) (s : jsstring) : option (list byte) :=
  match s with
  | [] =>
      match chunk with
      | [] => Some []
      | [_] => None
      | _ => Some (decode_chunk chunk)
      end
  | c :: rest =>
      if is_ascii_whitespace c then fromBase64_loop chunk rest
      else if c =? 61 then
        match chunk with
        | [_; _] =>
            match skip_ws rest with
            | c2 :: rest2 =>
                if c2 =? 61 then
                  match skip_ws rest2 with
                  | [] => Some (decode_chunk chunk)
                  | _ :: _ => None
                  end
                else None
            | [] => None
            end
        | [_; _; _] =>
            match skip_ws rest with
            | [] => Some (decode_chunk chunk)
            | _ :: _ => None
            end
        | _ => None
        end
      else
        match b64_value c with
        | None => None
        | Some v =>
            match chunk with
            | [x; y; z] =>
                match fromBase64_loop [] rest with
                | Some bytes => Some (decode_chunk [x; y; z; v] ++ bytes)
                | None => None
                end
            | _ => fromBase64_loop (chunk ++ [v]) rest
            end
        end
  end.

Definition fromBase64 (s : jsstring) : option (list byte) :=
  fromBase64_loop [] s.

End Base64.

(** [s.replace(/c/g, d)] for single characters [c] and [d]. *)
Definition replace_char (c d : N) (s : jsstring) : jsstring :=
  map (fun u => if u =? c then d else u) s.

(** [bytes.toBase64().replace(/\+/g, '-').replace(/\//g, '_')] *)
Definition to_token (bs : list byte) : jsstring :=
  replace_char 47 95 (replace_char 43 45 (Base64.toBase64 bs)).

(** [Uint8Array.fromBase64(s.replace(/-/g, '+').replace(/_/g, '/'))] *)
Definition of_token (s : jsstring) : option (list byte) :=
  Base64.fromBase64 (replace_char 95 47 (replace_char 45 43 s)).

(** The characters of a token: letters, digits, [-], [_] and [=]. *)
Definition is_token_char (c : N) : bool :=
  ((65 <=? c) && (c <=? 90)) || ((97 <=? c) && (c <=? 122))
  || ((48 <=? c) && (c <=? 57)) || (c =? 45) || (c =? 95) || (c =? 61).

(** The characters a URL fragment may hold as they are (RFC 3986):
    unreserved characters, sub-delimiters, [:], [@], [/] and [?]. *)
Definition is_fragment_char (c : N) : bool :=
  ((65 <=? c) && (c <=? 90)) || ((97 <=? c) && (c <=? 122))
  || ((48 <=? c) && (c <=? 57))
  || (c =? 45) || (c =? 46) || (c =? 95) || (c =? 126)
  || (c =? 33) || (c =? 36) || ((38 <=? c) && (c <=? 44)) || (c =? 59) || (c =? 61)
  || (c =? 58) || (c =? 64) || (c =? 47) || (c =? 63).

(** ** Text helpers of the note store *)

Module Text.

(** [\w] of a regular expression without the unicode flag: [A-Za-z0-9_]. *)
Definition is_word_char (c : N) : bool :=
  ((65 <=? c) && (c <=? 90)) || ((97 <=? c) && (c <=? 122))
  || ((48 <=? c) && (c <=? 57)) || (c =? 95).

(** Line terminators, which [.] does not match: LF, CR, U+2028, U+2029. *)
Definition is_line_terminator (c : N) : bool :=
  (c =? 10) || (c =? 13) || (c =? 0x2028) || (c =? 0x2029).

(** White space and line terminators, which [trim] removes. *)
Definition is_js_whitespace (c : N) : bool :=
  (c =? 9) || (c =? 10) || (c =? 11) || (c =? 12) || (c =? 13) || (c =? 32)
  || (c =? 0xA0) || (c =? 0x1680) || ((0x2000 <=? c) && (c <=? 0x200A))
  || (c =? 0x2028) || (c =? 0x2029) || (c =? 0x202F) || (c =? 0x205F)
  || (c =? 0x3000) || (c =? 0xFEFF).

Fixpoint jseqb (s t : jsstring) : bool :=
  match s, t with
  | [], [] => true
  | a :: s', b :: t' => (a =? b) && jseqb s' t'
  | _, _ => false
  end.

Fixpoint starts_with (p s : jsstring) : bool :=
  match p, s with
  | [], _ => true
  | a :: p', b :: s' => (a =? b) && starts_with p' s'
  | _ :: _, [] => false
  end.

(** [content.match(/#(\w+)/g) || []]: the matches from left to right.
    [cur] is the run of word characters read since an open [#]. *)
Fixpoint match_tags_from (cur : option jsstring) (s : jsstring) : list jsstring :=
  let close :=
    match cur with
    | Some (c :: w) => [35 :: c :: w]
    | _ => []
    end in
  match s with
  | [] => close
  | c :: rest =>
      match cur with
      | Some w =>
          if is_word_char c then match_tags_from (Some (w ++ [c])) rest
          else close ++ match_tags_from (if c =? 35 then Some [] else None) rest
      | None => match_tags_from (if c =? 35 then Some [] else None) rest
      end
  end.

Definition match_tags (s : jsstring) : list jsstring := match_tags_from None s.

(** [[...new Set(l)]]: the first occurrence of each element, in order. *)
Fixpoint set_of_list_from (seen l : list jsstring) : list jsstring :=
  match l with
  | [] => []
  | x :: rest =>
      if existsb (jseqb x) seen then set_of_list_from seen rest
      else x :: set_of_list_from (x :: seen) rest
  end.

Definition set_of_list (l : list jsstring) : list jsstring := set_of_list_from [] l.

(** The length of the shortest [.*?p] at the start of [s]: the first
    place where [p] occurs with no line terminator before it. *)
Fixpoint lazy_until (p s : jsstring) : option nat :=
  if starts_with p s then Some (length p)
  else
    match s with
    | c :: rest =>
        if is_line_terminator c then None
        else option_map S (lazy_until p rest)
    | [] => None
    end.

(** The length of a match of
    [/!\[.*?\]\(data:image\/.*?;base64,.*?\)/] at the start of [s]. *)
Definition match_image (s : jsstring) : option nat :=
  if starts_with (js "![") s then
    match lazy_until (js "](data:image/") (drop 2 s) with
    | Some n1 =>
        match lazy_until (js ";base64,") (drop (2 + n1) s) with
        | Some n2 =>
            match lazy_until (js ")") (drop (2 + n1 + n2) s) with
            | Some n3 => Some (2 + n1 + n2 + n3)%nat
            | None => None
            end
        | None => None
        end
    | None => None
    end
  else None.

(** [s.replace(/!\[.*?\]\(data:image\/.*?;base64,.*?\)/g, '')]; [skip] is
    the number of code units of the current match still to be dropped. *)
Fixpoint strip_images_from (skip : nat) (s : jsstring) : jsstring :=
  match s with
  | [] => []
  | c :: rest =>
      match skip with
      | S k => strip_images_from k rest
      | O =>
          match match_image s with
          | Some n => strip_images_from (pred n) rest
          | None => c :: strip_images_from 0 rest
          end
      end
  end.

Definition strip_images (s : jsstring) : jsstring := strip_images_from 0 s.

(** [s.split('\n')[0]] *)
Fixpoint first_line (s : jsstring) : jsstring :=
  match s with
  | [] => []
  | c :: rest => if c =? 10 then [] else c :: first_line rest
  end.

Fixpoint trim_start (s : jsstring) : jsstring :=
  match s with
  | c :: rest => if is_js_whitespace c then trim_start rest else s
  | [] => []
  end.

(** [s.trim()] *)
Definition trim (s : jsstring) : jsstring :=
  rev (trim_start (rev (trim_start s))).

(** [content.split('\n')[0].trim().substring(0, 30)] *)
Definition title_line (content : jsstring) : jsstring :=
  take 30 (trim (first_line content)).

(** [x || d] for a string that may be absent: the empty string is falsy. *)
Definition or_default (o : option jsstring) (d : jsstring) : jsstring :=
  match o with
  | Some (c :: s) => c :: s
  | _ => d
  end.

(** [x || null] for a string that may be absent. *)
Definition or_null (o : option jsstring) : option jsstring :=
  match o with
  | Some (c :: s) => Some (c :: s)
  | _ => None
  end.

(** [x || d] for a number that may be absent: zero is falsy. *)
Definition or_now (o : option N) (d : N) : N :=
  match o with
  | Some 0 | None => d
  | Some n => n
  end.

End Text.

(** ** The platform *)

(** The object a share link carries, as far as [handleUrlParam] reads it:
    the members [c], [d], [t], [ca], [lm], [enc], [salt] and [iv], each
    absent ([None]) or present. *)
Record SharePayload := {
  p_c : option jsstring;
  p_d : option jsstring;
  p_t : option jsstring;
  p_ca : option N;
  p_lm : option N;
  p_enc : bool;
  p_salt : option jsstring;
  p_iv : option jsstring;
}.

(** The browser interfaces the code relies on and that are not written out
    above.  [None] stands for the exception (or rejected promise) of the
    interface. *)
Class Platform := {
  (** the key material of a [CryptoKey] *)
  CryptoKey : Type;
  (** [CompressionStream('deflate-raw')] on the whole input *)
  deflate_raw : list byte -> list byte;
  (** [DecompressionStream('deflate-raw')] on the whole input *)
  inflate_raw : list byte -> option (list byte);
  (** PBKDF2 with SHA-256 giving a 256-bit AES-GCM key: iteration count,
      password bytes, salt *)
  pbkdf2_sha256 : N -> list byte -> list byte -> CryptoKey;
  (** [crypto.subtle.encrypt({name: 'AES-GCM', iv}, key, data)] *)
  aes_gcm_encrypt : CryptoKey -> list byte -> list byte -> option (list byte);
  (** [crypto.subtle.decrypt({name: 'AES-GCM', iv}, key, data)] *)
  aes_gcm_decrypt : CryptoKey -> list byte -> list byte -> option (list byte);
  (** [String.prototype.toLowerCase] *)
  toLowerCase : jsstring -> jsstring;
  (** [JSON.parse] followed by the reads of the members; [None] when either
      throws *)
  JSON_parse : jsstring -> option SharePayload;
}.

(** What the standards of these interfaces guarantee. *)
Class PlatformLaws (P : Platform) : Prop := {
  inflate_deflate : forall b, inflate_raw (deflate_raw b) = Some b;
  gcm_encrypt_iv12 : forall k iv m,
    length iv = 12%nat -> is_Some (aes_gcm_encrypt k iv m);
  gcm_decrypt_encrypt : forall k iv m c,
    aes_gcm_encrypt k iv m = Some c -> aes_gcm_decrypt k iv c = Some m;
}.

Section Codecs.
Context {P : Platform}.

(** ** utils.js: the compression codec *)

Definition compress (string : jsstring) : jsstring :=
  to_token (deflate_raw (Encoding.TextEncoder_encode string)).

Definition decompress (b64 : jsstring) : option jsstring :=
  match of_token b64 with
  | Some byteArray =>
      match inflate_raw byteArray with
      | Some buffer => Some (Encoding.TextDecoder_decode buffer)
      | None => None
      end
  | None => None
  end.

(** ** crypto.js: the encryption codec *)

(** A salt or nonce argument: a string (base64), a byte array, or [null]. *)
Inductive buffer_arg :=
| ArgString (s : jsstring)
| ArgBytes (b : list byte)
| ArgNull.

Definition arg_of_field (o : option jsstring) : buffer_arg :=
  match o with
  | Some s => ArgString s
  | None => ArgNull
  end.

(** [typeof x === 'string' ? Uint8Array.fromBase64(x.replace...) : x], then
    used as a buffer source: [null] is a type error. *)
Definition bytes_of_arg (a : buffer_arg) : option (list byte) :=
  match a with
  | ArgString s => of_token s
  | ArgBytes b => Some b
  | ArgNull => None
  end.

(** [typeof x === 'string' ? x : new Uint8Array(x).toBase64().replace...] *)
Definition token_of_arg (a : buffer_arg) : jsstring :=
  match a with
  | ArgString s => s
  | ArgBytes b => to_token b
  | ArgNull => to_token []
  end.

Definition iterations : N := 100000.

Definition deriveKey (password : jsstring) (salt : buffer_arg) : option CryptoKey :=
  match bytes_of_arg salt with
  | Some saltBytes =>
      Some (pbkdf2_sha256 iterations (Encoding.TextEncoder_encode password) saltBytes)
  | None => None
  end.

Record Encrypted := {
  encryptedData : jsstring;
  enc_salt : jsstring;
  enc_iv : jsstring;
}.

Definition encryptWithKey (text : jsstring) (key : CryptoKey)
    (salt iv : buffer_arg) : option Encrypted :=
  match bytes_of_arg iv with
  | Some ivBytes =>
      match aes_gcm_encrypt key ivBytes (Encoding.TextEncoder_encode text) with
      | Some encrypted =>
          Some {| encryptedData := to_token encrypted;
                  enc_salt := token_of_arg salt;
                  enc_iv := token_of_arg iv |}
      | None => None
      end
  | None => None
  end.

(** [encrypt(text, password)]; [salt] (16 bytes) and [iv] (12 bytes) are
    the values [crypto.getRandomValues] returns to this call. *)
Definition encrypt (text password : jsstring) (salt iv : list byte) : option Encrypted :=
  match deriveKey password (ArgBytes salt) with
  | Some key => encryptWithKey text key (ArgBytes salt) (ArgBytes iv)
  | None => None
  end.

Definition decryptWithKey (encryptedB64 : jsstring) (key : CryptoKey)
    (ivB64 : option jsstring) : option jsstring :=
  match of_token encryptedB64 with
  | Some encrypted =>
      match ivB64 with
      | Some ivs =>
          match of_token ivs with
          | Some iv =>
              match aes_gcm_decrypt key iv encrypted with
              | Some decrypted => Some (Encoding.TextDecoder_decode decrypted)
              | None => None
              end
          | None => None
          end
      | None => None
      end
  | None => None
  end.

Definition decrypt (encryptedB64 password : jsstring) (saltB64 : buffer_arg)
    (ivB64 : option jsstring) : option jsstring :=
  match deriveKey password saltB64 with
  | Some key => decryptWithKey encryptedB64 key ivB64
  | None => None
  end.

(** The searchable form of a text:
    [text.replace(/!\[.*?\]\(data:image\/.*?;base64,.*?\)/g, '').toLowerCase()] *)
Definition searchable (text : jsstring) : jsstring :=
  toLowerCase (Text.strip_images text).

End Codecs.

(** ** notebook-manager.js: the note store *)

Inductive Mode := plain | markdown.

Definition mode_eqb (a b : Mode) : bool :=
  match a, b with
  | plain, plain | markdown, markdown => true
  | _, _ => false
  end.

(** A note of the collection.  [salt] and [iv] are [null] or strings,
    [searchableContent] may be absent. *)
Module Note.

Record t := {
  id : jsstring;
  title : jsstring;
  content : jsstring;
  mode : Mode;
  dir : jsstring;
  paperTheme : jsstring;
  createdAt : N;
  lastModified : N;
  encrypted : bool;
  salt : option jsstring;
  iv : option jsstring;
  pinned : bool;
  tags : list jsstring;
  searchableContent : option jsstring;
}.

Definition set_title (v : jsstring) (n : t) : t :=
  {| id := id n; title := v; content := content n; mode := mode n;
     dir := dir n; paperTheme := paperTheme n; createdAt := createdAt n;
     lastModified := lastModified n; encrypted := encrypted n;
     salt := salt n; iv := iv n; pinned := pinned n; tags := tags n;
     searchableContent := searchableContent n |}.

Definition set_content (v : jsstring) (n : t) : t :=
  {| id := id n; title := title n; content := v; mode := mode n;
     dir := dir n; paperTheme := paperTheme n; createdAt := createdAt n;
     lastModified := lastModified n; encrypted := encrypted n;
     salt := salt n; iv := iv n; pinned := pinned n; tags := tags n;
     searchableContent := searchableContent n |}.

Definition set_dir (v : jsstring) (n : t) : t :=
  {| id := id n; title := title n; content := content n; mode := mode n;
     dir := v; paperTheme := paperTheme n; createdAt := createdAt n;
     lastModified := lastModified n; encrypted := encrypted n;
     salt := salt n; iv := iv n; pinned := pinned n; tags := tags n;
     searchableContent := searchableContent n |}.

Definition set_paperTheme (v : jsstring) (n : t) : t :=
  {| id := id n; title := title n; content := content n; mode := mode n;
     dir := dir n; paperTheme := v; createdAt := createdAt n;
     lastModified := lastModified n; encrypted := encrypted n;
     salt := salt n; iv := iv n; pinned := pinned n; tags := tags n;
     searchableContent := searchableContent n |}.

Definition set_createdAt (v : N) (n : t) : t :=
  {| id := id n; title := title n; content := content n; mode := mode n;
     dir := dir n; paperTheme := paperTheme n; createdAt := v;
     lastModified := lastModified n; encrypted := encrypted n;
     salt := salt n; iv := iv n; pinned := pinned n; tags := tags n;
     searchableContent := searchableContent n |}.

Definition set_lastModified (v : N) (n : t) : t :=
  {| id := id n; title := title n; content := content n; mode := mode n;
     dir := dir n; paperTheme := paperTheme n; createdAt := createdAt n;
     lastModified := v; encrypted := encrypted n; salt := salt n; iv := iv n;
     pinned := pinned n; tags := tags n;
     searchableContent := searchableContent n |}.

Definition set_encrypted (v : bool) (n : t) : t :=
  {| id := id n; title := title n; content := content n; mode := mode n;
     dir := dir n; paperTheme := paperTheme n; createdAt := createdAt n;
     lastModified := lastModified n; encrypted := v; salt := salt n;
     iv := iv n; pinned := pinned n; tags := tags n;
     searchableContent := searchableContent n |}.

Definition set_salt (v : option jsstring) (n : t) : t :=
  {| id := id n; title := title n; content := content n; mode := mode n;
     dir := dir n; paperTheme := paperTheme n; createdAt := createdAt n;
     lastModified := lastModified n; encrypted := encrypted n; salt := v;
     iv := iv n; pinned := pinned n; tags := tags n;
     searchableContent := searchableContent n |}.

Definition set_iv (v : option jsstring) (n : t) : t :=
  {| id := id n; title := title n; content := content n; mode := mode n;
     dir := dir n; paperTheme := paperTheme n; createdAt := createdAt n;
     lastModified := lastModified n; encrypted := encrypted n;
     salt := salt n; iv := v; pinned := pinned n; tags := tags n;
     searchableContent := searchableContent n |}.

Definition set_tags (v : list jsstring) (n : t) : t :=
  {| id := id n; title := title n; content := content n; mode := mode n;
     dir := dir n; paperTheme := paperTheme n; createdAt := createdAt n;
     lastModified := lastModified n; encrypted := encrypted n;
     salt := salt n; iv := iv n; pinned := pinned n; tags := v;
     searchableContent := searchableContent n |}.

Definition set_searchableContent (v : option jsstring) (n : t) : t :=
  {| id := id n; title := title n; content := content n; mode := mode n;
     dir := dir n; paperTheme := paperTheme n; createdAt := createdAt n;
     lastModified := lastModified n; encrypted := encrypted n;
     salt := salt n; iv := iv n; pinned := pinned n; tags := tags n;
     searchableContent := v |}.

End Note.

(** The value of the [contenteditable] attribute of the editing surface. *)
Inductive ContentEditable := ce_false | ce_plaintext_only | ce_inherit.

(** What the user is shown outside the page: console messages and alerts. *)
Inductive Event :=
| console_warn (message : string)
| console_error (message : string)
| alert (message : string).

Section Manager.
Context {P : Platform}.

(** The manager object together with what it reads and writes in the
    browser: the two keys of [localStorage], the editing surface
    [window.article], the document title, the URL fragment, the three
    modals and the messages shown.  [encryptions] is a ghost field: the
    key and nonce of every call of [crypto.subtle.encrypt], oldest first. *)
Record State := {
  notebooks : list Note.t;
  activeId : option jsstring;
  mode : Mode;
  pendingId : option jsstring;
  paperTheme : jsstring;
  direction : jsstring;
  sessionKeys : gmap jsstring CryptoKey;
  storedNotebooks : list Note.t;
  storedActiveId : option jsstring;
  innerText : jsstring;
  contentEditable : ContentEditable;
  documentTitle : jsstring;
  locationHash : jsstring;
  lockModal : bool;
  unlockModal : bool;
  deleteModal : bool;
  events : list Event;
  encryptions : list (CryptoKey * list byte);
}.

Definition set_notebooks (v : list Note.t) (w : State) : State :=
  {| notebooks := v; activeId := activeId w; mode := mode w;
     pendingId := pendingId w; paperTheme := paperTheme w;
     direction := direction w; sessionKeys := sessionKeys w;
     storedNotebooks := storedNotebooks w;
     storedActiveId := storedActiveId w; innerText := innerText w;
     contentEditable := contentEditable w; documentTitle := documentTitle w;
     locationHash := locationHash w; lockModal := lockModal w;
     unlockModal := unlockModal w; deleteModal := deleteModal w;
     events := events w; encryptions := encryptions w |}.

Definition set_activeId (v : option jsstring) (w : State) : State :=
  {| notebooks := notebooks w; activeId := v; mode := mode w;
     pendingId := pendingId w; paperTheme := paperTheme w;
     direction := direction w; sessionKeys := sessionKeys w;
     storedNotebooks := storedNotebooks w;
     storedActiveId := storedActiveId w; innerText := innerText w;
     contentEditable := contentEditable w; documentTitle := documentTitle w;
     locationHash := locationHash w; lockModal := lockModal w;
     unlockModal := unlockModal w; deleteModal := deleteModal w;
     events := events w; encryptions := encryptions w |}.

Definition set_pendingId (v : option jsstring) (w : State) : State :=
  {| notebooks := notebooks w; activeId := activeId w; mode := mode w;
     pendingId := v; paperTheme := paperTheme w; direction := direction w;
     sessionKeys := sessionKeys w; storedNotebooks := storedNotebooks w;
     storedActiveId := storedActiveId w; innerText := innerText w;
     contentEditable := contentEditable w; documentTitle := documentTitle w;
     locationHash := locationHash w; lockModal := lockModal w;
     unlockModal := unlockModal w; deleteModal := deleteModal w;
     events := events w; encryptions := encryptions w |}.

Definition set_paperTheme (v : jsstring) (w : State) : State :=
  {| notebooks := notebooks w; activeId := activeId w; mode := mode w;
     pendingId := pendingId w; paperTheme := v; direction := direction w;
     sessionKeys := sessionKeys w; storedNotebooks := storedNotebooks w;
     storedActiveId := storedActiveId w; innerText := innerText w;
     contentEditable := contentEditable w; documentTitle := documentTitle w;
     locationHash := locationHash w; lockModal := lockModal w;
     unlockModal := unlockModal w; deleteModal := deleteModal w;
     events := events w; encryptions := encryptions w |}.

Definition set_direction (v : jsstring) (w : State) : State :=
  {| notebooks := notebooks w; activeId := activeId w; mode := mode w;
     pendingId := pendingId w; paperTheme := paperTheme w; direction := v;
     sessionKeys := sessionKeys w; storedNotebooks := storedNotebooks w;
     storedActiveId := storedActiveId w; innerText := innerText w;
     contentEditable := contentEditable w; documentTitle := documentTitle w;
     locationHash := locationHash w; lockModal := lockModal w;
     unlockModal := unlockModal w; deleteModal := deleteModal w;
     events := events w; encryptions := encryptions w |}.

Definition set_sessionKeys (v : gmap jsstring CryptoKey) (w : State) : State :=
  {| notebooks := notebooks w; activeId := activeId w; mode := mode w;
     pendingId := pendingId w; paperTheme := paperTheme w;
     direction := direction w; sessionKeys := v;
     storedNotebooks := storedNotebooks w;
     storedActiveId := storedActiveId w; innerText := innerText w;
     contentEditable := contentEditable w; documentTitle := documentTitle w;
     locationHash := locationHash w; lockModal := lockModal w;
     unlockModal := unlockModal w; deleteModal := deleteModal w;
     events := events w; encryptions := encryptions w |}.

Definition set_storedNotebooks (v : list Note.t) (w : State) : State :=
  {| notebooks := notebooks w; activeId := activeId w; mode := mode w;
     pendingId := pendingId w; paperTheme := paperTheme w;
     direction := direction w; sessionKeys := sessionKeys w;
     storedNotebooks := v; storedActiveId := storedActiveId w;
     innerText := innerText w; contentEditable := contentEditable w;
     documentTitle := documentTitle w; locationHash := locationHash w;
     lockModal := lockModal w; unlockModal := unlockModal w;
     deleteModal := deleteModal w; events := events w;
     encryptions := encryptions w |}.

Definition set_storedActiveId (v : option jsstring) (w : State) : State :=
  {| notebooks := notebooks w; activeId := activeId w; mode := mode w;
     pendingId := pendingId w; paperTheme := paperTheme w;
     direction := direction w; sessionKeys := sessionKeys w;
     storedNotebooks := storedNotebooks w; storedActiveId := v;
     innerText := innerText w; contentEditable := contentEditable w;
     documentTitle := documentTitle w; locationHash := locationHash w;
     lockModal := lockModal w; unlockModal := unlockModal w;
     deleteModal := deleteModal w; events := events w;
     encryptions := encryptions w |}.

Definition set_innerText (v : jsstring) (w : State) : State :=
  {| notebooks := notebooks w; activeId := activeId w; mode := mode w;
     pendingId := pendingId w; paperTheme := paperTheme w;
     direction := direction w; sessionKeys := sessionKeys w;
     storedNotebooks := storedNotebooks w;
     storedActiveId := storedActiveId w; innerText := v;
     contentEditable := contentEditable w; documentTitle := documentTitle w;
     locationHash := locationHash w; lockModal := lockModal w;
     unlockModal := unlockModal w; deleteModal := deleteModal w;
     events := events w; encryptions := encryptions w |}.

Definition set_contentEditable (v : ContentEditable) (w : State) : State :=
  {| notebooks := notebooks w; activeId := activeId w; mode := mode w;
     pendingId := pendingId w; paperTheme := paperTheme w;
     direction := direction w; sessionKeys := sessionKeys w;
     storedNotebooks := storedNotebooks w;
     storedActiveId := storedActiveId w; innerText := innerText w;
     contentEditable := v; documentTitle := documentTitle w;
     locationHash := locationHash w; lockModal := lockModal w;
     unlockModal := unlockModal w; deleteModal := deleteModal w;
     events := events w; encryptions := encryptions w |}.

Definition set_documentTitle (v : jsstring) (w : State) : State :=
  {| notebooks := notebooks w; activeId := activeId w; mode := mode w;
     pendingId := pendingId w; paperTheme := paperTheme w;
     direction := direction w; sessionKeys := sessionKeys w;
     storedNotebooks := storedNotebooks w;
     storedActiveId := storedActiveId w; innerText := innerText w;
     contentEditable := contentEditable w; documentTitle := v;
     locationHash := locationHash w; lockModal := lockModal w;
     unlockModal := unlockModal w; deleteModal := deleteModal w;
     events := events w; encryptions := encryptions w |}.

Definition set_locationHash (v : jsstring) (w : State) : State :=
  {| notebooks := notebooks w; activeId := activeId w; mode := mode w;
     pendingId := pendingId w; paperTheme := paperTheme w;
     direction := direction w; sessionKeys := sessionKeys w;
     storedNotebooks := storedNotebooks w;
     storedActiveId := storedActiveId w; innerText := innerText w;
     contentEditable := contentEditable w; documentTitle := documentTitle w;
     locationHash := v; lockModal := lockModal w;
     unlockModal := unlockModal w; deleteModal := deleteModal w;
     events := events w; encryptions := encryptions w |}.

Definition set_lockModal (v : bool) (w : State) : State :=
  {| notebooks := notebooks w; activeId := activeId w; mode := mode w;
     pendingId := pendingId w; paperTheme := paperTheme w;
     direction := direction w; sessionKeys := sessionKeys w;
     storedNotebooks := storedNotebooks w;
     storedActiveId := storedActiveId w; innerText := innerText w;
     contentEditable := contentEditable w; documentTitle := documentTitle w;
     locationHash := locationHash w; lockModal := v;
     unlockModal := unlockModal w; deleteModal := deleteModal w;
     events := events w; encryptions := encryptions w |}.

Definition set_unlockModal (v : bool) (w : State) : State :=
  {| notebooks := notebooks w; activeId := activeId w; mode := mode w;
     pendingId := pendingId w; paperTheme := paperTheme w;
     direction := direction w; sessionKeys := sessionKeys w;
     storedNotebooks := storedNotebooks w;
     storedActiveId := storedActiveId w; innerText := innerText w;
     contentEditable := contentEditable w; documentTitle := documentTitle w;
     locationHash := locationHash w; lockModal := lockModal w;
     unlockModal := v; deleteModal := deleteModal w; events := events w;
     encryptions := encryptions w |}.

Definition set_deleteModal (v : bool) (w : State) : State :=
  {| notebooks := notebooks w; activeId := activeId w; mode := mode w;
     pendingId := pendingId w; paperTheme := paperTheme w;
     direction := direction w; sessionKeys := sessionKeys w;
     storedNotebooks := storedNotebooks w;
     storedActiveId := storedActiveId w; innerText := innerText w;
     contentEditable := contentEditable w; documentTitle := documentTitle w;
     locationHash := locationHash w; lockModal := lockModal w;
     unlockModal := unlockModal w; deleteModal := v; events := events w;
     encryptions := encryptions w |}.

Definition set_events (v : list Event) (w : State) : State :=
  {| notebooks := notebooks w; activeId := activeId w; mode := mode w;
     pendingId := pendingId w; paperTheme := paperTheme w;
     direction := direction w; sessionKeys := sessionKeys w;
     storedNotebooks := storedNotebooks w;
     storedActiveId := storedActiveId w; innerText := innerText w;
     contentEditable := contentEditable w; documentTitle := documentTitle w;
     locationHash := locationHash w; lockModal := lockModal w;
     unlockModal := unlockModal w; deleteModal := deleteModal w; events := v;
     encryptions := encryptions w |}.

Definition set_encryptions (v : list (CryptoKey * list byte)) (w : State) : State :=
  {| notebooks := notebooks w; activeId := activeId w; mode := mode w;
     pendingId := pendingId w; paperTheme := paperTheme w;
     direction := direction w; sessionKeys := sessionKeys w;
     storedNotebooks := storedNotebooks w;
     storedActiveId := storedActiveId w; innerText := innerText w;
     contentEditable := contentEditable w; documentTitle := documentTitle w;
     locationHash := locationHash w; lockModal := lockModal w;
     unlockModal := unlockModal w; deleteModal := deleteModal w;
     events := events w; encryptions := v |}.

Definition log (e : Event) (w : State) : State :=
  set_events (events w ++ [e]) w.

(** [n.id === x] for a value [x] that is a string or [null]. *)
Definition has_id (x : option jsstring) (n : Note.t) : bool :=
  match x with
  | Some i => Text.jseqb (Note.id n) i
  | None => false
  end.

(** [x === y] for values that are strings or [null]. *)
Definition same_id (x y : option jsstring) : bool :=
  match x, y with
  | Some i, Some j => Text.jseqb i j
  | None, None => true
  | _, _ => false
  end.

(** [!x] for a value [x] that is a string or [null]. *)
Definition falsy (x : option jsstring) : bool :=
  match x with
  | Some (_ :: _) => false
  | _ => true
  end.

(** [notebooks.find(p)]: the first note that satisfies [p], with its place
    in the array.  Notes are objects: what the caller then writes to the
    note it found is a write at that place. *)
Fixpoint find_from (p : Note.t -> bool) (i : nat) (l : list Note.t)
  : option (nat * Note.t) :=
  match l with
  | [] => None
  | n :: rest => if p n then Some (i, n) else find_from p (S i) rest
  end.

Definition find (p : Note.t -> bool) (l : list Note.t) : option (nat * Note.t) :=
  find_from p 0 l.

Definition saveState (w : State) : State :=
  set_storedActiveId
    (Some (match activeId w with Some i => i | None => js "null" end))
    (set_storedNotebooks (notebooks w) w).

Definition updateDocumentTitle (title : jsstring) (w : State) : State :=
  set_documentTitle (title ++ js " | Portfolio Notebook") w.

(** [addNotebook(title, content, mode)]; [id] is the value of
    [crypto.randomUUID()] and [now] that of [Date.now()].  The note it
    returns is the last one of the collection. *)
Definition new_notebook (id : jsstring) (now : N) (title content : jsstring)
    (mode : Mode) (w : State) : Note.t :=
  {| Note.id := id; Note.title := title; Note.content := content;
     Note.mode := mode; Note.dir := js "ltr";
     Note.paperTheme := Text.or_default (Some (paperTheme w)) (js "classic");
     Note.createdAt := now; Note.lastModified := now;
     Note.encrypted := false; Note.salt := None; Note.iv := None;
     Note.pinned := false; Note.tags := []; Note.searchableContent := None |}.

Definition addNotebook (id : jsstring) (now : N) (title content : jsstring)
    (mode : Mode) (w : State) : State :=
  saveState
    (set_notebooks (notebooks w ++ [new_notebook id now title content mode w]) w).

Definition in_mode (m : Mode) (n : Note.t) : bool := mode_eqb (Note.mode n) m.

Definition ensureActiveNote (id : jsstring) (now : N) (w : State) : State :=
  let filteredNotebooks := List.filter (in_mode (mode w)) (notebooks w) in
  saveState
    match filteredNotebooks with
    | [] =>
        set_activeId (Some id)
          (addNotebook id now (js "Untitled Note") [] (mode w) w)
    | _ :: _ =>
        if falsy (activeId w)
           || negb (existsb (fun n => has_id (activeId w) n && in_mode (mode w) n)
                      (notebooks w))
        then
          match last (List.filter (in_mode (mode w)) (notebooks w)) with
          | Some n => set_activeId (Some (Note.id n)) w
          | None => w
          end
        else w
    end.

Definition openUnlockModal (id : option jsstring) (w : State) : State :=
  set_unlockModal true (set_pendingId id w).

Definition closeUnlockModal (w : State) : State :=
  set_pendingId None (set_unlockModal false w).

Definition closeLockModal (w : State) : State :=
  set_pendingId None (set_lockModal false w).

Definition locked_text : jsstring :=
  js "This note is encrypted. Please unlock it to view its content.".

(** [loadActiveNote()].  The [input] event that [applyDirection] sends
    to the editing surface starts the timer of the autosave; the save
    itself is the separate step [saveAction]. *)
Definition loadActiveNote (w : State) : State :=
  match find (has_id (activeId w)) (notebooks w) with
  | None => w
  | Some (_, note) =>
      let shown :=
        if Note.encrypted note then
          Some (openUnlockModal (Some (Note.id note))
                  (set_contentEditable ce_false (set_innerText locked_text w)))
        else
          match Note.content note with
          | [] => Some (set_contentEditable ce_plaintext_only (set_innerText [] w))
          | _ :: _ =>
              match decompress (Note.content note) with
              | Some text =>
                  Some (set_contentEditable ce_plaintext_only (set_innerText text w))
              | None => None
              end
          end in
      match shown with
      | Some w1 =>
          set_direction (Text.or_default (Some (Note.dir note)) (js "ltr"))
            (set_paperTheme
               (Text.or_default (Some (Note.paperTheme note)) (js "classic"))
               (updateDocumentTitle (Note.title note) w1))
      | None => log (console_error "Failed to load note") w
      end
  end.

(** What [handleUrlParam] recovers from a fragment. *)
Record Recovered := {
  r_content : jsstring;
  r_dir : jsstring;
  r_theme : jsstring;
  r_created : N;
  r_modified : N;
  r_encrypted : bool;
  r_salt : option jsstring;
  r_iv : option jsstring;
}.

(** The inner [try] of [handleUrlParam]: the members of the parsed object
    with their defaults, or the text itself as the content of an old
    link. *)
Definition recover (decompressed : jsstring) (now : N) : Recovered :=
  match JSON_parse decompressed with
  | Some data =>
      {| r_content := default [] (p_c data);
         r_dir := Text.or_default (p_d data) (js "ltr");
         r_theme := Text.or_default (p_t data) (js "classic");
         r_created := Text.or_now (p_ca data) now;
         r_modified := Text.or_now (p_lm data) now;
         r_encrypted := p_enc data;
         r_salt := Text.or_null (p_salt data);
         r_iv := Text.or_null (p_iv data) |}
  | None =>
      {| r_content := decompressed; r_dir := js "ltr"; r_theme := js "classic";
         r_created := now; r_modified := now; r_encrypted := false;
         r_salt := None; r_iv := None |}
  end.

Definition import_fields (r : Recovered) (n : Note.t) : Note.t :=
  Note.set_iv (r_iv r)
    (Note.set_salt (r_salt r)
       (Note.set_encrypted (r_encrypted r)
          (Note.set_lastModified (r_modified r)
             (Note.set_createdAt (r_created r)
                (Note.set_paperTheme (r_theme r)
                   (Note.set_dir (r_dir r) n)))))).

(** [handleUrlParam()]; [locationHash] is the fragment without its [#]. *)
Definition handleUrlParam (id : jsstring) (now : N) (w : State) : State :=
  let hash := locationHash w in
  if (20 <? length hash)%nat then
    match decompress hash with
    | None => log (console_error "Failed to import from URL") w
    | Some decompressed =>
        let r := recover decompressed now in
        let w1 :=
          match find (fun n => Text.jseqb (Note.content n) hash) (notebooks w) with
          | Some (_, existing) => set_activeId (Some (Note.id existing)) w
          | None =>
              let w' := addNotebook id now (js "Shared Note") (r_content r) (mode w) w in
              set_activeId (Some id)
                (set_notebooks
                   (alter (import_fields r) (length (notebooks w)) (notebooks w'))
                   w')
          end in
        let w2 := set_locationHash [] (saveState w1) in
        if r_encrypted r then openUnlockModal (activeId w2) w2 else w2
    end
  else w.

(** The tags after a save: the tags of the note, then those of the
    content, each once. *)
Definition merged_tags (currentTags : list jsstring) (content : jsstring)
  : list jsstring :=
  let contentTags :=
    map (fun t => toLowerCase (drop 1 t)) (Text.set_of_list (Text.match_tags content)) in
  Text.set_of_list (currentTags ++ contentTags).

Definition is_default_title (title : jsstring) : bool :=
  Text.jseqb title (js "Untitled Note") || Text.jseqb title (js "Shared Note").

(** The title after a save. *)
Definition auto_title (title content : jsstring) : jsstring :=
  if is_default_title title then
    let firstLine := Text.title_line content in
    if (2 <? length firstLine)%nat then firstLine else title
  else title.

Definition missing_key_warning : string :=
  "Attempted to save encrypted note without session key. Aborting save to prevent corruption.".

(** The nonce a call of [crypto.subtle.encrypt] uses with its key, for the
    ghost field [encryptions]. *)
Definition used_nonce (key : option CryptoKey) (iv : buffer_arg)
  : list (CryptoKey * list byte) :=
  match key, bytes_of_arg iv with
  | Some k, Some ivBytes => [(k, ivBytes)]
  | _, _ => []
  end.

(** The second half of the autosave, from [note.lastModified = Date.now()]
    on, for the note at place [i] whose new content is [data]. *)
Definition finish_save (now : N) (i : nat) (note : Note.t) (data : jsstring)
    (w : State) : State :=
  let content := innerText w in
  let note' :=
    Note.set_title (auto_title (Note.title note) content)
      (Note.set_searchableContent (Some (searchable content))
         (Note.set_tags (merged_tags (Note.tags note) content)
            (Note.set_lastModified now (Note.set_content data note)))) in
  let w1 := set_notebooks (<[i := note']> (notebooks w)) w in
  saveState
    (if is_default_title (Note.title note)
        && (2 <? length (Text.title_line content))%nat
     then updateDocumentTitle (Note.title note') w1
     else w1).

(** The body of the function that [setupAutoSave] attaches to the editing
    surface, run when its timer fires; [now] is the value of [Date.now()].
    A rejected [encryptWithKey] ends the function where it stands. *)
Definition saveAction (now : N) (w : State) : State :=
  let content := innerText w in
  match find (has_id (activeId w)) (notebooks w) with
  | None => w
  | Some (i, note) =>
      match contentEditable w with
      | ce_false => w
      | _ =>
          if Note.encrypted note then
            match sessionKeys w !! Note.id note with
            | Some key =>
                let salt := arg_of_field (Note.salt note) in
                let iv := arg_of_field (Note.iv note) in
                match encryptWithKey content key salt iv with
                | Some e =>
                    finish_save now i note (encryptedData e)
                      (set_encryptions (encryptions w ++ used_nonce (Some key) iv) w)
                | None => w
                end
            | None => log (console_warn missing_key_warning) w
            end
          else finish_save now i note (compress content) w
      end
  end.

(** [confirmDelete()]; [id] and [now] are used when a note is created. *)
Definition confirmDelete (id : jsstring) (now : N) (w : State) : State :=
  if falsy (pendingId w) then w
  else
    let w1 :=
      set_notebooks
        (List.filter (fun n => negb (has_id (pendingId w) n)) (notebooks w)) w in
    let w2 :=
      if same_id (activeId w1) (pendingId w1) then
        loadActiveNote (ensureActiveNote id now (set_activeId None w1))
      else saveState w1 in
    set_pendingId None (set_deleteModal false w2).

Definition encryption_failed (w : State) : State :=
  log (alert "Failed to encrypt note.") (log (console_error "Encryption failed") w).

(** [confirmLock()]; [password] is the value of the input of the modal,
    [salt] and [iv] the random values [CryptoUtils.encrypt] draws, [now]
    the value of [Date.now()]. *)
Definition confirmLock (password : jsstring) (salt iv : list byte) (now : N)
    (w : State) : State :=
  match password with
  | [] => w
  | _ :: _ =>
      match find (has_id (pendingId w)) (notebooks w) with
      | None => w
      | Some (i, note) =>
          let contentToEncrypt :=
            if Note.encrypted note then decompress (Note.content note)
            else Some (innerText w) in
          match contentToEncrypt with
          | None => encryption_failed w
          | Some text =>
              match encrypt text password salt iv with
              | None => encryption_failed w
              | Some e =>
                  let note' :=
                    Note.set_searchableContent (Some [])
                      (Note.set_lastModified now
                         (Note.set_encrypted true
                            (Note.set_iv (Some (enc_iv e))
                               (Note.set_salt (Some (enc_salt e))
                                  (Note.set_content (encryptedData e) note))))) in
                  let w1 :=
                    set_encryptions
                      (encryptions w
                       ++ used_nonce (deriveKey password (ArgBytes salt)) (ArgBytes iv))
                      (set_notebooks (<[i := note']> (notebooks w)) w) in
                  match deriveKey password (ArgString (enc_salt e)) with
                  | None => encryption_failed w1
                  | Some key =>
                      let w2 :=
                        closeLockModal
                          (saveState
                             (set_sessionKeys
                                (<[Note.id note := key]> (sessionKeys w1)) w1)) in
                      if has_id (activeId w2) note then
                        set_contentEditable ce_false (set_innerText locked_text w2)
                      else w2
                  end
              end
          end
      end
  end.

Definition rescue_warning : string :=
  "Note appears to be corrupted by auto-save bug. Rescuing content...".

Definition rescue_success : string :=
  "Success! Your note was recovered and re-secured. (It was affected by a minor sync bug that has now been fixed).".

Definition incorrect_password (w : State) : State :=
  log (alert "Incorrect password!") w.

(** The first attempt of [confirmUnlock]: the key of the password and the
    text it decrypts, or [None] when anything in it throws. *)
Definition try_decrypt (password : jsstring) (note : Note.t)
  : option (CryptoKey * jsstring) :=
  match deriveKey password (arg_of_field (Note.salt note)) with
  | Some key =>
      match decryptWithKey (Note.content note) key (Note.iv note) with
      | Some decrypted => Some (key, decrypted)
      | None => None
      end
  | None => None
  end.

(** The second attempt of [confirmUnlock], for the note at place [i] whose
    content decompressed to the non-empty text [decompressed]. *)
Definition rescue (password : jsstring) (salt iv : list byte) (i : nat)
    (note : Note.t) (decompressed : jsstring) (w : State) : State :=
  let w := log (console_warn rescue_warning) w in
  if has_id (activeId w) note then
    let w1 := set_contentEditable ce_plaintext_only (set_innerText decompressed w) in
    match encrypt decompressed password salt iv with
    | None => incorrect_password w1
    | Some e =>
        let note' :=
          Note.set_searchableContent (Some [])
            (Note.set_iv (Some (enc_iv e))
               (Note.set_salt (Some (enc_salt e))
                  (Note.set_content (encryptedData e) note))) in
        let w2 :=
          saveState
            (set_encryptions
               (encryptions w1
                ++ used_nonce (deriveKey password (ArgBytes salt)) (ArgBytes iv))
               (set_notebooks (<[i := note']> (notebooks w1)) w1)) in
        match deriveKey password (ArgString (enc_salt e)) with
        | None => incorrect_password w2
        | Some newKey =>
            log (alert rescue_success)
              (closeUnlockModal
                 (set_sessionKeys (<[Note.id note := newKey]> (sessionKeys w2)) w2))
        end
    end
  else log (alert rescue_success) (closeUnlockModal w).

(** [confirmUnlock()]; [password] is the value of the input of the modal,
    [salt] and [iv] the random values the rescue draws when it
    encrypts. *)
Definition confirmUnlock (password : jsstring) (salt iv : list byte)
    (w : State) : State :=
  match password with
  | [] => w
  | _ :: _ =>
      match find (has_id (pendingId w)) (notebooks w) with
      | None => w
      | Some (i, note) =>
          match try_decrypt password note with
          | Some (key, decrypted) =>
              let w1 :=
                set_sessionKeys (<[Note.id note := key]> (sessionKeys w)) w in
              let w2 :=
                if has_id (activeId w1) note then
                  set_contentEditable ce_plaintext_only (set_innerText decrypted w1)
                else w1 in
              let note' :=
                Note.set_searchableContent (Some (searchable decrypted)) note in
              closeUnlockModal
                (saveState (set_notebooks (<[i := note']> (notebooks w2)) w2))
          | None =>
              match decompress (Note.content note) with
              | Some (c :: text) => rescue password salt iv i note (c :: text) w
              | _ => incorrect_password w
              end
          end
      end
  end.

(** One turn of the loop of [rebuildSearchIndex]: the note afterwards and
    the message when its content does not decompress. *)
Definition reindex (note : Note.t) : Note.t * list Event :=
  if negb (Note.encrypted note)
     && match Note.searchableContent note with Some (_ :: _) => false | _ => true end
     && match Note.content note with [] => false | _ :: _ => true end
  then
    match decompress (Note.content note) with
    | Some decompressed =>
        (Note.set_searchableContent (Some (searchable decompressed)) note, [])
    | None => (note, [console_error "Failed to rebuild search index for note"])
    end
  else (note, []).

Definition rebuildSearchIndex (w : State) : State :=
  saveState
    (set_events (events w ++ flat_map (fun n => snd (reindex n)) (notebooks w))
       (set_notebooks (map (fun n => fst (reindex n)) (notebooks w)) w)).

End Manager.

(** ** Notions the properties are stated with *)

(** A Unicode scalar value. *)
Definition is_scalar (c : N) : Prop := c < 0x110000 /\ ~ (0xD800 <= c <= 0xDFFF).

(** The characters of [toBase64]: the standard alphabet and the padding. *)
Definition is_base64_char (c : N) : bool :=
  ((65 <=? c) && (c <=? 90)) || ((97 <=? c) && (c <=? 122))
  || ((48 <=? c) && (c <=? 57)) || (c =? 43) || (c =? 47) || (c =? 61).

(** The search cache of a note is empty or absent. *)
Definition searchable_empty (n : Note.t) : bool :=
  match Note.searchableContent n with
  | Some (_ :: _) => false
  | _ => true
  end.


Section Notions.
Context {P : Platform}.


(** The note an autosave writes. *)
Definition saved_note (now : N) (content data : jsstring) (note : Note.t) : Note.t :=
  Note.set_title (auto_title (Note.title note) content)
    (Note.set_searchableContent (Some (searchable content))
       (Note.set_tags (merged_tags (Note.tags note) content)
          (Note.set_lastModified now (Note.set_content data note)))).

(** The autosave is carried out for the active note [note]: the note is
    not encrypted, or its session key is there and the encryption is
    done. *)
Definition save_proceeds (w : State) (note : Note.t) : Prop :=
  Note.encrypted note = false
  \/ exists key,
       sessionKeys w !! Note.id note = Some key
       /\ is_Some (encryptWithKey (innerText w) key (arg_of_field (Note.salt note))
                     (arg_of_field (Note.iv note))).

End Notions.

(** ** A platform to run scenarios on

    A small executable platform that keeps the laws of [PlatformLaws]; it
    stands in for the browser where a scenario is evaluated.  Its cipher
    only prefixes the text with the key and the nonce: it is no
    cryptography. *)

Module Demo.

Fixpoint strip_prefix (p l : list byte) : option (list byte) :=
  match p, l with
  | [], _ => Some l
  | a :: p', b :: l' => if Byte.eqb a b then strip_prefix p' l' else None
  | _ :: _, [] => None
  end.

Definition deflate (b : list byte) : list byte := Byte.x78 :: b.

Definition inflate (b : list byte) : option (list byte) :=
  match b with
  | Byte.x78 :: rest => Some rest
  | _ => None
  end.

Definition pbkdf2 (n : N) (password salt : list byte) : list byte :=
  password ++ Byte.x00 :: salt.

Definition gcm_encrypt (key iv data : list byte) : option (list byte) :=
  Some (key ++ iv ++ data).

Definition gcm_decrypt (key iv data : list byte) : option (list byte) :=
  strip_prefix (key ++ iv) data.

Definition lower (s : jsstring) : jsstring :=
  map (fun c => if (65 <=? c) && (c <=? 90) then c + 32 else c) s.

(** The text between the opening [{"c":"] and the closing ["}]. *)
Fixpoint parse_body (s : jsstring) : option jsstring :=
  match s with
  | [] => None
  | c :: rest =>
      if c =? 34 then
        match rest with
        | [125] => Some []
        | _ => None
        end
      else option_map (cons c) (parse_body rest)
  end.

(** Parses objects of the one shape [{"c":"..."}]. *)
Definition parse (s : jsstring) : option SharePayload :=
  match s with
  | 123 :: 34 :: 99 :: 34 :: 58 :: 34 :: body =>
      match parse_body body with
      | Some c =>
          Some {| p_c := Some c; p_d := None; p_t := None; p_ca := None;
                  p_lm := None; p_enc := false; p_salt := None; p_iv := None |}
      | None => None
      end
  | _ => None
  end.

#[local] Instance platform : Platform := {|
  CryptoKey := list byte;
  deflate_raw := deflate;
  inflate_raw := inflate;
  pbkdf2_sha256 := pbkdf2;
  aes_gcm_encrypt := gcm_encrypt;
  aes_gcm_decrypt := gcm_decrypt;
  toLowerCase := lower;
  JSON_parse := parse;
|}.

Definition salt1 : list byte := repeat Byte.x01 16.
Definition iv1 : list byte := repeat Byte.x02 12.
Definition salt2 : list byte := repeat Byte.x03 16.
Definition iv2 : list byte := repeat Byte.x04 12.

(** A plain note with the text [hello], as an autosave stores it. *)
Definition note1 : Note.t :=
  {| Note.id := js "n1"; Note.title := js "Untitled Note";
     Note.content := compress (js "hello"); Note.mode := plain;
     Note.dir := js "ltr"; Note.paperTheme := js "classic";
     Note.createdAt := 1; Note.lastModified := 1; Note.encrypted := false;
     Note.salt := None; Note.iv := None; Note.pinned := false;
     Note.tags := []; Note.searchableContent := Some (js "hello") |}.

(** The page showing [note1], nothing else open. *)
Definition start : State :=
  {| notebooks := [note1]; activeId := Some (js "n1"); mode := plain;
     pendingId := None; paperTheme := js "classic"; direction := js "ltr";
     sessionKeys := ∅; storedNotebooks := [note1];
     storedActiveId := Some (js "n1"); innerText := js "hello";
     contentEditable := ce_plaintext_only;
     documentTitle := js "Untitled Note | Portfolio Notebook";
     locationHash := []; lockModal := false; unlockModal := false;
     deleteModal := false; events := []; encryptions := [] |}.

(** [note1] locked with the password [secret]: the user opened the lock
    modal and confirmed. *)
Definition locked : State :=
  confirmLock (js "secret") salt1 iv1 2 (set_lockModal true (set_pendingId (Some (js "n1")) start)).

Definition locked_note : Note.t := default note1 (head (notebooks locked)).

(** The locked note with the unlock modal open, as after a reload. *)
Definition reloaded : State :=
  loadActiveNote (set_sessionKeys ∅ locked).

(** The locked note after the defect the rescue is there for: its
    ciphertext was overwritten with the compressed text [hello]. *)
Definition corrupted_note : Note.t :=
  Note.set_content (compress (js "hello")) locked_note.

Definition corrupted : State := set_notebooks [corrupted_note] reloaded.

(** The locked note unlocked with the right password. *)
Definition unlocked : State :=
  confirmUnlock (js "secret") salt2 iv2 reloaded.

(** The text of a share link for the stored content of [note1], and the
    page opened with that link while [note1] is in the collection. *)
Definition shared_text : jsstring :=
  [123; 34; 99; 34; 58; 34] ++ Note.content note1 ++ [34; 125].

Definition opened : State := set_locationHash (compress shared_text) start.

Definition unlocked_note : Note.t := default note1 (head (notebooks unlocked)).

End Demo.

(** ** utils.js: the base64 methods installed by [setupPolyfills]

    Where the browser has no [Uint8Array.prototype.toBase64] and no
    [Uint8Array.fromBase64], the page installs its own, built on
    [window.btoa] and [window.atob].  These two are written out after the
    HTML and Infra standards ("forgiving-base64"). *)

Module Polyfill.

(** [window.btoa(binary)]: the base64 encoding (RFC 4648, with padding) of
    the bytes the code units stand for; [None] is the
    [InvalidCharacterError] thrown when a code unit exceeds 0xFF. *)
Definition btoa (binary : jsstring) : option jsstring :=
  if forallb (fun c => c <=? 0xFF) binary
  then Some (Base64.toBase64 (map byte_of_N binary))
  else None.

(** [+], [/] and the ASCII letters and digits. *)
Definition is_base64_alphabet (c : N) : bool :=
  match Base64.b64_value c with
  | Some _ => true
  | None => false
  end.

(** "If data ends with one or two U+003D (=) code points, then remove them
    from data." *)
Definition remove_padding (data : jsstring) : jsstring :=
  match rev data with
  | c1 :: r1 =>
      if c1 =? 61 then
        match r1 with
        | c2 :: r2 => if c2 =? 61 then rev r2 else rev r1
        | [] => rev r1
        end
      else data
  | [] => data
  end.

(** The bit buffer of forgiving-base64 decode, six bits at a time: three
    bytes leave it at 24 bits; the 12 or 18 bits left at the end give one
    or two bytes, the last four or two bits being discarded. *)
Fixpoint decode_sextets (buffer : list N) (vs : list N) : list byte :=
  match vs with
  | [] => Base64.decode_chunk buffer
  | v :: rest =>
      match buffer with
      | [x; y; z] => Base64.decode_chunk [x; y; z; v] ++ decode_sextets [] rest
      | _ => decode_sextets (buffer ++ [v]) rest
      end
  end.

(** The end of forgiving-base64 decode, on a string without white space
    and without the padding it ended with: a length of one more than a
    multiple of four and a character outside the alphabet are failures. *)
Definition decode_stripped (data : jsstring) : option jsstring :=
  if (length data mod 4 =? 1)%nat then None
  else if forallb is_base64_alphabet data
  then Some (map Byte.to_N (decode_sextets [] (omap Base64.b64_value data)))
  else None.

(** [window.atob(data)]: forgiving-base64 decode; the result is a binary
    string, one code unit per byte. *)
Definition atob (data : jsstring) : option jsstring :=
  let data := List.filter (fun c => negb (Base64.is_ascii_whitespace c)) data in
  let data := if (length data mod 4 =? 0)%nat then remove_padding data else data in
  decode_stripped data.

(** [Uint8Array.prototype.toBase64] of the polyfill: the bytes become a
    binary string, one [String.fromCharCode] at a time, which [btoa]
    encodes. *)
Definition toBase64 (this : list byte) : option jsstring :=
  btoa (fold_left (fun binary b => binary ++ [Byte.to_N b]) this []).

(** [Uint8Array.fromBase64] of the polyfill: the code units of
    [atob(base64)] stored in a byte array. *)
Definition fromBase64 (base64 : jsstring) : option (list byte) :=
  match atob base64 with
  | Some binary_string => Some (map byte_of_N binary_string)
  | None => None
  end.

End Polyfill.

(** ** String methods the page uses *)

Module JS.

(** [s.split(c)] for a one-character separator [c]. *)
Fixpoint split_on (sep : N) (s : jsstring) : list jsstring :=
  match s with
  | [] => [[]]
  | c :: rest =>
      if c =? sep then [] :: split_on sep rest
      else
        match split_on sep rest with
        | piece :: pieces => (c :: piece) :: pieces
        | [] => [[c]]
        end
  end.

(** [l.join(sep)] *)
Fixpoint join_with (sep : jsstring) (l : list jsstring) : jsstring :=
  match l with
  | [] => []
  | [x] => x
  | x :: rest => x ++ sep ++ join_with sep rest
  end.

(** [s.includes(q)] *)
Fixpoint includes (q s : jsstring) : bool :=
  Text.starts_with q s
  || match s with
     | [] => false
     | _ :: rest => includes q rest
     end.

(** The characters the export replaces in a file name: slash, backslash,
    question mark, percent, asterisk, colon, bar, double quote and the two
    angle brackets. *)
Definition is_reserved_char (c : N) : bool :=
  (c =? 47) || (c =? 92) || (c =? 63) || (c =? 37) || (c =? 42) || (c =? 58)
  || (c =? 124) || (c =? 34) || (c =? 60) || (c =? 62).

End JS.

(** ** notebook-manager.js: methods on single notes *)

Section Methods.
Context {P : Platform}.

Definition set_pinned (v : bool) (n : Note.t) : Note.t :=
  {| Note.id := Note.id n; Note.title := Note.title n;
     Note.content := Note.content n; Note.mode := Note.mode n;
     Note.dir := Note.dir n; Note.paperTheme := Note.paperTheme n;
     Note.createdAt := Note.createdAt n;
     Note.lastModified := Note.lastModified n;
     Note.encrypted := Note.encrypted n; Note.salt := Note.salt n;
     Note.iv := Note.iv n; Note.pinned := v; Note.tags := Note.tags n;
     Note.searchableContent := Note.searchableContent n |}.

(** [togglePin(id, event)] *)
Definition togglePin (id : jsstring) (w : State) : State :=
  match find (has_id (Some id)) (notebooks w) with
  | Some (i, note) =>
      saveState
        (set_notebooks
           (<[i := set_pinned (negb (Note.pinned note)) note]> (notebooks w)) w)
  | None => w
  end.

(** [deleteNote(id, event)] *)
Definition deleteNote (id : jsstring) (w : State) : State :=
  set_deleteModal true (set_pendingId (Some id) w).

(** [openLockModal(id, event)] *)
Definition openLockModal (id : option jsstring) (w : State) : State :=
  set_lockModal true (set_pendingId id w).

(** [findNoteByTitle(title)] *)
Definition findNoteByTitle (title : jsstring) (w : State) : option (nat * Note.t) :=
  find (fun n => Text.jseqb (toLowerCase (Note.title n)) (toLowerCase title))
    (notebooks w).

(** [applyDirection(dir, save)].  The [input] event it sends to the
    editing surface starts the timer of the autosave; the save itself is
    the separate step [saveAction]. *)
Definition applyDirection (dir : jsstring) (save : bool) (w : State) : State :=
  let w1 :=
    match find (has_id (activeId w)) (notebooks w) with
    | Some (i, note) =>
        if save then
          saveState (set_notebooks (<[i := Note.set_dir dir note]> (notebooks w)) w)
        else w
    | None => w
    end in
  set_direction dir w1.

(** [toggleDirection()] *)
Definition toggleDirection (w : State) : State :=
  match find (has_id (activeId w)) (notebooks w) with
  | None => w
  | Some (_, note) =>
      let newDir :=
        if Text.jseqb (Note.dir note) (js "rtl") then js "ltr" else js "rtl" in
      applyDirection newDir true w
  end.

(** [applyPaperTheme(theme, save)] *)
Definition applyPaperTheme (theme : jsstring) (save : bool) (w : State) : State :=
  let w1 :=
    match find (has_id (activeId w)) (notebooks w) with
    | Some (i, note) =>
        if save then
          saveState
            (set_notebooks (<[i := Note.set_paperTheme theme note]> (notebooks w)) w)
        else w
    | None => w
    end in
  set_paperTheme theme w1.

(** *** bulkExport *)

Definition locked_placeholder : jsstring := js "[Encrypted Content - Locked]".

(** The text [bulkExport] writes for a note. *)
Definition export_content (w : State) (note : Note.t) : jsstring :=
  if Note.encrypted note then
    match sessionKeys w !! Note.id note with
    | Some key =>
        match decryptWithKey (Note.content note) key (Note.iv note) with
        | Some decrypted => decrypted
        | None => locked_placeholder
        end
    | None => locked_placeholder
    end
  else
    match decompress (Note.content note) with
    | Some text => text
    | None => Note.content note
    end.

(** The name of the file of a note: the title with the characters of the
    class replaced by [-], then the extension of the mode. *)
Definition export_name (note : Note.t) : jsstring :=
  map (fun c => if JS.is_reserved_char c then 45 else c) (Note.title note)
  ++ js "."
  ++ match Note.mode note with
     | markdown => js "md"
     | plain => js "txt"
     end.

(** [zip.file(name, data)] of JSZip: the entry of that name is added to
    the archive, or replaced when there is one. *)
Definition zip_file (name data : jsstring) (zip : gmap jsstring jsstring)
  : gmap jsstring jsstring :=
  <[name := data]> zip.

(** [bulkExport()] up to the archive it has built when it asks for the
    download: the state, and the entries of the archive by name, after
    the calls [zip.file(fileName, content)] for the notes in order;
    [zipLoaded] tells whether [JSZip] is defined.  No archive is made
    when the function returns before. *)
Definition bulkExport (zipLoaded : bool) (w : State)
  : State * option (gmap jsstring jsstring) :=
  if zipLoaded then
    match notebooks w with
    | [] => (log (alert "No notes to export!") w, None)
    | notes =>
        (w,
         Some (fold_left
                 (fun zip note =>
                    zip_file (export_name note) (export_content w note) zip)
                 notes ∅))
    end
  else
    (log (alert "Export library not loaded. Please check your connection.") w,
     None).

End Methods.

(** ** ui.js: the share link *)

Section Share.
Context {P : Platform}.

(** [JSON.stringify] on the object [openShareModal] builds. *)
Variable JSON_stringify : SharePayload -> jsstring.

(** The object [openShareModal] builds for the active note: the text of
    the editing surface, compressed, for a note that is not encrypted, and
    the stored content for one that is. *)
Definition share_payload (w : State) (activeNote : Note.t) : SharePayload :=
  {| p_c := Some (if Note.encrypted activeNote then Note.content activeNote
                  else compress (innerText w));
     p_d := Some (Text.or_default (Some (Note.dir activeNote)) (js "ltr"));
     p_t := Some (Text.or_default (Some (Note.paperTheme activeNote)) (js "classic"));
     p_ca := Some (Note.createdAt activeNote);
     p_lm := Some (Note.lastModified activeNote);
     p_enc := Note.encrypted activeNote;
     p_salt := Text.or_null (Note.salt activeNote);
     p_iv := Text.or_null (Note.iv activeNote) |}.

(** The fragment of the link [openShareModal] shows, when there is an
    active note. *)
Definition share_fragment (w : State) : option jsstring :=
  match find (has_id (activeId w)) (notebooks w) with
  | Some (_, activeNote) =>
      Some (compress (JSON_stringify (share_payload w activeNote)))
  | None => None
  end.

(** [`${origin}${pathname}#${compressed}`] *)
Definition share_url (origin pathname : jsstring) (w : State) : option jsstring :=
  match share_fragment w with
  | Some compressed => Some (origin ++ pathname ++ js "#" ++ compressed)
  | None => None
  end.

End Share.

(** ** ui.js: the list of the library *)

Section Library.
Context {P : Platform}.

(** The test of the search: the query occurs in the lowercased title, in
    the search cache or in a lowercased tag. *)
Definition matches_query (query : jsstring) (n : Note.t) : bool :=
  JS.includes query (toLowerCase (Note.title n))
  || match Note.searchableContent n with
     | Some (c :: s) => JS.includes query (c :: s)
     | _ => false
     end
  || existsb (fun t => JS.includes query (toLowerCase t)) (Note.tags n).

(** The comparison [updateLibraryList] sorts with: negative when [a]
    comes first. *)
Definition library_compare (a b : Note.t) : Z :=
  if Bool.eqb (Note.pinned a) (Note.pinned b)
  then (Z.of_N (Note.lastModified b) - Z.of_N (Note.lastModified a))%Z
  else if Note.pinned b then 1%Z else (-1)%Z.

Fixpoint sort_insert (cmp : Note.t -> Note.t -> Z) (x : Note.t) (l : list Note.t)
  : list Note.t :=
  match l with
  | [] => [x]
  | y :: rest =>
      if (cmp x y <=? 0)%Z then x :: y :: rest else y :: sort_insert cmp x rest
  end.

(** [l.sort(cmp)] for a comparison that orders consistently: the notes in
    ascending order, those that compare equal in the order they had. *)
Definition sort (cmp : Note.t -> Note.t -> Z) (l : list Note.t) : list Note.t :=
  foldr (sort_insert cmp) [] l.

(** The notes [updateLibraryList] shows, in the order it shows them. *)
Definition library_list (notebooks : list Note.t) (libraryMode : Mode)
    (searchQuery : jsstring) (activeTag : option jsstring) : list Note.t :=
  let l1 :=
    match searchQuery with
    | [] => List.filter (in_mode libraryMode) notebooks
    | _ :: _ => notebooks
    end in
  let l2 :=
    match searchQuery with
    | [] => l1
    | _ :: _ => List.filter (matches_query (toLowerCase searchQuery)) l1
    end in
  let l3 :=
    match activeTag with
    | Some (c :: t) =>
        List.filter (fun n => existsb (Text.jseqb (c :: t)) (Note.tags n)) l2
    | _ => l2
    end in
  sort library_compare l3.

End Library.

(** ** notebook-manager.js: the remaining methods of the manager *)

Section Page.
Context {P : Platform}.

(** The manager with the rest of what its methods read and write: the
    search text, tag and tab of the library, the title a wiki link asks
    for, the two keys an older version of the page left in
    [localStorage], the two inputs of the rename modal, three more modals
    and the address the page was told to go to. *)
Record Page := {
  manager : State;
  searchQuery : jsstring;
  activeTag : option jsstring;
  libraryMode : Mode;
  pendingWikiTitle : option jsstring;
  plaintextHash : option jsstring;
  markdownHash : option jsstring;
  renameInput : jsstring;
  tagsInput : jsstring;
  renameModal : bool;
  libraryModal : bool;
  wikiModal : bool;
  locationHref : option jsstring;
}.

Definition set_manager (v : State) (p : Page) : Page :=
  {| manager := v; searchQuery := searchQuery p; activeTag := activeTag p;
     libraryMode := libraryMode p; pendingWikiTitle := pendingWikiTitle p;
     plaintextHash := plaintextHash p; markdownHash := markdownHash p;
     renameInput := renameInput p; tagsInput := tagsInput p;
     renameModal := renameModal p; libraryModal := libraryModal p;
     wikiModal := wikiModal p; locationHref := locationHref p |}.

Definition set_searchQuery (v : jsstring) (p : Page) : Page :=
  {| manager := manager p; searchQuery := v; activeTag := activeTag p;
     libraryMode := libraryMode p; pendingWikiTitle := pendingWikiTitle p;
     plaintextHash := plaintextHash p; markdownHash := markdownHash p;
     renameInput := renameInput p; tagsInput := tagsInput p;
     renameModal := renameModal p; libraryModal := libraryModal p;
     wikiModal := wikiModal p; locationHref := locationHref p |}.

Definition set_activeTag (v : option jsstring) (p : Page) : Page :=
  {| manager := manager p; searchQuery := searchQuery p; activeTag := v;
     libraryMode := libraryMode p; pendingWikiTitle := pendingWikiTitle p;
     plaintextHash := plaintextHash p; markdownHash := markdownHash p;
     renameInput := renameInput p; tagsInput := tagsInput p;
     renameModal := renameModal p; libraryModal := libraryModal p;
     wikiModal := wikiModal p; locationHref := locationHref p |}.

Definition set_libraryMode (v : Mode) (p : Page) : Page :=
  {| manager := manager p; searchQuery := searchQuery p;
     activeTag := activeTag p; libraryMode := v;
     pendingWikiTitle := pendingWikiTitle p;
     plaintextHash := plaintextHash p; markdownHash := markdownHash p;
     renameInput := renameInput p; tagsInput := tagsInput p;
     renameModal := renameModal p; libraryModal := libraryModal p;
     wikiModal := wikiModal p; locationHref := locationHref p |}.

Definition set_pendingWikiTitle (v : option jsstring) (p : Page) : Page :=
  {| manager := manager p; searchQuery := searchQuery p;
     activeTag := activeTag p; libraryMode := libraryMode p;
     pendingWikiTitle := v; plaintextHash := plaintextHash p;
     markdownHash := markdownHash p; renameInput := renameInput p;
     tagsInput := tagsInput p; renameModal := renameModal p;
     libraryModal := libraryModal p; wikiModal := wikiModal p;
     locationHref := locationHref p |}.

Definition set_plaintextHash (v : option jsstring) (p : Page) : Page :=
  {| manager := manager p; searchQuery := searchQuery p;
     activeTag := activeTag p; libraryMode := libraryMode p;
     pendingWikiTitle := pendingWikiTitle p; plaintextHash := v;
     markdownHash := markdownHash p; renameInput := renameInput p;
     tagsInput := tagsInput p; renameModal := renameModal p;
     libraryModal := libraryModal p; wikiModal := wikiModal p;
     locationHref := locationHref p |}.

Definition set_markdownHash (v : option jsstring) (p : Page) : Page :=
  {| manager := manager p; searchQuery := searchQuery p;
     activeTag := activeTag p; libraryMode := libraryMode p;
     pendingWikiTitle := pendingWikiTitle p;
     plaintextHash := plaintextHash p; markdownHash := v;
     renameInput := renameInput p; tagsInput := tagsInput p;
     renameModal := renameModal p; libraryModal := libraryModal p;
     wikiModal := wikiModal p; locationHref := locationHref p |}.

Definition set_renameInput (v : jsstring) (p : Page) : Page :=
  {| manager := manager p; searchQuery := searchQuery p;
     activeTag := activeTag p; libraryMode := libraryMode p;
     pendingWikiTitle := pendingWikiTitle p;
     plaintextHash := plaintextHash p; markdownHash := markdownHash p;
     renameInput := v; tagsInput := tagsInput p;
     renameModal := renameModal p; libraryModal := libraryModal p;
     wikiModal := wikiModal p; locationHref := locationHref p |}.

Definition set_tagsInput (v : jsstring) (p : Page) : Page :=
  {| manager := manager p; searchQuery := searchQuery p;
     activeTag := activeTag p; libraryMode := libraryMode p;
     pendingWikiTitle := pendingWikiTitle p;
     plaintextHash := plaintextHash p; markdownHash := markdownHash p;
     renameInput := renameInput p; tagsInput := v;
     renameModal := renameModal p; libraryModal := libraryModal p;
     wikiModal := wikiModal p; locationHref := locationHref p |}.

Definition set_renameModal (v : bool) (p : Page) : Page :=
  {| manager := manager p; searchQuery := searchQuery p;
     activeTag := activeTag p; libraryMode := libraryMode p;
     pendingWikiTitle := pendingWikiTitle p;
     plaintextHash := plaintextHash p; markdownHash := markdownHash p;
     renameInput := renameInput p; tagsInput := tagsInput p;
     renameModal := v; libraryModal := libraryModal p;
     wikiModal := wikiModal p; locationHref := locationHref p |}.

Definition set_libraryModal (v : bool) (p : Page) : Page :=
  {| manager := manager p; searchQuery := searchQuery p;
     activeTag := activeTag p; libraryMode := libraryMode p;
     pendingWikiTitle := pendingWikiTitle p;
     plaintextHash := plaintextHash p; markdownHash := markdownHash p;
     renameInput := renameInput p; tagsInput := tagsInput p;
     renameModal := renameModal p; libraryModal := v;
     wikiModal := wikiModal p; locationHref := locationHref p |}.

Definition set_wikiModal (v : bool) (p : Page) : Page :=
  {| manager := manager p; searchQuery := searchQuery p;
     activeTag := activeTag p; libraryMode := libraryMode p;
     pendingWikiTitle := pendingWikiTitle p;
     plaintextHash := plaintextHash p; markdownHash := markdownHash p;
     renameInput := renameInput p; tagsInput := tagsInput p;
     renameModal := renameModal p; libraryModal := libraryModal p;
     wikiModal := v; locationHref := locationHref p |}.

Definition set_locationHref (v : option jsstring) (p : Page) : Page :=
  {| manager := manager p; searchQuery := searchQuery p;
     activeTag := activeTag p; libraryMode := libraryMode p;
     pendingWikiTitle := pendingWikiTitle p;
     plaintextHash := plaintextHash p; markdownHash := markdownHash p;
     renameInput := renameInput p; tagsInput := tagsInput p;
     renameModal := renameModal p; libraryModal := libraryModal p;
     wikiModal := wikiModal p; locationHref := v |}.

Definition on_manager (f : State -> State) (p : Page) : Page :=
  set_manager (f (manager p)) p.

(** One of the two imports of [migrateOldData]: the hash an older version
    stored becomes a note, unless a note has it as its content, and its
    key is removed when it does. *)
Definition import_old (old : option jsstring) (remove : Page -> Page)
    (id : jsstring) (now : N) (title : jsstring) (m : Mode) (p : Page) : Page :=
  match old with
  | Some (c :: hash) =>
      if existsb (fun n => Text.jseqb (Note.content n) (c :: hash))
           (notebooks (manager p))
      then p
      else remove (on_manager (addNotebook id now title (c :: hash) m) p)
  | _ => p
  end.

(** The timestamps [migrateOldData] gives a note that lacks them; a
    missing timestamp reads as zero. *)
Definition repair (now : N) (n : Note.t) : Note.t :=
  let n1 :=
    if Note.createdAt n =? 0 then
      Note.set_createdAt
        (if Note.lastModified n =? 0 then now else Note.lastModified n) n
    else n in
  if Note.lastModified n1 =? 0 then
    Note.set_lastModified
      (if Note.createdAt n1 =? 0 then now else Note.createdAt n1) n1
  else n1.

(** [migrateOldData()]; [id1] and [id2] are the identifiers
    [crypto.randomUUID()] gives to the notes it adds.  The notes of this
    model carry the fields [encrypted], [pinned] and [tags]: the three
    defaults the method gives to notes without them have nothing to do. *)
Definition migrateOldData (id1 id2 : jsstring) (now : N) (p : Page) : Page :=
  let oldPlain := plaintextHash p in
  let oldMarkdown := markdownHash p in
  let p1 :=
    import_old oldPlain (set_plaintextHash None) id1 now (js "My First Note")
      plain p in
  let p2 :=
    import_old oldMarkdown (set_markdownHash None) id2 now (js "My First Markdown")
      markdown p1 in
  on_manager
    (fun w => saveState (set_notebooks (map (repair now) (notebooks w)) w)) p2.

(** [switchNote(id)] *)
Definition switchNote (id : jsstring) (p : Page) : Page :=
  let w := manager p in
  match find (has_id (Some id)) (notebooks w) with
  | None => p
  | Some (_, note) =>
      if mode_eqb (Note.mode note) (mode w) then
        set_libraryModal false
          (on_manager
             (fun w => loadActiveNote (saveState (set_activeId (Some id) w))) p)
      else
        set_locationHref
          (Some match Note.mode note with
                | markdown => js "/"
                | plain => js "/plain"
                end)
          (on_manager (set_storedActiveId (Some id)) p)
  end.

(** [renameNote(id, event)] *)
Definition renameNote (id : jsstring) (p : Page) : Page :=
  match find (has_id (Some id)) (notebooks (manager p)) with
  | None => p
  | Some (_, note) =>
      set_renameModal true
        (set_tagsInput (JS.join_with (js ", ") (Note.tags note))
           (set_renameInput (Note.title note)
              (on_manager (set_pendingId (Some id)) p)))
  end.

(** The tags [confirmRename] reads from the input: the pieces between
    commas, trimmed and lowercased, without the empty ones, each once. *)
Definition manual_tags (input : jsstring) : list jsstring :=
  Text.set_of_list
    (List.filter (fun t => (0 <? length t)%nat)
       (map (fun t => toLowerCase (Text.trim t)) (JS.split_on 44 input))).

(** [confirmRename()] *)
Definition confirmRename (p : Page) : Page :=
  let w := manager p in
  if falsy (pendingId w) then p
  else
    match Text.trim (renameInput p) with
    | [] => p
    | c :: t =>
        let p1 :=
          match find (has_id (pendingId w)) (notebooks w) with
          | Some (i, note) =>
              let note' :=
                Note.set_tags (manual_tags (tagsInput p))
                  (Note.set_title (c :: t) note) in
              let w1 := set_notebooks (<[i := note']> (notebooks w)) w in
              let w2 :=
                if same_id (activeId w) (pendingId w)
                then updateDocumentTitle (c :: t) w1
                else w1 in
              set_manager (saveState w2) p
          | None => p
          end in
        set_renameModal false (on_manager (set_pendingId None) p1)
    end.

(** [openWikiCreateModal(title)] *)
Definition openWikiCreateModal (title : jsstring) (p : Page) : Page :=
  set_wikiModal true (set_pendingWikiTitle (Some title) p).

(** [closeWikiCreateModal()] *)
Definition closeWikiCreateModal (p : Page) : Page :=
  set_pendingWikiTitle None (set_wikiModal false p).

(** [confirmWikiCreate()]; [id] and [now] are the identifier and the time
    of the note it adds. *)
Definition confirmWikiCreate (id : jsstring) (now : N) (p : Page) : Page :=
  match pendingWikiTitle p with
  | Some (c :: title) =>
      closeWikiCreateModal
        (switchNote id
           (on_manager (fun w => addNotebook id now (c :: title) [] (mode w) w) p))
  | _ => p
  end.

(** The click on a wiki link (ui.js): the note of that title is opened,
    or the modal that offers to create it. *)
Definition clickWikiLink (title : jsstring) (p : Page) : Page :=
  match findNoteByTitle title (manager p) with
  | Some (_, note) => switchNote (Note.id note) p
  | None => openWikiCreateModal title p
  end.

(** The buttons for a new note of the library: [addNotebook] and
    [switchNote]. *)
Definition newNote (id : jsstring) (now : N) (m : Mode) (p : Page) : Page :=
  switchNote id (on_manager (addNotebook id now (js "Untitled Note") [] m) p).

(** [new NotebookManager(config)] up to the call of [init]: the manager a
    page of mode [config_mode] makes from what the browser holds. *)
Definition construct (config_mode : Mode) (p : Page) : Page :=
  let b := manager p in
  set_manager
    {| notebooks := storedNotebooks b; activeId := storedActiveId b;
       mode := config_mode; pendingId := None; paperTheme := js "classic";
       direction := js "ltr"; sessionKeys := ∅;
       storedNotebooks := storedNotebooks b;
       storedActiveId := storedActiveId b; innerText := innerText b;
       contentEditable := contentEditable b;
       documentTitle := documentTitle b; locationHash := locationHash b;
       lockModal := lockModal b; unlockModal := unlockModal b;
       deleteModal := deleteModal b; events := events b;
       encryptions := encryptions b |} p.

(** [init()]; the identifiers and times are those of the notes its steps
    may add. *)
Definition init (id1 id2 id3 id4 : jsstring) (t1 t2 t3 : N) (p : Page) : Page :=
  let p1 := migrateOldData id1 id2 t1 p in
  let p2 := on_manager (handleUrlParam id3 t2) p1 in
  let p3 := on_manager (ensureActiveNote id4 t3) p2 in
  let p4 := on_manager loadActiveNote p3 in
  let p5 :=
    set_libraryMode (mode (manager p4)) (set_activeTag None (set_searchQuery [] p4)) in
  on_manager rebuildSearchIndex p5.

End Page.

(** ** The events the page answers

    What the listeners the page installs do, one constructor for each
    event: the user's typing, the timer of the autosave, and the buttons
    of the page, of the modals and of the library. *)

Section Events.
Context {P : Platform}.

Inductive Action :=
| Edit (text : jsstring)
| Autosave (now : N)
| OpenLockModal (id : option jsstring)
| ConfirmLock (password : jsstring) (salt iv : list byte) (now : N)
| CloseLockModal
| OpenUnlockModal (id : option jsstring)
| ConfirmUnlock (password : jsstring) (salt iv : list byte)
| CloseUnlockModal
| DeleteNote (id : jsstring)
| ConfirmDelete (uuid : jsstring) (now : N)
| Cancel
| TogglePin (id : jsstring)
| RenameNote (id : jsstring)
| TypeRename (title tags : jsstring)
| ConfirmRename
| SwitchNote (id : jsstring)
| NewNote (uuid : jsstring) (now : N) (m : Mode)
| ClickWikiLink (title : jsstring)
| ConfirmWikiCreate (uuid : jsstring) (now : N)
| CloseWikiCreateModal
| ToggleDirection
| ApplyPaperTheme (theme : jsstring)
| OpenLibrary
| SearchInput (query : jsstring)
| SetLibraryTag (tag : option jsstring)
| LibraryTab (m : Mode)
| BulkExport (zipLoaded : bool).

Definition perform (a : Action) (p : Page) : Page :=
  match a with
  | Edit text => on_manager (set_innerText text) p
  | Autosave now => on_manager (saveAction now) p
  | OpenLockModal id => on_manager (openLockModal id) p
  | ConfirmLock password salt iv now =>
      on_manager (confirmLock password salt iv now) p
  | CloseLockModal => on_manager closeLockModal p
  | OpenUnlockModal id => on_manager (openUnlockModal id) p
  | ConfirmUnlock password salt iv => on_manager (confirmUnlock password salt iv) p
  | CloseUnlockModal => on_manager closeUnlockModal p
  | DeleteNote id => on_manager (deleteNote id) p
  | ConfirmDelete uuid now => on_manager (confirmDelete uuid now) p
  | Cancel => on_manager (set_pendingId None) p
  | TogglePin id => on_manager (togglePin id) p
  | RenameNote id => renameNote id p
  | TypeRename title tags => set_tagsInput tags (set_renameInput title p)
  | ConfirmRename => confirmRename p
  | SwitchNote id => switchNote id p
  | NewNote uuid now m => newNote uuid now m p
  | ClickWikiLink title => clickWikiLink title p
  | ConfirmWikiCreate uuid now => confirmWikiCreate uuid now p
  | CloseWikiCreateModal => closeWikiCreateModal p
  | ToggleDirection => on_manager toggleDirection p
  | ApplyPaperTheme theme => on_manager (applyPaperTheme theme true) p
  | OpenLibrary =>
      set_libraryModal true
        (set_libraryMode (mode (manager p))
           (set_activeTag None (set_searchQuery [] p)))
  | SearchInput query => set_searchQuery query p
  | SetLibraryTag tag => set_activeTag tag p
  | LibraryTab m => set_libraryMode m p
  | BulkExport zipLoaded => on_manager (fun w => fst (bulkExport zipLoaded w)) p
  end.

(** The identifier an event gives to the note it may add. *)
Definition new_id (a : Action) : option jsstring :=
  match a with
  | ConfirmDelete uuid _ | NewNote uuid _ _ | ConfirmWikiCreate uuid _ => Some uuid
  | _ => None
  end.

(** *** Notions the properties of the events are stated with *)

(** The collection in memory is the collection in [localStorage]. *)
Definition persisted (w : State) : Prop := storedNotebooks w = notebooks w.

(** No two notes have the same identifier. *)
Definition distinct_ids (w : State) : Prop := NoDup (map Note.id (notebooks w)).

(** Every session key opens its note: an encrypted note whose key is
    cached decrypts, under that key, which is the key of a password. *)
Definition keys_open (w : State) : Prop :=
  forall i note key,
    notebooks w !! i = Some note ->
    Note.encrypted note = true ->
    sessionKeys w !! Note.id note = Some key ->
    exists password text, try_decrypt password note = Some (key, text).

(** How a step may change the collection, what is persisted and the
    session keys: not at all; or it writes one note at its place, keeping
    its identifier, and may cache a key for it; or it removes notes and
    adds at most one, which is not encrypted and has the identifier the
    step was given.  In the last two cases the collection is persisted. *)
Inductive shape (uuid : option jsstring) (w w' : State) : Prop :=
| shape_none :
    notebooks w' = notebooks w ->
    storedNotebooks w' = storedNotebooks w ->
    sessionKeys w' = sessionKeys w ->
    shape uuid w w'
| shape_write (i : nat) (note note' : Note.t) :
    notebooks w !! i = Some note ->
    Note.id note' = Note.id note ->
    notebooks w' = <[i := note']> (notebooks w) ->
    storedNotebooks w' = notebooks w' ->
    (sessionKeys w' = sessionKeys w
     \/ exists key, sessionKeys w' = <[Note.id note := key]> (sessionKeys w)) ->
    shape uuid w w'
| shape_list (f : Note.t -> bool) (extra : list Note.t) :
    notebooks w' = List.filter f (notebooks w) ++ extra ->
    storedNotebooks w' = notebooks w' ->
    sessionKeys w' = sessionKeys w ->
    (extra = []
     \/ exists n, extra = [n] /\ uuid = Some (Note.id n) /\ Note.encrypted n = false) ->
    shape uuid w w'.

End Events.

(** ** Handlers at their waits

    [loadActiveNote] and the autosave wait for a result, the
    decompressed or the compressed text, before they write, and another
    handler may run in between.  For a note that is not encrypted, what
    they do before and after the wait. *)

Section Waits.
Context {P : Platform}.

(** [loadActiveNote] from the result [text] of
    [await decompress(note.content)] on: the writes to the surface, and
    the settings of [note], the note found before the wait. *)
Definition loadActiveNote_resume (note : Note.t) (text : jsstring) (w : State)
  : State :=
  set_direction (Text.or_default (Some (Note.dir note)) (js "ltr"))
    (set_paperTheme
       (Text.or_default (Some (Note.paperTheme note)) (js "classic"))
       (updateDocumentTitle (Note.title note)
          (set_contentEditable ce_plaintext_only (set_innerText text w)))).

(** The autosave up to [await compress(content)]: the place of the
    active note and the text read from the surface, when the note is not
    encrypted and the surface can be edited; nothing when the function
    returns before or takes the branch of an encrypted note. *)
Definition saveAction_begin (w : State) : option (nat * jsstring) :=
  match find (has_id (activeId w)) (notebooks w) with
  | None => None
  | Some (i, note) =>
      match contentEditable w with
      | ce_false => None
      | _ => if Note.encrypted note then None else Some (i, innerText w)
      end
  end.

(** The autosave from the result of the compression on.  Its writes go
    to the note found before the wait, the note at place [i] as long as
    no note is removed in between, whatever has been done to that note
    since; [content] is the text read before the wait. *)
Definition saveAction_resume (now : N) (i : nat) (content : jsstring)
    (w : State) : State :=
  match notebooks w !! i with
  | Some note =>
      set_innerText (innerText w)
        (finish_save now i note (compress content) (set_innerText content w))
  | None => w
  end.

End Waits.

(** ** Pages to run scenarios on *)

Module DemoPage.

#[local] Existing Instance Demo.platform.

(** A page around a manager, its library closed and nothing typed. *)
Definition page (w : State) : Page :=
  {| manager := w; searchQuery := []; activeTag := None; libraryMode := mode w;
     pendingWikiTitle := None; plaintextHash := None; markdownHash := None;
     renameInput := []; tagsInput := []; renameModal := false;
     libraryModal := false; wikiModal := false; locationHref := None |}.

(** A markdown note beside the plain note of the scenarios. *)
Definition note2 : Note.t :=
  {| Note.id := js "m1"; Note.title := js "Plan";
     Note.content := compress (js "# Plan"); Note.mode := markdown;
     Note.dir := js "ltr"; Note.paperTheme := js "classic";
     Note.createdAt := 3; Note.lastModified := 4; Note.encrypted := false;
     Note.salt := None; Note.iv := None; Note.pinned := false;
     Note.tags := []; Note.searchableContent := Some (js "# plan") |}.

(** The plain page with both notes, the library open. *)
Definition both : Page :=
  set_libraryModal true
    (page (set_storedNotebooks [Demo.note1; note2]
             (set_notebooks [Demo.note1; note2] Demo.start))).

(** A browser an older version of the page left its two hashes in, the
    plain one being the content of the note of the scenarios. *)
Definition legacy : Page :=
  set_markdownHash (Some (compress (js "old markdown")))
    (set_plaintextHash (Some (Note.content Demo.note1)) (page Demo.start)).

(** A diary beside the note of the scenarios: a second plain note is
    added, written and saved, and locked with the password [secret]. *)
Definition diary_written : Page :=
  perform (Autosave 4)
    (perform (Edit (js "dear diary"))
       (perform (NewNote (js "n2") 3 plain) (page Demo.start))).

Definition diary_locked : Page :=
  perform (ConfirmLock (js "secret") Demo.salt1 Demo.iv1 5)
    (perform (OpenLockModal (Some (js "n2"))) diary_written).

(** The page loaded again: the diary is the active note, locked, and no
    key is cached. *)
Definition diary_reloaded : Page :=
  init (js "a") (js "b") (js "c") (js "d") 6 6 6 (construct plain diary_locked).

(** The first note is chosen in the library and, before its text is
    decompressed, the diary again; then the load of the first note
    finishes: the surface shows the first note and can be edited, and
    the active note is the diary. *)
Definition diary_overlapped : Page :=
  on_manager (loadActiveNote_resume Demo.note1 (js "hello"))
    (switchNote (js "n2")
       (on_manager (fun w => saveState (set_activeId (Some (js "n1")) w))
          (perform CloseUnlockModal diary_reloaded))).

(** The first note is opened again and edited, a third note is added,
    and its deletion is asked for: three plain notes, the first of them
    the one modified last, the third the active one. *)
Definition three_notes : Page :=
  perform (DeleteNote (js "n3"))
    (perform (NewNote (js "n3") 9 plain)
       (perform (Autosave 8)
          (perform (Edit (js "hello again"))
             (perform (SwitchNote (js "n1")) diary_written)))).

End DemoPage.

(** A platform whose [JSON.parse] reads what [stringify] writes: the
    members one after the other, a string with its length before it.  It
    is no JSON; the rest is the platform of the scenarios. *)
Module DemoShare.

Definition put_string (o : option jsstring) : jsstring :=
  match o with
  | Some s => 1 :: N.of_nat (length s) :: s
  | None => [0]
  end.

Definition put_number (o : option N) : jsstring :=
  match o with
  | Some n => [1; n]
  | None => [0]
  end.

Definition stringify (p : SharePayload) : jsstring :=
  123 :: put_string (p_c p) ++ put_string (p_d p) ++ put_string (p_t p)
  ++ put_number (p_ca p) ++ put_number (p_lm p)
  ++ [if p_enc p then 1 else 0]
  ++ put_string (p_salt p) ++ put_string (p_iv p).

Definition get_string (s : jsstring) : option (option jsstring * jsstring) :=
  match s with
  | 0 :: rest => Some (None, rest)
  | 1 :: n :: rest =>
      if (N.to_nat n <=? length rest)%nat
      then Some (Some (take (N.to_nat n) rest), drop (N.to_nat n) rest)
      else None
  | _ => None
  end.

Definition get_number (s : jsstring) : option (option N * jsstring) :=
  match s with
  | 0 :: rest => Some (None, rest)
  | 1 :: n :: rest => Some (Some n, rest)
  | _ => None
  end.

Definition parse (s : jsstring) : option SharePayload :=
  match s with
  | 123 :: s0 =>
      '(c, s1) ← get_string s0;
      '(d, s2) ← get_string s1;
      '(t, s3) ← get_string s2;
      '(ca, s4) ← get_number s3;
      '(lm, s5) ← get_number s4;
      match s5 with
      | enc :: s6 =>
          '(salt, s7) ← get_string s6;
          '(iv, s8) ← get_string s7;
          match s8 with
          | [] =>
              Some {| p_c := c; p_d := d; p_t := t; p_ca := ca; p_lm := lm;
                      p_enc := negb (enc =? 0); p_salt := salt; p_iv := iv |}
          | _ :: _ => None
          end
      | [] => None
      end
  | _ => None
  end.

#[local] Instance platform : Platform := {|
  CryptoKey := list byte;
  deflate_raw := Demo.deflate;
  inflate_raw := Demo.inflate;
  pbkdf2_sha256 := Demo.pbkdf2;
  aes_gcm_encrypt := Demo.gcm_encrypt;
  aes_gcm_decrypt := Demo.gcm_decrypt;
  toLowerCase := Demo.lower;
  JSON_parse := parse;
|}.

(** The page of the scenarios on this platform, and the page of another
    browser opened with a link. *)
Definition note1 : Note.t :=
  {| Note.id := js "n1"; Note.title := js "Untitled Note";
     Note.content := compress (js "hello"); Note.mode := plain;
     Note.dir := js "ltr"; Note.paperTheme := js "classic";
     Note.createdAt := 1; Note.lastModified := 1; Note.encrypted := false;
     Note.salt := None; Note.iv := None; Note.pinned := false;
     Note.tags := []; Note.searchableContent := Some (js "hello") |}.

Definition sender : State :=
  {| notebooks := [note1]; activeId := Some (js "n1"); mode := plain;
     pendingId := None; paperTheme := js "classic"; direction := js "ltr";
     sessionKeys := ∅; storedNotebooks := [note1];
     storedActiveId := Some (js "n1"); innerText := js "hello you";
     contentEditable := ce_plaintext_only;
     documentTitle := js "Untitled Note | Portfolio Notebook";
     locationHash := []; lockModal := false; unlockModal := false;
     deleteModal := false; events := []; encryptions := [] |}.

Definition receiver (fragment : jsstring) : State :=
  {| notebooks := []; activeId := None; mode := markdown;
     pendingId := None; paperTheme := js "classic"; direction := js "ltr";
     sessionKeys := ∅; storedNotebooks := [];
     storedActiveId := None; innerText := [];
     contentEditable := ce_plaintext_only;
     documentTitle := []; locationHash := fragment; lockModal := false;
     unlockModal := false; deleteModal := false; events := [];
     encryptions := [] |}.

End DemoShare.

(** * Properties *)

(** ** Bytes and arithmetic *)

Lemma to_N_byte_of_N n : n < 256 -> Byte.to_N (byte_of_N n) = n.
Proof.
  intros Hn. unfold byte_of_N. rewrite N.mod_small by exact Hn.
  destruct (Byte.of_N n) eqn:E.
  - by apply Byte.to_of_N.
  - apply Byte.of_N_None_iff in E. lia.
Qed.

(** Bytes and the numbers below 256 correspond. *)
Lemma byte_of_to_N b : byte_of_N (Byte.to_N b) = b.
Proof.
  unfold byte_of_N. pose proof (Byte.to_N_bounded b).
  rewrite N.mod_small by lia. by rewrite Byte.of_to_N.
Qed.

Lemma to_N_lt b : Byte.to_N b < 256.
Proof. pose proof (Byte.to_N_bounded b). lia. Qed.

(** Linear arithmetic with divisions and remainders by constants. *)
Ltac div_lia := zify; Z.to_euclidean_division_equations; lia.

(** Decides the comparisons of the goal, closing the branches that
    arithmetic excludes. *)
Ltac bool_lia :=
  repeat match goal with
    | |- context [?a <=? ?b] => destruct (N.leb_spec a b); try lia
    | |- context [?a <? ?b] => destruct (N.ltb_spec a b); try lia
    | |- context [?a =? ?b] => destruct (N.eqb_spec a b); try lia
    end; cbn [andb orb negb].

(** ** The text codecs *)

Module EncodingFacts.
Import Encoding.

(** Division by 64 splits a number into its last base-64 digit and the
    rest. *)
Lemma split64 c : c = 64 * (c / 64) + c mod 64 /\ c mod 64 < 64.
Proof. split; [apply N.div_mod'|by apply N.mod_lt]. Qed.

Lemma mod64_cont d : d < 64 -> (0x80 + d) mod 64 = d.
Proof.
  intros Hd. replace (0x80 + d) with (d + 2 * 64) by lia.
  rewrite N.Div0.mod_add. by apply N.mod_small.
Qed.

Lemma digits64 c :
  exists d0 d1 d2 e,
    d0 < 64 /\ d1 < 64 /\ d2 < 64 /\
    c = ((e * 64 + d2) * 64 + d1) * 64 + d0 /\
    c mod 64 = d0 /\ c / 64 = (e * 64 + d2) * 64 + d1 /\
    (c / 64) mod 64 = d1 /\ c / 4096 = e * 64 + d2 /\
    (c / 4096) mod 64 = d2 /\ c / 262144 = e.
Proof.
  exists (c mod 64), (c / 64 mod 64), (c / 64 / 64 mod 64), (c / 64 / 64 / 64).
  replace (c / 262144) with (c / 64 / 64 / 64) by (rewrite !N.Div0.div_div; reflexivity).
  replace (c / 4096) with (c / 64 / 64) by (rewrite !N.Div0.div_div; reflexivity).
  destruct (split64 c), (split64 (c / 64)), (split64 (c / 64 / 64)).
  repeat split; try assumption; lia.
Qed.

Ltac utf8_step :=
  cbn [app utf8_decode]; rewrite ?to_N_byte_of_N by lia;
  rewrite ?mod64_cont by lia;
  unfold utf8_start; bool_lia.

(** The decoder on a sequence of two, three and four bytes, given by the
    base-64 digits of its code point. *)
Lemma utf8_decode_2 d1 d0 rest :
  2 <= d1 < 32 -> d0 < 64 ->
  utf8_decode Idle (byte_of_N (0xC0 + d1) :: byte_of_N (0x80 + d0) :: rest)
  = (d1 * 64 + d0) :: utf8_decode Idle rest.
Proof. intros. do 2 utf8_step. cbn [app utf8_decode]. f_equal. lia. Qed.

Lemma utf8_decode_3 d2 d1 d0 rest :
  d2 < 16 -> d1 < 64 -> d0 < 64 ->
  (d2 = 0 -> 32 <= d1) -> (d2 = 13 -> d1 < 32) ->
  utf8_decode Idle
    (byte_of_N (0xE0 + d2) :: byte_of_N (0x80 + d1) :: byte_of_N (0x80 + d0) :: rest)
  = ((d2 * 64 + d1) * 64 + d0) :: utf8_decode Idle rest.
Proof. intros. do 3 utf8_step; cbn [app utf8_decode]; f_equal; lia. Qed.

Lemma utf8_decode_4 e d2 d1 d0 rest :
  e <= 4 -> d2 < 64 -> d1 < 64 -> d0 < 64 ->
  (e = 0 -> 16 <= d2) -> (e = 4 -> d2 < 16) ->
  utf8_decode Idle
    (byte_of_N (0xF0 + e) :: byte_of_N (0x80 + d2) :: byte_of_N (0x80 + d1)
       :: byte_of_N (0x80 + d0) :: rest)
  = (((e * 64 + d2) * 64 + d1) * 64 + d0) :: utf8_decode Idle rest.
Proof. intros. do 4 utf8_step; cbn [app utf8_decode]; f_equal; lia. Qed.

(** The decoder reads back the bytes of one scalar value. *)
Lemma utf8_decode_encode_cp c rest :
  is_scalar c ->
  utf8_decode Idle (utf8_encode_cp c ++ rest) = c :: utf8_decode Idle rest.
Proof.
  intros [Hmax Hsur]. unfold utf8_encode_cp.
  destruct (digits64 c) as (d0&d1&d2&e&?&?&?&Hc&E0&E1&E2&E3&E4&E5).
  rewrite ?E4, ?E2, ?E0, ?E5, ?E3, ?E1. clear E0 E1 E2 E3 E4 E5.
  destruct (N.ltb_spec c 0x80);
    [|destruct (N.ltb_spec c 0x800); [|destruct (N.ltb_spec c 0x10000)]];
    cbn [app].
  - utf8_step. reflexivity.
  - assert (e = 0 /\ d2 = 0) as [-> ->] by lia.
    change ((0 * 64 + 0) * 64 + d1) with d1.
    rewrite utf8_decode_2 by lia. f_equal. lia.
  - assert (e = 0) as -> by lia. change (0 * 64 + d2) with d2.
    rewrite utf8_decode_3 by lia. f_equal. lia.
  - rewrite utf8_decode_4 by lia. f_equal. lia.
Qed.

(** The decoder reads back the bytes of a sequence of scalar values. *)
Lemma utf8_decode_encode cps :
  Forall is_scalar cps ->
  utf8_decode Idle (flat_map utf8_encode_cp cps) = cps.
Proof.
  induction 1 as [|c cps Hc _ IH]; [reflexivity|].
  cbn [flat_map]. rewrite utf8_decode_encode_cp by exact Hc. by rewrite IH.
Qed.

(** A well-formed string is the code units of its code points, which are
    scalar values. *)
Lemma code_points_well_formed s :
  well_formed s = true ->
  Forall is_scalar (code_points s)
  /\ flat_map code_units_of_cp (code_points s) = s.
Proof.
  induction s as [s IH] using (induction_ltof1 _ (@length N)); unfold ltof in IH.
  destruct s as [|u rest]; [by split|].
  cbn [well_formed code_points].
  destruct (is_high_surrogate u) eqn:Hhi.
  - destruct rest as [|l rest']; [discriminate|].
    intros [Hlo Hwf]%andb_prop. rewrite Hlo.
    destruct (IH rest') as [IH1 IH2]; [cbn; lia|exact Hwf|].
    unfold is_high_surrogate, is_low_surrogate in Hhi, Hlo.
    apply andb_prop in Hhi as [?%N.leb_le ?%N.leb_le].
    apply andb_prop in Hlo as [?%N.leb_le ?%N.leb_le].
    split.
    + constructor; [|exact IH1]. unfold is_scalar. lia.
    + cbn [flat_map]. rewrite IH2. unfold code_units_of_cp.
      destruct (N.ltb_spec (0x10000 + (u - 0xD800) * 0x400 + (l - 0xDC00)) 0x10000);
        [lia|].
      cbn [app]. f_equal; [|f_equal]; div_lia.
  - destruct (is_low_surrogate u) eqn:Hlo; [discriminate|].
    intros [Hu%N.ltb_lt Hwf]%andb_prop.
    destruct (IH rest) as [IH1 IH2]; [cbn; lia|exact Hwf|].
    split.
    + constructor; [|exact IH1]. split; [lia|].
      unfold is_high_surrogate, is_low_surrogate in Hhi, Hlo.
      intros [? ?].
      destruct (N.leb_spec 0xD800 u), (N.leb_spec u 0xDBFF),
        (N.leb_spec 0xDC00 u), (N.leb_spec u 0xDFFF); cbn in *; try discriminate; lia.
    + cbn [flat_map]. rewrite IH2. unfold code_units_of_cp.
      destruct (N.ltb_spec u 0x10000); [reflexivity|lia].
Qed.

(** What comes back from the decoder is the text without the byte order
    mark it may begin with. *)
Lemma decode_encode s :
  well_formed s = true ->
  TextDecoder_decode (TextEncoder_encode s)
  = flat_map code_units_of_cp (strip_bom (code_points s)).
Proof.
  intros Hwf. unfold TextDecoder_decode, TextEncoder_encode.
  by rewrite utf8_decode_encode by apply code_points_well_formed, Hwf.
Qed.

(** Encoding then decoding a well-formed text that does not begin with
    U+FEFF gives the text back. *)
Lemma TextDecoder_TextEncoder s :
  well_formed s = true -> head s <> Some 0xFEFF ->
  TextDecoder_decode (TextEncoder_encode s) = s.
Proof.
  intros Hwf Hbom. rewrite decode_encode by exact Hwf.
  transitivity (flat_map code_units_of_cp (code_points s));
    [|by apply code_points_well_formed].
  f_equal. destruct s as [|u rest]; [reflexivity|].
  cbn [head] in Hbom. cbn [code_points well_formed] in *.
  destruct (is_high_surrogate u) eqn:Hhi.
  - destruct rest as [|l rest']; [discriminate|].
    apply andb_prop in Hwf as [-> _]. cbn [strip_bom].
    unfold is_high_surrogate in Hhi.
    apply andb_prop in Hhi as [?%N.leb_le ?%N.leb_le].
    destruct (N.eqb_spec (0x10000 + (u - 0xD800) * 0x400 + (l - 0xDC00)) 0xFEFF);
      [lia|reflexivity].
  - destruct (is_low_surrogate u); [discriminate|]. cbn [strip_bom].
    destruct (N.eqb_spec u 0xFEFF); [congruence|reflexivity].
Qed.

(** A leading U+FEFF does not come back. *)
Lemma TextDecoder_TextEncoder_bom s :
  well_formed s = true ->
  TextDecoder_decode (TextEncoder_encode (0xFEFF :: s)) = s.
Proof.
  intros Hwf. rewrite decode_encode by exact Hwf.
  cbn [code_points]. change (is_high_surrogate 0xFEFF) with false.
  change (is_low_surrogate 0xFEFF) with false. cbn [strip_bom N.eqb Pos.eqb].
  by apply code_points_well_formed.
Qed.

End EncodingFacts.

(** ** Base64 and tokens *)

Module Base64Facts.
Import Base64.

(** A character of the standard alphabet is no white space and no padding,
    and has the sextet it was made from. *)
Lemma b64_char_value v :
  v < 64 ->
  is_ascii_whitespace (b64_char v) = false
  /\ (b64_char v =? 61) = false
  /\ b64_value (b64_char v) = Some v.
Proof.
  intros Hv. unfold b64_char, is_ascii_whitespace, b64_value.
  bool_lia; repeat split; try reflexivity; f_equal; lia.
Qed.

(** One turn of the decoding loop on a character of the alphabet. *)
Lemma loop_char chunk v rest :
  v < 64 ->
  fromBase64_loop chunk (b64_char v :: rest)
  = match chunk with
    | [x; y; z] =>
        match fromBase64_loop [] rest with
        | Some bytes => Some (decode_chunk [x; y; z; v] ++ bytes)
        | None => None
        end
    | _ => fromBase64_loop (chunk ++ [v]) rest
    end.
Proof.
  intros Hv. destruct (b64_char_value v Hv) as (Hws & Hpad & Hval).
  cbn [fromBase64_loop]. by rewrite Hws, Hpad, Hval.
Qed.

(** The four sextets of three bytes, and the bytes of the sextets. *)
Lemma sextets a b c :
  a < 256 -> b < 256 -> c < 256 ->
  a / 4 < 64 /\ (a mod 4) * 16 + b / 16 < 64 /\ (b mod 16) * 4 + c / 64 < 64
  /\ c mod 64 < 64 /\ (a mod 4) * 16 < 64 /\ (b mod 16) * 4 < 64.
Proof. intros. repeat split; div_lia. Qed.

Lemma regroup a b c :
  a < 256 -> b < 256 -> c < 256 ->
  a / 4 * 4 + ((a mod 4) * 16 + b / 16) / 16 = a
  /\ (((a mod 4) * 16 + b / 16) mod 16) * 16 + ((b mod 16) * 4 + c / 64) / 4 = b
  /\ (((b mod 16) * 4 + c / 64) mod 4) * 64 + c mod 64 = c.
Proof. intros. repeat split; div_lia. Qed.

(** Decoding what [toBase64] made gives the bytes back. *)
Lemma fromBase64_toBase64 bs : fromBase64 (toBase64 bs) = Some bs.
Proof.
  unfold fromBase64.
  induction bs as [bs IH] using (induction_ltof1 _ (@length byte)); unfold ltof in IH.
  destruct bs as [|a [|b [|c rest]]]; [reflexivity|..]; cbn [toBase64].
  - pose proof (to_N_lt a) as Ha.
    destruct (sextets _ 0 0 Ha) as (?&?&?&?&?&?); [lia..|].
    destruct (regroup _ 0 0 Ha) as (Ea&_&_); [lia..|].
    rewrite !loop_char by assumption. cbn.
    replace ((Byte.to_N a mod 4) * 16 + 0 / 16) with ((Byte.to_N a mod 4) * 16) in Ea
      by (change (0 / 16) with 0; lia).
    by rewrite Ea, byte_of_to_N.
  - pose proof (to_N_lt a) as Ha. pose proof (to_N_lt b) as Hb.
    destruct (sextets _ _ 0 Ha Hb) as (?&?&?&?&?&?); [lia|].
    destruct (regroup _ _ 0 Ha Hb) as (Ea&Eb&_); [lia|].
    rewrite !loop_char by assumption. cbn.
    replace ((Byte.to_N b mod 16) * 4 + 0 / 64) with ((Byte.to_N b mod 16) * 4) in Eb
      by (change (0 / 64) with 0; lia).
    by rewrite Ea, Eb, !byte_of_to_N.
  - pose proof (to_N_lt a) as Ha. pose proof (to_N_lt b) as Hb.
    pose proof (to_N_lt c) as Hc.
    destruct (sextets _ _ _ Ha Hb Hc) as (?&?&?&?&?&?).
    destruct (regroup _ _ _ Ha Hb Hc) as (Ea&Eb&Ec).
    rewrite !loop_char by assumption. cbn [app].
    rewrite IH by (cbn; lia). cbn [decode_chunk].
    by rewrite Ea, Eb, Ec, !byte_of_to_N.
Qed.

(** [toBase64] writes characters of the alphabet and padding only. *)
Lemma b64_char_alphabet v : is_base64_char (b64_char v) = true.
Proof. unfold b64_char. bool_lia; unfold is_base64_char; bool_lia; reflexivity. Qed.

Lemma toBase64_alphabet bs : forallb is_base64_char (toBase64 bs) = true.
Proof.
  induction bs as [bs IH] using (induction_ltof1 _ (@length byte)); unfold ltof in IH.
  destruct bs as [|a [|b [|c rest]]]; [reflexivity|..];
    cbn [toBase64 forallb]; rewrite ?b64_char_alphabet; try reflexivity.
  rewrite IH by (cbn; lia). reflexivity.
Qed.

End Base64Facts.

(** The two replacements of [of_token] undo the two of [to_token] on the
    characters [toBase64] produces, none of which is [-] or [_]. *)
Lemma replace_back c :
  is_base64_char c = true ->
  (let c1 := if c =? 43 then 45 else c in
   let c2 := if c1 =? 47 then 95 else c1 in
   let c3 := if c2 =? 45 then 43 else c2 in
   if c3 =? 95 then 47 else c3) = c.
Proof.
  unfold is_base64_char. cbv zeta. intros H.
  destruct (N.eqb_spec c 43) as [E|]; [by rewrite E|].
  destruct (N.eqb_spec c 47) as [E|]; [by rewrite E|].
  destruct (N.eqb_spec c 45) as [E|]; [by rewrite E in H|].
  destruct (N.eqb_spec c 95) as [E|]; [by rewrite E in H|reflexivity].
Qed.

(** A token decodes to the bytes it was made from. *)
Lemma of_token_to_token bs : of_token (to_token bs) = Some bs.
Proof.
  unfold of_token, to_token, replace_char. rewrite !map_map.
  transitivity (Base64.fromBase64 (Base64.toBase64 bs));
    [|apply Base64Facts.fromBase64_toBase64].
  f_equal. pose proof (Base64Facts.toBase64_alphabet bs) as Hall.
  induction (Base64.toBase64 bs) as [|c l IH]; [reflexivity|].
  cbn [forallb] in Hall. apply andb_prop in Hall as [Hc Hl].
  cbn [map]. f_equal; [by apply replace_back|by apply IH].
Qed.

(** The characters of a token are letters, digits, [-], [_] and [=]. *)
Lemma to_token_alphabet bs : forallb is_token_char (to_token bs) = true.
Proof.
  unfold to_token, replace_char. rewrite map_map.
  pose proof (Base64Facts.toBase64_alphabet bs) as Hall.
  induction (Base64.toBase64 bs) as [|c l IH]; [reflexivity|].
  cbn [forallb] in Hall. apply andb_prop in Hall as [Hc Hl].
  cbn [map forallb]. rewrite IH by exact Hl. rewrite andb_true_r.
  destruct (N.eqb_spec c 43) as [E|]; [reflexivity|]. cbv beta iota.
  destruct (N.eqb_spec c 47) as [E|]; [reflexivity|].
  revert Hc. unfold is_base64_char, is_token_char.
  bool_lia; try reflexivity; try discriminate.
Qed.

(** None of them needs percent-encoding in a fragment. *)
Lemma token_char_fragment_safe c : is_token_char c = true -> is_fragment_char c = true.
Proof.
  unfold is_token_char, is_fragment_char.
  bool_lia; try reflexivity; try discriminate.
Qed.

(** ** The platform of the scenarios keeps the laws *)

Lemma strip_prefix_app p l : Demo.strip_prefix p (p ++ l) = Some l.
Proof.
  induction p as [|a p IH]; [reflexivity|]. cbn.
  by rewrite Byte.byte_dec_lb.
Qed.

#[local] Existing Instance Demo.platform.

(** The platform of the scenarios is a lawful platform. *)
Lemma demo_laws : PlatformLaws Demo.platform.
Proof.
  split.
  - reflexivity.
  - intros k iv m _. by eexists.
  - intros k iv m c [= <-]. cbn. unfold Demo.gcm_decrypt.
    by rewrite (app_assoc k iv m), strip_prefix_app.
Qed.

(** ** The compression codec and the encryption codec *)

Section CodecFacts.
Context {P : Platform} {L : PlatformLaws P}.

(** Decompressing a compressed text gives what the text decoder makes of
    its UTF-8 bytes. *)
Lemma decompress_compress_decoded s :
  decompress (compress s)
  = Some (Encoding.TextDecoder_decode (Encoding.TextEncoder_encode s)).
Proof.
  unfold decompress, compress.
  by rewrite of_token_to_token, inflate_deflate.
Qed.

(** A compressed text is made of letters, digits, [-], [_] and [=], which
    a URL fragment holds without percent-encoding. *)
Lemma compress_fragment_safe s :
  forallb is_token_char (compress s) = true
  /\ forallb is_fragment_char (compress s) = true.
Proof.
  pose proof (to_token_alphabet (deflate_raw (Encoding.TextEncoder_encode s))) as H.
  split; [exact H|]. unfold compress.
  induction (to_token _) as [|c l IH]; [reflexivity|].
  cbn [forallb] in *. apply andb_prop in H as [Hc Hl].
  by rewrite (token_char_fragment_safe c Hc), IH.
Qed.

(** The key of a password is the same whether the salt is given as bytes or
    as the token of these bytes. *)
Lemma deriveKey_token password salt :
  deriveKey password (ArgString (to_token salt))
  = deriveKey password (ArgBytes salt).
Proof. unfold deriveKey. cbn [bytes_of_arg]. by rewrite of_token_to_token. Qed.

(** Encrypting with a 12-byte nonce succeeds, and decrypting the result
    with the password, salt and nonce returned gives what the text decoder
    makes of the UTF-8 bytes of the text. *)
Lemma decrypt_encrypt_decoded s password salt iv :
  length iv = 12%nat ->
  exists ct,
    aes_gcm_encrypt
      (pbkdf2_sha256 iterations (Encoding.TextEncoder_encode password) salt)
      iv (Encoding.TextEncoder_encode s) = Some ct
    /\ encrypt s password salt iv
       = Some {| encryptedData := to_token ct; enc_salt := to_token salt;
                 enc_iv := to_token iv |}
    /\ decrypt (to_token ct) password (ArgString (to_token salt)) (Some (to_token iv))
       = Some (Encoding.TextDecoder_decode (Encoding.TextEncoder_encode s)).
Proof.
  intros Hiv.
  destruct (gcm_encrypt_iv12
              (pbkdf2_sha256 iterations (Encoding.TextEncoder_encode password) salt)
              iv (Encoding.TextEncoder_encode s) Hiv) as [ct Hct].
  exists ct. split; [exact Hct|]. split.
  - unfold encrypt, deriveKey, encryptWithKey. cbn [bytes_of_arg token_of_arg].
    by rewrite Hct.
  - unfold decrypt. rewrite deriveKey_token. unfold deriveKey, decryptWithKey.
    cbn [bytes_of_arg]. rewrite !of_token_to_token.
    by rewrite (gcm_decrypt_encrypt _ _ _ _ Hct).
Qed.

(** A text that begins with U+FEFF comes back from the compression codec
    without it, on every platform. *)
Lemma decompress_compress_FEFF s :
  well_formed s = true -> decompress (compress (0xFEFF :: s)) = Some s.
Proof.
  intros Hwf. rewrite decompress_compress_decoded.
  by rewrite EncodingFacts.TextDecoder_TextEncoder_bom.
Qed.

(** C6 (as amended).  For every well-formed text [s] that does not begin
    with U+FEFF, [decompress(compress(s))] is [s]; so it is for the empty
    text.  For every text whatever, the token [compress] returns is made of
    letters, digits, [-], [_] and [=], characters a URL fragment holds
    without percent-encoding. *)
Theorem compress_round_trip :
  (forall s : jsstring,
     well_formed s = true -> head s <> Some 0xFEFF ->
     decompress (compress s) = Some s)
  /\ decompress (compress []) = Some []
  /\ (forall s : jsstring,
        forallb is_token_char (compress s) = true
        /\ forallb is_fragment_char (compress s) = true).
Proof.
  assert (H : forall s : jsstring,
            well_formed s = true -> head s <> Some 0xFEFF ->
            decompress (compress s) = Some s).
  { intros s Hwf Hbom. rewrite decompress_compress_decoded.
    by rewrite EncodingFacts.TextDecoder_TextEncoder. }
  split; [exact H|]. split; [by apply H|]. apply compress_fragment_safe.
Qed.

(** A text that begins with U+FEFF is decrypted without it, on every
    platform. *)
Lemma decrypt_encrypt_FEFF s password salt iv :
  length iv = 12%nat -> well_formed s = true ->
  exists e,
    encrypt (0xFEFF :: s) password salt iv = Some e
    /\ decrypt (encryptedData e) password (ArgString (enc_salt e)) (Some (enc_iv e))
       = Some s.
Proof.
  intros Hiv Hwf.
  destruct (decrypt_encrypt_decoded (0xFEFF :: s) password salt iv Hiv)
    as (ct & _ & He & Hd).
  eexists. split; [exact He|]. cbn [encryptedData enc_salt enc_iv].
  by rewrite Hd, EncodingFacts.TextDecoder_TextEncoder_bom.
Qed.

(** C7 (as amended).  For every well-formed text [s] that does not begin
    with U+FEFF and every password [p], [encrypt(s, p)], with the salt and
    the 12-byte nonce it draws, returns a token that
    [decrypt(token, p, salt, iv)] turns back into [s], where [salt] and
    [iv] are the ones [encrypt] returned. *)
Theorem encrypt_round_trip (s password : jsstring) (salt iv : list byte) :
  length iv = 12%nat -> well_formed s = true -> head s <> Some 0xFEFF ->
  exists e,
    encrypt s password salt iv = Some e
    /\ decrypt (encryptedData e) password (ArgString (enc_salt e)) (Some (enc_iv e))
       = Some s.
Proof.
  intros Hiv Hwf Hbom.
  destruct (decrypt_encrypt_decoded s password salt iv Hiv) as (ct & _ & He & Hd).
  eexists. split; [exact He|]. cbn [encryptedData enc_salt enc_iv].
  by rewrite Hd, EncodingFacts.TextDecoder_TextEncoder.
Qed.

End CodecFacts.

(** The text [hello] and the empty text, compressed and decompressed. *)
Lemma compress_round_trip_witness :
  decompress (compress (js "hello")) = Some (js "hello")
  /\ decompress (compress []) = Some []
  /\ forallb is_fragment_char (compress (js "hello")) = true.
Proof.
  destruct (@compress_round_trip _ demo_laws) as (H1 & H2 & H3).
  split; [apply H1; [reflexivity|discriminate]|].
  split; [exact H2|apply H3].
Defined.

(** The text [hi] after U+FEFF is well formed and comes back as [hi]; the
    claim as it stands fails. *)
Lemma compress_round_trip_counterexample :
  well_formed (0xFEFF :: js "hi") = true
  /\ decompress (compress (0xFEFF :: js "hi")) = Some (js "hi")
  /\ ~ (forall P : Platform, PlatformLaws P ->
        forall s : jsstring,
          well_formed s = true -> decompress (compress s) = Some s).
Proof.
  split; [reflexivity|]. split; [vm_compute; reflexivity|].
  intros H. specialize (H _ demo_laws (0xFEFF :: js "hi") eq_refl).
  rewrite (@decompress_compress_FEFF _ demo_laws (js "hi") eq_refl) in H.
  discriminate H.
Qed.

(** The text [hello] encrypted under [secret] and decrypted. *)
Lemma encrypt_round_trip_witness :
  length Demo.iv1 = 12%nat /\ well_formed (js "hello") = true
  /\ head (js "hello") <> Some 0xFEFF
  /\ exists e,
      encrypt (js "hello") (js "secret") Demo.salt1 Demo.iv1 = Some e
      /\ decrypt (encryptedData e) (js "secret") (ArgString (enc_salt e))
           (Some (enc_iv e)) = Some (js "hello").
Proof.
  assert (H1 : length Demo.iv1 = 12%nat) by reflexivity.
  assert (H2 : well_formed (js "hello") = true) by reflexivity.
  assert (H3 : head (js "hello") <> Some 0xFEFF) by discriminate.
  split; [exact H1|]. split; [exact H2|]. split; [exact H3|].
  exact (@encrypt_round_trip _ demo_laws (js "hello") (js "secret")
           Demo.salt1 Demo.iv1 H1 H2 H3).
Defined.

(** The text [hi] after U+FEFF is decrypted as [hi], and an unpaired
    surrogate is decrypted as U+FFFD; the claim as it stands fails. *)
Lemma encrypt_round_trip_counterexample :
  (encrypt (0xFEFF :: js "hi") (js "secret") Demo.salt1 Demo.iv1
   ≫= fun e =>
     decrypt (encryptedData e) (js "secret") (ArgString (enc_salt e))
       (Some (enc_iv e))) = Some (js "hi")
  /\ (encrypt [0xD800] (js "secret") Demo.salt1 Demo.iv1
      ≫= fun e =>
        decrypt (encryptedData e) (js "secret") (ArgString (enc_salt e))
          (Some (enc_iv e))) = Some [0xFFFD]
  /\ ~ (forall P : Platform, PlatformLaws P ->
        forall (s password : jsstring) (salt iv : list byte),
          length iv = 12%nat ->
          exists e,
            encrypt s password salt iv = Some e
            /\ decrypt (encryptedData e) password (ArgString (enc_salt e))
                 (Some (enc_iv e)) = Some s).
Proof.
  split; [vm_compute; reflexivity|]. split; [vm_compute; reflexivity|].
  intros H.
  destruct (H _ demo_laws (0xFEFF :: js "hi") (js "secret") Demo.salt1 Demo.iv1
              eq_refl) as (e & He & Hd).
  destruct (@decrypt_encrypt_FEFF _ demo_laws (js "hi") (js "secret")
              Demo.salt1 Demo.iv1 eq_refl eq_refl) as (e' & He' & Hd').
  rewrite He in He'. injection He' as <-. rewrite Hd in Hd'. discriminate Hd'.
Qed.

(** ** The note store *)

Lemma jseqb_eq s t : Text.jseqb s t = true <-> s = t.
Proof.
  revert t. induction s as [|a s IH]; intros [|b t]; cbn; try (split; congruence).
  rewrite andb_true_iff, N.eqb_eq, IH. split; [intros [-> ->]|intros [= -> ->]]; done.
Qed.

Lemma jseqb_refl s : Text.jseqb s s = true.
Proof. by apply jseqb_eq. Qed.

Lemma jseqb_neq s t : Text.jseqb s t = false <-> s <> t.
Proof.
  rewrite <- jseqb_eq. destruct (Text.jseqb s t); split; congruence.
Qed.

Section StoreFacts.
Context {P : Platform}.

(** The test [n.id === x]. *)
Lemma has_id_eq x n : has_id x n = true <-> x = Some (Note.id n).
Proof.
  destruct x as [i|]; cbn; [|split; congruence].
  rewrite jseqb_eq. split; congruence.
Qed.

Lemma find_from_Some p k l i n :
  find_from p k l = Some (i, n) ->
  (k <= i)%nat /\ l !! (i - k)%nat = Some n /\ p n = true.
Proof.
  revert k. induction l as [|m l IH]; intros k; cbn; [discriminate|].
  destruct (p m) eqn:Hm.
  - intros [= -> ->]. by rewrite Nat.sub_diag.
  - intros H. destruct (IH _ H) as (Hle & Hl & Hp).
    split; [lia|]. split; [|exact Hp].
    replace (i - k)%nat with (S (i - S k)) by lia. exact Hl.
Qed.

(** [find] gives a note of the collection, at its place, that satisfies the
    test. *)
Lemma find_Some p l i n :
  find p l = Some (i, n) -> l !! i = Some n /\ p n = true.
Proof.
  intros H. destruct (find_from_Some _ _ _ _ _ H) as (_ & Hl & Hp).
  by rewrite Nat.sub_0_r in Hl.
Qed.

(** When [find] gives nothing, no note satisfies the test. *)
Lemma find_from_None p k l :
  find_from p k l = None -> forall n, n ∈ l -> p n = false.
Proof.
  revert k. induction l as [|m l IH]; intros k; cbn.
  - intros _ n Hn. by apply elem_of_nil in Hn.
  - destruct (p m) eqn:Hm; [discriminate|].
    intros H n [->|Hn]%elem_of_cons; [exact Hm|by eapply IH].
Qed.

Lemma find_None p l : find p l = None -> forall n, n ∈ l -> p n = false.
Proof. apply find_from_None. Qed.

Lemma find_from_insert p k l i n n' :
  find_from p k l = Some (i, n) -> p n' = true ->
  find_from p k (<[(i - k)%nat := n']> l) = Some (i, n').
Proof.
  revert k. induction l as [|m l IH]; intros k; cbn; [discriminate|].
  destruct (p m) eqn:Hm.
  - intros [= -> ->] Hn'. rewrite Nat.sub_diag. cbn. by rewrite Hn'.
  - intros H Hn'. destruct (find_from_Some _ _ _ _ _ H) as (Hle & _ & _).
    replace (i - k)%nat with (S (i - S k)) by lia. cbn. rewrite Hm. by apply IH.
Qed.

(** After a write to the note that [find] gave, [find] gives the note as
    written, as long as it still satisfies the test. *)
Lemma find_insert p l i n n' :
  find p l = Some (i, n) -> p n' = true ->
  find p (<[i := n']> l) = Some (i, n').
Proof.
  intros H Hn'. pose proof (find_from_insert p 0 l i n n' H Hn') as H'.
  by rewrite Nat.sub_0_r in H'.
Qed.

(** The second half of an autosave writes the note at its place and
    leaves the rest of the manager as it is. *)
Lemma finish_save_notebooks now i note data w :
  notebooks (finish_save now i note data w)
  = <[i := saved_note now (innerText w) data note]> (notebooks w).
Proof. unfold finish_save. by destruct (_ && _). Qed.

Lemma finish_save_fields now i note data w :
  activeId (finish_save now i note data w) = activeId w
  /\ sessionKeys (finish_save now i note data w) = sessionKeys w
  /\ contentEditable (finish_save now i note data w) = contentEditable w
  /\ innerText (finish_save now i note data w) = innerText w
  /\ encryptions (finish_save now i note data w) = encryptions w
  /\ events (finish_save now i note data w) = events w.
Proof. unfold finish_save. by destruct (_ && _). Qed.

End StoreFacts.

Section DeleteFacts.
Context {P : Platform}.

(** Showing the active note changes neither the collection, nor the
    pointer, nor what is persisted. *)
Lemma loadActiveNote_store w :
  notebooks (loadActiveNote w) = notebooks w
  /\ activeId (loadActiveNote w) = activeId w
  /\ mode (loadActiveNote w) = mode w
  /\ storedNotebooks (loadActiveNote w) = storedNotebooks w
  /\ storedActiveId (loadActiveNote w) = storedActiveId w.
Proof.
  unfold loadActiveNote.
  destruct (find _ _) as [[? note]|]; [|done].
  destruct (Note.encrypted note); [done|].
  destruct (Note.content note); [done|].
  by destruct (decompress _).
Qed.

Lemma in_filter (p : Note.t -> bool) l n :
  n ∈ List.filter p l <-> n ∈ l /\ p n = true.
Proof. rewrite !list_elem_of_In. apply filter_In. Qed.

(** [ensureActiveNote] ends with [saveState]. *)
Lemma ensureActiveNote_saved id now w :
  storedNotebooks (ensureActiveNote id now w) = notebooks (ensureActiveNote id now w)
  /\ storedActiveId (ensureActiveNote id now w)
     = Some (default (js "null") (activeId (ensureActiveNote id now w))).
Proof. by unfold ensureActiveNote. Qed.

(** What [ensureActiveNote] leaves when no note is active: the last note of
    the mode, or a new untitled note when the mode has none. *)
Lemma ensureActiveNote_unset id now w :
  activeId w = None ->
  mode (ensureActiveNote id now w) = mode w
  /\ match last (List.filter (in_mode (mode w)) (notebooks w)) with
     | Some recent =>
         notebooks (ensureActiveNote id now w) = notebooks w
         /\ activeId (ensureActiveNote id now w) = Some (Note.id recent)
     | None =>
         notebooks (ensureActiveNote id now w)
         = notebooks w ++ [new_notebook id now (js "Untitled Note") [] (mode w) w]
         /\ activeId (ensureActiveNote id now w) = Some id
     end.
Proof.
  intros Hact. unfold ensureActiveNote. rewrite Hact. cbn [falsy orb].
  destruct (List.filter _ _) as [|m l] eqn:Hf; [done|].
  destruct (last (m :: l)) as [recent|] eqn:Hlast; [done|].
  by apply last_None in Hlast.
Qed.

(** Deleting the active note: the note is filtered out, the pointer is
    reset and re-established, and the new active note is shown. *)
Lemma confirmDelete_active uuid now w id :
  pendingId w = Some id -> id <> [] -> activeId w = Some id ->
  confirmDelete uuid now w
  = set_pendingId None
      (set_deleteModal false
         (loadActiveNote
            (ensureActiveNote uuid now
               (set_activeId None
                  (set_notebooks
                     (List.filter (fun n => negb (has_id (Some id) n)) (notebooks w))
                     w))))).
Proof.
  intros Hpend Hid Hact. unfold confirmDelete. rewrite Hpend.
  destruct id as [|c id]; [done|]. cbn [falsy].
  cbn [activeId pendingId set_notebooks]. rewrite Hact, Hpend.
  cbn [same_id]. by rewrite jseqb_refl.
Qed.

End DeleteFacts.

Section AutosaveFacts.
Context {P : Platform}.

(** The two titles an autosave replaces. *)
Lemma is_default_title_spec title :
  is_default_title title = true
  <-> title = js "Untitled Note" \/ title = js "Shared Note".
Proof. unfold is_default_title. by rewrite orb_true_iff, !jseqb_eq. Qed.

(** An autosave writes one note at most, the active one. *)
Lemma saveAction_notebooks now w :
  notebooks (saveAction now w) = notebooks w
  \/ exists i note data,
       find (has_id (activeId w)) (notebooks w) = Some (i, note)
       /\ notebooks (saveAction now w)
          = <[i := saved_note now (innerText w) data note]> (notebooks w).
Proof.
  unfold saveAction.
  destruct (find _ _) as [[i note]|] eqn:Hfind; [|by left].
  assert (Hsave : forall data w',
    notebooks w' = notebooks w -> innerText w' = innerText w ->
    notebooks (finish_save now i note data w') = notebooks w
    \/ exists i0 note0 data0,
         Some (i, note) = Some (i0, note0)
         /\ notebooks (finish_save now i note data w')
            = <[i0 := saved_note now (innerText w) data0 note0]> (notebooks w)).
  { intros data w' Hn Ht. right. exists i, note, data.
    split; [reflexivity|]. by rewrite finish_save_notebooks, Hn, Ht. }
  destruct (contentEditable w); [by left| |].
  all: destruct (Note.encrypted note); [|by apply Hsave].
  all: destruct (sessionKeys w !! Note.id note); [|by left].
  all: destruct (encryptWithKey _ _ _ _); [by apply Hsave|by left].
Qed.

(** When the autosave is carried out it writes the active note. *)
Lemma saveAction_proceeds now w i note :
  find (has_id (activeId w)) (notebooks w) = Some (i, note) ->
  contentEditable w <> ce_false ->
  save_proceeds w note ->
  exists data,
    notebooks (saveAction now w)
    = <[i := saved_note now (innerText w) data note]> (notebooks w).
Proof.
  intros Hfind Hed Hgo. unfold saveAction. rewrite Hfind.
  destruct Hgo as [Hplain|(key & Hkey & [e He])].
  - rewrite Hplain. eexists.
    destruct (contentEditable w); [done|..]; by rewrite finish_save_notebooks.
  - destruct (Note.encrypted note).
    + rewrite Hkey, He. eexists.
      destruct (contentEditable w); [done|..]; by rewrite finish_save_notebooks.
    + eexists.
      destruct (contentEditable w); [done|..]; by rewrite finish_save_notebooks.
Qed.

Lemma saved_note_title now content data note :
  Note.title (saved_note now content data note)
  = auto_title (Note.title note) content.
Proof. reflexivity. Qed.

End AutosaveFacts.

Section NonceFacts.
Context {P : Platform}.

(** One autosave of an unlocked encrypted note: it encrypts with the
    session key and the nonce stored in the note, and leaves the nonce, the
    key and the surface as they are. *)
Lemma saveAction_encrypted now w i note key ivs ivBytes ct :
  find (has_id (activeId w)) (notebooks w) = Some (i, note) ->
  contentEditable w <> ce_false ->
  Note.encrypted note = true ->
  sessionKeys w !! Note.id note = Some key ->
  Note.iv note = Some ivs ->
  of_token ivs = Some ivBytes ->
  aes_gcm_encrypt key ivBytes (Encoding.TextEncoder_encode (innerText w)) = Some ct ->
  let note' := saved_note now (innerText w) (to_token ct) note in
  let w' := saveAction now w in
  find (has_id (activeId w')) (notebooks w') = Some (i, note')
  /\ contentEditable w' = contentEditable w
  /\ sessionKeys w' = sessionKeys w
  /\ encryptions w' = encryptions w ++ [(key, ivBytes)]
  /\ notebooks w' = <[i := note']> (notebooks w).
Proof.
  intros Hfind Hed Henc Hkey Hiv Hivb Hct note' w'.
  assert (Hw' : w' = finish_save now i note (to_token ct)
                       (set_encryptions (encryptions w ++ [(key, ivBytes)]) w)).
  { subst w'. unfold saveAction. rewrite Hfind, Henc, Hkey.
    unfold encryptWithKey, used_nonce. rewrite Hiv. cbn [arg_of_field bytes_of_arg].
    rewrite Hivb, Hct. cbn [encryptedData]. by destruct (contentEditable w). }
  rewrite Hw'.
  destruct (finish_save_fields now i note (to_token ct)
              (set_encryptions (encryptions w ++ [(key, ivBytes)]) w))
    as (Ha & Hs & He & _ & Hn & _).
  rewrite Ha, Hs, He, Hn, finish_save_notebooks.
  cbn [activeId sessionKeys contentEditable encryptions notebooks innerText
       set_encryptions].
  split; [|done].
  apply find_insert with (n := note); [exact Hfind|].
  destruct (find_Some _ _ _ _ Hfind) as [_ Hid]. exact Hid.
Qed.

(** C2 (the code departs from the claim).  The claim is that no nonce is
    used twice with a key.  Every autosave of an unlocked encrypted note
    encrypts with the session key and the nonce stored in the note, which
    it never renews: of two autosaves in a row, the first stores the
    ciphertext of its text and the second the ciphertext of its own text,
    both made with the same key and the same nonce, the one the note still
    carries. *)
Theorem autosave_reuses_nonce (w : State) (t1 t2 : N) (text2 : jsstring)
    (i : nat) (note : Note.t) (key : CryptoKey) (ivs : jsstring)
    (ivBytes ct1 ct2 : list byte) :
  find (has_id (activeId w)) (notebooks w) = Some (i, note) ->
  contentEditable w <> ce_false ->
  Note.encrypted note = true ->
  sessionKeys w !! Note.id note = Some key ->
  Note.iv note = Some ivs ->
  of_token ivs = Some ivBytes ->
  aes_gcm_encrypt key ivBytes (Encoding.TextEncoder_encode (innerText w)) = Some ct1 ->
  aes_gcm_encrypt key ivBytes (Encoding.TextEncoder_encode text2) = Some ct2 ->
  let w1 := saveAction t1 w in
  let w2 := saveAction t2 (set_innerText text2 w1) in
  encryptions w2 = encryptions w ++ [(key, ivBytes); (key, ivBytes)]
  /\ exists n1 n2,
       notebooks w1 !! i = Some n1
       /\ Note.content n1 = to_token ct1 /\ Note.iv n1 = Some ivs
       /\ notebooks w2 !! i = Some n2
       /\ Note.content n2 = to_token ct2 /\ Note.iv n2 = Some ivs.
Proof.
  intros Hfind Hed Henc Hkey Hiv Hivb Hct1 Hct2 w1 w2.
  destruct (saveAction_encrypted t1 w i note key ivs ivBytes ct1
              Hfind Hed Henc Hkey Hiv Hivb Hct1)
    as (Hfind1 & Hed1 & Hkey1 & Hlog1 & _).
  fold w1 in Hfind1, Hed1, Hkey1, Hlog1.
  set (note1 := saved_note t1 (innerText w) (to_token ct1) note) in *.
  destruct (saveAction_encrypted t2 (set_innerText text2 w1) i note1 key ivs ivBytes ct2)
    as (Hfind2 & _ & _ & Hlog2 & _).
  - exact Hfind1.
  - change (contentEditable (set_innerText text2 w1)) with (contentEditable w1).
    by rewrite Hed1.
  - exact Henc.
  - change (sessionKeys (set_innerText text2 w1)) with (sessionKeys w1).
    rewrite Hkey1. exact Hkey.
  - exact Hiv.
  - exact Hivb.
  - exact Hct2.
  - fold w2 in Hfind2, Hlog2. split.
    + rewrite Hlog2.
      change (encryptions (set_innerText text2 w1)) with (encryptions w1).
      rewrite Hlog1. by rewrite <- app_assoc.
    + apply find_Some in Hfind1 as [Hn1 _]. apply find_Some in Hfind2 as [Hn2 _].
      eexists _, _. split; [exact Hn1|]. split; [reflexivity|].
      split; [exact Hiv|]. split; [exact Hn2|]. split; [reflexivity|exact Hiv].
Qed.

End NonceFacts.

(** The note of the scenarios, locked with [secret] and unlocked again, is
    edited twice: the nonce drawn when it was locked serves for the lock
    and for both saves, with the same key. *)
Lemma autosave_reuses_nonce_witness :
  let w := set_innerText (js "hello there") Demo.unlocked in
  let key := Demo.pbkdf2 iterations (Encoding.TextEncoder_encode (js "secret")) Demo.salt1 in
  encryptions w = [(key, Demo.iv1)]
  /\ encryptions (saveAction 6 (set_innerText (js "hello again") (saveAction 5 w)))
     = [(key, Demo.iv1); (key, Demo.iv1); (key, Demo.iv1)].
Proof.
  intros w key.
  assert (H0 : encryptions w = [(key, Demo.iv1)]) by (vm_compute; reflexivity).
  split; [exact H0|].
  destruct (autosave_reuses_nonce w 5 6 (js "hello again") 0 Demo.unlocked_note key
              (to_token Demo.iv1) Demo.iv1
              (key ++ Demo.iv1 ++ Encoding.TextEncoder_encode (js "hello there"))
              (key ++ Demo.iv1 ++ Encoding.TextEncoder_encode (js "hello again")))
    as [H _].
  9: { rewrite H, H0. reflexivity. }
  - vm_compute; reflexivity.
  - vm_compute; discriminate.
  - vm_compute; reflexivity.
  - vm_compute; reflexivity.
  - vm_compute; reflexivity.
  - vm_compute; reflexivity.
  - reflexivity.
  - reflexivity.
Defined.

Section SearchFacts.
Context {P : Platform}.




Lemma finish_save_stored now i note data w :
  storedNotebooks (finish_save now i note data w)
  = notebooks (finish_save now i note data w).
Proof. unfold finish_save. by destruct (_ && _). Qed.












End SearchFacts.


Section UnlockFacts.
Context {P : Platform} {L : PlatformLaws P}.

(** C5 (as amended).  When a password that is not empty is confirmed for an
    encrypted note, and both the decryption and the decompression of the
    content fail (or the decompression gives the empty text), the unlock
    answers [Incorrect password!] and changes nothing else: the notes, the
    session keys and the persisted collection are as before. *)
Theorem wrong_password (w : State) (password : jsstring) (salt iv : list byte)
    (i : nat) (note : Note.t) :
  password <> [] ->
  find (has_id (pendingId w)) (notebooks w) = Some (i, note) ->
  Note.encrypted note = true ->
  try_decrypt password note = None ->
  decompress (Note.content note) = None \/ decompress (Note.content note) = Some [] ->
  let w' := confirmUnlock password salt iv w in
  w' = log (alert "Incorrect password!") w
  /\ notebooks w' = notebooks w
  /\ sessionKeys w' = sessionKeys w
  /\ storedNotebooks w' = storedNotebooks w.
Proof.
  intros Hpw Hfind _ Htry Hdec w'.
  assert (Hw' : w' = log (alert "Incorrect password!") w).
  { subst w'. unfold confirmUnlock.
    destruct password as [|c password]; [done|].
    rewrite Hfind, Htry. by destruct Hdec as [-> | ->]. }
  by rewrite Hw'.
Qed.

(** C4 (as amended).  The note to unlock is the active note, it is flagged
    as encrypted, its content does not decrypt but decompresses to a text
    that is not empty, and the password is not empty.  Then the unlock
    encrypts the text under the password with the salt and the nonce it
    draws, stores the three in the note and clears its search cache,
    persists the collection, shows the text on the surface and makes it
    editable, caches the key of the password and the new salt, closes the
    modal and reports the recovery.  The content stored decrypts, with the
    cached key and the stored nonce, to the text as the text codecs carry
    it. *)
Theorem rescue_unlock (w : State) (password : jsstring) (salt iv : list byte)
    (i : nat) (note : Note.t) (text : jsstring) :
  password <> [] ->
  find (has_id (pendingId w)) (notebooks w) = Some (i, note) ->
  has_id (activeId w) note = true ->
  Note.encrypted note = true ->
  try_decrypt password note = None ->
  decompress (Note.content note) = Some text ->
  text <> [] ->
  length iv = 12%nat ->
  let key := pbkdf2_sha256 iterations (Encoding.TextEncoder_encode password) salt in
  let w' := confirmUnlock password salt iv w in
  exists ct note',
    aes_gcm_encrypt key iv (Encoding.TextEncoder_encode text) = Some ct
    /\ note' = Note.set_searchableContent (Some [])
                 (Note.set_iv (Some (to_token iv))
                    (Note.set_salt (Some (to_token salt))
                       (Note.set_content (to_token ct) note)))
    /\ Note.encrypted note' = true
    /\ notebooks w' = <[i := note']> (notebooks w)
    /\ storedNotebooks w' = notebooks w'
    /\ innerText w' = text
    /\ contentEditable w' = ce_plaintext_only
    /\ sessionKeys w' = <[Note.id note := key]> (sessionKeys w)
    /\ pendingId w' = None
    /\ unlockModal w' = false
    /\ events w' = events w ++ [console_warn rescue_warning; alert rescue_success]
    /\ decrypt (Note.content note') password (arg_of_field (Note.salt note'))
         (Note.iv note')
       = Some (Encoding.TextDecoder_decode (Encoding.TextEncoder_encode text)).
Proof.
  intros Hpw Hfind Hactive Henc Htry Hdec Htext Hiv key w'.
  destruct (decrypt_encrypt_decoded text password salt iv Hiv) as (ct & Hct & He & Hd).
  exists ct. eexists. split; [exact Hct|]. split; [reflexivity|].
  split; [exact Henc|].
  assert (Hw' : w' =
    log (alert rescue_success)
      (closeUnlockModal
         (set_sessionKeys (<[Note.id note := key]> (sessionKeys w))
            (saveState
               (set_encryptions (encryptions w ++ [(key, iv)])
                  (set_notebooks
                     (<[i := Note.set_searchableContent (Some [])
                               (Note.set_iv (Some (to_token iv))
                                  (Note.set_salt (Some (to_token salt))
                                     (Note.set_content (to_token ct) note)))]>
                        (notebooks w))
                     (set_contentEditable ce_plaintext_only
                        (set_innerText text
                           (log (console_warn rescue_warning) w))))))))).
  { subst w'. unfold confirmUnlock.
    destruct password as [|c password]; [done|].
    rewrite Hfind, Htry, Hdec. destruct text as [|c' text]; [done|].
    unfold rescue.
    change (activeId (log (console_warn rescue_warning) w)) with (activeId w).
    rewrite Hactive, He. cbn [enc_salt enc_iv encryptedData].
    rewrite deriveKey_token. unfold used_nonce, deriveKey. cbn [bytes_of_arg].
    reflexivity. }
  rewrite Hw'. cbn [notebooks storedNotebooks innerText contentEditable sessionKeys
    pendingId unlockModal events log closeUnlockModal saveState set_events
    set_pendingId set_unlockModal set_sessionKeys set_storedActiveId
    set_storedNotebooks set_encryptions set_notebooks set_contentEditable
    set_innerText].
  rewrite <- app_assoc. repeat (split; [reflexivity|]).
  cbn [Note.content Note.salt Note.iv Note.set_searchableContent Note.set_iv
       Note.set_salt Note.set_content arg_of_field].
  exact Hd.
Qed.

End UnlockFacts.

(** The locked note of the scenarios is unlocked with the password
    [wrong]. *)
Lemma wrong_password_witness :
  js "wrong" <> []
  /\ find (has_id (pendingId Demo.reloaded)) (notebooks Demo.reloaded)
     = Some (0%nat, Demo.locked_note)
  /\ try_decrypt (js "wrong") Demo.locked_note = None
  /\ decompress (Note.content Demo.locked_note) = None
  /\ confirmUnlock (js "wrong") Demo.salt2 Demo.iv2 Demo.reloaded
     = log (alert "Incorrect password!") Demo.reloaded.
Proof.
  assert (H1 : js "wrong" <> []) by discriminate.
  assert (H2 : find (has_id (pendingId Demo.reloaded)) (notebooks Demo.reloaded)
               = Some (0%nat, Demo.locked_note)) by (vm_compute; reflexivity).
  assert (H3 : Note.encrypted Demo.locked_note = true) by (vm_compute; reflexivity).
  assert (H4 : try_decrypt (js "wrong") Demo.locked_note = None)
    by (vm_compute; reflexivity).
  assert (H5 : decompress (Note.content Demo.locked_note) = None)
    by (vm_compute; reflexivity).
  destruct (wrong_password Demo.reloaded (js "wrong") Demo.salt2 Demo.iv2 0
              Demo.locked_note H1 H2 H3 H4 (or_introl H5)) as [H _].
  split; [exact H1|]. split; [exact H2|]. split; [exact H4|]. split; [exact H5|].
  exact H.
Defined.

(** With the empty password nothing is tried and nothing is answered,
    although neither the decryption with the key of the empty password nor
    the decompression would succeed. *)
Lemma wrong_password_counterexample :
  find (has_id (pendingId Demo.reloaded)) (notebooks Demo.reloaded)
  = Some (0%nat, Demo.locked_note)
  /\ Note.encrypted Demo.locked_note = true
  /\ try_decrypt [] Demo.locked_note = None
  /\ decompress (Note.content Demo.locked_note) = None
  /\ events (confirmUnlock [] Demo.salt2 Demo.iv2 Demo.reloaded) = []
  /\ confirmUnlock [] Demo.salt2 Demo.iv2 Demo.reloaded
     <> log (alert "Incorrect password!") Demo.reloaded.
Proof.
  split; [vm_compute; reflexivity|]. split; [vm_compute; reflexivity|].
  split; [vm_compute; reflexivity|]. split; [vm_compute; reflexivity|].
  split; [vm_compute; reflexivity|].
  intros H. apply (f_equal events) in H. vm_compute in H. discriminate H.
Qed.

(** The corrupted note of the scenarios is unlocked with a new password. *)
Lemma rescue_unlock_witness :
  let w := Demo.corrupted in
  let w' := confirmUnlock (js "new") Demo.salt2 Demo.iv2 w in
  find (has_id (pendingId w)) (notebooks w) = Some (0%nat, Demo.corrupted_note)
  /\ try_decrypt (js "new") Demo.corrupted_note = None
  /\ decompress (Note.content Demo.corrupted_note) = Some (js "hello")
  /\ innerText w' = js "hello"
  /\ exists note',
       notebooks w' = [note']
       /\ decrypt (Note.content note') (js "new") (arg_of_field (Note.salt note'))
            (Note.iv note') = Some (js "hello").
Proof.
  intros w w'.
  assert (H1 : js "new" <> []) by discriminate.
  assert (H2 : find (has_id (pendingId w)) (notebooks w)
               = Some (0%nat, Demo.corrupted_note)) by (vm_compute; reflexivity).
  assert (H3 : has_id (activeId w) Demo.corrupted_note = true)
    by (vm_compute; reflexivity).
  assert (H4 : Note.encrypted Demo.corrupted_note = true) by (vm_compute; reflexivity).
  assert (H5 : try_decrypt (js "new") Demo.corrupted_note = None)
    by (vm_compute; reflexivity).
  assert (H6 : decompress (Note.content Demo.corrupted_note) = Some (js "hello"))
    by (vm_compute; reflexivity).
  assert (H7 : js "hello" <> []) by discriminate.
  assert (H8 : length Demo.iv2 = 12%nat) by reflexivity.
  destruct (@rescue_unlock _ demo_laws w (js "new") Demo.salt2 Demo.iv2 0
              Demo.corrupted_note (js "hello") H1 H2 H3 H4 H5 H6 H7 H8)
    as (ct & note' & _ & _ & _ & Hn & _ & Ht & _ & _ & _ & _ & _ & Hd).
  split; [exact H2|]. split; [exact H5|]. split; [exact H6|]. split; [exact Ht|].
  exists note'. subst w'. split; [rewrite Hn; vm_compute; reflexivity|].
  rewrite Hd. vm_compute. reflexivity.
Defined.

(** Two runs of the unlock on the corrupted note that leave it as it is:
    with the empty password nothing happens at all; and when another note
    is the active one, the recovery is reported but the note is not
    encrypted anew and no key is cached. *)
Lemma rescue_unlock_counterexample :
  let w := Demo.corrupted in
  let away := set_activeId (Some (js "other")) w in
  notebooks w = [Demo.corrupted_note]
  /\ Note.encrypted Demo.corrupted_note = true
  /\ decompress (Note.content Demo.corrupted_note) = Some (js "hello")
  /\ confirmUnlock [] Demo.salt2 Demo.iv2 w = w
  /\ try_decrypt (js "new") Demo.corrupted_note = None
  /\ notebooks (confirmUnlock (js "new") Demo.salt2 Demo.iv2 away)
     = [Demo.corrupted_note]
  /\ sessionKeys (confirmUnlock (js "new") Demo.salt2 Demo.iv2 away) = ∅
  /\ events (confirmUnlock (js "new") Demo.salt2 Demo.iv2 away)
     = [console_warn rescue_warning; alert rescue_success].
Proof.
  cbv zeta.
  split; [vm_compute; reflexivity|]. split; [vm_compute; reflexivity|].
  split; [vm_compute; reflexivity|]. split; [reflexivity|].
  split; [vm_compute; reflexivity|]. split; [vm_compute; reflexivity|].
  split; vm_compute; reflexivity.
Qed.

Section ImportFacts.
Context {P : Platform}.

(** [find] gives nothing when no note satisfies the test. *)
Lemma find_none_of p (l : list Note.t) :
  (forall n, n ∈ l -> p n = false) -> find p l = None.
Proof.
  unfold find. generalize 0%nat.
  induction l as [|m l IH]; intros k H; [done|]. cbn [find_from].
  rewrite (H m) by apply list_elem_of_here.
  apply IH. intros n Hn. apply H. by apply list_elem_of_further.
Qed.

(** C8 (the code departs from the claim).  The claim is that a link whose
    note has the same stored content as a note of the collection creates
    no note and makes that note the active one.  The page looks instead for
    a note whose content is the fragment itself: when the fragment carries
    the content of an existing note, and no note has the fragment as its
    content, a second note with that content is added, with the metadata
    recovered from the link, and becomes the active one; the unlock modal
    is opened for it when the link says that it is encrypted. *)
Theorem import_duplicates_content (w : State) (uuid : jsstring) (now : N)
    (text : jsstring) (data : SharePayload) (existing : Note.t) :
  (20 < length (locationHash w))%nat ->
  decompress (locationHash w) = Some text ->
  JSON_parse text = Some data ->
  existing ∈ notebooks w ->
  p_c data = Some (Note.content existing) ->
  (forall n, n ∈ notebooks w -> Note.content n <> locationHash w) ->
  let w' := handleUrlParam uuid now w in
  let newNote :=
    import_fields (recover text now)
      (new_notebook uuid now (js "Shared Note") (Note.content existing) (mode w) w) in
  notebooks w' = notebooks w ++ [newNote]
  /\ Note.content newNote = Note.content existing
  /\ Note.id newNote = uuid
  /\ activeId w' = Some uuid
  /\ storedNotebooks w' = notebooks w'
  /\ (p_enc data = true -> unlockModal w' = true /\ pendingId w' = Some uuid).
Proof.
  intros Hlen Hdec Hparse Hin Hc Hnone w' newNote. subst w' newNote.
  unfold handleUrlParam.
  apply Nat.ltb_lt in Hlen. rewrite Hlen, Hdec.
  rewrite find_none_of; [|intros n Hn; by apply jseqb_neq, Hnone].
  assert (Hcontent : r_content (recover text now) = Note.content existing)
    by (unfold recover; by rewrite Hparse, Hc).
  assert (Henc : r_encrypted (recover text now) = p_enc data)
    by (unfold recover; by rewrite Hparse).
  rewrite Hcontent, Henc.
  assert (Halter : forall f (l : list Note.t) x,
            alter f (length l) (l ++ [x]) = l ++ [f x]).
  { intros f l x. replace (length l) with (length l + 0)%nat by lia.
    by rewrite alter_app_r. }
  destruct (p_enc data);
    cbn [notebooks activeId storedNotebooks unlockModal pendingId
         openUnlockModal set_unlockModal set_pendingId
         set_locationHash saveState set_storedActiveId set_storedNotebooks
         set_activeId set_notebooks addNotebook];
    rewrite Halter; done.
Qed.

End ImportFacts.

(** The page of the scenarios is opened with a link that carries the
    stored content of its only note: the collection then holds two notes
    with that content, and the new one is active. *)
Lemma import_duplicates_content_witness :
  let w := Demo.opened in
  (20 < length (locationHash w))%nat
  /\ decompress (locationHash w) = Some Demo.shared_text
  /\ Demo.note1 ∈ notebooks w
  /\ (forall n, n ∈ notebooks w -> Note.content n <> locationHash w)
  /\ exists newNote,
       notebooks (handleUrlParam (js "n2") 8 w) = [Demo.note1; newNote]
       /\ Note.content newNote = Note.content Demo.note1
       /\ activeId (handleUrlParam (js "n2") 8 w) = Some (js "n2").
Proof.
  intros w.
  assert (H1 : (20 < length (locationHash w))%nat) by (vm_compute; lia).
  assert (H2 : decompress (locationHash w) = Some Demo.shared_text)
    by (vm_compute; reflexivity).
  assert (H3 : JSON_parse Demo.shared_text
               = Some {| p_c := Some (Note.content Demo.note1); p_d := None;
                         p_t := None; p_ca := None; p_lm := None; p_enc := false;
                         p_salt := None; p_iv := None |})
    by (vm_compute; reflexivity).
  assert (H4 : Demo.note1 ∈ notebooks w) by apply list_elem_of_here.
  assert (H5 : forall n, n ∈ notebooks w -> Note.content n <> locationHash w).
  { intros n Hn. apply list_elem_of_singleton in Hn. subst n.
    vm_compute. discriminate. }
  destruct (import_duplicates_content w (js "n2") 8 Demo.shared_text _ Demo.note1
              H1 H2 H3 H4 eq_refl H5) as (Hn & Hc & _ & Ha & _).
  split; [exact H1|]. split; [exact H2|]. split; [exact H4|]. split; [exact H5|].
  eexists. split; [exact Hn|]. split; [exact Hc|exact Ha].
Defined.

(** * Further properties of the code *)

(** Projections of the state of the page, of the manager and of a note on
    the values the setters build. *)
Ltac stw :=
  cbn [notebooks activeId mode pendingId paperTheme direction sessionKeys
       storedNotebooks storedActiveId innerText contentEditable documentTitle
       locationHash lockModal unlockModal deleteModal events encryptions
       set_notebooks set_activeId set_pendingId set_paperTheme set_direction
       set_sessionKeys set_storedNotebooks set_storedActiveId set_innerText
       set_contentEditable set_documentTitle set_locationHash set_lockModal
       set_unlockModal set_deleteModal set_events set_encryptions
       log saveState closeLockModal closeUnlockModal openUnlockModal
       updateDocumentTitle encryption_failed incorrect_password
       manager searchQuery activeTag libraryMode pendingWikiTitle plaintextHash
       markdownHash renameInput tagsInput renameModal libraryModal wikiModal
       locationHref set_manager set_searchQuery set_activeTag set_libraryMode
       set_pendingWikiTitle set_plaintextHash set_markdownHash set_renameInput
       set_tagsInput set_renameModal set_libraryModal set_wikiModal
       set_locationHref on_manager] in *.

Ltac st :=
  stw;
  cbn [Note.id Note.title Note.content Note.mode Note.dir Note.paperTheme
       Note.createdAt Note.lastModified Note.encrypted Note.salt Note.iv
       Note.pinned Note.tags Note.searchableContent
       Note.set_title Note.set_content Note.set_dir Note.set_paperTheme
       Note.set_createdAt Note.set_lastModified Note.set_encrypted
       Note.set_salt Note.set_iv Note.set_tags Note.set_searchableContent
       set_pinned] in *.

Section StoreMore.
Context {P : Platform}.

Lemma has_id_set (x : option jsstring) (n n' : Note.t) :
  Note.id n' = Note.id n -> has_id x n' = has_id x n.
Proof. intros E. unfold has_id. by rewrite E. Qed.

End StoreMore.

Lemma mode_eqb_eq a b : mode_eqb a b = true <-> a = b.
Proof. by destruct a, b. Qed.

Lemma mode_eqb_refl a : mode_eqb a a = true.
Proof. by destruct a. Qed.

Section FindMore.
Context {P : Platform}.

Lemma find_from_app p k (l1 l2 : list Note.t) :
  find_from p k (l1 ++ l2)
  = match find_from p k l1 with
    | Some r => Some r
    | None => find_from p (k + length l1) l2
    end.
Proof.
  revert k. induction l1 as [|n l1 IH]; intros k; cbn [app find_from length].
  - by rewrite Nat.add_0_r.
  - destruct (p n); [reflexivity|]. rewrite IH. by rewrite Nat.add_succ_comm.
Qed.

(** A note added at the end is found when no note before it is. *)
Lemma find_snoc p (l : list Note.t) n :
  find p l = None -> p n = true -> find p (l ++ [n]) = Some (length l, n).
Proof.
  intros Hl Hn. unfold find in *. rewrite find_from_app, Hl.
  cbn [find_from Nat.add]. by rewrite Hn.
Qed.

(** A note found stays found when notes are added at the end. *)
Lemma find_app_l p (l1 l2 : list Note.t) r :
  find p l1 = Some r -> find p (l1 ++ l2) = Some r.
Proof. intros H. unfold find in *. by rewrite find_from_app, H. Qed.

Lemma find_ext p q (l : list Note.t) :
  (forall n, p n = q n) -> find p l = find q l.
Proof.
  intros H. unfold find. generalize 0%nat.
  induction l as [|n l IH]; intros k; [reflexivity|].
  cbn [find_from]. rewrite H. by rewrite IH.
Qed.

(** Writing to fields the test does not read moves no note out of or
    into what [find] sees. *)
Lemma find_from_map p (f : Note.t -> Note.t) k (l : list Note.t) :
  (forall n, p (f n) = p n) ->
  find_from p k (map f l)
  = match find_from p k l with
    | Some (i, n) => Some (i, f n)
    | None => None
    end.
Proof.
  intros H. revert k. induction l as [|n l IH]; intros k; [reflexivity|].
  cbn [map find_from]. rewrite H. destruct (p n); [reflexivity|apply IH].
Qed.

Lemma find_is_Some p (l : list Note.t) n :
  n ∈ l -> p n = true -> is_Some (find p l).
Proof.
  intros Hin Hn. destruct (find p l) eqn:E; [by eexists|].
  by rewrite (find_None _ _ E n Hin) in Hn.
Qed.

End FindMore.

(** ** The text codecs on arbitrary strings *)

Module EncodingMore.
Import Encoding.

(** The code points of a string of 16-bit code units are scalar values. *)
Lemma code_points_scalar s :
  Forall (fun u => u < 0x10000) s -> Forall is_scalar (code_points s).
Proof.
  induction s as [s IH] using (induction_ltof1 _ (@length N)); unfold ltof in IH.
  intros Hs. destruct s as [|u rest]; [constructor|].
  apply Forall_cons in Hs as [Hu Hrest]. cbn [code_points].
  assert (Hfffd : is_scalar 0xFFFD) by (split; lia).
  destruct (is_high_surrogate u) eqn:Hhi.
  - unfold is_high_surrogate in Hhi.
    apply andb_prop in Hhi as [?%N.leb_le ?%N.leb_le].
    destruct rest as [|l rest']; [constructor; [exact Hfffd|constructor]|].
    destruct (is_low_surrogate l) eqn:Hlo.
    + unfold is_low_surrogate in Hlo.
      apply andb_prop in Hlo as [?%N.leb_le ?%N.leb_le].
      apply Forall_cons in Hrest as [_ Hrest'].
      constructor; [split; lia|]. apply IH; [cbn; lia|exact Hrest'].
    + constructor; [exact Hfffd|]. apply IH; [cbn; lia|exact Hrest].
  - destruct (is_low_surrogate u) eqn:Hlo.
    + constructor; [exact Hfffd|]. apply IH; [cbn; lia|exact Hrest].
    + constructor; [|apply IH; [cbn; lia|exact Hrest]].
      split; [lia|]. unfold is_high_surrogate, is_low_surrogate in Hhi, Hlo.
      intros [? ?].
      destruct (N.leb_spec 0xD800 u), (N.leb_spec u 0xDBFF),
        (N.leb_spec 0xDC00 u), (N.leb_spec u 0xDFFF); cbn in *; try discriminate; lia.
Qed.

(** The code units of scalar values are well-formed. *)
Lemma code_units_well_formed cps :
  Forall is_scalar cps -> well_formed (flat_map code_units_of_cp cps) = true.
Proof.
  induction 1 as [|c cps [Hlt Hns] _ IH]; [reflexivity|].
  cbn [flat_map]. unfold code_units_of_cp at 1.
  destruct (N.ltb_spec c 0x10000) as [Hc|Hc]; cbn [app well_formed].
  - assert (is_high_surrogate c = false) as ->
      by (unfold is_high_surrogate; bool_lia; reflexivity).
    assert (is_low_surrogate c = false) as ->
      by (unfold is_low_surrogate; bool_lia; reflexivity).
    apply N.ltb_lt in Hc. by rewrite Hc, IH.
  - assert (Hq : (c - 0x10000) / 0x400 < 0x400) by div_lia.
    assert (Hr : (c - 0x10000) mod 0x400 < 0x400) by div_lia.
    generalize dependent ((c - 0x10000) / 0x400).
    generalize dependent ((c - 0x10000) mod 0x400). intros r Hr q Hq.
    assert (is_high_surrogate (0xD800 + q) = true) as ->
      by (unfold is_high_surrogate; bool_lia; reflexivity).
    assert (is_low_surrogate (0xDC00 + r) = true) as ->
      by (unfold is_low_surrogate; bool_lia; reflexivity).
    by rewrite IH.
Qed.

Lemma strip_bom_scalar cps : Forall is_scalar cps -> Forall is_scalar (strip_bom cps).
Proof.
  intros H. destruct H as [|c cps Hc Hcps]; [constructor|].
  cbn [strip_bom]. destruct (c =? 0xFEFF); [exact Hcps|by constructor].
Qed.

(** What comes back from the decoder, for every string. *)
Lemma decode_encode_any s :
  Forall (fun u => u < 0x10000) s ->
  TextDecoder_decode (TextEncoder_encode s)
  = flat_map code_units_of_cp (strip_bom (code_points s)).
Proof.
  intros Hs. unfold TextDecoder_decode, TextEncoder_encode.
  by rewrite EncodingFacts.utf8_decode_encode by apply code_points_scalar, Hs.
Qed.

(** It is the string itself for the well-formed strings that do not begin
    with U+FEFF, and for no other. *)
Lemma decode_encode_fixed s :
  Forall (fun u => u < 0x10000) s ->
  let r := flat_map code_units_of_cp (strip_bom (code_points s)) in
  well_formed r = true
  /\ (r = s <-> well_formed s = true /\ head s <> Some 0xFEFF).
Proof.
  intros Hs r.
  assert (Hr : well_formed r = true)
    by apply code_units_well_formed, strip_bom_scalar, code_points_scalar, Hs.
  split; [exact Hr|]. split.
  - intros E. assert (Hwf : well_formed s = true) by (by rewrite <- E).
    split; [exact Hwf|]. intros Hhead.
    destruct s as [|u s']; [discriminate|]. cbn [head] in Hhead.
    injection Hhead as ->.
    assert (Hwf' : well_formed s' = true) by exact Hwf.
    pose proof (EncodingFacts.TextDecoder_TextEncoder_bom s' Hwf') as Hb.
    rewrite decode_encode_any in Hb by exact Hs. fold r in Hb.
    rewrite E in Hb. apply (f_equal (@length N)) in Hb. cbn in Hb. lia.
  - intros [Hwf Hhead]. unfold r.
    rewrite <- (decode_encode_any s Hs).
    by apply EncodingFacts.TextDecoder_TextEncoder.
Qed.

End EncodingMore.

Section CodecMore.
Context {P : Platform} {L : PlatformLaws P}.

(** X1.  Compressing and then decompressing never fails.  What comes back
    is the string with every unpaired surrogate replaced by U+FFFD and
    without the U+FEFF it may begin with: a well-formed string, which is
    the string that went in exactly when that one is well-formed and does
    not begin with U+FEFF. *)
Theorem decompress_compress_any (s : jsstring) :
  Forall (fun u => u < 0x10000) s ->
  exists r,
    decompress (compress s) = Some r
    /\ r = flat_map Encoding.code_units_of_cp
             (Encoding.strip_bom (Encoding.code_points s))
    /\ well_formed r = true
    /\ (r = s <-> well_formed s = true /\ head s <> Some 0xFEFF).
Proof.
  intros Hs. eexists. split; [|split; [reflexivity|]].
  - rewrite decompress_compress_decoded.
    by rewrite EncodingMore.decode_encode_any by exact Hs.
  - by apply EncodingMore.decode_encode_fixed.
Qed.

End CodecMore.

Lemma decompress_compress_any_witness :
  Forall (fun u => u < 0x10000) [0xD800; 104; 105]
  /\ decompress (compress [0xD800; 104; 105]) = Some [0xFFFD; 104; 105].
Proof.
  assert (H : Forall (fun u => u < 0x10000) [0xD800; 104; 105])
    by (repeat constructor).
  split; [exact H|].
  destruct (decompress_compress_any (L := demo_laws) _ H) as (r & -> & -> & _).
  vm_compute. reflexivity.
Defined.
(** ** The base64 methods of the polyfill *)

Module PolyfillFacts.
Import Base64.

Local Abbreviation nws := (fun c : N => negb (is_ascii_whitespace c)).

Lemma binary_string (l : list byte) acc :
  fold_left (fun binary b => binary ++ [Byte.to_N b]) l acc
  = acc ++ map Byte.to_N l.
Proof.
  revert acc. induction l as [|b l IH]; intros acc; cbn [fold_left map].
  - by rewrite app_nil_r.
  - rewrite IH. by rewrite <- app_assoc.
Qed.

Lemma bytes_of_binary (l : list byte) : map byte_of_N (map Byte.to_N l) = l.
Proof.
  induction l as [|b l IH]; [reflexivity|].
  cbn [map]. by rewrite byte_of_to_N, IH.
Qed.

Lemma binary_latin1 (l : list byte) :
  forallb (fun c => c <=? 0xFF) (map Byte.to_N l) = true.
Proof.
  induction l as [|b l IH]; [reflexivity|]. cbn [map forallb]. rewrite IH.
  pose proof (to_N_lt b). destruct (N.leb_spec (Byte.to_N b) 0xFF); [reflexivity|lia].
Qed.

(** The encoder of the polyfill never throws and gives what the method of
    the platform gives. *)
Lemma toBase64_agrees bs : Polyfill.toBase64 bs = Some (toBase64 bs).
Proof.
  unfold Polyfill.toBase64, Polyfill.btoa. rewrite binary_string. cbn [app].
  by rewrite binary_latin1, bytes_of_binary.
Qed.

(** *** White space *)

Lemma skip_ws_nil r : skip_ws r = [] <-> List.filter nws r = [].
Proof.
  induction r as [|c r IH]; [done|]. cbn [skip_ws List.filter].
  destruct (is_ascii_whitespace c); cbn [negb]; [exact IH|done].
Qed.

Lemma skip_ws_cons r c r2 :
  skip_ws r = c :: r2 ->
  is_ascii_whitespace c = false /\ List.filter nws r = c :: List.filter nws r2.
Proof.
  induction r as [|x r IH]; [done|]. cbn [skip_ws List.filter].
  destruct (is_ascii_whitespace x) eqn:Hx; cbn [negb]; [exact IH|].
  intros [= -> ->]. done.
Qed.

Lemma skip_ws_filter r : skip_ws (List.filter nws r) = List.filter nws r.
Proof.
  induction r as [|x r IH]; [done|]. cbn [List.filter].
  destruct (is_ascii_whitespace x) eqn:Hx; cbn [negb]; [exact IH|].
  cbn [skip_ws]. by rewrite Hx.
Qed.

(** The decoding loop does not see white space. *)
Lemma loop_filter s chunk :
  fromBase64_loop chunk s = fromBase64_loop chunk (List.filter nws s).
Proof.
  revert chunk. induction s as [|c s IH]; intros chunk; [done|].
  cbn [List.filter fromBase64_loop].
  destruct (is_ascii_whitespace c) eqn:Hc; cbn [negb]; [apply IH|].
  cbn [fromBase64_loop]. rewrite Hc.
  destruct (c =? 61).
  - rewrite skip_ws_filter.
    destruct chunk as [|x [|y [|z [|]]]]; try reflexivity.
    + destruct (skip_ws s) as [|c2 r2] eqn:Hs.
      * apply skip_ws_nil in Hs. by rewrite Hs.
      * apply skip_ws_cons in Hs as [_ ->].
        destruct (c2 =? 61); [|reflexivity]. rewrite skip_ws_filter.
        destruct (skip_ws r2) as [|c3 r3] eqn:Hr.
        -- apply skip_ws_nil in Hr. by rewrite Hr.
        -- by apply skip_ws_cons in Hr as [_ ->].
    + destruct (skip_ws s) as [|c2 r2] eqn:Hs.
      * apply skip_ws_nil in Hs. by rewrite Hs.
      * by apply skip_ws_cons in Hs as [_ ->].
  - destruct (b64_value c); [|reflexivity].
    destruct chunk as [|x [|y [|z [|]]]]; rewrite ?IH; reflexivity.
Qed.

(** *** Characters of the alphabet *)

Lemma alphabet_value c :
  Polyfill.is_base64_alphabet c = true ->
  exists v, b64_value c = Some v /\ c <> 61 /\ is_ascii_whitespace c = false.
Proof.
  unfold Polyfill.is_base64_alphabet.
  destruct (b64_value c) as [v|] eqn:Hv; [|discriminate]. intros _.
  exists v. split; [reflexivity|]. revert Hv.
  unfold b64_value, is_ascii_whitespace. bool_lia; try discriminate; intros _; split; try lia; reflexivity.
Qed.

Lemma omap_value c v body :
  b64_value c = Some v -> omap b64_value (c :: body) = v :: omap b64_value body.
Proof. intros H. cbn. by rewrite H. Qed.

(** The loop on a run of characters of the alphabet: the bytes of the
    complete groups, and the chunk it goes on with. *)
Lemma loop_body body : forall chunk,
  (length chunk <= 3)%nat ->
  forallb Polyfill.is_base64_alphabet body = true ->
  exists bytes chunk',
    length chunk' = ((length chunk + length body) mod 4)%nat
    /\ Polyfill.decode_sextets chunk (omap b64_value body)
       = bytes ++ decode_chunk chunk'
    /\ forall tail,
         fromBase64_loop chunk (body ++ tail)
         = match fromBase64_loop chunk' tail with
           | Some rest => Some (bytes ++ rest)
           | None => None
           end.
Proof.
  induction body as [|c body IH]; intros chunk Hlen Hall.
  - exists [], chunk. split; [|split].
    + cbn [length]. rewrite Nat.add_0_r.
      destruct chunk as [|x [|y [|z [|]]]]; cbn in *; try reflexivity; lia.
    + reflexivity.
    + intros tail. cbn [app]. by destruct (fromBase64_loop chunk tail).
  - cbn [forallb] in Hall. apply andb_prop in Hall as [Hc Hall].
    destruct (alphabet_value c Hc) as (v & Hv & Hpad & Hws).
    apply N.eqb_neq in Hpad.
    destruct chunk as [|x [|y [|z [|]]]]; cbn [length] in Hlen; try lia.
    + destruct (IH [v]) as (bytes & chunk' & Hl & Hd & Hloop); [cbn; lia|exact Hall|].
      exists bytes, chunk'. split; [|split].
      * rewrite Hl. cbn [length]. f_equal; lia.
      * rewrite (omap_value _ _ _ Hv). cbn [Polyfill.decode_sextets app]. exact Hd.
      * intros tail. cbn [app fromBase64_loop]. rewrite Hws, Hpad, Hv. apply Hloop.
    + destruct (IH [x; v]) as (bytes & chunk' & Hl & Hd & Hloop); [cbn; lia|exact Hall|].
      exists bytes, chunk'. split; [|split].
      * rewrite Hl. cbn [length]. f_equal; lia.
      * rewrite (omap_value _ _ _ Hv). cbn [Polyfill.decode_sextets app]. exact Hd.
      * intros tail. cbn [app fromBase64_loop]. rewrite Hws, Hpad, Hv. apply Hloop.
    + destruct (IH [x; y; v]) as (bytes & chunk' & Hl & Hd & Hloop); [cbn; lia|exact Hall|].
      exists bytes, chunk'. split; [|split].
      * rewrite Hl. cbn [length]. f_equal; lia.
      * rewrite (omap_value _ _ _ Hv). cbn [Polyfill.decode_sextets app]. exact Hd.
      * intros tail. cbn [app fromBase64_loop]. rewrite Hws, Hpad, Hv. apply Hloop.
    + destruct (IH []) as (bytes & chunk' & Hl & Hd & Hloop); [cbn; lia|exact Hall|].
      exists (decode_chunk [x; y; z; v] ++ bytes), chunk'. split; [|split].
      * rewrite Hl. cbn [length].
        replace (3 + S (length body))%nat with (length body + 1 * 4)%nat by lia.
        by rewrite Nat.Div0.mod_add.
      * rewrite (omap_value _ _ _ Hv). cbn [Polyfill.decode_sextets]. rewrite Hd.
        by rewrite app_assoc.
      * intros tail. cbn [app fromBase64_loop]. rewrite Hws, Hpad, Hv.
        rewrite Hloop. destruct (fromBase64_loop chunk' tail); [|reflexivity].
        by rewrite app_assoc.
Qed.

(** A string splits into its longest run of characters of the alphabet
    and the rest. *)
Lemma split_alphabet d :
  exists body tail,
    d = body ++ tail
    /\ forallb Polyfill.is_base64_alphabet body = true
    /\ match tail with
       | [] => True
       | c :: _ => Polyfill.is_base64_alphabet c = false
       end.
Proof.
  induction d as [|c d (body & tail & -> & Hb & Ht)].
  - by exists [], [].
  - destruct (Polyfill.is_base64_alphabet c) eqn:Hc.
    + exists (c :: body), tail. cbn [forallb app]. by rewrite Hc, Hb.
    + by exists [], (c :: body ++ tail).
Qed.

(** *** Padding *)

Lemma alphabet_not_pad c : Polyfill.is_base64_alphabet c = true -> (c =? 61) = false.
Proof.
  intros H. destruct (alphabet_value c H) as (_ & _ & Hc & _). by apply N.eqb_neq.
Qed.

Lemma alphabet_in body c :
  forallb Polyfill.is_base64_alphabet body = true -> In c body ->
  Polyfill.is_base64_alphabet c = true.
Proof. intros H. by apply forallb_forall. Qed.

(** A run of characters of the alphabet has no padding to remove. *)
Lemma remove_padding_alphabet body :
  forallb Polyfill.is_base64_alphabet body = true ->
  Polyfill.remove_padding body = body.
Proof.
  intros Hb. unfold Polyfill.remove_padding.
  destruct (rev body) as [|c1 r1] eqn:Hrev; [reflexivity|].
  rewrite alphabet_not_pad; [reflexivity|].
  apply (alphabet_in body); [exact Hb|]. apply in_rev. rewrite Hrev. by left.
Qed.

Lemma remove_padding_one body :
  forallb Polyfill.is_base64_alphabet body = true ->
  Polyfill.remove_padding (body ++ [61]) = body.
Proof.
  intros Hb. unfold Polyfill.remove_padding. rewrite rev_app_distr. cbn [rev app].
  change (61 =? 61) with true. cbv iota.
  destruct (rev body) as [|c2 r2] eqn:Hrev.
  - rewrite <- (rev_involutive body). by rewrite Hrev.
  - rewrite alphabet_not_pad.
    + rewrite <- Hrev. apply rev_involutive.
    + apply (alphabet_in body); [exact Hb|]. apply in_rev. rewrite Hrev. by left.
Qed.

Lemma remove_padding_snoc l x :
  x <> 61 -> Polyfill.remove_padding (l ++ [x]) = l ++ [x].
Proof.
  intros Hx%N.eqb_neq. unfold Polyfill.remove_padding.
  rewrite rev_app_distr. cbn [rev app]. by rewrite Hx.
Qed.

Lemma remove_padding_two body :
  Polyfill.remove_padding (body ++ [61; 61]) = body.
Proof.
  unfold Polyfill.remove_padding. rewrite rev_app_distr. cbn [rev app].
  change (61 =? 61) with true. cbv iota. apply rev_involutive.
Qed.

(** What is left when padding is removed: the string, or the string
    without the one or two [=] it ended with. *)
Lemma remove_padding_cases d :
  Polyfill.remove_padding d = d
  \/ d = Polyfill.remove_padding d ++ [61]
  \/ d = Polyfill.remove_padding d ++ [61; 61].
Proof.
  unfold Polyfill.remove_padding.
  destruct (rev d) as [|c1 r1] eqn:Hrev; [by left|].
  assert (Hd : d = rev r1 ++ [c1])
    by (rewrite <- (rev_involutive d); by rewrite Hrev).
  destruct (N.eqb_spec c1 61) as [->|_]; [|by left].
  destruct r1 as [|c2 r2]; [by right; left|].
  destruct (N.eqb_spec c2 61) as [->|_]; [|by right; left].
  right; right. rewrite Hd. cbn [rev]. by rewrite <- app_assoc.
Qed.

(** *** The two decoders *)

Lemma mod4_next (n : nat) :
  ((n mod 4 = 0 /\ (n + 1) mod 4 = 1 /\ (n + 2) mod 4 = 2)
   \/ (n mod 4 = 1 /\ (n + 1) mod 4 = 2 /\ (n + 2) mod 4 = 3)
   \/ (n mod 4 = 2 /\ (n + 1) mod 4 = 3 /\ (n + 2) mod 4 = 0)
   \/ (n mod 4 = 3 /\ (n + 1) mod 4 = 0 /\ (n + 2) mod 4 = 1))%nat.
Proof.
  pose proof (Nat.div_mod_eq n 4).
  pose proof (Nat.mod_upper_bound n 4 ltac:(lia)).
  pose proof (Nat.div_mod_eq (n + 1) 4).
  pose proof (Nat.mod_upper_bound (n + 1) 4 ltac:(lia)).
  pose proof (Nat.div_mod_eq (n + 2) 4).
  pose proof (Nat.mod_upper_bound (n + 2) 4 ltac:(lia)).
  lia.
Qed.

Lemma finish_bad (d : jsstring) c :
  In c d -> Polyfill.is_base64_alphabet c = false -> Polyfill.decode_stripped d = None.
Proof.
  intros Hin Hc. unfold Polyfill.decode_stripped.
  destruct (length d mod 4 =? 1)%nat; [reflexivity|].
  destruct (forallb Polyfill.is_base64_alphabet d) eqn:Hall; [|reflexivity].
  rewrite (alphabet_in d c Hall Hin) in Hc. discriminate.
Qed.

Lemma finish_padded (d : jsstring) c :
  In c (Polyfill.remove_padding d) -> In c d ->
  Polyfill.is_base64_alphabet c = false ->
  Polyfill.decode_stripped
    (if (length d mod 4 =? 0)%nat then Polyfill.remove_padding d else d) = None.
Proof.
  intros H1 H2 Hc. destruct (length d mod 4 =? 0)%nat; by apply (finish_bad _ c).
Qed.

Lemma pad_not_alphabet : Polyfill.is_base64_alphabet 61 = false.
Proof. reflexivity. Qed.

(** A character that is not [=] stays when padding is removed. *)
Lemma remove_padding_keeps d c :
  In c d -> c <> 61 -> In c (Polyfill.remove_padding d).
Proof.
  intros Hin Hc.
  destruct (remove_padding_cases d) as [->|[E|E]]; [exact Hin| |];
    rewrite E in Hin; apply in_app_or in Hin as [H|H]; try exact H;
    cbn in H; intuition congruence.
Qed.

(** So does the first [=] of three characters or more. *)
Lemma remove_padding_long body x y t :
  In 61 (Polyfill.remove_padding (body ++ 61 :: x :: y :: t)).
Proof.
  set (d := body ++ 61 :: x :: y :: t).
  assert (Hlook : forall d0 p, d = d0 ++ p -> (length p <= 2)%nat -> In 61 d0).
  { intros d0 p E Hp.
    assert (Hlen : (length body < length d0)%nat).
    { apply (f_equal (@length N)) in E. unfold d in E.
      rewrite !length_app in E. cbn [length] in E. lia. }
    assert (Hd : d !! length body = Some 61)
      by (unfold d; by rewrite list_lookup_middle).
    rewrite E, lookup_app_l in Hd by exact Hlen.
    apply list_elem_of_In. by eapply list_elem_of_lookup_2. }
  destruct (remove_padding_cases d) as [->|[E|E]].
  - unfold d. apply in_or_app. right. by left.
  - apply (Hlook _ [61]); [exact E|cbn; lia].
  - apply (Hlook _ [61; 61]); [exact E|cbn; lia].
Qed.

Ltac pad_step :=
  cbn [fromBase64_loop skip_ws N.eqb Pos.eqb];
  repeat match goal with
    | H : is_ascii_whitespace _ = false |- _ => rewrite H
    | H : (_ =? 61) = false |- _ => rewrite H
    end.

Ltac pad_loop := repeat (progress pad_step); reflexivity.

Lemma loop_value chunk c rest :
  is_ascii_whitespace c = false -> c <> 61 -> b64_value c = None ->
  fromBase64_loop chunk (c :: rest) = None.
Proof.
  intros Hws Hpad Hv. apply N.eqb_neq in Hpad.
  cbn [fromBase64_loop]. by rewrite Hws, Hpad, Hv.
Qed.

Lemma not_alphabet c : Polyfill.is_base64_alphabet c = false -> b64_value c = None.
Proof. unfold Polyfill.is_base64_alphabet. by destruct (b64_value c). Qed.

(** The decoder of the polyfill accepts what the method of the platform
    accepts, and decodes it to the same bytes. *)
Lemma fromBase64_agrees s : Polyfill.fromBase64 s = fromBase64 s.
Proof.
  unfold fromBase64. rewrite loop_filter.
  unfold Polyfill.fromBase64, Polyfill.atob. cbv zeta.
  assert (Hnws : Forall (fun c => is_ascii_whitespace c = false) (List.filter nws s)).
  { apply Forall_forall. intros c [_ Hc]%list_elem_of_In%filter_In.
    by apply negb_true_iff in Hc. }
  revert Hnws. generalize (List.filter nws s). clear s. intros d Hnws.
  destruct (split_alphabet d) as (body & tail & -> & Hb & Ht).
  destruct (loop_body body [] ltac:(cbn; lia) Hb)
    as (bytes & chunk' & Hl & Hdec & Hloop).
  cbn [length Nat.add] in Hl.
  rewrite Hloop. clear Hloop.
  assert (Hgood : (length body mod 4 =? 1)%nat = false ->
            match Polyfill.decode_stripped body with
            | Some binary_string => Some (map byte_of_N binary_string)
            | None => None
            end = Some (bytes ++ decode_chunk chunk')).
  { intros E. unfold Polyfill.decode_stripped. rewrite E, Hb, Hdec.
    by rewrite bytes_of_binary. }
  destruct tail as [|c t].
  - rewrite app_nil_r. rewrite remove_padding_alphabet by exact Hb.
    assert (Hif : forall b : bool, (if b then body else body) = body)
      by (by intros []).
    rewrite Hif.
    destruct (Nat.eqb_spec (length body mod 4) 1) as [E|E].
    + unfold Polyfill.decode_stripped. rewrite E. cbn [Nat.eqb].
      rewrite E in Hl. by destruct chunk' as [|a [|]].
    + rewrite Hgood by reflexivity.
      destruct chunk' as [|a [|b chunk']]; cbn [fromBase64_loop decode_chunk].
      * reflexivity.
      * cbn [length] in Hl. congruence.
      * reflexivity.
  - apply Forall_app in Hnws as [_ Hnws].
    apply Forall_cons in Hnws as [Hcws Htws].
    destruct (N.eqb_spec c 61) as [->|Hc].
    + destruct t as [|x t].
      * (* one [=] *)
        rewrite length_app. cbn [length].
        destruct (Nat.eqb_spec ((length body + 1) mod 4) 0) as [E|E].
        -- rewrite remove_padding_one by exact Hb.
           assert (E3 : (length body mod 4 = 3)%nat) by (destruct (mod4_next (length body)) as [?|[?|[?|?]]]; lia).
           rewrite Hgood by (apply Nat.eqb_neq; lia).
           rewrite E3 in Hl.
           by destruct chunk' as [|a [|b [|e [|]]]].
        -- rewrite (finish_bad _ 61);
             [|apply in_or_app; right; by left|reflexivity].
           assert (E3 : (length body mod 4 <> 3)%nat) by (destruct (mod4_next (length body)) as [?|[?|[?|?]]]; lia).
           destruct chunk' as [|a [|b [|e [|]]]]; try reflexivity.
           cbn [length] in Hl. congruence.
      * destruct (N.eqb_spec x 61) as [->|Hx].
        -- destruct t as [|y t].
           ++ (* two [=] *)
              rewrite length_app. cbn [length].
              destruct (Nat.eqb_spec ((length body + 2) mod 4) 0) as [E|E].
              ** rewrite remove_padding_two.
                 assert (E2 : (length body mod 4 = 2)%nat) by (destruct (mod4_next (length body)) as [?|[?|[?|?]]]; lia).
                 rewrite Hgood by (apply Nat.eqb_neq; lia).
                 rewrite E2 in Hl.
                 by destruct chunk' as [|a [|b [|e [|]]]].
              ** rewrite (finish_bad _ 61);
                   [|apply in_or_app; right; by left|reflexivity].
                 assert (E2 : (length body mod 4 <> 2)%nat) by (destruct (mod4_next (length body)) as [?|[?|[?|?]]]; lia).
                 destruct chunk' as [|a [|b [|e [|]]]]; try reflexivity.
                 cbn [length] in Hl. congruence.
           ++ (* [==] and more *)
              rewrite (finish_padded _ 61);
                [|apply remove_padding_long|apply in_or_app; right; by left|reflexivity].
              apply Forall_cons in Htws as [_ Htws].
              apply Forall_cons in Htws as [Hy _].
              destruct chunk' as [|a [|b [|e [|]]]]; pad_loop.
        -- (* [=] and a character that is not [=] *)
           assert (Hxin : In x (body ++ 61 :: x :: t))
             by (apply in_or_app; right; right; by left).
           destruct (Polyfill.is_base64_alphabet x) eqn:Hxa.
           ++ destruct t as [|y t].
              ** rewrite (finish_padded _ 61);
                   [|change (body ++ [61; x]) with (body ++ [61] ++ [x]);
                     rewrite app_assoc, remove_padding_snoc by exact Hx;
                     apply in_or_app; left; apply in_or_app; right; by left
                    |apply in_or_app; right; by left|reflexivity].
                 apply Forall_cons in Htws as [Hxws _].
                 apply N.eqb_neq in Hx.
                 destruct chunk' as [|a [|b [|e [|]]]]; pad_loop.
              ** rewrite (finish_padded _ 61);
                   [|apply remove_padding_long|apply in_or_app; right; by left|reflexivity].
                 apply Forall_cons in Htws as [Hxws _].
                 apply N.eqb_neq in Hx.
                 destruct chunk' as [|a [|b [|e [|]]]]; pad_loop.
           ++ rewrite (finish_padded _ x);
                [|by apply remove_padding_keeps|exact Hxin|exact Hxa].
              apply Forall_cons in Htws as [Hxws _].
              apply N.eqb_neq in Hx.
              destruct chunk' as [|a [|b [|e [|]]]]; pad_loop.
    + (* a character that is neither of the alphabet nor [=] *)
      rewrite (finish_padded _ c);
        [|apply remove_padding_keeps; [apply in_or_app; right; by left|exact Hc]
         |apply in_or_app; right; by left|exact Ht].
      by rewrite (loop_value chunk' c t Hcws Hc (not_alphabet c Ht)).
Qed.

End PolyfillFacts.

(** X2.  The base64 methods the page installs where the browser has none
    agree with the methods of the platform on every input: the encoder
    never throws and gives the same string, and the decoder rejects the
    same strings and gives the same bytes for the others. *)
Theorem polyfill_agrees :
  (forall bs : list byte, Polyfill.toBase64 bs = Some (Base64.toBase64 bs))
  /\ (forall s : jsstring, Polyfill.fromBase64 s = Base64.fromBase64 s).
Proof.
  split; [apply PolyfillFacts.toBase64_agrees|apply PolyfillFacts.fromBase64_agrees].
Qed.
(** ** Fragments that are no tokens *)

Lemma skip_ws_all r x :
  Base64.skip_ws r = [] -> In x r -> Base64.is_ascii_whitespace x = true.
Proof.
  induction r as [|c r IH]; [done|]. cbn [Base64.skip_ws].
  destruct (Base64.is_ascii_whitespace c) eqn:Hc; [|done].
  intros Hr [<-|Hx]; [exact Hc|by apply IH].
Qed.

Lemma skip_ws_rest r c2 r2 x :
  Base64.skip_ws r = c2 :: r2 -> In x r ->
  Base64.is_ascii_whitespace x = true \/ x = c2 \/ In x r2.
Proof.
  induction r as [|c r IH]; [done|]. cbn [Base64.skip_ws].
  destruct (Base64.is_ascii_whitespace c) eqn:Hc.
  - intros Hr [<-|Hx]; [by left|by apply IH].
  - intros [= <- <-] [<-|Hx]; [right; by left|right; by right].
Qed.

(** The decoding loop fails on a string that holds a character which is
    neither of the alphabet, nor padding, nor white space. *)
Lemma fromBase64_loop_rejects s c : forall chunk,
  In c s ->
  Base64.is_ascii_whitespace c = false -> c <> 61 -> Base64.b64_value c = None ->
  Base64.fromBase64_loop chunk s = None.
Proof.
  intros chunk Hin Hws Hpad Hval. revert chunk Hin.
  induction s as [|x s IH]; intros chunk Hin; [done|].
  cbn [Base64.fromBase64_loop].
  destruct (Base64.is_ascii_whitespace x) eqn:Hx.
  { destruct Hin as [->|Hin]; [congruence|by apply IH]. }
  destruct (N.eqb_spec x 61) as [->|Hx61].
  - destruct Hin as [E|Hin]; [congruence|].
    destruct chunk as [|a [|b [|e [|]]]]; try reflexivity.
    + destruct (Base64.skip_ws s) as [|c2 r2] eqn:Hs; [reflexivity|].
      destruct (N.eqb_spec c2 61) as [->|]; [|reflexivity].
      destruct (Base64.skip_ws r2) as [|c3 r3] eqn:Hr; [|reflexivity].
      exfalso. destruct (skip_ws_rest _ _ _ _ Hs Hin) as [E|[E|E]];
        [congruence|congruence|].
      pose proof (skip_ws_all _ _ Hr E). congruence.
    + destruct (Base64.skip_ws s) as [|c2 r2] eqn:Hs; [|reflexivity].
      exfalso. pose proof (skip_ws_all _ _ Hs Hin). congruence.
  - destruct (Base64.b64_value x) as [v|] eqn:Hv; [|reflexivity].
    assert (Hin' : In c s) by (destruct Hin as [->|Hin]; [congruence|exact Hin]).
    destruct chunk as [|a [|b [|e [|]]]]; rewrite IH; done.
Qed.

(** A string with a character that is no letter, digit, [-], [_], [+],
    [/], [=] or white space is no token. *)
Lemma of_token_rejects s c :
  In c s ->
  is_token_char c = false -> c <> 43 -> c <> 47 ->
  Base64.is_ascii_whitespace c = false ->
  of_token s = None.
Proof.
  intros Hin Htok H43 H47 Hws. unfold of_token, Base64.fromBase64.
  assert (H45 : c <> 45) by (intros ->; discriminate).
  assert (H95 : c <> 95) by (intros ->; discriminate).
  assert (H61 : c <> 61) by (intros ->; discriminate).
  apply (fromBase64_loop_rejects _ c); try assumption.
  - unfold replace_char. rewrite map_map. apply in_map_iff. exists c.
    split; [|exact Hin].
    apply N.eqb_neq in H45, H95. rewrite H45. by rewrite H95.
  - revert Htok. unfold is_token_char, Base64.b64_value.
    bool_lia; try reflexivity; try discriminate; lia.
Qed.

Section ImportMore.
Context {P : Platform}.

(** X3.  A fragment of twenty characters or fewer is not looked at.  A
    longer one that holds a character which cannot occur in a token is not
    imported: the page reports the failure on the console and changes
    nothing else, the fragment stays in the address. *)
Theorem malformed_fragment (w : State) (id : jsstring) (now : N) :
  ((length (locationHash w) <= 20)%nat -> handleUrlParam id now w = w)
  /\ (forall c,
        (20 < length (locationHash w))%nat ->
        c ∈ locationHash w ->
        is_token_char c = false -> c <> 43 -> c <> 47 ->
        Base64.is_ascii_whitespace c = false ->
        decompress (locationHash w) = None
        /\ handleUrlParam id now w
           = log (console_error "Failed to import from URL") w).
Proof.
  split.
  - intros Hlen. unfold handleUrlParam.
    destruct (Nat.ltb_spec 20 (length (locationHash w))); [lia|reflexivity].
  - intros c Hlen Hin%list_elem_of_In Htok H43 H47 Hws.
    assert (Hd : decompress (locationHash w) = None).
    { unfold decompress. by rewrite (of_token_rejects _ c). }
    split; [exact Hd|]. unfold handleUrlParam.
    destruct (Nat.ltb_spec 20 (length (locationHash w))); [|lia].
    by rewrite Hd.
Qed.

End ImportMore.

Lemma malformed_fragment_witness :
  let w := set_locationHash (js "note=hello%20world&mode=plain") Demo.start in
  (20 < length (locationHash w))%nat
  /\ 37 ∈ locationHash w
  /\ handleUrlParam (js "n2") 8 w
     = log (console_error "Failed to import from URL") w.
Proof.
  set (w := set_locationHash (js "note=hello%20world&mode=plain") Demo.start).
  assert (Hlen : (20 < length (locationHash w))%nat) by (vm_compute; lia).
  assert (Hin : 37 ∈ locationHash w)
    by (apply list_elem_of_In; vm_compute; tauto).
  split; [exact Hlen|]. split; [exact Hin|].
  destruct (malformed_fragment w (js "n2") 8) as [_ H].
  apply (H 37 Hlen Hin); [reflexivity|lia|lia|reflexivity].
Defined.
(** ** Locking, saving and opening again *)

Section RoundTrips.
Context {P : Platform} {L : PlatformLaws P}.

(** The state after [confirmLock] on a note that is not encrypted. *)
Lemma confirmLock_plain w password salt iv now i note ct :
  password <> [] ->
  find (has_id (pendingId w)) (notebooks w) = Some (i, note) ->
  Note.encrypted note = false ->
  aes_gcm_encrypt
    (pbkdf2_sha256 iterations (Encoding.TextEncoder_encode password) salt)
    iv (Encoding.TextEncoder_encode (innerText w)) = Some ct ->
  let key := pbkdf2_sha256 iterations (Encoding.TextEncoder_encode password) salt in
  let note' :=
    Note.set_searchableContent (Some [])
      (Note.set_lastModified now
         (Note.set_encrypted true
            (Note.set_iv (Some (to_token iv))
               (Note.set_salt (Some (to_token salt))
                  (Note.set_content (to_token ct) note))))) in
  let w2 :=
    closeLockModal
      (saveState
         (set_sessionKeys (<[Note.id note := key]> (sessionKeys w))
            (set_encryptions (encryptions w ++ [(key, iv)])
               (set_notebooks (<[i := note']> (notebooks w)) w)))) in
  confirmLock password salt iv now w
  = if has_id (activeId w) note
    then set_contentEditable ce_false (set_innerText locked_text w2)
    else w2.
Proof.
  intros Hpw Hfind Henc Hct key note' w2.
  unfold confirmLock. destruct password as [|c password]; [done|].
  rewrite Hfind, Henc.
  unfold encrypt, deriveKey, encryptWithKey, bytes_of_arg. rewrite Hct.
  cbn [encryptedData enc_salt enc_iv token_of_arg].
  unfold used_nonce, deriveKey, bytes_of_arg. rewrite !of_token_to_token.
  reflexivity.
Qed.

(** The password of a lock opens it: the first attempt of [confirmUnlock]
    on a note as [confirmLock] or the rescue writes it. *)
Lemma try_decrypt_locked password salt iv text ct note :
  aes_gcm_encrypt
    (pbkdf2_sha256 iterations (Encoding.TextEncoder_encode password) salt)
    iv (Encoding.TextEncoder_encode text) = Some ct ->
  Note.content note = to_token ct ->
  Note.salt note = Some (to_token salt) ->
  Note.iv note = Some (to_token iv) ->
  try_decrypt password note
  = Some (pbkdf2_sha256 iterations (Encoding.TextEncoder_encode password) salt,
          Encoding.TextDecoder_decode (Encoding.TextEncoder_encode text)).
Proof.
  intros Hct Hc Hs Hi. unfold try_decrypt, deriveKey, decryptWithKey.
  rewrite Hc, Hs, Hi. cbn [arg_of_field bytes_of_arg].
  rewrite !of_token_to_token. by rewrite (gcm_decrypt_encrypt _ _ _ _ Hct).
Qed.

(** X4.  A note locked with a password and opened again with the same
    password shows the text it had.  In between the stored note is
    encrypted, decrypts to the text under the password, and the surface
    shows the notice of a locked note and cannot be edited. *)
Theorem lock_unlock_round_trip (w : State) (password : jsstring)
    (salt iv salt2 iv2 : list byte) (now : N) (i : nat) (note : Note.t) :
  password <> [] ->
  find (has_id (pendingId w)) (notebooks w) = Some (i, note) ->
  activeId w = pendingId w ->
  Note.encrypted note = false ->
  length iv = 12%nat ->
  well_formed (innerText w) = true -> head (innerText w) <> Some 0xFEFF ->
  let w1 := confirmLock password salt iv now w in
  let w2 := loadActiveNote (set_sessionKeys ∅ w1) in
  let w3 := confirmUnlock password salt2 iv2 w2 in
  (exists n1,
     notebooks w1 !! i = Some n1
     /\ Note.encrypted n1 = true
     /\ Note.searchableContent n1 = Some []
     /\ storedNotebooks w1 = notebooks w1
     /\ decrypt (Note.content n1) password (arg_of_field (Note.salt n1)) (Note.iv n1)
        = Some (innerText w))
  /\ innerText w1 = locked_text /\ contentEditable w1 = ce_false
  /\ innerText w2 = locked_text /\ contentEditable w2 = ce_false
  /\ unlockModal w2 = true
  /\ innerText w3 = innerText w /\ contentEditable w3 = ce_plaintext_only
  /\ unlockModal w3 = false
  /\ is_Some (sessionKeys w3 !! Note.id note).
Proof.
  intros Hpw Hfind Hactive Henc Hiv Hwf Hbom.
  set (key := pbkdf2_sha256 iterations (Encoding.TextEncoder_encode password) salt).
  destruct (gcm_encrypt_iv12 key iv (Encoding.TextEncoder_encode (innerText w)) Hiv)
    as [ct Hct].
  pose proof (find_Some _ _ _ _ Hfind) as [Hi Hid].
  assert (Hpending : pendingId w = Some (Note.id note)) by (by apply has_id_eq).
  set (note' :=
    Note.set_searchableContent (Some [])
      (Note.set_lastModified now
         (Note.set_encrypted true
            (Note.set_iv (Some (to_token iv))
               (Note.set_salt (Some (to_token salt))
                  (Note.set_content (to_token ct) note)))))).
  assert (Htry : try_decrypt password note'
                 = Some (key, innerText w)).
  { rewrite (try_decrypt_locked password salt iv (innerText w) ct) by done.
    by rewrite EncodingFacts.TextDecoder_TextEncoder. }
  assert (Hfind' : find (has_id (Some (Note.id note))) (<[i := note']> (notebooks w))
                   = Some (i, note')).
  { rewrite <- Hpending. apply (find_insert _ _ _ note); [exact Hfind|].
    rewrite <- Hid. by apply has_id_set. }
  intros w1 w2 w3.
  assert (E1 : w1 = set_contentEditable ce_false
                      (set_innerText locked_text
                         (closeLockModal
                            (saveState
                               (set_sessionKeys (<[Note.id note := key]> (sessionKeys w))
                                  (set_encryptions (encryptions w ++ [(key, iv)])
                                     (set_notebooks (<[i := note']> (notebooks w)) w))))))).
  { unfold w1. rewrite (confirmLock_plain w password salt iv now i note ct) by done.
    rewrite Hactive. by rewrite Hid. }
  assert (E2 : w2 = set_direction (Text.or_default (Some (Note.dir note')) (js "ltr"))
                      (set_paperTheme
                         (Text.or_default (Some (Note.paperTheme note')) (js "classic"))
                         (updateDocumentTitle (Note.title note')
                            (openUnlockModal (Some (Note.id note'))
                               (set_contentEditable ce_false
                                  (set_innerText locked_text (set_sessionKeys ∅ w1))))))).
  { unfold w2, loadActiveNote.
    assert (find (has_id (activeId (set_sessionKeys ∅ w1)))
              (notebooks (set_sessionKeys ∅ w1)) = Some (i, note')) as ->.
    { rewrite E1. st. rewrite Hactive, Hpending. exact Hfind'. }
    reflexivity. }
  assert (Hfind2 : find (has_id (pendingId w2)) (notebooks w2) = Some (i, note')).
  { rewrite E2, E1. st. exact Hfind'. }
  assert (Hact2 : has_id (activeId w2) note' = true).
  { rewrite E2, E1. st. rewrite Hactive, Hpending. by apply has_id_eq. }
  assert (E3 : w3 = closeUnlockModal
                      (saveState
                         (set_notebooks
                            (<[i := Note.set_searchableContent
                                      (Some (searchable (innerText w))) note']>
                               (notebooks w2))
                            (set_contentEditable ce_plaintext_only
                               (set_innerText (innerText w)
                                  (set_sessionKeys
                                     (<[Note.id note' := key]> (sessionKeys w2)) w2)))))).
  { unfold w3, confirmUnlock. destruct password as [|c password]; [done|].
    rewrite Hfind2, Htry. st. by rewrite Hact2. }
  split; [|repeat split].
  - exists note'. split; [|split; [|split; [|split]]].
    + rewrite E1. st. apply list_lookup_insert_eq. by eapply lookup_lt_Some.
    + reflexivity.
    + reflexivity.
    + rewrite E1. by st.
    + unfold decrypt. unfold try_decrypt in Htry.
      destruct (deriveKey password (arg_of_field (Note.salt note'))) as [k|];
        [|discriminate].
      destruct (decryptWithKey (Note.content note') k (Note.iv note')) as [d|];
        [|discriminate].
      by injection Htry as _ ->.
  - rewrite E1. by st.
  - rewrite E1. by st.
  - rewrite E2. by st.
  - rewrite E2. by st.
  - rewrite E2. by st.
  - rewrite E3. by st.
  - rewrite E3. by st.
  - rewrite E3. by st.
  - rewrite E3. st. rewrite lookup_insert_eq. by eexists.
Qed.

End RoundTrips.

Lemma lock_unlock_round_trip_witness :
  let w := set_lockModal true (set_pendingId (Some (js "n1")) Demo.start) in
  find (has_id (pendingId w)) (notebooks w) = Some (0%nat, Demo.note1)
  /\ innerText (confirmLock (js "secret") Demo.salt1 Demo.iv1 2 w) = locked_text
  /\ innerText
       (confirmUnlock (js "secret") Demo.salt2 Demo.iv2
          (loadActiveNote
             (set_sessionKeys ∅ (confirmLock (js "secret") Demo.salt1 Demo.iv1 2 w))))
     = js "hello".
Proof.
  set (w := set_lockModal true (set_pendingId (Some (js "n1")) Demo.start)).
  assert (Hfind : find (has_id (pendingId w)) (notebooks w) = Some (0%nat, Demo.note1))
    by (vm_compute; reflexivity).
  assert (Hpw : js "secret" <> []) by discriminate.
  assert (Hact : activeId w = pendingId w) by reflexivity.
  assert (Henc : Note.encrypted Demo.note1 = false) by reflexivity.
  assert (Hiv : length Demo.iv1 = 12%nat) by reflexivity.
  assert (Hwf : well_formed (innerText w) = true) by (vm_compute; reflexivity).
  assert (Hbom : head (innerText w) <> Some 0xFEFF) by (vm_compute; discriminate).
  destruct (lock_unlock_round_trip (L := demo_laws) w (js "secret") Demo.salt1
              Demo.iv1 Demo.salt2 Demo.iv2 2 0 Demo.note1
              Hpw Hfind Hact Henc Hiv Hwf Hbom)
    as (_ & H1 & _ & _ & _ & _ & H3 & _).
  split; [exact Hfind|]. split; [exact H1|exact H3].
Defined.

Section SaveLoad.
Context {P : Platform} {L : PlatformLaws P}.

Lemma to_token_nonempty b : b <> [] -> to_token b <> [].
Proof.
  intros Hb. unfold to_token, replace_char.
  destruct b as [|x [|y [|z b]]]; [done|..]; cbn [Base64.toBase64 map]; discriminate.
Qed.

(** X5.  What the autosave stores for a note that is not encrypted is what
    the page shows when it loads the note again: the text of the editing
    surface, when it is well-formed and does not begin with U+FEFF.  (The
    compressed form of a text is never empty with deflate; the statement
    asks for it.) *)
Theorem autosave_load_round_trip (w : State) (now : N) (i : nat) (note : Note.t)
    (shown : jsstring) :
  find (has_id (activeId w)) (notebooks w) = Some (i, note) ->
  contentEditable w <> ce_false ->
  Note.encrypted note = false ->
  well_formed (innerText w) = true -> head (innerText w) <> Some 0xFEFF ->
  deflate_raw (Encoding.TextEncoder_encode (innerText w)) <> [] ->
  let w1 := saveAction now w in
  let w2 := loadActiveNote (set_innerText shown w1) in
  (exists n1,
     notebooks w1 !! i = Some n1
     /\ Note.content n1 = compress (innerText w)
     /\ Note.lastModified n1 = now
     /\ storedNotebooks w1 = notebooks w1)
  /\ innerText w2 = innerText w
  /\ contentEditable w2 = ce_plaintext_only
  /\ notebooks w2 = notebooks w1.
Proof.
  intros Hfind Hce Henc Hwf Hbom Hdef w1 w2.
  pose proof (find_Some _ _ _ _ Hfind) as [Hi Hid].
  set (n1 := saved_note now (innerText w) (compress (innerText w)) note).
  assert (E1 : w1 = finish_save now i note (compress (innerText w)) w).
  { unfold w1, saveAction. rewrite Hfind, Henc.
    by destruct (contentEditable w). }
  assert (Hnb : notebooks w1 = <[i := n1]> (notebooks w))
    by (rewrite E1; apply finish_save_notebooks).
  destruct (finish_save_fields now i note (compress (innerText w)) w)
    as (Hact & _).
  rewrite <- E1 in Hact.
  assert (Hfind1 : find (has_id (activeId w1)) (notebooks w1) = Some (i, n1)).
  { rewrite Hact, Hnb. apply (find_insert _ _ _ note); [exact Hfind|].
    rewrite <- Hid. by apply has_id_set. }
  assert (Hcontent : Note.content n1 = compress (innerText w)) by reflexivity.
  assert (Hne : compress (innerText w) <> []) by (by apply to_token_nonempty).
  assert (Hdec : decompress (compress (innerText w)) = Some (innerText w)).
  { rewrite decompress_compress_decoded.
    by rewrite EncodingFacts.TextDecoder_TextEncoder. }
  assert (E2 : w2 = set_direction (Text.or_default (Some (Note.dir n1)) (js "ltr"))
                      (set_paperTheme
                         (Text.or_default (Some (Note.paperTheme n1)) (js "classic"))
                         (updateDocumentTitle (Note.title n1)
                            (set_contentEditable ce_plaintext_only
                               (set_innerText (innerText w)
                                  (set_innerText shown w1)))))).
  { unfold w2, loadActiveNote.
    change (activeId (set_innerText shown w1)) with (activeId w1).
    change (notebooks (set_innerText shown w1)) with (notebooks w1).
    rewrite Hfind1. change (Note.encrypted n1) with (Note.encrypted note).
    rewrite Henc, Hcontent.
    destruct (compress (innerText w)) as [|c t] eqn:Hc; [done|].
    by rewrite Hdec. }
  split; [|split; [|split]].
  - exists n1. split; [|split; [|split]].
    + rewrite Hnb. apply list_lookup_insert_eq. by eapply lookup_lt_Some.
    + reflexivity.
    + reflexivity.
    + rewrite E1. apply finish_save_stored.
  - rewrite E2. by st.
  - rewrite E2. by st.
  - rewrite E2. by st.
Qed.


End SaveLoad.

Lemma autosave_load_round_trip_witness :
  let w := set_innerText (js "hello there") Demo.start in
  find (has_id (activeId w)) (notebooks w) = Some (0%nat, Demo.note1)
  /\ innerText (loadActiveNote (set_innerText [] (saveAction 5 w)))
     = js "hello there".
Proof.
  set (w := set_innerText (js "hello there") Demo.start).
  assert (Hfind : find (has_id (activeId w)) (notebooks w) = Some (0%nat, Demo.note1))
    by (vm_compute; reflexivity).
  assert (Hce : contentEditable w <> ce_false) by discriminate.
  assert (Henc : Note.encrypted Demo.note1 = false) by reflexivity.
  assert (Hwf : well_formed (innerText w) = true) by (vm_compute; reflexivity).
  assert (Hbom : head (innerText w) <> Some 0xFEFF) by (vm_compute; discriminate).
  assert (Hdef : deflate_raw (Encoding.TextEncoder_encode (innerText w)) <> [])
    by discriminate.
  destruct (autosave_load_round_trip (L := demo_laws) w 5 0 Demo.note1 []
              Hfind Hce Henc Hwf Hbom Hdef) as (_ & H & _).
  split; [exact Hfind|exact H].
Defined.

(** ** The search index, the tags and the active note *)

Section IndexFacts.
Context {P : Platform}.

Lemma set_searchableContent_same n :
  Note.set_searchableContent (Note.searchableContent n) n = n.
Proof. by destruct n. Qed.

(** One turn of the loop of [rebuildSearchIndex] changes the search cache
    at most, and a second turn changes nothing. *)
Lemma reindex_cache n :
  fst (reindex n)
  = Note.set_searchableContent (Note.searchableContent (fst (reindex n))) n.
Proof.
  unfold reindex.
  destruct (negb _ && _ && _); [|by rewrite set_searchableContent_same].
  destruct (decompress _); [reflexivity|by rewrite set_searchableContent_same].
Qed.

Lemma reindex_idem n : fst (reindex (fst (reindex n))) = fst (reindex n).
Proof.
  destruct (reindex n) as [n' ev] eqn:E. cbn [fst]. unfold reindex in E.
  destruct (negb (Note.encrypted n)
            && match Note.searchableContent n with Some (_ :: _) => false | _ => true end
            && match Note.content n with [] => false | _ :: _ => true end) eqn:Hcond.
  - destruct (decompress (Note.content n)) as [text|] eqn:Hd; injection E as <- <-.
    + apply andb_prop in Hcond as [[He Hs]%andb_prop Hc].
      unfold reindex. st. rewrite He, Hc. cbn [andb].
      destruct (searchable text) eqn:Est; cbn [andb]; rewrite ?Hd, ?Est; reflexivity.
    + unfold reindex. by rewrite Hcond, Hd.
  - injection E as <- <-. unfold reindex. by rewrite Hcond.
Qed.

(** X7.  [rebuildSearchIndex] changes no field of a note but its search
    cache, and only for a note that is not encrypted, has no cache and
    has content that decompresses: the cache becomes the searchable form
    of the text.  The collection it leaves is persisted, and running it
    again changes no note. *)
Theorem rebuild_search_index (w : State) :
  let w' := rebuildSearchIndex w in
  (forall i n,
     notebooks w !! i = Some n ->
     exists n',
       notebooks w' !! i = Some n'
       /\ n' = Note.set_searchableContent (Note.searchableContent n') n
       /\ (n' <> n ->
           Note.encrypted n = false /\ searchable_empty n = true
           /\ exists text,
                decompress (Note.content n) = Some text
                /\ Note.searchableContent n' = Some (searchable text)))
  /\ length (notebooks w') = length (notebooks w)
  /\ storedNotebooks w' = notebooks w'
  /\ notebooks (rebuildSearchIndex w') = notebooks w'.
Proof.
  intros w'. split; [|split; [|split]].
  - intros i n Hi. exists (fst (reindex n)). split; [|split].
    + unfold w', rebuildSearchIndex. st. by rewrite list_lookup_fmap, Hi.
    + apply reindex_cache.
    + unfold reindex, searchable_empty.
      destruct (Note.encrypted n); cbn [negb andb fst]; [done|].
      destruct (Note.searchableContent n) as [[|c s]|]; cbn [andb fst]; try done.
      * destruct (Note.content n); cbn [fst]; [done|].
        destruct (decompress _) as [text|]; cbn [fst]; [|done].
        intros _. split; [done|]. split; [done|]. by exists text.
      * destruct (Note.content n); cbn [fst]; [done|].
        destruct (decompress _) as [text|]; cbn [fst]; [|done].
        intros _. split; [done|]. split; [done|]. by exists text.
  - unfold w', rebuildSearchIndex. st. apply length_map.
  - reflexivity.
  - unfold w', rebuildSearchIndex. st. rewrite map_map.
    apply map_ext. intros n. apply reindex_idem.
Qed.

End IndexFacts.

(** *** Tags *)

Lemma existsb_jseqb x (l : list jsstring) :
  existsb (Text.jseqb x) l = true <-> x ∈ l.
Proof.
  rewrite existsb_exists, list_elem_of_In. split.
  - intros (y & Hy & ->%jseqb_eq). exact Hy.
  - intros Hx. exists x. split; [exact Hx|apply jseqb_refl].
Qed.

(** [[...new Set(l)]] holds the elements of [l], each once. *)
Lemma set_of_list_from_spec l : forall seen,
  NoDup (Text.set_of_list_from seen l)
  /\ forall x, x ∈ Text.set_of_list_from seen l <-> x ∈ l /\ x ∉ seen.
Proof.
  induction l as [|y l IH]; intros seen; cbn [Text.set_of_list_from].
  - split; [constructor|]. intros x. rewrite elem_of_nil. tauto.
  - destruct (existsb (Text.jseqb y) seen) eqn:Hy.
    + apply existsb_jseqb in Hy. destruct (IH seen) as [Hnd Hin].
      split; [exact Hnd|]. intros x. rewrite Hin, elem_of_cons.
      split; [tauto|]. intros [[->|Hx] Hs]; [done|tauto].
    + assert (Hy' : y ∉ seen) by (rewrite <- existsb_jseqb; congruence).
      destruct (IH (y :: seen)) as [Hnd Hin]. split.
      * constructor; [|exact Hnd]. rewrite Hin, elem_of_cons. tauto.
      * intros x. rewrite !elem_of_cons, Hin, elem_of_cons.
        destruct (decide (x = y)) as [->|Hne]; tauto.
Qed.

Lemma set_of_list_spec l :
  NoDup (Text.set_of_list l) /\ forall x, x ∈ Text.set_of_list l <-> x ∈ l.
Proof.
  destruct (set_of_list_from_spec l []) as [Hnd Hin]. split; [exact Hnd|].
  intros x. unfold Text.set_of_list. rewrite Hin, elem_of_nil. tauto.
Qed.

(** A match of [/#(\w+)/g] is a [#] and the run of word characters after
    it, somewhere in the text. *)
Lemma match_tags_from_spec s : forall cur t,
  match cur with
  | Some w0 => forallb Text.is_word_char w0 = true
  | None => True
  end ->
  t ∈ Text.match_tags_from cur s ->
  exists word,
    t = 35 :: word /\ word <> [] /\ forallb Text.is_word_char word = true
    /\ ((exists pre post, s = pre ++ 35 :: word ++ post)
        \/ exists w0 w1 post, cur = Some w0 /\ word = w0 ++ w1 /\ s = w1 ++ post).
Proof.
  induction s as [|c s IH]; intros cur t Hcur Ht; cbn [Text.match_tags_from] in Ht.
  - destruct cur as [[|c0 w0]|]; try by apply elem_of_nil in Ht.
    apply list_elem_of_singleton in Ht as ->.
    exists (c0 :: w0). split; [done|]. split; [done|]. split; [exact Hcur|].
    right. exists (c0 :: w0), [], []. by rewrite app_nil_r.
  - assert (Hrest : forall t,
              t ∈ Text.match_tags_from (if c =? 35 then Some [] else None) s ->
              exists word,
                t = 35 :: word /\ word <> [] /\ forallb Text.is_word_char word = true
                /\ exists pre post, c :: s = pre ++ 35 :: word ++ post).
    { intros t' Ht'. destruct (N.eqb_spec c 35) as [->|Hc].
      - destruct (IH (Some []) t' eq_refl Ht')
          as (word & -> & Hne & Hw & [(pre & post & ->)|(w0 & w1 & post & [= <-] & -> & ->)]).
        + exists word. split; [done|]. split; [done|]. split; [done|].
          by exists (35 :: pre), post.
        + exists w1. split; [done|]. split; [done|]. split; [done|].
          by exists [], post.
      - destruct (IH None t' I Ht')
          as (word & -> & Hne & Hw & [(pre & post & ->)|(w0 & w1 & post & [=] & _)]).
        exists word. split; [done|]. split; [done|]. split; [done|].
        by exists (c :: pre), post. }
    destruct cur as [w0|]; [|destruct (Hrest t Ht) as (word & ? & ? & ? & ?); eauto 10].
    destruct (Text.is_word_char c) eqn:Hc.
    + assert (Hcur' : forallb Text.is_word_char (w0 ++ [c]) = true).
      { rewrite forallb_app, Hcur. cbn. by rewrite Hc. }
      destruct (IH (Some (w0 ++ [c])) t Hcur' Ht)
        as (word & -> & Hne & Hw & [(pre & post & ->)|(w0' & w1 & post & [= <-] & -> & ->)]).
      * exists word. split; [done|]. split; [done|]. split; [done|].
        left. by exists (c :: pre), post.
      * exists ((w0 ++ [c]) ++ w1). split; [done|]. split; [done|]. split; [done|].
        right. exists w0, (c :: w1), post. split; [done|].
        by rewrite <- app_assoc.
    + apply elem_of_app in Ht as [Ht|Ht].
      * destruct w0 as [|c0 w0]; [by apply elem_of_nil in Ht|].
        apply list_elem_of_singleton in Ht as ->.
        exists (c0 :: w0). split; [done|]. split; [done|]. split; [exact Hcur|].
        right. exists (c0 :: w0), [], (c :: s). by rewrite app_nil_r.
      * destruct (Hrest t Ht) as (word & ? & ? & ? & ?); eauto 10.
Qed.

Lemma match_tags_spec s t :
  t ∈ Text.match_tags s ->
  exists word pre post,
    t = 35 :: word /\ word <> [] /\ forallb Text.is_word_char word = true
    /\ s = pre ++ 35 :: word ++ post.
Proof.
  intros Ht. destruct (match_tags_from_spec s None t I Ht)
    as (word & -> & Hne & Hw & [(pre & post & ->)|(w0 & w1 & post & [=] & _)]).
  by exists word, pre, post.
Qed.

Section TagFacts.
Context {P : Platform}.

(** X8.  The tags an autosave leaves on the note it saves: every tag the
    note had, and no tag twice; a tag the note did not have is the
    lowercased run of word characters after a [#] of the text. *)
Theorem autosave_tags (w : State) (now : N) (i : nat) (note : Note.t) :
  find (has_id (activeId w)) (notebooks w) = Some (i, note) ->
  contentEditable w <> ce_false ->
  save_proceeds w note ->
  exists n',
    notebooks (saveAction now w) !! i = Some n'
    /\ NoDup (Note.tags n')
    /\ (forall t, t ∈ Note.tags note -> t ∈ Note.tags n')
    /\ (forall t,
          t ∈ Note.tags n' ->
          t ∈ Note.tags note
          \/ exists word pre post,
               innerText w = pre ++ 35 :: word ++ post
               /\ word <> [] /\ forallb Text.is_word_char word = true
               /\ t = toLowerCase word).
Proof.
  intros Hfind Hce Hsave.
  destruct (saveAction_proceeds now w i note Hfind Hce Hsave) as [data Hnb].
  pose proof (find_Some _ _ _ _ Hfind) as [Hi _].
  exists (saved_note now (innerText w) data note).
  split; [rewrite Hnb; apply list_lookup_insert_eq; by eapply lookup_lt_Some|].
  change (Note.tags (saved_note now (innerText w) data note))
    with (merged_tags (Note.tags note) (innerText w)).
  unfold merged_tags.
  destruct (set_of_list_spec
              (Note.tags note
               ++ map (fun t => toLowerCase (drop 1 t))
                    (Text.set_of_list (Text.match_tags (innerText w)))))
    as [Hnd Hin].
  split; [exact Hnd|]. split.
  - intros t Ht. apply Hin, elem_of_app. by left.
  - intros t [Ht|Ht]%Hin%elem_of_app; [by left|]. right.
    apply list_elem_of_fmap in Ht as (m & -> & Hm).
    destruct (set_of_list_spec (Text.match_tags (innerText w))) as [_ Hin2].
    apply Hin2 in Hm.
    destruct (match_tags_spec _ _ Hm) as (word & pre & post & -> & Hne & Hw & E).
    by exists word, pre, post.
Qed.

End TagFacts.

Lemma autosave_tags_witness :
  let w := set_innerText (js "buy #Milk and #eggs, #milk") Demo.start in
  find (has_id (activeId w)) (notebooks w) = Some (0%nat, Demo.note1)
  /\ contentEditable w <> ce_false
  /\ save_proceeds w Demo.note1
  /\ exists n',
       notebooks (saveAction 9 w) !! 0%nat = Some n'
       /\ Note.tags n' = [js "milk"; js "eggs"]
       /\ NoDup (Note.tags n').
Proof.
  set (w := set_innerText (js "buy #Milk and #eggs, #milk") Demo.start).
  assert (Hfind : find (has_id (activeId w)) (notebooks w) = Some (0%nat, Demo.note1))
    by (vm_compute; reflexivity).
  assert (Hce : contentEditable w <> ce_false) by discriminate.
  assert (Hsave : save_proceeds w Demo.note1) by (by left).
  destruct (autosave_tags w 9 0 Demo.note1 Hfind Hce Hsave) as (n' & Hn & Hnd & _).
  split; [exact Hfind|]. split; [exact Hce|]. split; [exact Hsave|].
  exists n'. split; [exact Hn|]. split; [|exact Hnd].
  assert (E : notebooks (saveAction 9 w) !! 0%nat
              = Some (saved_note 9 (innerText w) (compress (innerText w)) Demo.note1))
    by (vm_compute; reflexivity).
  rewrite E in Hn. injection Hn as <-. vm_compute. reflexivity.
Defined.
(** ** The active note *)

Section ActiveFacts.
Context {P : Platform}.

(** What [ensureActiveNote] leaves. *)
Lemma ensureActiveNote_spec (w : State) (id : jsstring) (now : N) :
  let w' := ensureActiveNote id now w in
  mode w' = mode w
  /\ (exists n,
        n ∈ notebooks w' /\ activeId w' = Some (Note.id n) /\ Note.mode n = mode w)
  /\ (List.filter (in_mode (mode w)) (notebooks w) <> [] ->
      notebooks w' = notebooks w)
  /\ (forall n,
        n ∈ notebooks w -> activeId w = Some (Note.id n) -> Note.id n <> [] ->
        Note.mode n = mode w ->
        w' = saveState w)
  /\ storedNotebooks w' = notebooks w'.
Proof.
  intros w'. unfold w', ensureActiveNote.
  destruct (List.filter (in_mode (mode w)) (notebooks w)) as [|m l] eqn:Hf.
  - split; [reflexivity|]. split; [|split; [done|split; [|reflexivity]]].
    + exists (new_notebook id now (js "Untitled Note") [] (mode w) w).
      split; [|done]. unfold addNotebook. st. apply elem_of_app. right.
      apply list_elem_of_singleton. reflexivity.
    + intros n Hn _ _ Hmode. exfalso.
      assert (Hin : n ∈ List.filter (in_mode (mode w)) (notebooks w)).
      { apply in_filter. split; [exact Hn|]. by apply mode_eqb_eq. }
      rewrite Hf in Hin. by apply elem_of_nil in Hin.
  - destruct (falsy (activeId w)
              || negb (existsb (fun n => has_id (activeId w) n && in_mode (mode w) n)
                         (notebooks w))) eqn:Hcond.
    + destruct (last (m :: l)) as [recent|] eqn:Hlast;
        [|by apply last_None in Hlast].
      assert (Hrecent : recent ∈ List.filter (in_mode (mode w)) (notebooks w))
        by (rewrite Hf; by apply last_Some_elem_of).
      apply in_filter in Hrecent as [Hin Hmode].
      split; [reflexivity|]. split; [|split; [done|split; [|reflexivity]]].
      * exists recent. split; [exact Hin|]. split; [reflexivity|].
        by apply mode_eqb_eq.
      * intros n Hn Hact Hid Hnm. exfalso.
        apply orb_prop in Hcond as [Hfalsy|Hex].
        -- rewrite Hact in Hfalsy. cbn in Hfalsy. by destruct (Note.id n).
        -- apply negb_true_iff in Hex.
           assert (existsb (fun n => has_id (activeId w) n && in_mode (mode w) n)
                     (notebooks w) = true); [|congruence].
           apply existsb_exists. exists n. split; [by apply list_elem_of_In|].
           apply andb_true_intro. split; [by apply has_id_eq|by apply mode_eqb_eq].
    + apply orb_false_elim in Hcond as [_ Hex].
      apply negb_false_iff, existsb_exists in Hex as (n & Hn & Hid).
      apply andb_prop in Hid as [Hid Hmode].
      split; [reflexivity|]. split; [|split; [done|split; [done|reflexivity]]].
      exists n. split; [by apply list_elem_of_In|]. split; [by apply has_id_eq|].
      by apply mode_eqb_eq.
Qed.

(** X9.  After [ensureActiveNote] the active note is a note of the
    collection whose mode is the mode of the page, and the collection is
    persisted.  A note is added only when the mode has none; an active
    note of the mode stays the active note. *)
Theorem ensure_active_note (w : State) (id : jsstring) (now : N) :
  let w' := ensureActiveNote id now w in
  mode w' = mode w
  /\ (exists n,
        n ∈ notebooks w' /\ activeId w' = Some (Note.id n) /\ Note.mode n = mode w)
  /\ (List.filter (in_mode (mode w)) (notebooks w) <> [] ->
      notebooks w' = notebooks w)
  /\ (forall n,
        n ∈ notebooks w -> activeId w = Some (Note.id n) -> Note.id n <> [] ->
        Note.mode n = mode w ->
        w' = saveState w)
  /\ storedNotebooks w' = notebooks w'.
Proof. apply ensureActiveNote_spec. Qed.

(** *** Pin and direction *)

Lemma set_pinned_twice n :
  set_pinned (negb (negb (Note.pinned n))) (set_pinned (negb (Note.pinned n)) n) = n.
Proof. destruct n as [? ? ? ? ? ? ? ? ? ? ? pinned ? ?]. by destruct pinned. Qed.

(** X10.  [togglePin] changes the pin of the first note with the
    identifier, nothing else of the collection, and persists it; with no
    such note it changes nothing; done twice it gives the collection
    back. *)
Theorem toggle_pin (w : State) (id : jsstring) :
  (find (has_id (Some id)) (notebooks w) = None -> togglePin id w = w)
  /\ (forall i note,
        find (has_id (Some id)) (notebooks w) = Some (i, note) ->
        notebooks (togglePin id w)
        = <[i := set_pinned (negb (Note.pinned note)) note]> (notebooks w)
        /\ storedNotebooks (togglePin id w) = notebooks (togglePin id w))
  /\ notebooks (togglePin id (togglePin id w)) = notebooks w.
Proof.
  split; [|split].
  - intros H. unfold togglePin. by rewrite H.
  - intros i note H. unfold togglePin. by rewrite H.
  - unfold togglePin at 2.
    destruct (find (has_id (Some id)) (notebooks w)) as [[i note]|] eqn:Hfind.
    + pose proof (find_Some _ _ _ _ Hfind) as [Hi Hid].
      unfold togglePin. stw.
      rewrite (find_insert _ _ _ note (set_pinned (negb (Note.pinned note)) note))
        by done.
      stw. rewrite list_insert_insert_eq.
      change (negb (Note.pinned (set_pinned (negb (Note.pinned note)) note)))
        with (negb (negb (Note.pinned note))).
      rewrite set_pinned_twice. by apply list_insert_id.
    + unfold togglePin. by rewrite Hfind.
Qed.

Lemma set_dir_same n : Note.set_dir (Note.dir n) n = n.
Proof. by destruct n. Qed.

Lemma set_dir_twice d d' n : Note.set_dir d (Note.set_dir d' n) = Note.set_dir d n.
Proof. reflexivity. Qed.

(** X11.  [toggleDirection] sets the direction of the active note and of
    the page to [ltr] when the note has [rtl] and to [rtl] otherwise, and
    persists the collection; without an active note it does nothing.  From
    a note whose direction is one of the two, two toggles give the
    collection back. *)
Theorem toggle_direction (w : State) :
  (find (has_id (activeId w)) (notebooks w) = None -> toggleDirection w = w)
  /\ (forall i note,
        find (has_id (activeId w)) (notebooks w) = Some (i, note) ->
        let newDir := if Text.jseqb (Note.dir note) (js "rtl") then js "ltr" else js "rtl" in
        let w' := toggleDirection w in
        notebooks w' = <[i := Note.set_dir newDir note]> (notebooks w)
        /\ direction w' = newDir
        /\ storedNotebooks w' = notebooks w'
        /\ (Note.dir note = js "rtl" \/ Note.dir note = js "ltr" ->
            notebooks (toggleDirection w') = notebooks w
            /\ direction (toggleDirection w') = Note.dir note)).
Proof.
  split.
  - intros H. unfold toggleDirection. by rewrite H.
  - intros i note Hfind newDir w'.
    pose proof (find_Some _ _ _ _ Hfind) as [Hi Hid].
    assert (E : w' = set_direction newDir
                       (saveState
                          (set_notebooks (<[i := Note.set_dir newDir note]> (notebooks w)) w))).
    { unfold w', toggleDirection. rewrite Hfind. unfold applyDirection.
      by rewrite Hfind. }
    split; [rewrite E; by st|]. split; [rewrite E; by st|].
    split; [rewrite E; by st|].
    intros Hdir.
    assert (Hfind' : find (has_id (activeId w')) (notebooks w')
                     = Some (i, Note.set_dir newDir note)).
    { rewrite E. st. by apply (find_insert _ _ _ note). }
    assert (Hback : (if Text.jseqb newDir (js "rtl") then js "ltr" else js "rtl")
                    = Note.dir note).
    { unfold newDir. destruct Hdir as [-> | ->]; reflexivity. }
    unfold toggleDirection. rewrite Hfind'. unfold applyDirection. rewrite Hfind'.
    change (Note.dir (Note.set_dir newDir note)) with newDir. rewrite Hback.
    stw. rewrite E. stw. rewrite list_insert_insert_eq.
    rewrite set_dir_twice, set_dir_same.
    split; [by apply list_insert_id|reflexivity].
Qed.

End ActiveFacts.

Lemma toggle_direction_witness :
  find (has_id (activeId Demo.start)) (notebooks Demo.start) = Some (0%nat, Demo.note1)
  /\ direction (toggleDirection Demo.start) = js "rtl"
  /\ notebooks (toggleDirection (toggleDirection Demo.start)) = notebooks Demo.start.
Proof.
  assert (Hfind : find (has_id (activeId Demo.start)) (notebooks Demo.start)
                  = Some (0%nat, Demo.note1)) by (vm_compute; reflexivity).
  destruct (toggle_direction Demo.start) as [_ H].
  destruct (H 0%nat Demo.note1 Hfind) as (_ & Hd & _ & Hback).
  split; [exact Hfind|]. split; [exact Hd|].
  by destruct (Hback (or_intror eq_refl)) as [Hn _].
Defined.

Lemma toggle_pin_witness :
  find (has_id (Some (js "n1"))) (notebooks Demo.start) = Some (0%nat, Demo.note1)
  /\ notebooks (togglePin (js "n1") Demo.start) = [set_pinned true Demo.note1]
  /\ notebooks (togglePin (js "n1") (togglePin (js "n1") Demo.start))
     = notebooks Demo.start.
Proof.
  assert (Hfind : find (has_id (Some (js "n1"))) (notebooks Demo.start)
                  = Some (0%nat, Demo.note1)) by (vm_compute; reflexivity).
  destruct (toggle_pin Demo.start (js "n1")) as (_ & H & Hback).
  destruct (H 0%nat Demo.note1 Hfind) as [Hn _].
  split; [exact Hfind|]. split; [exact Hn|exact Hback].
Defined.

Lemma ensure_active_note_witness :
  Demo.note1 ∈ notebooks Demo.start
  /\ activeId Demo.start = Some (Note.id Demo.note1)
  /\ ensureActiveNote (js "n2") 7 Demo.start = saveState Demo.start.
Proof.
  assert (Hin : Demo.note1 ∈ notebooks Demo.start) by apply list_elem_of_here.
  destruct (ensure_active_note Demo.start (js "n2") 7) as (_ & _ & _ & H & _).
  split; [exact Hin|]. split; [reflexivity|].
  apply (H Demo.note1 Hin); [reflexivity|discriminate|reflexivity].
Defined.
(** ** Renaming *)

Lemma trim_start_head s c r :
  Text.trim_start s = c :: r -> Text.is_js_whitespace c = false.
Proof.
  induction s as [|x s IH]; [done|]. cbn [Text.trim_start].
  destruct (Text.is_js_whitespace x) eqn:Hx; [exact IH|]. by intros [= <- _].
Qed.

Lemma trim_start_suffix s : exists pre, s = pre ++ Text.trim_start s.
Proof.
  induction s as [|x s [pre IH]]; [by exists []|]. cbn [Text.trim_start].
  destruct (Text.is_js_whitespace x); [|by exists []].
  exists (x :: pre). cbn [app]. by rewrite <- IH.
Qed.

(** The text [trim] gives neither begins nor ends with white space. *)
Lemma trim_ends s :
  (forall c r, Text.trim s = c :: r -> Text.is_js_whitespace c = false)
  /\ (forall c r, Text.trim s = r ++ [c] -> Text.is_js_whitespace c = false).
Proof.
  unfold Text.trim. split.
  - intros c r E.
    destruct (trim_start_suffix (rev (Text.trim_start s))) as [pre Hpre].
    set (b := Text.trim_start (rev (Text.trim_start s))) in *.
    assert (Hb : b = rev r ++ [c]).
    { rewrite <- (rev_involutive b), E. reflexivity. }
    rewrite Hb in Hpre. rewrite app_assoc in Hpre.
    apply (f_equal (@rev N)) in Hpre.
    rewrite rev_involutive, rev_app_distr in Hpre. cbn [rev app] in Hpre.
    by apply trim_start_head in Hpre.
  - intros c r E.
    apply (f_equal (@rev N)) in E.
    rewrite rev_involutive, rev_app_distr in E. cbn [rev app] in E.
    by apply trim_start_head in E.
Qed.

Section RenameFacts.
Context {P : Platform}.

(** The tags read from the input of the rename modal: no tag twice, no
    empty tag; each is a piece between commas, trimmed and lowercased. *)
Lemma manual_tags_spec input :
  NoDup (manual_tags input)
  /\ forall t,
       t ∈ manual_tags input ->
       t <> []
       /\ exists piece,
            piece ∈ JS.split_on 44 input /\ t = toLowerCase (Text.trim piece).
Proof.
  unfold manual_tags.
  destruct (set_of_list_spec
              (List.filter (fun t => (0 <? length t)%nat)
                 (map (fun t => toLowerCase (Text.trim t)) (JS.split_on 44 input))))
    as [Hnd Hin].
  split; [exact Hnd|]. intros t Ht%Hin.
  apply list_elem_of_In, filter_In in Ht as [Ht Hlen].
  split; [by destruct t|].
  apply in_map_iff in Ht as (piece & <- & Hp).
  exists piece. by rewrite list_elem_of_In.
Qed.

(** X12.  [confirmRename] does nothing while no note is pending or the
    title typed is blank: the modal stays open.  Otherwise the pending
    note gets the trimmed title, which neither begins nor ends with white
    space, and the tags typed, each trimmed and lowercased, none empty,
    none twice; nothing else of the note changes; the collection is
    persisted and the modal is closed. *)
Theorem confirm_rename (p : Page) :
  let w := manager p in
  let title := Text.trim (renameInput p) in
  (falsy (pendingId w) = true \/ title = [] -> confirmRename p = p)
  /\ (forall i note,
        falsy (pendingId w) = false -> title <> [] ->
        find (has_id (pendingId w)) (notebooks w) = Some (i, note) ->
        let p' := confirmRename p in
        let note' := Note.set_tags (manual_tags (tagsInput p)) (Note.set_title title note) in
        notebooks (manager p') = <[i := note']> (notebooks w)
        /\ storedNotebooks (manager p') = notebooks (manager p')
        /\ pendingId (manager p') = None
        /\ renameModal p' = false
        /\ (same_id (activeId w) (pendingId w) = true ->
            documentTitle (manager p') = title ++ js " | Portfolio Notebook")
        /\ (forall c r, title = c :: r -> Text.is_js_whitespace c = false)
        /\ (forall c r, title = r ++ [c] -> Text.is_js_whitespace c = false)
        /\ NoDup (Note.tags note')
        /\ (forall t,
              t ∈ Note.tags note' ->
              t <> []
              /\ exists piece,
                   piece ∈ JS.split_on 44 (tagsInput p)
                   /\ t = toLowerCase (Text.trim piece))).
Proof.
  intros w title. split.
  - intros [H|H]; unfold confirmRename; fold w.
    + by rewrite H.
    + destruct (falsy (pendingId w)); [reflexivity|]. fold title. by rewrite H.
  - intros i note Hpending Htitle Hfind p' note'.
    assert (E : p' = set_renameModal false
                       (on_manager (set_pendingId None)
                          (set_manager
                             (saveState
                                (let w1 := set_notebooks (<[i := note']> (notebooks w)) w in
                                 if same_id (activeId w) (pendingId w)
                                 then updateDocumentTitle title w1 else w1)) p))).
    { unfold p', confirmRename. fold w. rewrite Hpending. fold title.
      destruct title as [|c t] eqn:Et; [done|]. by rewrite Hfind. }
    destruct (trim_ends (renameInput p)) as [Hhead Hlast].
    destruct (manual_tags_spec (tagsInput p)) as [Hnd Htags].
    split; [rewrite E; stw; by destruct (same_id _ _)|].
    split; [rewrite E; stw; by destruct (same_id _ _)|].
    split; [rewrite E; by stw|]. split; [rewrite E; by stw|].
    split; [intros Hsame; rewrite E; stw; by rewrite Hsame|].
    split; [exact Hhead|]. split; [exact Hlast|].
    split; [exact Hnd|exact Htags].
Qed.

End RenameFacts.
(** ** Opening a note *)

Section OpenFacts.
Context {P : Platform}.

(** What [loadActiveNote] shows of the note it finds. *)
Lemma loadActiveNote_shows w i n :
  find (has_id (activeId w)) (notebooks w) = Some (i, n) ->
  let w' := loadActiveNote w in
  if Note.encrypted n then
    innerText w' = locked_text /\ contentEditable w' = ce_false
    /\ unlockModal w' = true /\ pendingId w' = Some (Note.id n)
  else
    match Note.content n with
    | [] => innerText w' = [] /\ contentEditable w' = ce_plaintext_only
    | _ :: _ =>
        match decompress (Note.content n) with
        | Some text => innerText w' = text /\ contentEditable w' = ce_plaintext_only
        | None => w' = log (console_error "Failed to load note") w
        end
    end.
Proof.
  intros Hfind. cbv zeta. unfold loadActiveNote. rewrite Hfind.
  destruct (Note.encrypted n); [done|].
  destruct (Note.content n); [done|]. by destruct (decompress _).
Qed.

Lemma switchNote_same_mode (p : Page) (id : jsstring) i note :
  find (has_id (Some id)) (notebooks (manager p)) = Some (i, note) ->
  Note.mode note = mode (manager p) ->
  switchNote id p
  = set_libraryModal false
      (on_manager (fun w => loadActiveNote (saveState (set_activeId (Some id) w))) p).
Proof.
  intros Hfind Hmode. unfold switchNote. rewrite Hfind, Hmode.
  by rewrite mode_eqb_refl.
Qed.

(** What [loadActiveNote] sets beside the surface, when it shows the
    note. *)
Lemma loadActiveNote_title w i n :
  find (has_id (activeId w)) (notebooks w) = Some (i, n) ->
  Note.encrypted n = true \/ Note.content n = []
  \/ is_Some (decompress (Note.content n)) ->
  let w' := loadActiveNote w in
  documentTitle w' = Note.title n ++ js " | Portfolio Notebook"
  /\ direction w' = Text.or_default (Some (Note.dir n)) (js "ltr")
  /\ paperTheme w' = Text.or_default (Some (Note.paperTheme n)) (js "classic").
Proof.
  intros Hfind Hok. cbv zeta. unfold loadActiveNote. rewrite Hfind.
  destruct (Note.encrypted n); [done|].
  destruct (Note.content n) as [|c content] eqn:Hc; [done|].
  destruct (decompress (c :: content)); [done|].
  destruct Hok as [H|[H|[x H]]]; discriminate H.
Qed.

(** X13.  [switchNote] on an identifier no note has does nothing.  On a
    note of the mode of the page it makes the note the active one,
    persists that, closes the library and shows the note: the notice of a
    locked note, with the unlock modal asking for that note, when it is
    encrypted, and its decompressed text on an editable surface when it
    is not, under its title, direction and theme; when the content does
    not decompress the surface keeps its text and the failure is
    reported.  On a note of the other mode it leaves the collection, the
    active note and the surface as they are, stores the identifier as the
    active one and sends the browser to the page of that mode. *)
Theorem switch_note (p : Page) (id : jsstring) :
  let w := manager p in
  (find (has_id (Some id)) (notebooks w) = None -> switchNote id p = p)
  /\ (forall i note,
        find (has_id (Some id)) (notebooks w) = Some (i, note) ->
        Note.mode note = mode w ->
        let p' := switchNote id p in
        let w' := manager p' in
        activeId w' = Some id
        /\ storedActiveId w' = Some id
        /\ notebooks w' = notebooks w
        /\ storedNotebooks w' = notebooks w
        /\ libraryModal p' = false
        /\ locationHref p' = locationHref p
        /\ (if Note.encrypted note then
              innerText w' = locked_text /\ contentEditable w' = ce_false
              /\ unlockModal w' = true /\ pendingId w' = Some (Note.id note)
            else
              match Note.content note with
              | [] => innerText w' = [] /\ contentEditable w' = ce_plaintext_only
              | _ :: _ =>
                  match decompress (Note.content note) with
                  | Some text =>
                      innerText w' = text /\ contentEditable w' = ce_plaintext_only
                  | None =>
                      innerText w' = innerText w
                      /\ events w' = events w ++ [console_error "Failed to load note"]
                  end
              end)
        /\ (Note.encrypted note = true \/ Note.content note = []
            \/ is_Some (decompress (Note.content note)) ->
            documentTitle w' = Note.title note ++ js " | Portfolio Notebook"
            /\ direction w' = Text.or_default (Some (Note.dir note)) (js "ltr")
            /\ paperTheme w'
               = Text.or_default (Some (Note.paperTheme note)) (js "classic")))
  /\ (forall i note,
        find (has_id (Some id)) (notebooks w) = Some (i, note) ->
        Note.mode note <> mode w ->
        let p' := switchNote id p in
        notebooks (manager p') = notebooks w
        /\ activeId (manager p') = activeId w
        /\ innerText (manager p') = innerText w
        /\ storedNotebooks (manager p') = storedNotebooks w
        /\ storedActiveId (manager p') = Some id
        /\ locationHref p'
           = Some (match Note.mode note with
                   | markdown => js "/"
                   | plain => js "/plain"
                   end)).
Proof.
  intros w. unfold w. clear w. split; [|split].
  - intros H. unfold switchNote. by rewrite H.
  - intros i note Hfind Hmode. set (p' := switchNote id p).
    set (w1 := saveState (set_activeId (Some id) (manager p))).
    assert (E : p' = set_libraryModal false (set_manager (loadActiveNote w1) p)).
    { unfold p', switchNote. rewrite Hfind, Hmode.
      by rewrite mode_eqb_refl. }
    assert (Hfind1 : find (has_id (activeId w1)) (notebooks w1) = Some (i, note))
      by exact Hfind.
    destruct (loadActiveNote_store w1) as (Hnb & Hact & _ & Hsn & Hsa).
    pose proof (loadActiveNote_shows w1 i note Hfind1) as Hshow.
    pose proof (loadActiveNote_title w1 i note Hfind1) as Htitle.
    cbv zeta in Hshow, Htitle |- *. rewrite E.
    change (manager (set_libraryModal false (set_manager (loadActiveNote w1) p)))
      with (loadActiveNote w1).
    split; [by rewrite Hact|]. split; [by rewrite Hsa|].
    split; [by rewrite Hnb|]. split; [by rewrite Hsn|].
    split; [reflexivity|]. split; [reflexivity|].
    split; [|exact Htitle].
    destruct (Note.encrypted note); [exact Hshow|].
    destruct (Note.content note); [exact Hshow|].
    destruct (decompress _); [exact Hshow|].
    rewrite Hshow. by split.
  - intros i note Hfind Hmode. set (p' := switchNote id p).
    assert (E : p' = set_locationHref
                       (Some match Note.mode note with
                             | markdown => js "/"
                             | plain => js "/plain"
                             end)
                       (on_manager (set_storedActiveId (Some id)) p)).
    { unfold p', switchNote. rewrite Hfind.
      destruct (mode_eqb (Note.mode note) (mode (manager p))) eqn:Hm; [|reflexivity].
      by apply mode_eqb_eq in Hm. }
    rewrite E. by stw.
Qed.

End OpenFacts.
(** ** Starting the page *)

Section InitFacts.
Context {P : Platform}.

Lemma repair_fields now n :
  Note.id (repair now n) = Note.id n
  /\ Note.mode (repair now n) = Note.mode n
  /\ Note.content (repair now n) = Note.content n
  /\ Note.encrypted (repair now n) = Note.encrypted n
  /\ Note.title (repair now n) = Note.title n
  /\ Note.salt (repair now n) = Note.salt n
  /\ Note.iv (repair now n) = Note.iv n
  /\ Note.searchableContent (repair now n) = Note.searchableContent n.
Proof.
  unfold repair. destruct (Note.createdAt n =? 0);
    cbn [Note.lastModified Note.set_createdAt];
    destruct (Note.lastModified n =? 0); done.
Qed.

(** A note with both timestamps is left as it is. *)
Lemma repair_id now n :
  Note.createdAt n <> 0 -> Note.lastModified n <> 0 -> repair now n = n.
Proof.
  intros Hc%N.eqb_neq Hl%N.eqb_neq. unfold repair. rewrite Hc. by rewrite Hl.
Qed.

(** After the repair a note has both timestamps. *)
Lemma repair_timestamps now n :
  now <> 0 ->
  Note.createdAt (repair now n) <> 0 /\ Note.lastModified (repair now n) <> 0.
Proof.
  intros Hnow. unfold repair.
  destruct (N.eqb_spec (Note.createdAt n) 0) as [Hc|Hc];
    cbn [Note.lastModified Note.createdAt Note.set_createdAt];
    destruct (N.eqb_spec (Note.lastModified n) 0) as [Hl|Hl];
    cbn [Note.lastModified Note.createdAt Note.set_createdAt Note.set_lastModified];
    repeat match goal with
      | |- context [?a =? 0] => destruct (N.eqb_spec a 0); try lia
      end;
    cbn [Note.lastModified Note.createdAt Note.set_createdAt Note.set_lastModified];
    split; lia.
Qed.

(** The notes [migrateOldData] adds, in the order it adds them. *)
Lemma import_old_manager old remove id now title m p :
  (forall q, manager (remove q) = manager q) ->
  manager (import_old old remove id now title m p) = manager p
  \/ exists hash,
       old = Some hash /\ hash <> []
       /\ (forall n, n ∈ notebooks (manager p) -> Note.content n <> hash)
       /\ manager (import_old old remove id now title m p)
          = addNotebook id now title hash m (manager p).
Proof.
  intros Hremove. unfold import_old.
  destruct old as [[|c hash]|]; [by left| |by left].
  destruct (existsb _ _) eqn:Hex; [by left|]. right.
  exists (c :: hash). split; [done|]. split; [done|]. split.
  - intros n Hn%list_elem_of_In E.
    assert (existsb (fun n => Text.jseqb (Note.content n) (c :: hash))
              (notebooks (manager p)) = true); [|congruence].
    apply existsb_exists. exists n. split; [exact Hn|]. by apply jseqb_eq.
  - rewrite Hremove. by stw.
Qed.

Lemma migrateOldData_manager id1 id2 now p :
  exists extra,
    manager (migrateOldData id1 id2 now p)
    = saveState
        (set_notebooks (map (repair now) (notebooks (manager p) ++ extra))
           (manager p))
    /\ Forall (fun n => Note.encrypted n = false
                        /\ Note.createdAt n = now /\ Note.lastModified n = now
                        /\ ((Note.id n = id1 /\ Note.mode n = plain
                             /\ plaintextHash p = Some (Note.content n))
                            \/ (Note.id n = id2 /\ Note.mode n = markdown
                                /\ markdownHash p = Some (Note.content n))))
         extra.
Proof.
  unfold migrateOldData.
  set (p1 := import_old (plaintextHash p) (set_plaintextHash None) id1 now
               (js "My First Note") plain p).
  destruct (import_old_manager (plaintextHash p) (set_plaintextHash None) id1 now
              (js "My First Note") plain p ltac:(done))
    as [E1|(h1 & Hold1 & _ & _ & E1)]; fold p1 in E1;
  destruct (import_old_manager (markdownHash p) (set_markdownHash None) id2 now
              (js "My First Markdown") markdown p1 ltac:(done))
    as [E2|(h2 & Hold2 & _ & _ & E2)]; stw; rewrite E2, ?E1.
  - exists []. split; [by rewrite app_nil_r|constructor].
  - exists [new_notebook id2 now (js "My First Markdown") h2 markdown (manager p)].
    split; [reflexivity|]. constructor; [|constructor].
    do 3 (split; [reflexivity|]). right. by rewrite Hold2.
  - exists [new_notebook id1 now (js "My First Note") h1 plain (manager p)].
    split; [reflexivity|]. constructor; [|constructor].
    do 3 (split; [reflexivity|]). left. by rewrite Hold1.
  - exists [new_notebook id1 now (js "My First Note") h1 plain (manager p);
            new_notebook id2 now (js "My First Markdown") h2 markdown (manager p)].
    split; [unfold addNotebook; stw; by rewrite <- app_assoc|].
    constructor; [|constructor; [|constructor]].
    + do 3 (split; [reflexivity|]). left. by rewrite Hold1.
    + do 3 (split; [reflexivity|]). right. by rewrite Hold2.
Qed.

(** What an import of [migrateOldData] does to the page. *)
Lemma import_old_cases old remove id now title m p :
  (forall q, manager (remove q) = manager q) ->
  (import_old old remove id now title m p = p
   /\ forall hash,
        old = Some hash -> hash <> [] ->
        existsb (fun n => Text.jseqb (Note.content n) hash) (notebooks (manager p))
        = true)
  \/ exists hash,
       old = Some hash /\ hash <> []
       /\ import_old old remove id now title m p
          = remove (on_manager (addNotebook id now title hash m) p).
Proof.
  intros Hremove. unfold import_old.
  destruct old as [[|c hash]|].
  - left. split; [reflexivity|]. by intros ? [= <-].
  - destruct (existsb _ _) eqn:Hex.
    + left. split; [reflexivity|]. by intros ? [= <-].
    + right. by exists (c :: hash).
  - left. split; [reflexivity|]. by intros ? [=].
Qed.

Lemma existsb_content_map hash now (l extra : list Note.t) :
  existsb (fun n => Text.jseqb (Note.content n) hash) l = true ->
  existsb (fun n => Text.jseqb (Note.content n) hash) (map (repair now) (l ++ extra))
  = true.
Proof.
  intros (n & Hn & Hc)%existsb_exists. apply existsb_exists.
  exists (repair now n). split.
  - apply in_map, in_or_app. by left.
  - destruct (repair_fields now n) as (_ & _ & -> & _). exact Hc.
Qed.

Lemma map_repair_id now now' (l : list Note.t) :
  now <> 0 -> map (repair now') (map (repair now) l) = map (repair now) l.
Proof.
  intros Hnow. rewrite map_map. apply map_ext. intros n.
  destruct (repair_timestamps now n Hnow). by apply repair_id.
Qed.

(** The two imports: afterwards a hash that was stored is the content of
    a note, and a key that is still there was there before. *)
Lemma migrate_imports id1 id2 now p :
  let p1 := import_old (plaintextHash p) (set_plaintextHash None) id1 now
              (js "My First Note") plain p in
  let p2 := import_old (markdownHash p) (set_markdownHash None) id2 now
              (js "My First Markdown") markdown p1 in
  (forall hash,
     plaintextHash p = Some hash \/ markdownHash p = Some hash -> hash <> [] ->
     existsb (fun n => Text.jseqb (Note.content n) hash) (notebooks (manager p2))
     = true)
  /\ (forall hash,
        plaintextHash p2 = Some hash ->
        plaintextHash p = Some hash
        /\ (hash <> [] ->
            existsb (fun n => Text.jseqb (Note.content n) hash)
              (notebooks (manager p)) = true))
  /\ (forall hash,
        markdownHash p2 = Some hash ->
        markdownHash p = Some hash
        /\ (hash <> [] ->
            existsb (fun n => Text.jseqb (Note.content n) hash)
              (notebooks (manager p)) = true
            \/ plaintextHash p = Some hash)).
Proof.
  intros p1 p2.
  destruct (import_old_cases (plaintextHash p) (set_plaintextHash None)
              id1 now (js "My First Note") plain p ltac:(done))
    as [[E1 Hex1]|(h1 & Hh1 & _ & E1)]; fold p1 in E1;
  destruct (import_old_cases (markdownHash p) (set_markdownHash None)
              id2 now (js "My First Markdown") markdown p1 ltac:(done))
    as [[E2 Hex2]|(h2 & Hh2 & _ & E2)]; fold p2 in E2;
  rewrite E2, ?E1 in *; unfold addNotebook; stw.
  - split; [|split; [by auto|]]; [intros hash [H|H] Hne; auto|].
    intros hash H. split; [exact H|]. intros Hne. left. by apply Hex2.
  - split; [|split; [by auto|done]].
    intros hash [H|H] Hne; rewrite existsb_app.
    + by rewrite (Hex1 hash H Hne).
    + rewrite H in Hh2. injection Hh2 as <-. cbn [existsb]. st.
      by rewrite jseqb_refl, !orb_true_r.
  - split; [|split; [done|]].
    + intros hash [H|H] Hne.
      * rewrite H in Hh1. injection Hh1 as <-. rewrite existsb_app. cbn [existsb]. st.
        by rewrite jseqb_refl, !orb_true_r.
      * by apply Hex2.
    + intros hash H. split; [exact H|]. intros Hne.
      specialize (Hex2 hash H Hne). unfold addNotebook in Hex2. stw.
      rewrite existsb_app in Hex2.
      apply orb_prop in Hex2 as [Hex2|Hex2]; [by left|right].
      cbn [existsb] in Hex2. st. rewrite orb_false_r in Hex2.
      apply jseqb_eq in Hex2. rewrite Hh1. f_equal. exact Hex2.
  - split; [|split; [done|done]].
    intros hash [H|H] Hne; rewrite !existsb_app; cbn [existsb]; st.
    + rewrite H in Hh1. injection Hh1 as <-.
      by rewrite jseqb_refl, !orb_true_r.
    + rewrite H in Hh2. injection Hh2 as <-.
      by rewrite jseqb_refl, !orb_true_r.
Qed.

Lemma import_old_none old remove id now title m p :
  (forall hash,
     old = Some hash -> hash <> [] ->
     existsb (fun n => Text.jseqb (Note.content n) hash) (notebooks (manager p))
     = true) ->
  import_old old remove id now title m p = p.
Proof.
  intros H. unfold import_old. destruct old as [[|c hash]|]; try reflexivity.
  by rewrite (H (c :: hash)).
Qed.

(** [migrateOldData] on a page where every hash stored is the content of
    a note and every note has its timestamps changes nothing. *)
Lemma migrate_again id1 id2 now now' (p2 : Page) :
  now <> 0 ->
  (forall hash,
     plaintextHash p2 = Some hash \/ markdownHash p2 = Some hash -> hash <> [] ->
     existsb (fun n => Text.jseqb (Note.content n) hash) (notebooks (manager p2))
     = true) ->
  let p' := on_manager
              (fun w => saveState (set_notebooks (map (repair now) (notebooks w)) w))
              p2 in
  migrateOldData id1 id2 now' p' = p'.
Proof.
  intros Hnow Hex p'.
  assert (Hex' : forall hash,
            plaintextHash p' = Some hash \/ markdownHash p' = Some hash -> hash <> [] ->
            existsb (fun n => Text.jseqb (Note.content n) hash) (notebooks (manager p'))
            = true).
  { intros hash H Hne. unfold p'. stw.
    rewrite <- (app_nil_r (notebooks (manager p2))).
    apply existsb_content_map. by apply Hex. }
  unfold migrateOldData.
  rewrite (import_old_none (plaintextHash p')) by (intros; apply Hex'; auto).
  rewrite (import_old_none (markdownHash p')) by (intros; apply Hex'; auto).
  unfold p', on_manager, set_manager. stw. by rewrite map_repair_id.
Qed.

(** X14.  [migrateOldData] keeps every note, giving timestamps to those
    that lack them, and adds a note for each hash an older version left
    that no note has as its content; the collection is persisted.  The
    key of a hash is removed when the hash becomes a note, and stays when
    a note had it already.  Run again, as at every start of the page, it
    changes nothing. *)
Theorem migrate_old_data (p : Page) (id1 id2 : jsstring) (now : N) :
  now <> 0 ->
  let p' := migrateOldData id1 id2 now p in
  (exists extra,
     notebooks (manager p') = map (repair now) (notebooks (manager p)) ++ extra
     /\ Forall (fun n => Note.encrypted n = false
                         /\ (plaintextHash p = Some (Note.content n)
                             \/ markdownHash p = Some (Note.content n)))
          extra)
  /\ (forall n, n ∈ notebooks (manager p') ->
        Note.createdAt n <> 0 /\ Note.lastModified n <> 0)
  /\ storedNotebooks (manager p') = notebooks (manager p')
  /\ activeId (manager p') = activeId (manager p)
  /\ (forall hash,
        plaintextHash p = Some hash \/ markdownHash p = Some hash -> hash <> [] ->
        exists n, n ∈ notebooks (manager p') /\ Note.content n = hash)
  /\ (forall hash,
        plaintextHash p' = Some hash -> hash <> [] ->
        plaintextHash p = Some hash
        /\ exists n, n ∈ notebooks (manager p) /\ Note.content n = hash)
  /\ (forall hash,
        markdownHash p' = Some hash -> hash <> [] ->
        markdownHash p = Some hash
        /\ ((exists n, n ∈ notebooks (manager p) /\ Note.content n = hash)
            \/ plaintextHash p = Some hash))
  /\ (forall id1' id2' now', migrateOldData id1' id2' now' p' = p').
Proof.
  intros Hnow p'.
  destruct (migrateOldData_manager id1 id2 now p) as (extra & Hm & Hextra).
  fold p' in Hm.
  assert (Hnb : notebooks (manager p')
                = map (repair now) (notebooks (manager p) ++ extra))
    by (by rewrite Hm).
  assert (Hcontent : forall hash (l : list Note.t),
            existsb (fun n => Text.jseqb (Note.content n) hash) l = true ->
            exists n, n ∈ l /\ Note.content n = hash).
  { intros hash l (n & Hn & Hc)%existsb_exists. exists n.
    split; [by apply list_elem_of_In|by apply jseqb_eq]. }
  destruct (migrate_imports id1 id2 now p) as (Hin & Hplain & Hmd).
  split; [|split; [|split; [|split; [|split; [|split; [|split]]]]]].
  - exists (map (repair now) extra). split; [by rewrite Hnb, map_app|].
    apply Forall_fmap. eapply Forall_impl; [exact Hextra|].
    intros n (He & _ & _ & Hn). cbn.
    destruct (repair_fields now n) as (_ & _ & -> & -> & _).
    split; [exact He|]. destruct Hn as [(_ & _ & H)|(_ & _ & H)]; tauto.
  - intros n Hn. rewrite Hnb in Hn.
    apply list_elem_of_fmap in Hn as (n0 & -> & _). by apply repair_timestamps.
  - by rewrite Hm.
  - by rewrite Hm.
  - intros hash Hold Hne.
    destruct (Hcontent _ _ (Hin hash Hold Hne)) as (n & Hn & Hc).
    exists (repair now n). split.
    + unfold p', migrateOldData. stw. apply list_elem_of_fmap. by exists n.
    + by destruct (repair_fields now n) as (_ & _ & -> & _).
  - intros hash Hp' Hne. unfold p', migrateOldData in Hp'. stw.
    destruct (Hplain hash Hp') as [Hp Hex]. split; [exact Hp|].
    by apply Hcontent, Hex.
  - intros hash Hp' Hne. unfold p', migrateOldData in Hp'. stw.
    destruct (Hmd hash Hp') as [Hp Hex]. split; [exact Hp|].
    destruct (Hex Hne) as [H|H]; [left; by apply Hcontent|by right].
  - intros id1' id2' now'. unfold p', migrateOldData.
    apply (migrate_again id1' id2' now now'); [exact Hnow|].
    intros hash [H|H] Hne.
    + apply Hin; [|exact Hne]. left. by apply Hplain.
    + apply Hin; [|exact Hne]. right. by apply Hmd.
Qed.

End InitFacts.

Lemma migrate_old_data_witness :
  let p' := migrateOldData (js "a1") (js "a2") 5 DemoPage.legacy in
  5 <> 0
  /\ length (notebooks (manager p')) = 2%nat
  /\ plaintextHash p' = plaintextHash DemoPage.legacy
  /\ markdownHash p' = None
  /\ migrateOldData (js "b1") (js "b2") 6 p' = p'.
Proof.
  assert (Hnow : 5 <> 0) by discriminate.
  destruct (migrate_old_data DemoPage.legacy (js "a1") (js "a2") 5 Hnow)
    as (_ & _ & _ & _ & _ & _ & _ & Hagain).
  split; [exact Hnow|]. split; [vm_compute; reflexivity|].
  split; [vm_compute; reflexivity|]. split; [vm_compute; reflexivity|].
  apply Hagain.
Defined.
Section StartFacts.
Context {P : Platform}.

Lemma handleUrlParam_mode id now w : mode (handleUrlParam id now w) = mode w.
Proof.
  unfold handleUrlParam. destruct (20 <? _)%nat; [|reflexivity].
  destruct (decompress _); [|reflexivity].
  destruct (find _ _) as [[? ?]|]; by destruct (r_encrypted _).
Qed.

Lemma handleUrlParam_short id now w :
  (length (locationHash w) <= 20)%nat -> handleUrlParam id now w = w.
Proof.
  intros Hlen. unfold handleUrlParam.
  destruct (Nat.ltb_spec 20 (length (locationHash w))); [lia|reflexivity].
Qed.

Lemma reindex_fields n :
  Note.id (fst (reindex n)) = Note.id n
  /\ Note.mode (fst (reindex n)) = Note.mode n
  /\ Note.encrypted (fst (reindex n)) = Note.encrypted n
  /\ Note.content (fst (reindex n)) = Note.content n.
Proof. rewrite reindex_cache. by st. Qed.

(** What [init] leaves. *)
Lemma init_spec (p : Page) (id1 id2 id3 id4 : jsstring) (t1 t2 t3 : N) :
  let p' := init id1 id2 id3 id4 t1 t2 t3 p in
  let w' := manager p' in
  mode w' = mode (manager p)
  /\ storedNotebooks w' = notebooks w'
  /\ (exists n,
        n ∈ notebooks w' /\ activeId w' = Some (Note.id n) /\ Note.mode n = mode w')
  /\ (forall i n,
        find (has_id (activeId w')) (notebooks w') = Some (i, n) ->
        if Note.encrypted n then
          innerText w' = locked_text /\ contentEditable w' = ce_false
          /\ unlockModal w' = true /\ pendingId w' = Some (Note.id n)
        else
          match Note.content n with
          | [] => innerText w' = [] /\ contentEditable w' = ce_plaintext_only
          | _ :: _ =>
              match decompress (Note.content n) with
              | Some text =>
                  innerText w' = text /\ contentEditable w' = ce_plaintext_only
              | None => console_error "Failed to load note" ∈ events w'
              end
          end)
  /\ searchQuery p' = [] /\ activeTag p' = None /\ libraryMode p' = mode w'.
Proof.
  intros p' w'.
  assert (Ew : w' = rebuildSearchIndex
                      (loadActiveNote
                         (ensureActiveNote id4 t3
                            (handleUrlParam id3 t2
                               (manager (migrateOldData id1 id2 t1 p))))))
    by reflexivity.
  assert (Hlib : searchQuery p' = [] /\ activeTag p' = None
                 /\ libraryMode p'
                    = mode (loadActiveNote
                              (ensureActiveNote id4 t3
                                 (handleUrlParam id3 t2
                                    (manager (migrateOldData id1 id2 t1 p))))))
    by (repeat split; reflexivity).
  clearbody w'. clearbody p'.
  assert (Hm1 : mode (manager (migrateOldData id1 id2 t1 p)) = mode (manager p)).
  { destruct (migrateOldData_manager id1 id2 t1 p) as (extra & Hm & _).
    by rewrite Hm. }
  revert Ew Hlib Hm1. generalize (manager (migrateOldData id1 id2 t1 p)).
  intros w1 Ew Hlib Hm1.
  pose proof (handleUrlParam_mode id3 t2 w1) as Hm2.
  revert Ew Hlib Hm2. generalize (handleUrlParam id3 t2 w1). intros w2 Ew Hlib Hm2.
  destruct (ensureActiveNote_spec w2 id4 t3) as (Hm3 & (n3 & Hn3 & Hact3 & Hmode3) & _).
  revert Ew Hlib Hm3 Hn3 Hact3. generalize (ensureActiveNote id4 t3 w2).
  intros w3 Ew Hlib Hm3 Hn3 Hact3.
  destruct (loadActiveNote_store w3) as (Hnb4 & Hact4 & Hm4 & _).
  pose proof (loadActiveNote_shows w3) as Hshows. cbv zeta in Hshows.
  revert Ew Hlib Hnb4 Hact4 Hm4 Hshows. generalize (loadActiveNote w3).
  intros w4 Ew Hlib Hnb4 Hact4 Hm4 Hshows.
  assert (Hw' : mode w' = mode w4 /\ notebooks w' = map (fun n => fst (reindex n)) (notebooks w4)
                /\ activeId w' = activeId w4 /\ storedNotebooks w' = notebooks w'
                /\ innerText w' = innerText w4
                /\ contentEditable w' = contentEditable w4
                /\ unlockModal w' = unlockModal w4
                /\ pendingId w' = pendingId w4
                /\ events w'
                   = events w4 ++ flat_map (fun n => snd (reindex n)) (notebooks w4))
    by (rewrite Ew; repeat split; reflexivity).
  clear Ew. destruct Hw' as (Hmode & Hnb & Hact & Hstored & Hit & Hce & Hum & Hpd & Hev).
  destruct Hlib as (Hsq & Hat & Hlm).
  assert (Hmode' : mode w' = mode (manager p)) by congruence.
  split; [exact Hmode'|]. split; [exact Hstored|].
  split; [|split; [|split; [exact Hsq|split; [exact Hat|congruence]]]].
  - exists (fst (reindex n3)).
    destruct (reindex_fields n3) as (Hid & Hmd & _).
    split; [rewrite Hnb, Hnb4; apply list_elem_of_fmap; by exists n3|].
    split; [rewrite Hact, Hact4, Hact3; by rewrite Hid|]. rewrite Hmd, Hmode3. congruence.
  - intros i n Hfind. rewrite Hnb, Hact, Hnb4, Hact4 in Hfind. unfold find in Hfind.
    rewrite (find_from_map (has_id (activeId w3)) (fun n => fst (reindex n))) in Hfind.
    2:{ intros m. apply has_id_set. apply reindex_fields. }
    destruct (find_from (has_id (activeId w3)) 0 (notebooks w3)) as [[i0 n0]|] eqn:Hf0;
      [|discriminate].
    injection Hfind as <- <-.
    destruct (reindex_fields n0) as (Hid & _ & -> & ->).
    specialize (Hshows i0 n0 Hf0).
    rewrite Hit, Hce, Hum, Hpd, Hid.
    destruct (Note.encrypted n0); [exact Hshows|].
    destruct (Note.content n0); [exact Hshows|].
    destruct (decompress _); [exact Hshows|].
    rewrite Hev, Hshows. unfold log. stw.
    apply elem_of_app. left. apply elem_of_app. right.
    apply list_elem_of_singleton. reflexivity.
Qed.

(** X15.  However the page starts, [init] leaves an active note of the
    mode of the page, persisted with the collection, and shows it: the
    notice of a locked note with the unlock modal for an encrypted note,
    the decompressed text for another; the library starts on the mode of
    the page with no search and no tag. *)
Theorem init_shows_active (p : Page) (id1 id2 id3 id4 : jsstring) (t1 t2 t3 : N) :
  let p' := init id1 id2 id3 id4 t1 t2 t3 p in
  let w' := manager p' in
  mode w' = mode (manager p)
  /\ storedNotebooks w' = notebooks w'
  /\ (exists n,
        n ∈ notebooks w' /\ activeId w' = Some (Note.id n) /\ Note.mode n = mode w')
  /\ (forall i n,
        find (has_id (activeId w')) (notebooks w') = Some (i, n) ->
        if Note.encrypted n then
          innerText w' = locked_text /\ contentEditable w' = ce_false
          /\ unlockModal w' = true /\ pendingId w' = Some (Note.id n)
        else
          match Note.content n with
          | [] => innerText w' = [] /\ contentEditable w' = ce_plaintext_only
          | _ :: _ =>
              match decompress (Note.content n) with
              | Some text =>
                  innerText w' = text /\ contentEditable w' = ce_plaintext_only
              | None => console_error "Failed to load note" ∈ events w'
              end
          end)
  /\ searchQuery p' = [] /\ activeTag p' = None /\ libraryMode p' = mode w'.
Proof. apply init_spec. Qed.

(** X16.  A note of the other mode chosen in the library is the note the
    page of that mode opens: [switchNote] stores its identifier and sends
    the browser there, and the manager that page makes from the storage
    starts with this note as the active one and shows it. *)
Theorem switch_other_mode_opens (p q : Page) (id : jsstring) (i : nat)
    (note : Note.t) (id1 id2 id3 id4 : jsstring) (t1 t2 t3 : N) :
  find (has_id (Some id)) (notebooks (manager p)) = Some (i, note) ->
  Note.mode note <> mode (manager p) ->
  id <> [] ->
  storedNotebooks (manager p) = notebooks (manager p) ->
  let p' := switchNote id p in
  storedNotebooks (manager q) = storedNotebooks (manager p') ->
  storedActiveId (manager q) = storedActiveId (manager p') ->
  locationHash (manager q) = [] ->
  let q' := init id1 id2 id3 id4 t1 t2 t3 (construct (Note.mode note) q) in
  let w' := manager q' in
  locationHref p' = Some (match Note.mode note with
                          | markdown => js "/"
                          | plain => js "/plain"
                          end)
  /\ mode w' = Note.mode note
  /\ activeId w' = Some id
  /\ exists n,
       find (has_id (activeId w')) (notebooks w') = Some (i, n)
       /\ Note.content n = Note.content note
       /\ Note.encrypted n = Note.encrypted note
       /\ Note.mode n = Note.mode note
       /\ if Note.encrypted note then
            innerText w' = locked_text /\ contentEditable w' = ce_false
            /\ unlockModal w' = true
          else
            forall text,
              Note.content note <> [] ->
              decompress (Note.content note) = Some text ->
              innerText w' = text /\ contentEditable w' = ce_plaintext_only.
Proof.
  intros Hfind Hmode Hid Hsync p' Hq1 Hq2 Hq3 q' w'.
  pose proof (find_Some _ _ _ _ Hfind) as [Hi Hhas].
  apply has_id_eq in Hhas. injection Hhas as Hnid.
  assert (Hp' : p' = set_locationHref
                      (Some match Note.mode note with
                            | markdown => js "/"
                            | plain => js "/plain"
                            end)
                      (on_manager (set_storedActiveId (Some id)) p)).
  { unfold p', switchNote. rewrite Hfind.
    destruct (mode_eqb (Note.mode note) (mode (manager p))) eqn:Hm; [|reflexivity].
    by apply mode_eqb_eq in Hm. }
  rewrite Hp' in Hq1, Hq2. unfold on_manager in Hq1, Hq2.
  cbn [manager set_locationHref set_manager storedNotebooks storedActiveId
       set_storedActiveId] in Hq1, Hq2.
  rewrite Hsync in Hq1.
  split; [by rewrite Hp'|]. clear Hp'. clearbody p'.
  pose proof (init_spec (construct (Note.mode note) q) id1 id2 id3 id4 t1 t2 t3)
    as (Hm' & _ & _ & Hshow & _).
  fold q' in Hm', Hshow. fold w' in Hm', Hshow.
  assert (Ew : w' = rebuildSearchIndex
                      (loadActiveNote
                         (ensureActiveNote id4 t3
                            (handleUrlParam id3 t2
                               (manager (migrateOldData id1 id2 t1
                                           (construct (Note.mode note) q)))))))
    by reflexivity.
  clearbody w'. clearbody q'.
  destruct (migrateOldData_manager id1 id2 t1 (construct (Note.mode note) q))
    as (extra & Hm & _).
  assert (Hc : notebooks (manager (construct (Note.mode note) q)) = notebooks (manager p)
               /\ activeId (manager (construct (Note.mode note) q)) = Some id
               /\ mode (manager (construct (Note.mode note) q)) = Note.mode note
               /\ locationHash (manager (construct (Note.mode note) q)) = []).
  { unfold construct.
    cbn [manager set_manager notebooks activeId mode locationHash]. by rewrite Hq1, Hq2, Hq3. }
  revert Hm Hc Hm'. generalize (manager (construct (Note.mode note) q)).
  intros w0 Hm (Hnb0 & Hact0 & Hmode0 & Hhash0) Hm'.
  set (note1 := repair t1 note).
  assert (Hf1 : find (has_id (Some id))
                  (map (repair t1) (notebooks w0 ++ extra)) = Some (i, note1)).
  { unfold find. rewrite (find_from_map (has_id (Some id)) (repair t1)).
    - rewrite Hnb0. fold (find (has_id (Some id)) (notebooks (manager p) ++ extra)).
      by rewrite (find_app_l _ _ _ _ Hfind).
    - intros m. apply has_id_set. apply repair_fields. }
  rewrite Hm in Ew.
  rewrite handleUrlParam_short in Ew by (stw; rewrite Hhash0; cbn; lia).
  destruct (repair_fields t1 note) as (Hid1 & Hmode1 & Hcontent1 & Henc1 & _).
  fold note1 in Hid1, Hmode1, Hcontent1, Henc1.
  destruct (ensureActiveNote_spec
              (saveState (set_notebooks (map (repair t1) (notebooks w0 ++ extra)) w0))
              id4 t3) as (_ & _ & _ & Hstable & _).
  rewrite (Hstable note1) in Ew.
  2:{ stw. by apply find_Some in Hf1 as [?%list_elem_of_lookup_2 _]. }
  2:{ stw. by rewrite Hact0, Hid1, Hnid. }
  2:{ rewrite Hid1, <- Hnid. exact Hid. }
  2:{ stw. by rewrite Hmode1, Hmode0. }
  clear Hstable.
  set (w3 := saveState
               (saveState (set_notebooks (map (repair t1) (notebooks w0 ++ extra)) w0)))
    in *.
  assert (Hw3 : notebooks w3 = map (repair t1) (notebooks w0 ++ extra)
                /\ activeId w3 = Some id) by (by rewrite <- Hact0).
  clearbody w3. destruct Hw3 as [Hnb3 Hact3].
  destruct (loadActiveNote_store w3) as (Hnb4 & Hact4 & _).
  assert (Hw' : notebooks w' = map (fun n => fst (reindex n)) (notebooks (loadActiveNote w3))
                /\ activeId w' = activeId (loadActiveNote w3))
    by (by rewrite Ew).
  destruct Hw' as [Hnb Hact]. rewrite Hnb4, Hnb3 in Hnb. rewrite Hact4, Hact3 in Hact.
  assert (Hf : find (has_id (activeId w')) (notebooks w')
               = Some (i, fst (reindex note1))).
  { rewrite Hnb, Hact. unfold find.
    rewrite (find_from_map (has_id (Some id)) (fun n => fst (reindex n))).
    - fold (find (has_id (Some id)) (map (repair t1) (notebooks w0 ++ extra))).
      by rewrite Hf1.
    - intros m. apply has_id_set. apply reindex_fields. }
  destruct (reindex_fields note1) as (_ & Hmode2 & Henc2 & Hcontent2).
  split; [by rewrite Hm', Hmode0|]. split; [exact Hact|].
  exists (fst (reindex note1)). split; [exact Hf|].
  split; [by rewrite Hcontent2, Hcontent1|].
  split; [by rewrite Henc2, Henc1|]. split; [by rewrite Hmode2, Hmode1|].
  specialize (Hshow i _ Hf). rewrite Henc2, Henc1, Hcontent2, Hcontent1 in Hshow.
  destruct (Note.encrypted note); [tauto|].
  intros text Hne Hd. destruct (Note.content note); [done|].
  by rewrite Hd in Hshow.
Qed.

End StartFacts.

Lemma switch_other_mode_opens_witness :
  let p := DemoPage.both in
  let p' := switchNote (js "m1") p in
  let q' := init (js "a1") (js "a2") (js "a3") (js "a4") 5 6 7
              (construct markdown p') in
  find (has_id (Some (js "m1"))) (notebooks (manager p)) = Some (1%nat, DemoPage.note2)
  /\ Note.mode DemoPage.note2 <> mode (manager p)
  /\ locationHref p' = Some (js "/")
  /\ activeId (manager q') = Some (js "m1")
  /\ innerText (manager q') = js "# Plan".
Proof.
  set (p := DemoPage.both).
  assert (Hfind : find (has_id (Some (js "m1"))) (notebooks (manager p))
                  = Some (1%nat, DemoPage.note2)) by (vm_compute; reflexivity).
  assert (Hmode : Note.mode DemoPage.note2 <> mode (manager p)) by discriminate.
  assert (Hid : js "m1" <> []) by discriminate.
  assert (Hsync : storedNotebooks (manager p) = notebooks (manager p)) by reflexivity.
  assert (Hhash : locationHash (manager (switchNote (js "m1") p)) = [])
    by (vm_compute; reflexivity).
  destruct (switch_other_mode_opens p (switchNote (js "m1") p) (js "m1") 1
              DemoPage.note2 (js "a1") (js "a2") (js "a3") (js "a4") 5 6 7
              Hfind Hmode Hid Hsync eq_refl eq_refl Hhash)
    as (Hhref & _ & Hact & n & _ & _ & _ & _ & Hshow).
  split; [exact Hfind|]. split; [exact Hmode|]. split; [exact Hhref|].
  split; [exact Hact|].
  apply (Hshow (js "# Plan")); [vm_compute; discriminate|vm_compute; reflexivity].
Defined.
(** ** Wiki links *)

Section WikiFacts.
Context {P : Platform}.

(** X17.  A wiki link to a title no note has opens the modal that offers
    to create the note, and changes nothing else.  Confirming adds an
    empty note of that title in the mode of the page, makes it the active
    note, shows it, empty and editable, and closes the modal; from then on
    the link finds the note.  Without a pending title confirming does
    nothing. *)
Theorem wiki_link_creates (p : Page) (title id : jsstring) (now : N) :
  title <> [] ->
  findNoteByTitle title (manager p) = None ->
  find (has_id (Some id)) (notebooks (manager p)) = None ->
  let w := manager p in
  let p1 := clickWikiLink title p in
  let p2 := confirmWikiCreate id now p1 in
  let new := new_notebook id now title [] (mode w) w in
  (pendingWikiTitle p = None -> confirmWikiCreate id now p = p)
  /\ p1 = set_wikiModal true (set_pendingWikiTitle (Some title) p)
  /\ notebooks (manager p2) = notebooks w ++ [new]
  /\ storedNotebooks (manager p2) = notebooks (manager p2)
  /\ activeId (manager p2) = Some id
  /\ innerText (manager p2) = []
  /\ contentEditable (manager p2) = ce_plaintext_only
  /\ documentTitle (manager p2) = title ++ js " | Portfolio Notebook"
  /\ wikiModal p2 = false /\ pendingWikiTitle p2 = None
  /\ findNoteByTitle title (manager p2) = Some (length (notebooks w), new).
Proof.
  intros Htitle Hnone Hfresh w p1 p2 new.
  assert (E1 : p1 = set_wikiModal true (set_pendingWikiTitle (Some title) p)).
  { unfold p1, clickWikiLink. by rewrite Hnone. }
  split; [intros H; unfold confirmWikiCreate; by rewrite H|].
  split; [exact E1|].
  set (wa := addNotebook id now title [] (mode w) w).
  assert (Hnba : notebooks wa = notebooks w ++ [new]) by reflexivity.
  assert (Hfa : find (has_id (Some id)) (notebooks wa) = Some (length (notebooks w), new)).
  { rewrite Hnba. apply find_snoc; [exact Hfresh|]. by apply has_id_eq. }
  set (wl := loadActiveNote (saveState (set_activeId (Some id) wa))).
  assert (E2 : p2 = closeWikiCreateModal
                      (set_libraryModal false (set_manager wl (set_manager wa p1)))).
  { assert (Hc : forall q,
              pendingWikiTitle q = Some title ->
              confirmWikiCreate id now q
              = closeWikiCreateModal
                  (switchNote id
                     (on_manager (fun w => addNotebook id now title [] (mode w) w) q))).
    { intros q Hq. unfold confirmWikiCreate. rewrite Hq.
      clear -Htitle. by destruct title. }
    unfold p2. rewrite Hc by (by rewrite E1).
    assert (Hm1 : manager p1 = w) by (by rewrite E1).
    unfold on_manager at 1. rewrite Hm1. fold wa.
    rewrite (switchNote_same_mode _ id (length (notebooks w)) new);
      [reflexivity|exact Hfa|reflexivity]. }
  assert (Hshow : innerText wl = [] /\ contentEditable wl = ce_plaintext_only
                  /\ documentTitle wl = title ++ js " | Portfolio Notebook").
  { unfold wl, loadActiveNote.
    change (activeId (saveState (set_activeId (Some id) wa))) with (Some id).
    change (notebooks (saveState (set_activeId (Some id) wa))) with (notebooks wa).
    rewrite Hfa. by cbn. }
  destruct (loadActiveNote_store (saveState (set_activeId (Some id) wa)))
    as (Hnb & Hact & _ & Hst & _).
  fold wl in Hnb, Hact, Hst.
  assert (Hm2 : manager p2 = wl) by (by rewrite E2).
  rewrite Hm2. destruct Hshow as (Hit & Hce & Hdt).
  split; [by rewrite Hnb|]. split; [by rewrite Hst, Hnb|]. split; [by rewrite Hact|].
  split; [exact Hit|]. split; [exact Hce|]. split; [exact Hdt|].
  split; [by rewrite E2|]. split; [by rewrite E2|].
  unfold findNoteByTitle. rewrite Hnb. change (notebooks (saveState _)) with (notebooks wa).
  rewrite Hnba. apply find_snoc; [exact Hnone|]. apply jseqb_refl.
Qed.

End WikiFacts.

Lemma wiki_link_creates_witness :
  let p := DemoPage.page Demo.start in
  let p2 := confirmWikiCreate (js "w1") 5 (clickWikiLink (js "Ideas") p) in
  js "Ideas" <> []
  /\ findNoteByTitle (js "Ideas") (manager p) = None
  /\ find (has_id (Some (js "w1"))) (notebooks (manager p)) = None
  /\ activeId (manager p2) = Some (js "w1")
  /\ innerText (manager p2) = []
  /\ findNoteByTitle (js "Ideas") (manager p2)
     = Some (1%nat, new_notebook (js "w1") 5 (js "Ideas") [] plain Demo.start).
Proof.
  set (p := DemoPage.page Demo.start).
  assert (Htitle : js "Ideas" <> []) by discriminate.
  assert (Hnone : findNoteByTitle (js "Ideas") (manager p) = None)
    by (vm_compute; reflexivity).
  assert (Hfresh : find (has_id (Some (js "w1"))) (notebooks (manager p)) = None)
    by (vm_compute; reflexivity).
  destruct (wiki_link_creates p (js "Ideas") (js "w1") 5 Htitle Hnone Hfresh)
    as (_ & _ & _ & _ & Hact & Hit & _ & _ & _ & _ & Hfound).
  split; [exact Htitle|]. split; [exact Hnone|]. split; [exact Hfresh|].
  split; [exact Hact|]. split; [exact Hit|exact Hfound].
Defined.
(** ** The list of the library *)

Section LibraryFacts.
Context {P : Platform}.

Lemma sort_insert_perm cmp x (l : list Note.t) : sort_insert cmp x l ≡ₚ x :: l.
Proof.
  induction l as [|y l IH]; [reflexivity|]. cbn [sort_insert].
  destruct (cmp x y <=? 0)%Z; [reflexivity|].
  rewrite IH. apply Permutation_swap.
Qed.

Lemma sort_perm cmp (l : list Note.t) : sort cmp l ≡ₚ l.
Proof.
  induction l as [|x l IH]; [reflexivity|]. unfold sort in *. cbn [foldr].
  rewrite sort_insert_perm. by rewrite IH.
Qed.

(** The order of the library: pinned notes first, then the most recently
    modified first. *)
Lemma library_compare_le a b :
  (library_compare a b <= 0)%Z
  <-> (Note.pinned b = true -> Note.pinned a = true)
      /\ (Note.pinned a = Note.pinned b -> Note.lastModified b <= Note.lastModified a).
Proof.
  unfold library_compare.
  destruct (Note.pinned a), (Note.pinned b); cbn [Bool.eqb]; split; try lia;
    try (intros []; split; [done|intros _; lia]); try (split; [done|]; lia);
    try (intros [H _]; by specialize (H eq_refl)); intuition (try discriminate; lia).
Qed.

Lemma library_compare_total a b :
  (library_compare a b <= 0)%Z \/ (library_compare b a <= 0)%Z.
Proof.
  unfold library_compare.
  destruct (Note.pinned a), (Note.pinned b); cbn [Bool.eqb]; lia.
Qed.

Lemma library_compare_trans a b c :
  (library_compare a b <= 0)%Z -> (library_compare b c <= 0)%Z ->
  (library_compare a c <= 0)%Z.
Proof.
  unfold library_compare.
  destruct (Note.pinned a), (Note.pinned b), (Note.pinned c); cbn [Bool.eqb]; lia.
Qed.

Lemma sort_insert_sorted x (l : list Note.t) :
  ForallOrdPairs (fun a b => (library_compare a b <= 0)%Z) l ->
  ForallOrdPairs (fun a b => (library_compare a b <= 0)%Z)
    (sort_insert library_compare x l).
Proof.
  induction 1 as [|y l Hy Hl IH]; cbn [sort_insert].
  - repeat constructor.
  - destruct (Z.leb_spec (library_compare x y) 0) as [Hxy|Hxy].
    + constructor; [|by constructor]. constructor; [exact Hxy|].
      eapply Forall_impl; [exact Hy|]. intros z Hz.
      by apply (library_compare_trans x y z).
    + constructor; [|exact IH].
      rewrite sort_insert_perm. constructor; [|exact Hy].
      destruct (library_compare_total x y); [lia|done].
Qed.

Lemma sort_sorted (l : list Note.t) :
  ForallOrdPairs (fun a b => (library_compare a b <= 0)%Z) (sort library_compare l).
Proof.
  induction l as [|x l IH]; [constructor|].
  unfold sort in *. cbn [foldr]. by apply sort_insert_sorted.
Qed.

Lemma filter_filter (f g : Note.t -> bool) (l : list Note.t) :
  List.filter f (List.filter g l) = List.filter (fun n => g n && f n) l.
Proof.
  induction l as [|x l IH]; [reflexivity|]. cbn [List.filter].
  destruct (g x); cbn [List.filter andb]; rewrite IH; reflexivity.
Qed.

Lemma filter_true (l : list Note.t) : List.filter (fun _ => true) l = l.
Proof. induction l as [|x l IH]; [reflexivity|]. cbn. by rewrite IH. Qed.

(** X18.  The library lists the notes that pass its filters, each as
    often as the collection holds it: without a search text the notes of
    the tab, with one the notes of both modes whose lowercased title,
    search cache or lowercased tags hold the lowercased text; and of
    these the notes that carry the chosen tag, if one is chosen.  Pinned
    notes come first; among pinned and among unpinned notes, a note
    modified later comes earlier. *)
Theorem library_list_order (notes : list Note.t) (libraryMode : Mode)
    (searchQuery : jsstring) (activeTag : option jsstring) :
  let keep n :=
    match searchQuery with
    | [] => in_mode libraryMode n
    | _ :: _ => matches_query (toLowerCase searchQuery) n
    end
    && match activeTag with
       | Some (c :: t) => existsb (Text.jseqb (c :: t)) (Note.tags n)
       | _ => true
       end in
  let l := library_list notes libraryMode searchQuery activeTag in
  l ≡ₚ List.filter keep notes
  /\ (forall n, n ∈ l <-> n ∈ notes /\ keep n = true)
  /\ (forall i j a b,
        (i < j)%nat -> l !! i = Some a -> l !! j = Some b ->
        (Note.pinned b = true -> Note.pinned a = true)
        /\ (Note.pinned a = Note.pinned b ->
            Note.lastModified b <= Note.lastModified a)).
Proof.
  intros keep l.
  assert (Hperm : l ≡ₚ List.filter keep notes).
  { unfold l, library_list. rewrite sort_perm.
    assert (E : forall l0 : list Note.t,
              match activeTag with
              | Some (c :: t) =>
                  List.filter (fun n => existsb (Text.jseqb (c :: t)) (Note.tags n)) l0
              | _ => l0
              end
              = List.filter
                  (fun n => match activeTag with
                            | Some (c :: t) => existsb (Text.jseqb (c :: t)) (Note.tags n)
                            | _ => true
                            end) l0).
    { intros l0. destruct activeTag as [[|c t]|]; by rewrite ?filter_true. }
    rewrite E. unfold keep.
    destruct searchQuery as [|c q]; by rewrite filter_filter. }
  split; [exact Hperm|]. split.
  - intros n. rewrite Hperm. apply in_filter.
  - intros i j a b Hij Ha Hb.
    apply library_compare_le.
    pose proof (sort_sorted
                  match activeTag with
                  | Some (c :: t) =>
                      List.filter (fun n => existsb (Text.jseqb (c :: t)) (Note.tags n))
                        match searchQuery with
                        | [] => List.filter (in_mode libraryMode) notes
                        | _ :: _ =>
                            List.filter (matches_query (toLowerCase searchQuery))
                              notes
                        end
                  | _ =>
                      match searchQuery with
                      | [] => List.filter (in_mode libraryMode) notes
                      | _ :: _ =>
                          List.filter (matches_query (toLowerCase searchQuery))
                            notes
                      end
                  end) as Hsorted.
    assert (El : l = sort library_compare
                       match activeTag with
                       | Some (c :: t) =>
                           List.filter
                             (fun n => existsb (Text.jseqb (c :: t)) (Note.tags n))
                             match searchQuery with
                             | [] => List.filter (in_mode libraryMode) notes
                             | _ :: _ =>
                                 List.filter (matches_query (toLowerCase searchQuery))
                                   notes
                             end
                       | _ =>
                           match searchQuery with
                           | [] => List.filter (in_mode libraryMode) notes
                           | _ :: _ =>
                               List.filter (matches_query (toLowerCase searchQuery))
                                 notes
                           end
                       end).
    { unfold l, library_list. by destruct searchQuery. }
    rewrite <- El in Hsorted. clear El Hperm. clearbody l.
    revert i j Hij Ha Hb. induction Hsorted as [|x l0 Hx Hl0 IH]; intros i j Hij Ha Hb.
    + by rewrite lookup_nil in Ha.
    + destruct i as [|i], j as [|j]; try lia.
      * injection Ha as <-. cbn in Hb.
        rewrite Forall_forall in Hx. apply Hx.
        by eapply list_elem_of_lookup_2.
      * cbn in Ha, Hb. apply (IH i j); [lia|done|done].
Qed.

End LibraryFacts.
(** ** Export *)

Section ExportFacts.
Context {P : Platform}.

(** The archive after the calls: under a name, the text of the last note
    filed under it. *)
Lemma zip_lookup (w : State) (notes : list Note.t) zip name :
  fold_left (fun zip note => zip_file (export_name note) (export_content w note) zip)
    notes zip !! name
  = match last (List.filter (fun note => Text.jseqb (export_name note) name) notes) with
    | Some note => Some (export_content w note)
    | None => zip !! name
    end.
Proof.
  revert zip. induction notes as [|x notes IH]; intros zip; [reflexivity|].
  cbn [fold_left List.filter]. rewrite IH. unfold zip_file.
  destruct (Text.jseqb (export_name x) name) eqn:Hx.
  - apply jseqb_eq in Hx. rewrite last_cons.
    destruct (last (List.filter _ notes)); [reflexivity|].
    by rewrite Hx, lookup_insert_eq.
  - apply jseqb_neq in Hx.
    destruct (last (List.filter _ notes)); [reflexivity|].
    by rewrite lookup_insert_ne.
Qed.

(** The archive has a file for each note when no two notes are filed
    under one name, and fewer otherwise. *)
Lemma zip_size (w : State) (notes : list Note.t) (zip : gmap jsstring jsstring) :
  let zip' :=
    fold_left (fun zip note => zip_file (export_name note) (export_content w note) zip)
      notes zip in
  (size zip' <= size zip + length notes)%nat
  /\ (size zip' = size zip + length notes
      <-> NoDup (map export_name notes)
          /\ forall name, name ∈ map export_name notes -> zip !! name = None)%nat.
Proof.
  revert zip. induction notes as [|x notes IH]; intros zip; cbn [fold_left map length].
  - split; [lia|]. split; [intros _|lia].
    split; [constructor|]. intros name Hn. by apply elem_of_nil in Hn.
  - destruct (IH (zip_file (export_name x) (export_content w x) zip)) as [Hle Hiff].
    cbv zeta in Hle, Hiff.
    set (z := fold_left _ notes _) in *.
    unfold zip_file in Hle, Hiff.
    destruct (zip !! export_name x) as [old|] eqn:Hx.
    + assert (Hins : size (<[export_name x := export_content w x]> zip) = size zip)
        by (apply map_size_insert_Some; by eexists).
      rewrite Hins in Hle, Hiff. split; [lia|]. split; [lia|].
      intros [_ Hnone]. specialize (Hnone (export_name x) (list_elem_of_here _ _)).
      congruence.
    + assert (Hins : size (<[export_name x := export_content w x]> zip)
                     = S (size zip)) by (by apply map_size_insert_None).
      rewrite Hins in Hle, Hiff. split; [lia|]. split.
      * intros Hsz. destruct Hiff as [Hiff _].
        destruct Hiff as [Hnd Hnone]; [lia|].
        split.
        -- apply NoDup_cons. split; [|exact Hnd].
           intros Hin. specialize (Hnone _ Hin). by rewrite lookup_insert_eq in Hnone.
        -- intros name [->|Hin]%elem_of_cons; [exact Hx|].
           specialize (Hnone _ Hin).
           destruct (decide (export_name x = name)) as [<-|Hne].
           ++ by rewrite lookup_insert_eq in Hnone.
           ++ by rewrite lookup_insert_ne in Hnone.
      * intros [[Hnx Hnd]%NoDup_cons Hnone]. destruct Hiff as [_ Hiff].
        rewrite Hiff; [lia|]. split; [exact Hnd|].
        intros name Hin. rewrite lookup_insert_ne.
        -- apply Hnone. by apply list_elem_of_further.
        -- intros <-. by apply Hnx.
Qed.

(** X19.  [bulkExport] without the archive library, or without notes,
    makes no archive and tells so.  Otherwise it leaves the page as it is
    and files the notes in the archive in the order of the collection,
    each under the title of the note with each of the characters slash,
    backslash, question mark, percent, asterisk, colon, bar, double quote
    and the two angle brackets replaced by a hyphen, followed by the
    extension of the mode.  A note filed under the name of an earlier one
    replaces it: the archive holds, under each name, the text of the last
    note of that name, and it has one file for every note exactly when no
    two notes have the same name.  The text of a note is its decompressed
    content when it is not encrypted, its decrypted content when it is
    encrypted and its session key is cached, and a notice, never the
    stored content, when it is encrypted without a key. *)
Theorem bulk_export (w : State) :
  bulkExport false w
  = (log (alert "Export library not loaded. Please check your connection.") w, None)
  /\ (notebooks w = [] ->
      bulkExport true w = (log (alert "No notes to export!") w, None))
  /\ (notebooks w <> [] ->
      exists zip,
        bulkExport true w = (w, Some zip)
        /\ (forall name,
              zip !! name
              = match last (List.filter
                              (fun note => Text.jseqb (export_name note) name)
                              (notebooks w)) with
                | Some note => Some (export_content w note)
                | None => None
                end)
        /\ (size zip <= length (notebooks w))%nat
        /\ (size zip = length (notebooks w)
            <-> NoDup (map export_name (notebooks w))))
  /\ (forall note,
        exists stem,
          export_name note
          = stem ++ js "." ++ match Note.mode note with
                              | markdown => js "md"
                              | plain => js "txt"
                              end
          /\ length stem = length (Note.title note)
          /\ (forall k c,
                Note.title note !! k = Some c ->
                stem !! k = Some (if JS.is_reserved_char c then 45 else c))
          /\ Forall (fun c => JS.is_reserved_char c = false) stem)
  /\ (forall note,
        (Note.encrypted note = false ->
         forall text, decompress (Note.content note) = Some text ->
         export_content w note = text)
        /\ (Note.encrypted note = false ->
            decompress (Note.content note) = None ->
            export_content w note = Note.content note)
        /\ (Note.encrypted note = true ->
            sessionKeys w !! Note.id note = None ->
            export_content w note = locked_placeholder)
        /\ (Note.encrypted note = true ->
            forall key,
              sessionKeys w !! Note.id note = Some key ->
              export_content w note
              = default locked_placeholder
                  (decryptWithKey (Note.content note) key (Note.iv note)))).
Proof.
  split; [reflexivity|]. split; [|split; [|split]].
  - intros H. unfold bulkExport. by rewrite H.
  - intros Hne.
    set (zip := fold_left
                  (fun zip note =>
                     zip_file (export_name note) (export_content w note) zip)
                  (notebooks w) ∅).
    exists zip. split; [unfold bulkExport; by destruct (notebooks w)|].
    split.
    { intros name. unfold zip. rewrite zip_lookup.
      destruct (last _); [reflexivity|apply lookup_empty]. }
    destruct (zip_size w (notebooks w) ∅) as [Hle Hiff]. cbv zeta in Hle, Hiff.
    fold zip in Hle, Hiff. rewrite map_size_empty in Hle, Hiff.
    split; [exact Hle|].
    rewrite Hiff. split; [by intros [? _]|].
    intros Hnd. split; [exact Hnd|]. intros name _. apply lookup_empty.
  - intros note.
    exists (map (fun c => if JS.is_reserved_char c then 45 else c) (Note.title note)).
    split; [reflexivity|]. split; [apply length_map|]. split.
    { intros k c Hk. rewrite list_lookup_fmap. unfold jsstring in Hk. by rewrite Hk. }
    apply Forall_forall. intros c (c0 & -> & _)%list_elem_of_fmap.
    by destruct (JS.is_reserved_char c0) eqn:Hc.
  - intros note. unfold export_content. split; [|split; [|split]].
    + intros -> text ->. reflexivity.
    + intros -> ->. reflexivity.
    + intros -> ->. reflexivity.
    + intros -> key ->. by destruct (decryptWithKey _ _ _).
Qed.

End ExportFacts.
(** ** Share links *)

Lemma or_default_twice o d : Text.or_default (Some (Text.or_default o d)) d = Text.or_default o d.
Proof. destruct o as [[|c s]|]; cbn; by destruct d. Qed.

Lemma or_null_twice o : Text.or_null (Text.or_null o) = Text.or_null o.
Proof. by destruct o as [[|c s]|]. Qed.

Section ShareFacts.
Context {P : Platform} {L : PlatformLaws P}.
Variable JSON_stringify : SharePayload -> jsstring.

(** The state after [handleUrlParam] on a fragment that decompresses and
    is the content of no note. *)
Lemma handleUrlParam_adds (w : State) (uuid : jsstring) (now : N) (text : jsstring) :
  (20 < length (locationHash w))%nat ->
  decompress (locationHash w) = Some text ->
  (forall n, n ∈ notebooks w -> Note.content n <> locationHash w) ->
  let r := recover text now in
  let newNote :=
    import_fields r
      (new_notebook uuid now (js "Shared Note") (r_content r) (mode w) w) in
  let w2 :=
    set_locationHash []
      (saveState (set_activeId (Some uuid) (set_notebooks (notebooks w ++ [newNote]) w))) in
  handleUrlParam uuid now w
  = if r_encrypted r then openUnlockModal (Some uuid) w2 else w2.
Proof.
  intros Hlen Hdec Hnone r newNote w2. unfold handleUrlParam.
  apply Nat.ltb_lt in Hlen. rewrite Hlen, Hdec.
  rewrite find_none_of; [|intros n Hn; by apply jseqb_neq, Hnone].
  fold r.
  assert (Halter : forall f (l : list Note.t) x,
            alter f (length l) (l ++ [x]) = l ++ [f x]).
  { intros f l x. replace (length l) with (length l + 0)%nat by lia.
    by rewrite alter_app_r. }
  unfold addNotebook. stw. rewrite Halter. fold newNote.
  by destruct (r_encrypted r).
Qed.

(** X20.  A share link opened in a browser that does not hold the
    fragment as the content of a note adds one note there and makes it
    the active one: its content is what the link carries, the text of
    the editing surface, compressed, for a note that is not encrypted,
    and the stored ciphertext with salt and iv for one that is; direction,
    theme, the two times and the encrypted flag are those of the note
    shared.  The title is not carried over, neither are the tags and the
    pin, and the mode is the mode of the page that opens the link.  The
    fragment is removed from the address.  Decompressed, the content of
    the copy of a note that is not encrypted is what the text decoder
    makes of the UTF-8 bytes of the text shared: the text itself when it
    is well-formed and does not begin with U+FEFF.  The password that
    opens an encrypted note shared, whose salt and iv are not empty,
    opens the copy.  A time that is zero becomes the time of the
    opening, an empty direction or theme the default.  The statement is for
    a [JSON.stringify] whose result is well-formed, does not begin with
    U+FEFF and is read back by [JSON.parse], and for a fragment of more
    than twenty characters. *)
Theorem share_link_round_trip (w w2 : State) (i : nat) (note : Note.t)
    (uuid : jsstring) (now : N) :
  find (has_id (activeId w)) (notebooks w) = Some (i, note) ->
  let payload := share_payload w note in
  JSON_parse (JSON_stringify payload) = Some payload ->
  well_formed (JSON_stringify payload) = true ->
  head (JSON_stringify payload) <> Some 0xFEFF ->
  share_fragment JSON_stringify w = Some (locationHash w2) ->
  (20 < length (locationHash w2))%nat ->
  (forall n, n ∈ notebooks w2 -> Note.content n <> locationHash w2) ->
  let w2' := handleUrlParam uuid now w2 in
  exists n',
    notebooks w2' = notebooks w2 ++ [n']
    /\ storedNotebooks w2' = notebooks w2'
    /\ activeId w2' = Some uuid
    /\ locationHash w2' = []
    /\ Note.id n' = uuid
    /\ Note.content n'
       = (if Note.encrypted note then Note.content note else compress (innerText w))
    /\ Note.encrypted n' = Note.encrypted note
    /\ Note.salt n' = Text.or_null (Note.salt note)
    /\ Note.iv n' = Text.or_null (Note.iv note)
    /\ Note.dir n' = Text.or_default (Some (Note.dir note)) (js "ltr")
    /\ Note.paperTheme n' = Text.or_default (Some (Note.paperTheme note)) (js "classic")
    /\ Note.createdAt n' = Text.or_now (Some (Note.createdAt note)) now
    /\ Note.lastModified n' = Text.or_now (Some (Note.lastModified note)) now
    /\ Note.title n' = js "Shared Note"
    /\ Note.mode n' = mode w2
    /\ Note.tags n' = [] /\ Note.pinned n' = false
    /\ (Note.encrypted note = true -> unlockModal w2' = true /\ pendingId w2' = Some uuid)
    /\ (Note.encrypted note = false ->
        decompress (Note.content n')
        = Some (Encoding.TextDecoder_decode
                  (Encoding.TextEncoder_encode (innerText w)))
        /\ (well_formed (innerText w) = true ->
            head (innerText w) <> Some 0xFEFF ->
            decompress (Note.content n') = Some (innerText w)))
    /\ (Note.encrypted note = true ->
        Note.salt note <> Some [] -> Note.iv note <> Some [] ->
        forall password, try_decrypt password n' = try_decrypt password note).
Proof.
  intros Hfind payload Hparse Hwf Hbom Hfrag Hlen Hnone w2'.
  assert (Hhash : locationHash w2 = compress (JSON_stringify payload)).
  { unfold share_fragment in Hfrag. rewrite Hfind in Hfrag. by injection Hfrag as <-. }
  assert (Hdec : decompress (locationHash w2) = Some (JSON_stringify payload)).
  { rewrite Hhash, decompress_compress_decoded.
    by rewrite EncodingFacts.TextDecoder_TextEncoder. }
  pose proof (handleUrlParam_adds w2 uuid now _ Hlen Hdec Hnone) as E.
  cbv zeta in E. fold w2' in E.
  assert (Hr : recover (JSON_stringify payload) now
               = {| r_content := if Note.encrypted note then Note.content note
                                 else compress (innerText w);
                    r_dir := Text.or_default (Some (Note.dir note)) (js "ltr");
                    r_theme := Text.or_default (Some (Note.paperTheme note)) (js "classic");
                    r_created := Text.or_now (Some (Note.createdAt note)) now;
                    r_modified := Text.or_now (Some (Note.lastModified note)) now;
                    r_encrypted := Note.encrypted note;
                    r_salt := Text.or_null (Note.salt note);
                    r_iv := Text.or_null (Note.iv note) |}).
  { unfold recover. rewrite Hparse. unfold payload, share_payload.
    cbn [p_c p_d p_t p_ca p_lm p_enc p_salt p_iv default].
    by rewrite !or_default_twice, !or_null_twice. }
  rewrite Hr in E. clear Hr.
  set (r := {| r_content := if Note.encrypted note then Note.content note
                            else compress (innerText w);
               r_dir := Text.or_default (Some (Note.dir note)) (js "ltr");
               r_theme := Text.or_default (Some (Note.paperTheme note)) (js "classic");
               r_created := Text.or_now (Some (Note.createdAt note)) now;
               r_modified := Text.or_now (Some (Note.lastModified note)) now;
               r_encrypted := Note.encrypted note;
               r_salt := Text.or_null (Note.salt note);
               r_iv := Text.or_null (Note.iv note) |}) in *.
  set (n' := import_fields r
               (new_notebook uuid now (js "Shared Note") (r_content r) (mode w2) w2)) in *.
  change (r_encrypted r) with (Note.encrypted note) in E.
  assert (Hn' : Note.content n'
                = (if Note.encrypted note then Note.content note
                   else compress (innerText w))
                /\ Note.salt n' = Text.or_null (Note.salt note)
                /\ Note.iv n' = Text.or_null (Note.iv note)) by done.
  destruct Hn' as (Hc & Hs & Hi).
  exists n'. split; [|split; [|split; [|split]]].
  1-4: rewrite E; by destruct (Note.encrypted note).
  do 13 (split; [reflexivity|]).
  split; [|split].
  - intros Henc. rewrite E, Henc. by stw.
  - intros Henc. rewrite Hc, Henc, decompress_compress_decoded.
    split; [reflexivity|]. intros Hwf' Hbom'.
    by rewrite EncodingFacts.TextDecoder_TextEncoder.
  - intros Henc Hsalt Hiv password. unfold try_decrypt. rewrite Hc, Hs, Hi, Henc.
    assert (Text.or_null (Note.salt note) = Note.salt note) as ->
      by (by destruct (Note.salt note) as [[|? ?]|]).
    assert (Text.or_null (Note.iv note) = Note.iv note) as ->
      by (by destruct (Note.iv note) as [[|? ?]|]).
    reflexivity.
Qed.

End ShareFacts.

Lemma demo_share_laws : PlatformLaws DemoShare.platform.
Proof.
  split.
  - reflexivity.
  - intros k iv m _. by eexists.
  - intros k iv m c [= <-]. cbn. unfold Demo.gcm_decrypt.
    by rewrite (app_assoc k iv m), strip_prefix_app.
Qed.

Lemma share_link_round_trip_witness :
  let fragment :=
    compress (P := DemoShare.platform)
      (DemoShare.stringify (share_payload DemoShare.sender DemoShare.note1)) in
  let w2 := DemoShare.receiver fragment in
  find (has_id (activeId DemoShare.sender)) (notebooks DemoShare.sender)
  = Some (0%nat, DemoShare.note1)
  /\ share_fragment DemoShare.stringify DemoShare.sender = Some (locationHash w2)
  /\ (20 < length (locationHash w2))%nat
  /\ exists n',
       notebooks (handleUrlParam (js "r1") 9 w2) = [n']
       /\ Note.mode n' = markdown
       /\ Note.title n' = js "Shared Note"
       /\ decompress (P := DemoShare.platform) (Note.content n')
          = Some (js "hello you").
Proof.
  set (fragment :=
         compress (P := DemoShare.platform)
           (DemoShare.stringify (share_payload DemoShare.sender DemoShare.note1))).
  set (w2 := DemoShare.receiver fragment).
  set (payload := share_payload DemoShare.sender DemoShare.note1).
  assert (Hfind : find (has_id (activeId DemoShare.sender)) (notebooks DemoShare.sender)
                  = Some (0%nat, DemoShare.note1)) by (vm_compute; reflexivity).
  assert (Hparse : @JSON_parse DemoShare.platform (DemoShare.stringify payload)
                   = Some payload)
    by (vm_compute; reflexivity).
  assert (Hwf : well_formed (DemoShare.stringify payload) = true)
    by (vm_compute; reflexivity).
  assert (Hbom : head (DemoShare.stringify payload) <> Some 0xFEFF)
    by (vm_compute; discriminate).
  assert (Hfrag : share_fragment DemoShare.stringify DemoShare.sender
                  = Some (locationHash w2)) by (vm_compute; reflexivity).
  assert (Hlen : (20 < length (locationHash w2))%nat) by (vm_compute; lia).
  assert (Hnone : forall n, n ∈ notebooks w2 -> Note.content n <> locationHash w2).
  { intros n Hn. change (notebooks w2) with (@nil Note.t) in Hn. inversion Hn. }
  destruct (share_link_round_trip (L := demo_share_laws) DemoShare.stringify
              DemoShare.sender w2 0 DemoShare.note1 (js "r1") 9
              Hfind Hparse Hwf Hbom Hfrag Hlen Hnone)
    as (n' & Hnb & _ & _ & _ & _ & _ & _ & _ & _ & _ & _ & _ & _ & Ht & Hm & _ & _ & _
        & Hd & _).
  split; [exact Hfind|]. split; [exact Hfrag|]. split; [exact Hlen|].
  exists n'. split; [exact Hnb|]. split; [exact Hm|]. split; [exact Ht|].
  apply (proj2 (Hd eq_refl)); [vm_compute; reflexivity|vm_compute; discriminate].
Defined.

(** ** What the events keep *)

Section EventFacts.
Context {P : Platform}.

Lemma shape_saved uuid w w' :
  notebooks w' = notebooks w -> storedNotebooks w' = notebooks w' ->
  sessionKeys w' = sessionKeys w -> shape uuid w w'.
Proof.
  intros Hn Hs Hk. apply shape_list with (f := fun _ => true) (extra := []).
  - by rewrite filter_true, app_nil_r.
  - exact Hs.
  - exact Hk.
  - by left.
Qed.

Lemma shape_add uuid w w' n :
  notebooks w' = notebooks w ++ [n] -> storedNotebooks w' = notebooks w' ->
  sessionKeys w' = sessionKeys w -> uuid = Some (Note.id n) ->
  Note.encrypted n = false -> shape uuid w w'.
Proof.
  intros Hn Hs Hk Hu He. apply shape_list with (f := fun _ => true) (extra := [n]).
  - by rewrite filter_true.
  - exact Hs.
  - exact Hk.
  - right. by exists n.
Qed.

(** Showing the active note keeps the session keys. *)
Lemma loadActiveNote_keys w : sessionKeys (loadActiveNote w) = sessionKeys w.
Proof.
  unfold loadActiveNote.
  destruct (find _ _) as [[? note]|]; [|done].
  destruct (Note.encrypted note); [done|].
  destruct (Note.content note); [done|].
  by destruct (decompress _).
Qed.

Lemma loadActiveNote_shape uuid w w0 :
  shape uuid w0 w -> shape uuid w0 (loadActiveNote w).
Proof.
  destruct (loadActiveNote_store w) as (Hn & _ & _ & Hs & _).
  pose proof (loadActiveNote_keys w) as Hk.
  intros [H1 H2 H3|i note note' H1 H2 H3 H4 H5|f extra H1 H2 H3 H4].
  - apply shape_none; congruence.
  - apply shape_write with i note note'; try congruence.
    by rewrite Hk.
  - apply shape_list with f extra; congruence.
Qed.

Lemma saveAction_shape uuid now w : shape uuid w (saveAction now w).
Proof.
  unfold saveAction.
  destruct (find _ _) as [[i note]|] eqn:Hfind; [|by apply shape_none].
  destruct (find_Some _ _ _ _ Hfind) as [Hi _].
  assert (Hsave : forall data w',
    notebooks w' = notebooks w -> sessionKeys w' = sessionKeys w ->
    shape uuid w (finish_save now i note data w')).
  { intros data w' Hn Hk.
    apply shape_write with i note (saved_note now (innerText w') data note).
    - exact Hi.
    - reflexivity.
    - by rewrite finish_save_notebooks, Hn.
    - apply finish_save_stored.
    - left. destruct (finish_save_fields now i note data w') as (_ & Hs & _).
      by rewrite Hs. }
  destruct (contentEditable w); [by apply shape_none| |].
  all: destruct (Note.encrypted note); [|by apply Hsave].
  all: destruct (sessionKeys w !! Note.id note); [|by apply shape_none].
  all: destruct (encryptWithKey _ _ _ _); [by apply Hsave|by apply shape_none].
Qed.

(** The key of the password an encryption has used is derived again from
    the salt the encryption returns. *)
Lemma encrypt_deriveKey text password salt iv e :
  encrypt text password salt iv = Some e ->
  is_Some (deriveKey password (ArgString (enc_salt e))).
Proof.
  unfold encrypt, encryptWithKey. cbn [deriveKey bytes_of_arg].
  destruct (aes_gcm_encrypt _ _ _); [|discriminate].
  intros [= <-]. cbn [enc_salt token_of_arg].
  rewrite deriveKey_token. by eexists.
Qed.

Lemma confirmLock_shape uuid password salt iv now w :
  shape uuid w (confirmLock password salt iv now w).
Proof.
  unfold confirmLock.
  destruct password; [by apply shape_none|].
  destruct (find _ _) as [[i note]|] eqn:Hfind; [|by apply shape_none].
  destruct (find_Some _ _ _ _ Hfind) as [Hi _].
  destruct (if Note.encrypted note then _ else _); [|by apply shape_none].
  destruct (encrypt _ _ _ _) as [e|] eqn:He; [|by apply shape_none].
  destruct (encrypt_deriveKey _ _ _ _ _ He) as [key ->].
  match goal with |- shape _ _ (if ?c then _ else _) => destruct c end.
  all: eapply shape_write with (i := i) (note := note);
    [exact Hi| |reflexivity|reflexivity|right; by eexists]; reflexivity.
Qed.

Lemma rescue_shape uuid password salt iv i note text w :
  notebooks w !! i = Some note ->
  shape uuid w (rescue password salt iv i note text w).
Proof.
  intros Hi. unfold rescue. stw.
  destruct (has_id (activeId w) note); [|by apply shape_none].
  destruct (encrypt _ _ _ _) as [e|] eqn:He; [|by apply shape_none].
  destruct (encrypt_deriveKey _ _ _ _ _ He) as [key ->].
  eapply shape_write with (i := i) (note := note);
    [exact Hi| |reflexivity|reflexivity|right; by eexists]; reflexivity.
Qed.

Lemma confirmUnlock_shape uuid password salt iv w :
  shape uuid w (confirmUnlock password salt iv w).
Proof.
  unfold confirmUnlock.
  destruct password; [by apply shape_none|].
  destruct (find _ _) as [[i note]|] eqn:Hfind; [|by apply shape_none].
  destruct (find_Some _ _ _ _ Hfind) as [Hi _].
  destruct (try_decrypt _ note) as [[key decrypted]|].
  - stw. destruct (has_id (activeId w) note).
    all: eapply shape_write with (i := i) (note := note);
      [exact Hi| |reflexivity|reflexivity|right; by exists key]; reflexivity.
  - destruct (decompress _) as [[|c text]|]; [by apply shape_none| |by apply shape_none].
    by apply rescue_shape.
Qed.

Lemma ensureActiveNote_keys id now w :
  sessionKeys (ensureActiveNote id now w) = sessionKeys w.
Proof.
  unfold ensureActiveNote. destruct (List.filter _ _); [done|].
  destruct (_ || _); [|done]. by destruct (last _).
Qed.

Lemma confirmDelete_shape uuid now w :
  shape (Some uuid) w (confirmDelete uuid now w).
Proof.
  unfold confirmDelete.
  destruct (falsy (pendingId w)); [by apply shape_none|].
  set (f := fun n => negb (has_id (pendingId w) n)).
  set (w1 := set_notebooks (List.filter f (notebooks w)) w).
  destruct (same_id (activeId w1) (pendingId w1)).
  - set (w2 := set_activeId None w1).
    destruct (ensureActiveNote_unset uuid now w2 eq_refl) as [_ Hens].
    destruct (ensureActiveNote_saved uuid now w2) as [Hst _].
    pose proof (ensureActiveNote_keys uuid now w2) as Hk.
    destruct (loadActiveNote_store (ensureActiveNote uuid now w2))
      as (Hn & _ & _ & Hs & _).
    pose proof (loadActiveNote_keys (ensureActiveNote uuid now w2)) as Hk'.
    destruct (last _) as [recent|].
    + destruct Hens as [Hens _].
      apply shape_list with f []; stw; [| | |by left].
      * rewrite Hn, Hens, app_nil_r. reflexivity.
      * by rewrite Hs, Hn.
      * by rewrite Hk', Hk.
    + destruct Hens as [Hens _].
      apply shape_list
        with f [new_notebook uuid now (js "Untitled Note") [] (mode w2) w2];
        stw.
      * by rewrite Hn, Hens.
      * by rewrite Hs, Hn.
      * by rewrite Hk', Hk.
      * right. by eexists.
  - apply shape_list with f []; stw; [|done|done|by left].
    by rewrite app_nil_r.
Qed.

Lemma togglePin_shape uuid id w : shape uuid w (togglePin id w).
Proof.
  unfold togglePin.
  destruct (find _ _) as [[i note]|] eqn:Hfind; [|by apply shape_none].
  destruct (find_Some _ _ _ _ Hfind) as [Hi _].
  eapply shape_write with (i := i) (note := note);
    [exact Hi| |reflexivity|reflexivity|by left]; reflexivity.
Qed.

Lemma applyDirection_shape uuid dir save w :
  shape uuid w (applyDirection dir save w).
Proof.
  unfold applyDirection.
  destruct (find _ _) as [[i note]|] eqn:Hfind; [|by apply shape_none].
  destruct (find_Some _ _ _ _ Hfind) as [Hi _].
  destruct save; [|by apply shape_none].
  eapply shape_write with (i := i) (note := note);
    [exact Hi| |reflexivity|reflexivity|by left]; reflexivity.
Qed.

Lemma toggleDirection_shape uuid w : shape uuid w (toggleDirection w).
Proof.
  unfold toggleDirection.
  destruct (find _ _) as [[i note]|]; [|by apply shape_none].
  apply applyDirection_shape.
Qed.

Lemma applyPaperTheme_shape uuid theme save w :
  shape uuid w (applyPaperTheme theme save w).
Proof.
  unfold applyPaperTheme.
  destruct (find _ _) as [[i note]|] eqn:Hfind; [|by apply shape_none].
  destruct (find_Some _ _ _ _ Hfind) as [Hi _].
  destruct save; [|by apply shape_none].
  eapply shape_write with (i := i) (note := note);
    [exact Hi| |reflexivity|reflexivity|by left]; reflexivity.
Qed.

Lemma confirmRename_shape uuid p :
  shape uuid (manager p) (manager (confirmRename p)).
Proof.
  unfold confirmRename.
  destruct (falsy _); [by apply shape_none|].
  destruct (Text.trim _) as [|c t]; [by apply shape_none|].
  destruct (find _ _) as [[i note]|] eqn:Hfind; [|by apply shape_none].
  destruct (find_Some _ _ _ _ Hfind) as [Hi _].
  destruct (same_id _ _).
  all: eapply shape_write with (i := i) (note := note);
    [exact Hi| |reflexivity|reflexivity|by left]; reflexivity.
Qed.

Lemma switchNote_shape uuid id p w0 :
  shape uuid w0 (manager p) ->
  storedNotebooks (manager p) = notebooks (manager p) ->
  shape uuid w0 (manager (switchNote id p)).
Proof.
  intros Hp Hst. unfold switchNote.
  destruct (find _ _) as [[i note]|]; [|exact Hp].
  destruct (mode_eqb _ _); stw.
  - apply loadActiveNote_shape.
    destruct Hp as [H1 H2 H3|j n n' H1 H2 H3 H4 H5|f extra H1 H2 H3 H4].
    + apply shape_none; stw; congruence.
    + by apply shape_write with j n n'.
    + by apply shape_list with f extra.
  - destruct Hp as [H1 H2 H3|j n n' H1 H2 H3 H4 H5|f extra H1 H2 H3 H4].
    + by apply shape_none.
    + by apply shape_write with j n n'.
    + by apply shape_list with f extra.
Qed.

Lemma switchNote_plain_shape uuid id p :
  shape uuid (manager p) (manager (switchNote id p)).
Proof.
  unfold switchNote.
  destruct (find _ _) as [[i note]|]; [|by apply shape_none].
  destruct (mode_eqb _ _); stw.
  - apply loadActiveNote_shape. by apply shape_saved.
  - by apply shape_none.
Qed.

Lemma newNote_shape uuid now m p :
  shape (Some uuid) (manager p) (manager (newNote uuid now m p)).
Proof.
  unfold newNote. apply switchNote_shape; [|reflexivity].
  by eapply shape_add.
Qed.

Lemma confirmWikiCreate_shape uuid now p :
  shape (Some uuid) (manager p) (manager (confirmWikiCreate uuid now p)).
Proof.
  unfold confirmWikiCreate.
  destruct (pendingWikiTitle p) as [[|c title]|]; try by apply shape_none.
  unfold closeWikiCreateModal. stw.
  change (shape (Some uuid) (manager p)
            (manager (switchNote uuid
               (on_manager
                  (fun w => addNotebook uuid now (c :: title) [] (mode w) w) p)))).
  apply switchNote_shape; [|reflexivity].
  by eapply shape_add.
Qed.

(** Every event changes the collection in one of the three ways. *)
Lemma perform_shape a p :
  shape (new_id a) (manager p) (manager (perform a p)).
Proof.
  destruct a; cbn [perform new_id]; stw; try (by apply shape_none).
  - apply saveAction_shape.
  - apply confirmLock_shape.
  - apply confirmUnlock_shape.
  - apply confirmDelete_shape.
  - apply togglePin_shape.
  - unfold renameNote. destruct (find _ _) as [[i note]|]; by apply shape_none.
  - apply confirmRename_shape.
  - apply switchNote_plain_shape.
  - apply newNote_shape.
  - unfold clickWikiLink. destruct (findNoteByTitle _ _) as [[i note]|].
    + apply switchNote_plain_shape.
    + by apply shape_none.
  - apply confirmWikiCreate_shape.
  - apply toggleDirection_shape.
  - apply applyPaperTheme_shape.
  - unfold bulkExport. destruct zipLoaded; [|by apply shape_none].
    destruct (notebooks (manager p)); by apply shape_none.
Qed.

Lemma shape_persisted uuid w w' :
  shape uuid w w' -> persisted w -> persisted w'.
Proof.
  unfold persisted.
  intros [H1 H2 H3|i note note' H1 H2 H3 H4 H5|f extra H1 H2 H3 H4] Hw;
    congruence.
Qed.

Lemma ids_insert (l : list Note.t) i note note' :
  l !! i = Some note -> Note.id note' = Note.id note ->
  map Note.id (<[i := note']> l) = map Note.id l.
Proof.
  intros Hi Hid. change (map Note.id) with (fmap (M := list) Note.id).
  rewrite list_fmap_insert, Hid. apply list_insert_id.
  by rewrite list_lookup_fmap, Hi.
Qed.

Lemma ids_filter_NoDup (f : Note.t -> bool) (l : list Note.t) :
  NoDup (map Note.id l) -> NoDup (map Note.id (List.filter f l)).
Proof.
  induction l as [|n l IH]; [done|].
  cbn [map List.filter]. intros [Hn Hl]%NoDup_cons.
  destruct (f n); [|by apply IH].
  cbn [map]. apply NoDup_cons. split; [|by apply IH].
  intros Hin. apply Hn.
  apply list_elem_of_In, in_map_iff in Hin as (m & Hm & Hin).
  apply list_elem_of_In, in_map_iff. exists m. split; [exact Hm|].
  by apply filter_In in Hin as [Hin _].
Qed.

Lemma shape_distinct uuid w w' :
  shape uuid w w' ->
  (forall id, uuid = Some id -> id ∉ map Note.id (notebooks w)) ->
  distinct_ids w -> distinct_ids w'.
Proof.
  unfold distinct_ids.
  intros [H1 H2 H3|i note note' H1 H2 H3 H4 H5|f extra H1 H2 H3 H4] Hfresh Hw.
  - by rewrite H1.
  - by rewrite H3, (ids_insert _ _ _ _ H1 H2).
  - rewrite H1, map_app. destruct H4 as [->|(n & -> & Hu & _)].
    + rewrite app_nil_r. by apply ids_filter_NoDup.
    + apply NoDup_app. split; [by apply ids_filter_NoDup|]. split.
      * intros x Hx [->|Hn]%elem_of_cons; [|by apply elem_of_nil in Hn].
        apply (Hfresh _ Hu).
        apply list_elem_of_In, in_map_iff in Hx as (m & Hm & Hin).
        apply list_elem_of_In, in_map_iff. exists m. split; [exact Hm|].
        by apply filter_In in Hin as [Hin _].
      * apply NoDup_singleton.
Qed.

End EventFacts.

Section KeyFacts.
Context {P : Platform} {L : PlatformLaws P}.

Lemma keys_open_none w w' :
  notebooks w' = notebooks w -> sessionKeys w' = sessionKeys w ->
  keys_open w -> keys_open w'.
Proof. unfold keys_open. intros -> ->. done. Qed.

(** A write that keeps the key of the note able to open it. *)
Lemma keys_open_write w w' i note note' :
  notebooks w !! i = Some note ->
  notebooks w' = <[i := note']> (notebooks w) ->
  sessionKeys w' = sessionKeys w ->
  Note.id note' = Note.id note ->
  (forall key, Note.encrypted note' = true ->
     sessionKeys w !! Note.id note = Some key ->
     exists password text, try_decrypt password note' = Some (key, text)) ->
  keys_open w -> keys_open w'.
Proof.
  intros Hi Hn Hk Hid Hnote Hw j n key Hj Henc Hkey.
  rewrite Hn in Hj. rewrite Hk in Hkey.
  destruct (decide (j = i)) as [->|Hne].
  - rewrite list_lookup_insert_eq in Hj by (by eapply lookup_lt_Some).
    injection Hj as <-. rewrite Hid in Hkey. by apply Hnote.
  - rewrite list_lookup_insert_ne in Hj by done. by eapply Hw.
Qed.

(** A write that caches the key that opens the note as written. *)
Lemma keys_open_unlock w w' i note note' key :
  distinct_ids w ->
  notebooks w !! i = Some note ->
  notebooks w' = <[i := note']> (notebooks w) ->
  sessionKeys w' = <[Note.id note := key]> (sessionKeys w) ->
  Note.id note' = Note.id note ->
  (Note.encrypted note' = true ->
   exists password text, try_decrypt password note' = Some (key, text)) ->
  keys_open w -> keys_open w'.
Proof.
  intros Hd Hi Hn Hk Hid Hnote Hw j n key' Hj Henc Hkey.
  rewrite Hn in Hj. rewrite Hk in Hkey.
  destruct (decide (j = i)) as [->|Hne].
  - rewrite list_lookup_insert_eq in Hj by (by eapply lookup_lt_Some).
    injection Hj as <-. rewrite Hid, lookup_insert_eq in Hkey.
    injection Hkey as <-. by apply Hnote.
  - rewrite list_lookup_insert_ne in Hj by done.
    rewrite lookup_insert_ne in Hkey; [by eapply Hw|].
    intros Heq. apply Hne.
    apply (NoDup_lookup _ _ _ (Note.id n) Hd).
    + change (map Note.id) with (fmap (M := list) Note.id).
      by rewrite list_lookup_fmap, Hj.
    + change (map Note.id) with (fmap (M := list) Note.id).
      rewrite list_lookup_fmap, Hi. cbn. congruence.
Qed.

Lemma keys_open_list w w' f extra :
  notebooks w' = List.filter f (notebooks w) ++ extra ->
  sessionKeys w' = sessionKeys w ->
  Forall (fun n => Note.encrypted n = false) extra ->
  keys_open w -> keys_open w'.
Proof.
  intros Hn Hk Hex Hw j n key Hj Henc Hkey.
  rewrite Hn in Hj. rewrite Hk in Hkey.
  apply lookup_app_Some in Hj as [Hj|[_ Hj]].
  - apply list_elem_of_lookup_2, in_filter in Hj as [Hin _].
    apply list_elem_of_lookup_1 in Hin as [k Hk'].
    by eapply Hw.
  - rewrite Forall_lookup in Hex. specialize (Hex _ _ Hj). cbn in Hex. congruence.
Qed.

(** What an encryption writes to a note, its password opens, with the key
    derived from the salt written. *)
Lemma encrypt_opens text password salt iv e note :
  encrypt text password salt iv = Some e ->
  Note.content note = encryptedData e ->
  Note.salt note = Some (enc_salt e) ->
  Note.iv note = Some (enc_iv e) ->
  exists key,
    deriveKey password (ArgString (enc_salt e)) = Some key
    /\ try_decrypt password note
       = Some (key, Encoding.TextDecoder_decode (Encoding.TextEncoder_encode text)).
Proof.
  unfold encrypt, encryptWithKey. cbn [deriveKey bytes_of_arg].
  destruct (aes_gcm_encrypt _ _ _) as [ct|] eqn:Hct; [|discriminate].
  intros [= <-]. cbn [encryptedData enc_salt enc_iv token_of_arg].
  intros Hc Hs Hi. eexists. split.
  - rewrite deriveKey_token. reflexivity.
  - by apply try_decrypt_locked with iv ct.
Qed.

Lemma saveAction_keys_open now w : keys_open w -> keys_open (saveAction now w).
Proof.
  intros Hw. unfold saveAction.
  destruct (find _ _) as [[i note]|] eqn:Hfind; [|done].
  destruct (find_Some _ _ _ _ Hfind) as [Hi _].
  assert (Hplain : forall data,
    Note.encrypted note = false -> keys_open (finish_save now i note data w)).
  { intros data Henc.
    apply keys_open_write
      with w i note (saved_note now (innerText w) data note); try done.
    - apply finish_save_notebooks.
    - by destruct (finish_save_fields now i note data w) as (_ & Hs & _).
    - intros key Henc'. cbn in Henc'. congruence. }
  assert (Hkeyed : forall key e w',
    Note.encrypted note = true -> sessionKeys w !! Note.id note = Some key ->
    encryptWithKey (innerText w) key (arg_of_field (Note.salt note))
      (arg_of_field (Note.iv note)) = Some e ->
    notebooks w' = notebooks w -> innerText w' = innerText w ->
    sessionKeys w' = sessionKeys w ->
    keys_open (finish_save now i note (encryptedData e) w')).
  { intros key e w' Henc Hkey He Hn' Ht Hk'.
    apply keys_open_write
      with w i note (saved_note now (innerText w') (encryptedData e) note);
      try done.
    - by rewrite finish_save_notebooks, Hn'.
    - destruct (finish_save_fields now i note (encryptedData e) w') as (_ & Hs & _).
      by rewrite Hs.
    - intros key' _ Hkey'. rewrite Hkey in Hkey'. injection Hkey' as <-.
      destruct (Hw i note key Hi Henc Hkey) as (password & text & Htry).
      exists password. unfold try_decrypt in *.
      cbn [saved_note Note.salt Note.content Note.iv Note.set_title
           Note.set_searchableContent Note.set_tags Note.set_lastModified
           Note.set_content].
      destruct (deriveKey password _) as [k|]; [|discriminate].
      destruct (decryptWithKey _ k _); [|discriminate].
      injection Htry as -> _.
      unfold encryptWithKey in He.
      destruct (Note.iv note) as [ivs|]; [|discriminate].
      cbn [arg_of_field bytes_of_arg] in He.
      destruct (of_token ivs) as [ivBytes|] eqn:Hiv; [|discriminate].
      destruct (aes_gcm_encrypt _ _ _) as [ct|] eqn:Hct; [|discriminate].
      injection He as <-. cbn [encryptedData].
      unfold decryptWithKey.
      rewrite of_token_to_token, Hiv, (gcm_decrypt_encrypt _ _ _ _ Hct).
      by eexists. }
  destruct (contentEditable w); [done| |].
  all: destruct (Note.encrypted note) eqn:Henc; [|by apply Hplain].
  all: destruct (sessionKeys w !! Note.id note) as [key|] eqn:Hkey; [|done].
  all: destruct (encryptWithKey _ _ _ _) as [e|] eqn:He; [|done].
  all: by eapply Hkeyed.
Qed.

Lemma confirmLock_keys_open password salt iv now w :
  distinct_ids w -> keys_open w -> keys_open (confirmLock password salt iv now w).
Proof.
  intros Hd Hw. unfold confirmLock.
  destruct password as [|c password]; [done|].
  destruct (find _ _) as [[i note]|] eqn:Hfind; [|done].
  destruct (find_Some _ _ _ _ Hfind) as [Hi _].
  destruct (if Note.encrypted note then _ else _) as [text|]; [|done].
  destruct (encrypt _ _ _ _) as [e|] eqn:He; [|done].
  set (note' := Note.set_searchableContent _ _).
  destruct (encrypt_opens _ _ _ _ _ note' He eq_refl eq_refl eq_refl)
    as (key & -> & Htry).
  match goal with |- keys_open (if ?c then _ else _) => destruct c end.
  all: apply keys_open_unlock with w i note note' key; try done.
  all: intros _; by eexists _, _.
Qed.

Lemma rescue_keys_open password salt iv i note text w :
  distinct_ids w -> notebooks w !! i = Some note ->
  keys_open w -> keys_open (rescue password salt iv i note text w).
Proof.
  intros Hd Hi Hw. unfold rescue. stw.
  destruct (has_id (activeId w) note); [|done].
  destruct (encrypt _ _ _ _) as [e|] eqn:He; [|done].
  set (note' := Note.set_searchableContent _ _).
  destruct (encrypt_opens _ _ _ _ _ note' He eq_refl eq_refl eq_refl)
    as (key & -> & Htry).
  apply keys_open_unlock with w i note note' key; try done.
  intros _; by eexists _, _.
Qed.

Lemma confirmUnlock_keys_open password salt iv w :
  distinct_ids w -> keys_open w -> keys_open (confirmUnlock password salt iv w).
Proof.
  intros Hd Hw. unfold confirmUnlock.
  destruct password as [|c password]; [done|].
  destruct (find _ _) as [[i note]|] eqn:Hfind; [|done].
  destruct (find_Some _ _ _ _ Hfind) as [Hi _].
  destruct (try_decrypt _ note) as [[key decrypted]|] eqn:Htry.
  - stw. destruct (has_id (activeId w) note).
    all: apply keys_open_unlock
           with w i note
                (Note.set_searchableContent (Some (searchable decrypted)) note) key;
      try done.
    all: intros _; by eexists _, _.
  - destruct (decompress _) as [[|c' text]|]; [done| |done].
    by apply rescue_keys_open.
Qed.

(** A write that leaves the content, the salt and the nonce of the note
    as they are. *)
Lemma keys_open_same w w' i note note' :
  notebooks w !! i = Some note ->
  notebooks w' = <[i := note']> (notebooks w) ->
  sessionKeys w' = sessionKeys w ->
  Note.id note' = Note.id note ->
  Note.encrypted note' = Note.encrypted note ->
  (forall password, try_decrypt password note' = try_decrypt password note) ->
  keys_open w -> keys_open w'.
Proof.
  intros Hi Hn Hk Hid Henc Hsame Hw.
  apply keys_open_write with w i note note'; try done.
  intros key Henc' Hkey. rewrite Henc in Henc'.
  destruct (Hw i note key Hi Henc' Hkey) as (password & text & Htry).
  exists password, text. by rewrite Hsame.
Qed.

Lemma togglePin_keys_open id w : keys_open w -> keys_open (togglePin id w).
Proof.
  intros Hw. unfold togglePin.
  destruct (find _ _) as [[i note]|] eqn:Hfind; [|done].
  destruct (find_Some _ _ _ _ Hfind) as [Hi _].
  by eapply keys_open_same with (w := w) (i := i) (note := note).
Qed.

Lemma applyDirection_keys_open dir save w :
  keys_open w -> keys_open (applyDirection dir save w).
Proof.
  intros Hw. unfold applyDirection.
  destruct (find _ _) as [[i note]|] eqn:Hfind; [|done].
  destruct (find_Some _ _ _ _ Hfind) as [Hi _].
  destruct save; [|done].
  by eapply keys_open_same with (w := w) (i := i) (note := note).
Qed.

Lemma toggleDirection_keys_open w : keys_open w -> keys_open (toggleDirection w).
Proof.
  intros Hw. unfold toggleDirection.
  destruct (find _ _) as [[i note]|]; [|done].
  by apply applyDirection_keys_open.
Qed.

Lemma applyPaperTheme_keys_open theme save w :
  keys_open w -> keys_open (applyPaperTheme theme save w).
Proof.
  intros Hw. unfold applyPaperTheme.
  destruct (find _ _) as [[i note]|] eqn:Hfind; [|done].
  destruct (find_Some _ _ _ _ Hfind) as [Hi _].
  destruct save; [|done].
  by eapply keys_open_same with (w := w) (i := i) (note := note).
Qed.

Lemma confirmRename_keys_open p :
  keys_open (manager p) -> keys_open (manager (confirmRename p)).
Proof.
  intros Hw. unfold confirmRename.
  destruct (falsy _); [done|].
  destruct (Text.trim _) as [|c t]; [done|].
  destruct (find _ _) as [[i note]|] eqn:Hfind; [|done].
  destruct (find_Some _ _ _ _ Hfind) as [Hi _].
  destruct (same_id _ _).
  all: by eapply keys_open_same with (w := manager p) (i := i) (note := note).
Qed.

Lemma switchNote_keys_open id p :
  keys_open (manager p) -> keys_open (manager (switchNote id p)).
Proof.
  intros Hw. unfold switchNote.
  destruct (find _ _) as [[i note]|]; [|done].
  destruct (mode_eqb _ _); stw; [|done].
  set (w1 := saveState _).
  apply keys_open_none with w1; [|apply loadActiveNote_keys|done].
  by destruct (loadActiveNote_store w1) as (Hn & _).
Qed.

Lemma addNotebook_keys_open id now title content m w :
  keys_open w -> keys_open (addNotebook id now title content m w).
Proof.
  intros Hw.
  apply keys_open_list
    with w (fun _ => true) [new_notebook id now title content m w]; try done.
  - cbn. by rewrite filter_true.
  - by constructor.
Qed.

Lemma confirmDelete_keys_open uuid now w :
  keys_open w -> keys_open (confirmDelete uuid now w).
Proof.
  intros Hw. unfold confirmDelete.
  destruct (falsy (pendingId w)); [done|].
  set (f := fun n => negb (has_id (pendingId w) n)).
  set (w1 := set_notebooks (List.filter f (notebooks w)) w).
  destruct (same_id (activeId w1) (pendingId w1)).
  - set (w2 := set_activeId None w1).
    destruct (ensureActiveNote_unset uuid now w2 eq_refl) as [_ Hens].
    pose proof (ensureActiveNote_keys uuid now w2) as Hk.
    destruct (loadActiveNote_store (ensureActiveNote uuid now w2)) as (Hn & _).
    pose proof (loadActiveNote_keys (ensureActiveNote uuid now w2)) as Hk'.
    destruct (last _) as [recent|]; destruct Hens as [Hens _].
    + apply keys_open_list with w f []; stw; [| |constructor|done].
      * rewrite Hn, Hens, app_nil_r. reflexivity.
      * by rewrite Hk', Hk.
    + apply keys_open_list
        with w f [new_notebook uuid now (js "Untitled Note") [] (mode w2) w2];
        stw; [| |by constructor|done].
      * by rewrite Hn, Hens.
      * by rewrite Hk', Hk.
  - apply keys_open_list with w f []; stw; [|done|constructor|done].
    by rewrite app_nil_r.
Qed.

Lemma perform_keys_open a p :
  distinct_ids (manager p) -> keys_open (manager p) ->
  keys_open (manager (perform a p)).
Proof.
  intros Hd Hw.
  destruct a; cbn [perform]; stw; try exact Hw.
  - by apply saveAction_keys_open.
  - by apply confirmLock_keys_open.
  - by apply confirmUnlock_keys_open.
  - by apply confirmDelete_keys_open.
  - by apply togglePin_keys_open.
  - unfold renameNote. by destruct (find _ _) as [[i note]|].
  - by apply confirmRename_keys_open.
  - by apply switchNote_keys_open.
  - unfold newNote. apply switchNote_keys_open. by apply addNotebook_keys_open.
  - unfold clickWikiLink. destruct (findNoteByTitle _ _) as [[i note]|]; [|done].
    by apply switchNote_keys_open.
  - unfold confirmWikiCreate.
    destruct (pendingWikiTitle p) as [[|c title]|]; try done.
    unfold closeWikiCreateModal. stw.
    change (keys_open
              (manager (switchNote uuid
                 (on_manager
                    (fun w => addNotebook uuid now (c :: title) [] (mode w) w) p)))).
    apply switchNote_keys_open. by apply addNotebook_keys_open.
  - by apply toggleDirection_keys_open.
  - by apply applyPaperTheme_keys_open.
  - unfold bulkExport. destruct zipLoaded; [|done].
    by destruct (notebooks (manager p)).
Qed.

End KeyFacts.

(** X21.  Whatever the event, the collection in [localStorage] stays the
    collection in memory: every event that changes the collection saves
    it before it ends, also when it ends on an error. *)
Theorem events_keep_persisted {P : Platform} (a : Action) (p : Page) :
  persisted (manager p) -> persisted (manager (perform a p)).
Proof. apply shape_persisted with (new_id a), perform_shape. Qed.

(** X22.  No event makes two notes share an identifier: an event writes
    notes at their place without touching the identifier, removes notes,
    or adds one note under the identifier it drew, which is enough when
    that identifier is not in use. *)
Theorem events_keep_distinct_ids {P : Platform} (a : Action) (p : Page) :
  distinct_ids (manager p) ->
  (forall id, new_id a = Some id -> id ∉ map Note.id (notebooks (manager p))) ->
  distinct_ids (manager (perform a p)).
Proof.
  intros Hd Hfresh. apply shape_distinct with (new_id a) (manager p); try done.
  apply perform_shape.
Qed.

(** X23.  As long as the handlers run one after the other, each to its
    end, a cached session key opens its note.  If the notes have distinct
    identifiers and every encrypted note whose key is cached decrypts
    under that key, the key being the one of some password, then the same
    holds after any event carried out as a whole: after a lock, an
    unlock, a rescue, and after every autosave of an unlocked note.  The
    page does not keep its handlers apart, and the statement says nothing
    of handlers that overlap; an autosave that waits while a lock is
    carried out is such a case (X25). *)
Theorem events_keep_keys_open {P : Platform} {L : PlatformLaws P}
    (a : Action) (p : Page) :
  distinct_ids (manager p) -> keys_open (manager p) ->
  keys_open (manager (perform a p)).
Proof. apply perform_keys_open. Qed.

(** An autosave on the unlocked note of the scenarios, after an edit. *)
Lemma events_keep_persisted_witness :
  let p := perform (Edit (js "changed")) (DemoPage.page Demo.unlocked) in
  persisted (manager p)
  /\ persisted (manager (perform (Autosave 9) p))
  /\ notebooks (manager (perform (Autosave 9) p)) <> notebooks (manager p).
Proof.
  intros p.
  assert (H : persisted (manager p)) by (vm_compute; reflexivity).
  split; [exact H|]. split; [exact (events_keep_persisted (Autosave 9) p H)|].
  vm_compute. discriminate.
Defined.

(** A new note in the library of the two notes of the scenarios. *)
Lemma events_keep_distinct_ids_witness :
  let p := DemoPage.both in
  distinct_ids (manager p)
  /\ distinct_ids (manager (perform (NewNote (js "n3") 9 markdown) p))
  /\ length (notebooks (manager (perform (NewNote (js "n3") 9 markdown) p))) = 3%nat.
Proof.
  intros p.
  assert (H : distinct_ids (manager p)).
  { unfold distinct_ids.
    replace (map Note.id (notebooks (manager p))) with [js "n1"; js "m1"]
      by (vm_compute; reflexivity).
    apply NoDup_cons. split; [|apply NoDup_singleton].
    intros [= ]%list_elem_of_singleton. }
  assert (Hfresh : forall id, new_id (NewNote (js "n3") 9 markdown) = Some id ->
                              id ∉ map Note.id (notebooks (manager p))).
  { intros id [= <-].
    replace (map Note.id (notebooks (manager p))) with [js "n1"; js "m1"]
      by (vm_compute; reflexivity).
    intros [[= ]|[= ]%list_elem_of_singleton]%elem_of_cons. }
  split; [exact H|].
  split; [exact (events_keep_distinct_ids (NewNote (js "n3") 9 markdown) p H Hfresh)|].
  vm_compute. reflexivity.
Defined.

(** The locked note of the scenarios, reloaded and unlocked with its
    password: the key the unlock caches opens it. *)
Lemma events_keep_keys_open_witness :
  let p := DemoPage.page Demo.reloaded in
  let p' := perform (ConfirmUnlock (js "secret") Demo.salt2 Demo.iv2) p in
  keys_open (manager p')
  /\ is_Some (sessionKeys (manager p') !! js "n1")
  /\ map Note.encrypted (notebooks (manager p')) = [true].
Proof.
  intros p p'.
  assert (Hd : distinct_ids (manager p)).
  { unfold distinct_ids. vm_compute. apply NoDup_singleton. }
  assert (H : keys_open (manager p)).
  { intros i note key _ _ Hkey. vm_compute in Hkey. discriminate Hkey. }
  split.
  { exact (@events_keep_keys_open _ demo_laws
             (ConfirmUnlock (js "secret") Demo.salt2 Demo.iv2) p Hd H). }
  split; [vm_compute; by eexists|vm_compute; reflexivity].
Defined.

(** ** The search text *)

Lemma starts_with_app p rest : Text.starts_with p (p ++ rest) = true.
Proof.
  induction p as [|c p IH]; [reflexivity|].
  cbn [app Text.starts_with]. by rewrite N.eqb_refl, IH.
Qed.

(** The shortest [.*?p] ends at the first [p], when what comes before it
    is on one line and is free of the first character of [p]. *)
Lemma lazy_until_first c p a rest :
  Forall (fun x => x <> c /\ Text.is_line_terminator x = false) a ->
  Text.lazy_until (c :: p) (a ++ (c :: p) ++ rest)
  = Some (length a + length (c :: p))%nat.
Proof.
  induction a as [|x a IH]; intros Ha.
  - change ([] ++ (c :: p) ++ rest) with ((c :: p) ++ rest).
    destruct ((c :: p) ++ rest) eqn:E; [discriminate|].
    cbn [Text.lazy_until]. rewrite <- E, starts_with_app. reflexivity.
  - apply Forall_cons in Ha as [[Hx Hlt] Ha].
    change ((x :: a) ++ (c :: p) ++ rest) with (x :: (a ++ (c :: p) ++ rest)).
    cbn [Text.lazy_until Text.starts_with].
    destruct (c =? x) eqn:Hcx; [apply N.eqb_eq in Hcx; congruence|].
    cbn [andb]. rewrite Hlt, (IH Ha). reflexivity.
Qed.

Lemma strip_images_skip a rest :
  Text.strip_images_from (length a) (a ++ rest) = Text.strip_images_from 0 rest.
Proof.
  induction a as [|x a IH]; [reflexivity|].
  cbn [length app Text.strip_images_from]. exact IH.
Qed.

(** Text without an exclamation mark is kept. *)
Lemma strip_images_keep pre rest :
  Forall (fun x => x <> 33) pre ->
  Text.strip_images_from 0 (pre ++ rest) = pre ++ Text.strip_images_from 0 rest.
Proof.
  induction pre as [|x pre IH]; intros Hpre; [reflexivity|].
  apply Forall_cons in Hpre as [Hx Hpre].
  cbn [app Text.strip_images_from].
  assert (Hm : Text.match_image (x :: pre ++ rest) = None).
  { unfold Text.match_image. cbn [Text.starts_with js].
    change (Text.starts_with (js "![") (x :: pre ++ rest))
      with ((33 =? x) && Text.starts_with [91] (pre ++ rest)).
    destruct (33 =? x) eqn:E; [apply N.eqb_eq in E; congruence|reflexivity]. }
  rewrite Hm, (IH Hpre). reflexivity.
Qed.

(** X24.  The search text of a note holds none of its embedded images:
    an image [![alt](data:image/type;base64,data)] written on one line,
    with no closing bracket in its alternative text, no semicolon in its
    type and no closing parenthesis in its data, is removed as a whole,
    and the text before it, if it has no exclamation mark, is kept. *)
Theorem strip_images_image (pre alt type data post : jsstring) :
  Forall (fun x => x <> 33) pre ->
  Forall (fun x => x <> 93 /\ Text.is_line_terminator x = false) alt ->
  Forall (fun x => x <> 59 /\ Text.is_line_terminator x = false) type ->
  Forall (fun x => x <> 41 /\ Text.is_line_terminator x = false) data ->
  Text.strip_images
    (pre ++ js "![" ++ alt ++ js "](data:image/" ++ type ++ js ";base64,"
     ++ data ++ js ")" ++ post)
  = pre ++ Text.strip_images post.
Proof.
  intros Hpre Halt Htype Hdata. unfold Text.strip_images.
  rewrite (strip_images_keep _ _ Hpre). f_equal.
  set (r3 := data ++ js ")" ++ post).
  set (r2 := type ++ js ";base64," ++ r3).
  set (r1 := alt ++ js "](data:image/" ++ r2).
  assert (H1 : Text.lazy_until (js "](data:image/") r1
               = Some (length alt + 13)%nat)
    by (apply (lazy_until_first 93 (js "(data:image/") alt r2 Halt)).
  assert (H2 : Text.lazy_until (js ";base64,") r2 = Some (length type + 8)%nat)
    by (apply (lazy_until_first 59 (js "base64,") type r3 Htype)).
  assert (H3 : Text.lazy_until (js ")") r3 = Some (length data + 1)%nat)
    by (apply (lazy_until_first 41 [] data post Hdata)).
  assert (D1 : drop 2 (js "![" ++ r1) = r1) by reflexivity.
  assert (D2 : drop (2 + (length alt + 13)) (js "![" ++ r1) = r2).
  { change (js "![" ++ r1) with (33 :: 91 :: r1).
    change (2 + (length alt + 13))%nat with (S (S (length alt + 13))).
    cbn [drop]. unfold r1. rewrite drop_app_ge by lia.
    replace (length alt + 13 - length alt)%nat with 13%nat by lia.
    reflexivity. }
  assert (D3 : drop (2 + (length alt + 13) + (length type + 8)) (js "![" ++ r1)
               = r3).
  { rewrite <- drop_drop, D2. unfold r2. rewrite drop_app_ge by lia.
    replace (length type + 8 - length type)%nat with 8%nat by lia.
    reflexivity. }
  assert (Hm : Text.match_image (js "![" ++ r1)
               = Some (2 + (length alt + 13) + (length type + 8)
                       + (length data + 1))%nat).
  { unfold Text.match_image.
    change (Text.starts_with (js "![") (js "![" ++ r1)) with true.
    cbv iota. rewrite D1, H1. cbv iota beta. rewrite D2, H2. cbv iota beta.
    rewrite D3, H3. reflexivity. }
  change (js "![" ++ r1) with (33 :: 91 :: r1) in *.
  set (image := 91 :: alt ++ js "](data:image/" ++ type ++ js ";base64,"
                ++ data ++ js ")").
  assert (Himg : 91 :: r1 = image ++ post).
  { unfold image, r1, r2, r3. rewrite <- app_comm_cons.
    apply (f_equal (cons 91)). by rewrite <- !app_assoc. }
  assert (Hlen : Nat.pred (2 + (length alt + 13) + (length type + 8)
                           + (length data + 1)) = length image).
  { unfold image. cbn [length]. rewrite !length_app.
    change (length (js "](data:image/")) with 13%nat.
    change (length (js ";base64,")) with 8%nat.
    change (length (js ")")) with 1%nat. lia. }
  change (Text.strip_images_from 0 (33 :: 91 :: r1))
    with (match Text.match_image (33 :: 91 :: r1) with
          | Some n => Text.strip_images_from (Nat.pred n) (91 :: r1)
          | None => 33 :: Text.strip_images_from 0 (91 :: r1)
          end).
  rewrite Hm, Hlen, Himg. apply strip_images_skip.
Qed.

(** An image in a line of text, in the platform of the scenarios. *)
Lemma strip_images_image_witness :
  Text.strip_images (js "see ![cat](data:image/png;base64,AAAA) here")
  = js "see  here".
Proof.
  change (js "see ![cat](data:image/png;base64,AAAA) here")
    with (js "see " ++ js "![" ++ js "cat" ++ js "](data:image/" ++ js "png"
          ++ js ";base64," ++ js "AAAA" ++ js ")" ++ js " here").
  rewrite (strip_images_image (js "see ") (js "cat") (js "png") (js "AAAA")
             (js " here")).
  - reflexivity.
  - vm_compute. repeat constructor; discriminate.
  - vm_compute. repeat constructor; discriminate.
  - vm_compute. repeat constructor; discriminate.
  - vm_compute. repeat constructor; discriminate.
Defined.

(** ** Scenarios *)

(** The note of the scenarios without its search cache, as an older
    version of the page stored it: the rebuild gives it one. *)
Lemma rebuild_search_index_witness :
  let w := set_notebooks [Note.set_searchableContent None Demo.note1] Demo.start in
  let w' := rebuildSearchIndex w in
  storedNotebooks w' = notebooks w'
  /\ notebooks (rebuildSearchIndex w') = notebooks w'
  /\ map Note.searchableContent (notebooks w') = [Some (js "hello")].
Proof.
  intros w w'.
  destruct (rebuild_search_index w) as (_ & _ & Hs & Hagain).
  split; [exact Hs|]. split; [exact Hagain|]. vm_compute. reflexivity.
Defined.

(** The note of the scenarios renamed, with tags typed carelessly. *)
Lemma confirm_rename_witness :
  let p :=
    set_tagsInput (js "Food, home,,food ")
      (set_renameInput (js "  Groceries ")
         (renameNote (js "n1") (DemoPage.page Demo.start))) in
  let p' := confirmRename p in
  storedNotebooks (manager p') = notebooks (manager p')
  /\ renameModal p' = false
  /\ map Note.title (notebooks (manager p')) = [js "Groceries"]
  /\ map Note.tags (notebooks (manager p')) = [[js "food"; js "home"]].
Proof.
  intros p p'.
  destruct (confirm_rename p) as [_ H].
  assert (H1 : falsy (pendingId (manager p)) = false) by reflexivity.
  assert (H2 : Text.trim (renameInput p) <> []) by (vm_compute; discriminate).
  assert (H3 : find (has_id (pendingId (manager p))) (notebooks (manager p))
               = Some (0%nat, Demo.note1)) by (vm_compute; reflexivity).
  destruct (H 0%nat Demo.note1 H1 H2 H3) as (_ & Hs & _ & Hm & _).
  split; [exact Hs|]. split; [exact Hm|].
  split; vm_compute; reflexivity.
Defined.

(** The two notes of the library of the plain page chosen in turn: the
    plain one is shown, the markdown one sends the browser to its page. *)
Lemma switch_note_witness :
  let p := set_libraryModal true (DemoPage.page (set_innerText [] Demo.start)) in
  let q := DemoPage.both in
  innerText (manager (switchNote (js "n1") p)) = js "hello"
  /\ libraryModal (switchNote (js "n1") p) = false
  /\ storedActiveId (manager (switchNote (js "m1") q)) = Some (js "m1")
  /\ locationHref (switchNote (js "m1") q) = Some (js "/")
  /\ activeId (manager (switchNote (js "m1") q)) = Some (js "n1").
Proof.
  intros p q.
  destruct (switch_note p (js "n1")) as (_ & Hsame & _).
  assert (H0 : find (has_id (Some (js "n1"))) (notebooks (manager p))
               = Some (0%nat, Demo.note1)) by (vm_compute; reflexivity).
  destruct (Hsame 0%nat Demo.note1 H0 eq_refl) as (_ & _ & _ & _ & Hlib & _ & Hshow & _).
  destruct (switch_note q (js "m1")) as (_ & _ & H).
  assert (H1 : find (has_id (Some (js "m1"))) (notebooks (manager q))
               = Some (1%nat, DemoPage.note2)) by (vm_compute; reflexivity).
  assert (H2 : Note.mode DemoPage.note2 <> mode (manager q)) by discriminate.
  destruct (H 1%nat DemoPage.note2 H1 H2) as (_ & Ha & _ & _ & Hs & Hl).
  split; [|split; [exact Hlib|split; [exact Hs|split; [exact Hl|exact Ha]]]].
  change (Note.encrypted Demo.note1) with false in Hshow. cbv iota in Hshow.
  assert (Hd : decompress (Note.content Demo.note1) = Some (js "hello"))
    by (vm_compute; reflexivity).
  assert (Hc : Note.content Demo.note1 <> []) by (vm_compute; discriminate).
  destruct (Note.content Demo.note1); [done|].
  rewrite Hd in Hshow. exact (proj1 Hshow).
Defined.

(** The page of the scenarios started on what the browser holds. *)
Lemma init_shows_active_witness :
  let p := construct plain (DemoPage.page (set_innerText [] Demo.start)) in
  let p' := init (js "a") (js "b") (js "c") (js "d") 5 6 7 p in
  storedNotebooks (manager p') = notebooks (manager p')
  /\ libraryMode p' = plain
  /\ innerText (manager p') = js "hello".
Proof.
  intros p p'.
  destruct (init_shows_active p (js "a") (js "b") (js "c") (js "d") 5 6 7)
    as (Hm & Hs & _ & _ & _ & _ & Hl).
  split; [exact Hs|]. split; [unfold p'; rewrite Hl; exact Hm|].
  vm_compute. reflexivity.
Defined.

(** Three notes in the library of the plain page: the pinned one first,
    then the later of the two others; the markdown note is not listed. *)
Lemma library_list_order_witness :
  let old := Demo.note1 in
  let new := Note.set_lastModified 8 (Note.set_title (js "new") Demo.note1) in
  let pinned := set_pinned true (Note.set_title (js "pinned") Demo.note1) in
  let l := library_list [old; DemoPage.note2; new; pinned] plain [] None in
  l ≡ₚ [old; new; pinned]
  /\ map Note.title l = [js "pinned"; js "new"; js "Untitled Note"].
Proof.
  intros old new pinned l.
  destruct (library_list_order [old; DemoPage.note2; new; pinned] plain [] None)
    as (Hperm & _).
  split; [exact Hperm|]. vm_compute. reflexivity.
Defined.

(** The export after a second note was added beside the note of the
    scenarios: both are filed as [Untitled Note.txt], and the archive
    holds one file, the empty text of the second note. *)
Lemma bulk_export_witness :
  let w := manager (perform (NewNote (js "n2") 9 plain) (DemoPage.page Demo.start)) in
  length (notebooks w) = 2%nat
  /\ exists zip,
       bulkExport true w = (w, Some zip)
       /\ zip !! js "Untitled Note.txt" = Some []
       /\ (size zip < 2)%nat.
Proof.
  intros w.
  assert (Hlen : length (notebooks w) = 2%nat) by (vm_compute; reflexivity).
  split; [exact Hlen|].
  destruct (bulk_export w) as (_ & _ & H & _).
  assert (Hne : notebooks w <> []) by (vm_compute; discriminate).
  destruct (H Hne) as (zip & E & Hlook & Hle & Hiff).
  exists zip. split; [exact E|]. split.
  - rewrite Hlook. vm_compute. reflexivity.
  - rewrite Hlen in Hle, Hiff.
    assert (Hdup : ~ NoDup (map export_name (notebooks w))).
    { assert (Hnames : map export_name (notebooks w)
                       = [js "Untitled Note.txt"; js "Untitled Note.txt"])
        by (vm_compute; reflexivity).
      rewrite Hnames. intros [Hin _]%NoDup_cons. apply Hin, list_elem_of_here. }
    destruct (decide (size zip = 2%nat)) as [Heq|Hneq]; [|lia].
    by apply Hiff in Heq.
Defined.

(** ** An autosave that overlaps a lock *)

Section OverlapFacts.
Context {P : Platform} {L : PlatformLaws P}.

Lemma set_innerText_same (w : State) : set_innerText (innerText w) w = w.
Proof. by destruct w. Qed.

(** Without another handler in between, the two parts of the autosave of
    a note that is not encrypted are the autosave. *)
Lemma saveAction_split now w i content :
  saveAction_begin w = Some (i, content) ->
  saveAction now w = saveAction_resume now i content w.
Proof.
  unfold saveAction_begin, saveAction, saveAction_resume.
  destruct (find _ _) as [[j note]|] eqn:Hfind; [|discriminate].
  destruct (find_Some _ _ _ _ Hfind) as [Hj _].
  destruct (contentEditable w); [discriminate| |].
  all: destruct (Note.encrypted note); [discriminate|].
  all: intros [= <- <-]; rewrite Hj, set_innerText_same.
  all: destruct (finish_save_fields now j note (compress (innerText w)) w)
         as (_ & _ & _ & Ht & _).
  all: etransitivity; [symmetry; apply set_innerText_same|]; by rewrite Ht.
Qed.

(** X25.  The autosave does not keep a lock out while it waits.  When
    the active note is not encrypted and the autosave has read the text
    and waits for its compression, a lock of that note carried out in the
    meantime is undone in part when the autosave goes on: the note stays
    flagged as encrypted and its key stays cached, but its content is
    the compressed text, which decompresses without any password, and
    its search cache is the searchable form of the text; this is what
    is persisted.  (Run one after the other, the two parts of the
    autosave are the autosave, and a lock after it stores the
    ciphertext.) *)
Theorem autosave_overlaps_lock (w : State) (password : jsstring)
    (salt iv : list byte) (t1 t2 : N) (i : nat) (note : Note.t) :
  find (has_id (activeId w)) (notebooks w) = Some (i, note) ->
  pendingId w = activeId w ->
  contentEditable w <> ce_false ->
  Note.encrypted note = false ->
  password <> [] ->
  length iv = 12%nat ->
  let text := innerText w in
  let w1 := confirmLock password salt iv t1 w in
  let w2 := saveAction_resume t2 i text w1 in
  saveAction_begin w = Some (i, text)
  /\ saveAction t2 w = saveAction_resume t2 i text w
  /\ (exists n1,
        notebooks w1 !! i = Some n1 /\ Note.encrypted n1 = true
        /\ decrypt (Note.content n1) password (arg_of_field (Note.salt n1))
             (Note.iv n1)
           = Some (Encoding.TextDecoder_decode (Encoding.TextEncoder_encode text)))
  /\ exists n2,
       notebooks w2 !! i = Some n2
       /\ storedNotebooks w2 = notebooks w2
       /\ Note.id n2 = Note.id note
       /\ Note.encrypted n2 = true
       /\ Note.content n2 = compress text
       /\ decompress (Note.content n2)
          = Some (Encoding.TextDecoder_decode (Encoding.TextEncoder_encode text))
       /\ Note.searchableContent n2 = Some (searchable text)
       /\ is_Some (sessionKeys w2 !! Note.id note)
       /\ innerText w2 = locked_text
       /\ contentEditable w2 = ce_false.
Proof.
  intros Hfind Hpend Hed Henc Hpw Hlen text w1 w2.
  destruct (find_Some _ _ _ _ Hfind) as [Hi Hid].
  assert (Hbegin : saveAction_begin w = Some (i, text)).
  { unfold saveAction_begin. rewrite Hfind, Henc. by destruct (contentEditable w). }
  split; [exact Hbegin|]. split; [by apply saveAction_split|].
  destruct (gcm_encrypt_iv12
              (pbkdf2_sha256 iterations (Encoding.TextEncoder_encode password) salt)
              iv (Encoding.TextEncoder_encode text) Hlen) as [ct Hct].
  assert (Hfindp : find (has_id (pendingId w)) (notebooks w) = Some (i, note))
    by (by rewrite Hpend).
  pose proof (confirmLock_plain w password salt iv t1 i note ct Hpw Hfindp Henc Hct)
    as E. cbv zeta in E. fold w1 in E. rewrite Hid in E.
  set (key := pbkdf2_sha256 iterations (Encoding.TextEncoder_encode password) salt)
    in *.
  set (n1 := Note.set_searchableContent (Some [])
               (Note.set_lastModified t1
                  (Note.set_encrypted true
                     (Note.set_iv (Some (to_token iv))
                        (Note.set_salt (Some (to_token salt))
                           (Note.set_content (to_token ct) note)))))) in *.
  assert (Hlt : (i < length (notebooks w))%nat) by (by eapply lookup_lt_Some).
  assert (H1 : notebooks w1 !! i = Some n1
               /\ sessionKeys w1 = <[Note.id note := key]> (sessionKeys w)
               /\ innerText w1 = locked_text /\ contentEditable w1 = ce_false).
  { rewrite E. stw. split; [by apply list_lookup_insert_eq|]. by repeat split. }
  destruct H1 as (Hn1 & Hk1 & Ht1 & Hc1).
  split.
  { exists n1. split; [exact Hn1|]. split; [reflexivity|].
    pose proof (try_decrypt_locked password salt iv text ct n1 Hct
                  eq_refl eq_refl eq_refl) as Htry.
    unfold try_decrypt in Htry. unfold decrypt.
    destruct (deriveKey password (arg_of_field (Note.salt n1))) as [k|];
      [|discriminate Htry].
    destruct (decryptWithKey (Note.content n1) k (Note.iv n1));
      [|discriminate Htry].
    by injection Htry as _ ->. }
  set (n2 := saved_note t2 text (compress text) n1).
  assert (E2 : w2 = set_innerText (innerText w1)
                      (finish_save t2 i n1 (compress text) (set_innerText text w1))).
  { unfold w2, saveAction_resume. by rewrite Hn1. }
  exists n2. rewrite E2. stw.
  destruct (finish_save_fields t2 i n1 (compress text) (set_innerText text w1))
    as (_ & Hs & Hce & _).
  rewrite finish_save_stored, finish_save_notebooks, Hs, Hce. stw.
  split; [apply list_lookup_insert_eq; rewrite E; by stw; rewrite length_insert|].
  split; [reflexivity|]. split; [reflexivity|]. split; [reflexivity|].
  split; [reflexivity|]. split; [apply decompress_compress_decoded|].
  split; [reflexivity|]. split; [rewrite Hk1, lookup_insert_eq; by eexists|].
  by split.
Qed.

End OverlapFacts.

(** The note of the scenarios is locked with the password [secret]
    while its autosave waits: what is persisted afterwards is flagged as
    encrypted and decompresses to [hello]. *)
Lemma autosave_overlaps_lock_witness :
  let w := openLockModal (Some (js "n1")) Demo.start in
  let w2 :=
    saveAction_resume 3 0 (js "hello")
      (confirmLock (js "secret") Demo.salt1 Demo.iv1 2 w) in
  saveAction_begin w = Some (0%nat, js "hello")
  /\ exists n2,
       storedNotebooks w2 = [n2]
       /\ Note.encrypted n2 = true
       /\ decompress (Note.content n2) = Some (js "hello")
       /\ try_decrypt (js "secret") n2 = None.
Proof.
  intros w w2.
  assert (H1 : find (has_id (activeId w)) (notebooks w) = Some (0%nat, Demo.note1))
    by (vm_compute; reflexivity).
  assert (H2 : pendingId w = activeId w) by reflexivity.
  assert (H3 : contentEditable w <> ce_false) by discriminate.
  assert (H4 : Note.encrypted Demo.note1 = false) by reflexivity.
  assert (H5 : js "secret" <> []) by discriminate.
  assert (H6 : length Demo.iv1 = 12%nat) by reflexivity.
  destruct (@autosave_overlaps_lock _ demo_laws w (js "secret") Demo.salt1 Demo.iv1
              2 3 0 Demo.note1 H1 H2 H3 H4 H5 H6)
    as (Hb & _ & _ & n2 & Hn2 & Hs & _ & He & Hc & Hd & _).
  split; [exact Hb|].
  exists n2.
  change (saveAction_resume 3 0 (innerText w)
            (confirmLock (js "secret") Demo.salt1 Demo.iv1 2 w))
    with w2 in Hs, Hn2.
  assert (Hlen : length (notebooks w2) = 1%nat) by (vm_compute; reflexivity).
  split.
  { rewrite Hs. destruct (notebooks w2) as [|x [|y l]]; try discriminate Hlen.
    cbn in Hn2. by injection Hn2 as ->. }
  split; [exact He|]. split; [rewrite Hd; vm_compute; reflexivity|].
  unfold try_decrypt. rewrite Hc.
  assert (Hsalt : Note.salt n2 = Some (to_token Demo.salt1)).
  { assert (H : option_map Note.salt (notebooks w2 !! 0%nat)
                = Some (Some (to_token Demo.salt1))) by (vm_compute; reflexivity).
    rewrite Hn2 in H. by injection H. }
  assert (Hiv : Note.iv n2 = Some (to_token Demo.iv1)).
  { assert (H : option_map Note.iv (notebooks w2 !! 0%nat)
                = Some (Some (to_token Demo.iv1))) by (vm_compute; reflexivity).
    rewrite Hn2 in H. by injection H. }
  rewrite Hsalt, Hiv. vm_compute. reflexivity.
Defined.

(** * The guard of the autosave *)

Section GuardFacts.
Context {P : Platform}.

(** [loadActiveNote] on a note that is not encrypted and has content is
    its part after the wait, run on the decompressed content. *)
Lemma loadActiveNote_split w i note text :
  find (has_id (activeId w)) (notebooks w) = Some (i, note) ->
  Note.encrypted note = false ->
  Note.content note <> [] ->
  decompress (Note.content note) = Some text ->
  loadActiveNote w = loadActiveNote_resume note text w.
Proof.
  intros Hfind Henc Hc Hd. unfold loadActiveNote, loadActiveNote_resume.
  rewrite Hfind, Henc. destruct (Note.content note) as [|c s]; [done|].
  by rewrite Hd.
Qed.

(** The messages after an autosave: those before it, and the warning of
    the guard when the guard is reached. *)
Lemma saveAction_events now w :
  events (saveAction now w) = events w
  \/ (events (saveAction now w) = events w ++ [console_warn missing_key_warning]
      /\ exists j m,
           find (has_id (activeId w)) (notebooks w) = Some (j, m)
           /\ contentEditable w <> ce_false
           /\ Note.encrypted m = true
           /\ sessionKeys w !! Note.id m = None).
Proof.
  unfold saveAction.
  destruct (find _ _) as [[j m]|] eqn:Hfind; [|by left].
  assert (Hsave : forall data w',
    events w' = events w ->
    events (finish_save now j m data w') = events w).
  { intros data w' He.
    destruct (finish_save_fields now j m data w') as (_ & _ & _ & _ & _ & Hev).
    by rewrite Hev. }
  destruct (contentEditable w) eqn:Hce; [by left| |].
  all: destruct (Note.encrypted m) eqn:Henc; [|left; by apply Hsave].
  all: destruct (sessionKeys w !! Note.id m) as [key|] eqn:Hkey.
  all: try (destruct (encryptWithKey _ _ _ _); left; [by apply Hsave|done]).
  all: right; split; [reflexivity|]; by exists j, m.
Qed.

(** C1 (as amended).  An autosave leaves every encrypted note that has
    no session key as it is: whatever the state, such a note is
    afterwards at its place, unchanged, and so is its persisted copy.
    The warning is raised only when the guard is reached, that is when
    the active note is an encrypted note without a session key and the
    surface can be edited: the save is then skipped as a whole, nothing
    changes but for the warning.  On a surface that cannot be edited,
    as it is while a locked note is shown, the function has returned
    before and nothing changes at all, without a warning. *)
Theorem autosave_guard (w : State) (now : N) (i : nat) (note : Note.t) :
  notebooks w !! i = Some note ->
  Note.encrypted note = true ->
  sessionKeys w !! Note.id note = None ->
  let w' := saveAction now w in
  notebooks w' !! i = Some note
  /\ (storedNotebooks w !! i = Some note -> storedNotebooks w' !! i = Some note)
  /\ (find (has_id (activeId w)) (notebooks w) = Some (i, note) ->
      contentEditable w <> ce_false ->
      w' = log (console_warn missing_key_warning) w)
  /\ (find (has_id (activeId w)) (notebooks w) = Some (i, note) ->
      contentEditable w = ce_false ->
      w' = w)
  /\ (events w' = events w
      \/ events w' = events w ++ [console_warn missing_key_warning])
  /\ (events w' <> events w ->
      exists j m,
        find (has_id (activeId w)) (notebooks w) = Some (j, m)
        /\ contentEditable w <> ce_false
        /\ Note.encrypted m = true
        /\ sessionKeys w !! Note.id m = None).
Proof.
  intros Hi Henc Hkey w'.
  assert (Hkeep : notebooks w' !! i = Some note).
  { unfold w', saveAction.
    destruct (find _ _) as [[j m]|] eqn:Hfind; [|exact Hi].
    destruct (find_Some _ _ _ _ Hfind) as [Hj _].
    assert (Hother : forall data w0,
      notebooks w0 = notebooks w -> innerText w0 = innerText w ->
      ~ (Note.encrypted m = true /\ sessionKeys w !! Note.id m = None) ->
      notebooks (finish_save now j m data w0) !! i = Some note).
    { intros data w0 Hn Ht Hm. rewrite finish_save_notebooks, Hn.
      rewrite list_lookup_insert_ne; [exact Hi|].
      intros ->. rewrite Hi in Hj. injection Hj as <-. by apply Hm. }
    destruct (contentEditable w); [exact Hi| |].
    all: destruct (Note.encrypted m) eqn:Hm;
      [|apply Hother; [done|done|by intros [? _]]].
    all: destruct (sessionKeys w !! Note.id m) as [key|] eqn:Hk; [|exact Hi].
    all: destruct (encryptWithKey _ _ _ _); [|exact Hi].
    all: apply Hother; [done|done|by intros [_ ?]]. }
  split; [exact Hkeep|]. split; [|split; [|split; [|split]]].
  - intros Hs.
    assert (Hst : storedNotebooks w' = storedNotebooks w
                  \/ storedNotebooks w' = notebooks w').
    { unfold w', saveAction.
      destruct (find _ _) as [[j m]|]; [|by left].
      destruct (contentEditable w); [by left| |].
      all: destruct (Note.encrypted m); [|right; apply finish_save_stored].
      all: destruct (sessionKeys w !! Note.id m); [|by left].
      all: destruct (encryptWithKey _ _ _ _);
        [right; apply finish_save_stored|by left]. }
    destruct Hst as [-> | ->]; [exact Hs|exact Hkeep].
  - intros Hfind Hed. unfold w', saveAction. rewrite Hfind, Henc, Hkey.
    by destruct (contentEditable w).
  - intros Hfind Hed. unfold w', saveAction. by rewrite Hfind, Hed.
  - destruct (saveAction_events now w) as [H|[H _]]; [by left|by right].
  - intros Hne. destruct (saveAction_events now w) as [H|[_ H]]; [done|exact H].
Qed.

End GuardFacts.

(** The page loaded while the diary of the scenarios is locked: the
    diary is the active note, encrypted and without a session key, and
    the surface cannot be edited.  An autosave changes nothing, and does
    not warn. *)
Lemma autosave_guard_counterexample :
  let w := manager DemoPage.diary_reloaded in
  exists note,
    find (has_id (activeId w)) (notebooks w) = Some (1%nat, note)
    /\ Note.encrypted note = true
    /\ sessionKeys w !! Note.id note = None
    /\ saveAction 9 w = w
    /\ console_warn missing_key_warning ∉ events (saveAction 9 w).
Proof.
  intros w.
  exists (default Demo.note1 (notebooks w !! 1%nat)).
  split; [vm_compute; reflexivity|]. split; [vm_compute; reflexivity|].
  split; [vm_compute; reflexivity|].
  assert (E : saveAction 9 w = w) by (vm_compute; reflexivity).
  split; [exact E|]. rewrite E.
  assert (Hev : events w = []) by (vm_compute; reflexivity).
  rewrite Hev. apply not_elem_of_nil.
Qed.

(** The locked diary on the page loaded again, where the autosave
    returns without a word; and on the page where the load of another
    note has finished after the diary was chosen, so that the surface
    can be edited: there the guard is reached and the autosave warns.
    In both the diary stays as it is. *)
Lemma autosave_guard_witness :
  let w := manager DemoPage.diary_reloaded in
  let v := manager DemoPage.diary_overlapped in
  exists note,
    notebooks w !! 1%nat = Some note
    /\ notebooks v !! 1%nat = Some note
    /\ Note.encrypted note = true
    /\ sessionKeys w !! Note.id note = None
    /\ sessionKeys v !! Note.id note = None
    /\ notebooks (saveAction 9 w) !! 1%nat = Some note
    /\ saveAction 9 w = w
    /\ notebooks (saveAction 9 v) !! 1%nat = Some note
    /\ saveAction 9 v = log (console_warn missing_key_warning) v.
Proof.
  intros w v.
  set (note := default Demo.note1 (notebooks w !! 1%nat)).
  assert (Hw : notebooks w !! 1%nat = Some note) by (vm_compute; reflexivity).
  assert (Hv : notebooks v !! 1%nat = Some note) by (vm_compute; reflexivity).
  assert (Henc : Note.encrypted note = true) by (vm_compute; reflexivity).
  assert (Hkw : sessionKeys w !! Note.id note = None) by (vm_compute; reflexivity).
  assert (Hkv : sessionKeys v !! Note.id note = None) by (vm_compute; reflexivity).
  assert (Hfw : find (has_id (activeId w)) (notebooks w) = Some (1%nat, note))
    by (vm_compute; reflexivity).
  assert (Hfv : find (has_id (activeId v)) (notebooks v) = Some (1%nat, note))
    by (vm_compute; reflexivity).
  assert (Hcw : contentEditable w = ce_false) by (vm_compute; reflexivity).
  assert (Hcv : contentEditable v <> ce_false) by (vm_compute; discriminate).
  destruct (autosave_guard w 9 1 note Hw Henc Hkw) as (W1 & _ & _ & W2 & _).
  destruct (autosave_guard v 9 1 note Hv Henc Hkv) as (V1 & _ & V2 & _).
  exists note.
  split; [exact Hw|]. split; [exact Hv|]. split; [exact Henc|].
  split; [exact Hkw|]. split; [exact Hkv|]. split; [exact W1|].
  split; [exact (W2 Hfw Hcw)|]. split; [exact V1|exact (V2 Hfv Hcv)].
Defined.

(** * The search cache of encrypted notes *)

Section CacheFacts.
Context {P : Platform} {L : PlatformLaws P}.





End CacheFacts.


(** * The note that becomes active after a deletion *)

Lemma filter_sublist (f : Note.t -> bool) (l : list Note.t) :
  List.filter f l `sublist_of` l.
Proof.
  induction l as [|x l IH]; [constructor|]. cbn [List.filter].
  destruct (f x); by constructor.
Qed.

(** The last note that passes a test, and what stands after it. *)
Lemma last_filter_split (f : Note.t -> bool) (l : list Note.t) x :
  last (List.filter f l) = Some x ->
  exists before after,
    l = before ++ x :: after /\ f x = true
    /\ Forall (fun n => f n = false) after.
Proof.
  induction l as [|y l IH]; [discriminate|]. cbn [List.filter].
  destruct (f y) eqn:Hy.
  - rewrite last_cons. destruct (last (List.filter f l)) as [z|] eqn:Hl.
    + intros [= ->]. destruct (IH eq_refl) as (before & after & -> & Hx & Hafter).
      by exists (y :: before), after.
    + intros [= ->]. exists [], l. split; [reflexivity|]. split; [exact Hy|].
      apply Forall_forall. intros n Hn.
      destruct (f n) eqn:Hfn; [|reflexivity].
      apply last_None in Hl.
      assert (Hin : n ∈ List.filter f l) by (by apply in_filter).
      rewrite Hl in Hin. by apply elem_of_nil in Hin.
  - intros H. destruct (IH H) as (before & after & -> & Hx & Hafter).
    by exists (y :: before), after.
Qed.

Lemma filter_map_same (p : Note.t -> bool) (f : Note.t -> Note.t) l :
  (forall n, p (f n) = p n) ->
  List.filter p (map f l) = map f (List.filter p l).
Proof.
  intros H. induction l as [|x l IH]; [reflexivity|].
  cbn [map List.filter]. rewrite H. destruct (p x); cbn [map]; by rewrite IH.
Qed.

Section OrderFacts.
Context {P : Platform}.

(** A step of one of the three shapes keeps the notes in their order
    and puts the note it adds after them. *)
Lemma shape_order uuid w w' :
  shape uuid w w' ->
  exists kept added,
    map Note.id (notebooks w') = kept ++ added
    /\ kept `sublist_of` map Note.id (notebooks w)
    /\ (added = [] \/ exists id, uuid = Some id /\ added = [id]).
Proof.
  intros [H1 _ _|i note note' H1 H2 H3 _ _|f extra H1 _ _ H4].
  - exists (map Note.id (notebooks w)), []. rewrite app_nil_r, H1.
    split; [reflexivity|]. split; [reflexivity|by left].
  - exists (map Note.id (notebooks w)), [].
    rewrite app_nil_r, H3, (ids_insert _ _ _ _ H1 H2).
    split; [reflexivity|]. split; [reflexivity|by left].
  - exists (map Note.id (List.filter f (notebooks w))), (map Note.id extra).
    rewrite H1, map_app. split; [reflexivity|]. split.
    + change (map Note.id) with (fmap (M := list) Note.id).
      apply fmap_sublist, filter_sublist.
    + destruct H4 as [->|(n & -> & -> & _)]; [by left|right; by eexists].
Qed.

(** A run of events keeps the notes that stay in their order, and the
    notes it adds come after them, in the order of the events that
    added them. *)
Lemma events_order (acts : list Action) (p : Page) :
  exists kept added,
    map Note.id (notebooks (manager (fold_left (fun q a => perform a q) acts p)))
    = kept ++ added
    /\ kept `sublist_of` map Note.id (notebooks (manager p))
    /\ added `sublist_of` omap new_id acts.
Proof.
  revert p. induction acts as [|a acts IH]; intros p.
  - exists (map Note.id (notebooks (manager p))), [].
    rewrite app_nil_r. split; [reflexivity|]. split; reflexivity.
  - cbn [fold_left].
    destruct (IH (perform a p)) as (kept & added & Hids & Hkept & Hadded).
    destruct (shape_order _ _ _ (perform_shape a p))
      as (k & ad & Hstep & Hk & Had).
    rewrite Hstep in Hkept.
    apply sublist_app_r in Hkept as (k1 & k2 & -> & Hk1 & Hk2).
    exists k1, (k2 ++ added). rewrite Hids, <- app_assoc.
    split; [reflexivity|]. split; [by etransitivity|].
    cbn [omap list_omap].
    destruct Had as [->|(id & Hid & ->)].
    + apply sublist_nil_r in Hk2 as ->. cbn [app].
      destruct (new_id a); [by apply sublist_cons|exact Hadded].
    + rewrite Hid. change (id :: omap new_id acts) with ([id] ++ omap new_id acts).
      by apply sublist_app.
Qed.

Lemma handleUrlParam_ids id now w :
  exists added,
    map Note.id (notebooks (handleUrlParam id now w))
    = map Note.id (notebooks w) ++ added.
Proof.
  unfold handleUrlParam.
  destruct (_ <? _)%nat; [|exists []; by rewrite app_nil_r].
  destruct (decompress _) as [decompressed|]; [|exists []; by rewrite app_nil_r].
  assert (Halter : forall f (l : list Note.t) x,
            alter f (length l) (l ++ [x]) = l ++ [f x]).
  { intros f l x. replace (length l) with (length l + 0)%nat by lia.
    by rewrite alter_app_r. }
  destruct (find _ _) as [[j existing]|].
  - exists []. rewrite app_nil_r. by destruct (r_encrypted _).
  - exists [id].
    assert (Hadd : forall title content,
              notebooks (addNotebook id now title content (mode w) w)
              = notebooks w ++ [new_notebook id now title content (mode w) w])
      by reflexivity.
    destruct (r_encrypted _); stw; rewrite Hadd, Halter, map_app; reflexivity.
Qed.

Lemma ensureActiveNote_ids id now w :
  exists added,
    map Note.id (notebooks (ensureActiveNote id now w))
    = map Note.id (notebooks w) ++ added.
Proof.
  unfold ensureActiveNote. destruct (List.filter _ _).
  - exists [id]. stw. unfold addNotebook. stw. by rewrite map_app.
  - exists []. rewrite app_nil_r.
    destruct (_ || _); [|reflexivity]. by destruct (last _).
Qed.

(** The start of the page keeps the notes in their order and puts the
    notes it adds after them. *)
Lemma init_ids id1 id2 id3 id4 t1 t2 t3 p :
  exists added,
    map Note.id (notebooks (manager (init id1 id2 id3 id4 t1 t2 t3 p)))
    = map Note.id (notebooks (manager p)) ++ added.
Proof.
  assert (E : manager (init id1 id2 id3 id4 t1 t2 t3 p)
              = rebuildSearchIndex
                  (loadActiveNote
                     (ensureActiveNote id4 t3
                        (handleUrlParam id3 t2
                           (manager (migrateOldData id1 id2 t1 p))))))
    by reflexivity.
  rewrite E. clear E.
  destruct (migrateOldData_manager id1 id2 t1 p) as (extra & Hm & _).
  assert (H1 : map Note.id (notebooks (manager (migrateOldData id1 id2 t1 p)))
               = map Note.id (notebooks (manager p)) ++ map Note.id extra).
  { rewrite Hm. stw. rewrite map_map, <- map_app. apply map_ext.
    intros n. apply repair_fields. }
  revert H1. generalize (manager (migrateOldData id1 id2 t1 p)). intros w1 H1.
  destruct (handleUrlParam_ids id3 t2 w1) as (a2 & H2).
  revert H2. generalize (handleUrlParam id3 t2 w1). intros w2 H2.
  destruct (ensureActiveNote_ids id4 t3 w2) as (a3 & H3).
  revert H3. generalize (ensureActiveNote id4 t3 w2). intros w3 H3.
  destruct (loadActiveNote_store w3) as (H4 & _).
  revert H4. generalize (loadActiveNote w3). intros w4 H4.
  exists (map Note.id extra ++ a2 ++ a3).
  unfold rebuildSearchIndex. stw. rewrite map_map.
  rewrite (map_ext _ Note.id) by (intros n; apply reindex_fields).
  rewrite H4, H3, H2, H1. by rewrite <- !app_assoc.
Qed.

(** C9.  Deleting the active note leaves an active note of the same
    mode: the pointer names a note of the collection whose mode is the
    current one.  When notes of that mode remain it is the most recent of
    them, the one that stands last in the collection, no note of the
    mode after it; when none remains, it is a note created on the spot
    with the title [Untitled Note] and no content.  The collection and
    the pointer are persisted as they then are.

    The collection is in the order in which the notes came to it, which
    is what makes the last note the most recent one: [addNotebook] puts
    a note after those there are, the start of the page keeps the notes
    in their order and puts those it adds after them, and after any run
    of events the notes that were there before the run stand in their
    order, before the notes the run has added, which stand in the order
    of the events that added them.  The choice reads the identifier and
    the mode of the notes and nothing else: with other values in the
    other fields, the timestamps among them, the same note is chosen. *)
Theorem delete_active (w : State) (uuid : jsstring) (now : N) (id : jsstring) :
  pendingId w = Some id -> id <> [] -> activeId w = Some id ->
  let w' := confirmDelete uuid now w in
  let remaining :=
    List.filter (fun n => negb (has_id (Some id) n)) (notebooks w) in
  mode w' = mode w
  /\ (exists n,
        n ∈ notebooks w' /\ activeId w' = Some (Note.id n) /\ Note.mode n = mode w)
  /\ match last (List.filter (in_mode (mode w)) remaining) with
     | Some recent =>
         notebooks w' = remaining /\ activeId w' = Some (Note.id recent)
         /\ exists before after,
              remaining = before ++ recent :: after
              /\ Note.mode recent = mode w
              /\ Forall (fun n => Note.mode n <> mode w) after
     | None =>
         notebooks w'
         = remaining ++ [new_notebook uuid now (js "Untitled Note") [] (mode w) w]
         /\ activeId w' = Some uuid
     end
  /\ storedNotebooks w' = notebooks w'
  /\ storedActiveId w' = activeId w'
  /\ (forall id' now' title content m v,
        notebooks (addNotebook id' now' title content m v)
        = notebooks v ++ [new_notebook id' now' title content m v])
  /\ (forall (acts : list Action) (p : Page),
        exists kept added,
          map Note.id
            (notebooks (manager (fold_left (fun q a => perform a q) acts p)))
          = kept ++ added
          /\ kept `sublist_of` map Note.id (notebooks (manager p))
          /\ added `sublist_of` omap new_id acts)
  /\ (forall id1 id2 id3 id4 t1 t2 t3 p,
        exists added,
          map Note.id (notebooks (manager (init id1 id2 id3 id4 t1 t2 t3 p)))
          = map Note.id (notebooks (manager p)) ++ added)
  /\ (forall f : Note.t -> Note.t,
        (forall n, Note.id (f n) = Note.id n /\ Note.mode (f n) = Note.mode n) ->
        activeId (confirmDelete uuid now (set_notebooks (map f (notebooks w)) w))
        = activeId w').
Proof.
  intros Hpend Hid Hact w' remaining.
  assert (Hgen : forall v,
    pendingId v = Some id -> activeId v = Some id -> mode v = mode w ->
    let v' := confirmDelete uuid now v in
    let rem := List.filter (fun n => negb (has_id (Some id) n)) (notebooks v) in
    mode v' = mode v
    /\ storedNotebooks v' = notebooks v'
    /\ storedActiveId v' = activeId v'
    /\ match last (List.filter (in_mode (mode w)) rem) with
       | Some recent => notebooks v' = rem /\ activeId v' = Some (Note.id recent)
       | None =>
           notebooks v'
           = rem ++ [new_notebook uuid now (js "Untitled Note") [] (mode w) v]
           /\ activeId v' = Some uuid
       end).
  { intros v Hp Ha Hmv v' rem. subst v'.
    rewrite (confirmDelete_active uuid now v id Hp Hid Ha). fold rem.
    set (v0 := set_activeId None (set_notebooks rem v)).
    cbn [mode notebooks activeId storedNotebooks storedActiveId set_pendingId
         set_deleteModal].
    destruct (loadActiveNote_store (ensureActiveNote uuid now v0))
      as (-> & -> & -> & -> & ->).
    destruct (ensureActiveNote_saved uuid now v0) as [-> ->].
    destruct (ensureActiveNote_unset uuid now v0 eq_refl) as [Hmode Hcase].
    change (mode v0) with (mode v) in Hmode, Hcase.
    change (notebooks v0) with rem in Hcase.
    change (new_notebook uuid now (js "Untitled Note") [] (mode v) v0)
      with (new_notebook uuid now (js "Untitled Note") [] (mode v) v) in Hcase.
    rewrite Hmv in Hcase.
    split; [exact Hmode|]. split; [reflexivity|].
    split; [|destruct (last (List.filter (in_mode (mode w)) rem)); exact Hcase].
    destruct (last (List.filter (in_mode (mode w)) rem));
      destruct Hcase as [_ ->]; reflexivity. }
  destruct (Hgen w Hpend Hact eq_refl) as (Hmode & Hst & Hsa & Hcase).
  cbv zeta in Hmode, Hst, Hsa, Hcase. fold w' remaining in Hmode, Hst, Hsa, Hcase.
  split; [exact Hmode|].
  split; [|split; [|split; [exact Hst|split; [exact Hsa|split; [|split; [|split]]]]]].
  - destruct (last (List.filter (in_mode (mode w)) remaining)) as [recent|] eqn:Hlast;
      destruct Hcase as [Hnb Hac]; rewrite Hnb, Hac.
    + exists recent.
      apply last_Some_elem_of, in_filter in Hlast as [Hin Hmd].
      split; [exact Hin|]. split; [reflexivity|]. by apply mode_eqb_eq.
    + exists (new_notebook uuid now (js "Untitled Note") [] (mode w) w).
      split; [|by split].
      apply elem_of_app. right. by apply list_elem_of_singleton.
  - destruct (last (List.filter (in_mode (mode w)) remaining)) as [recent|] eqn:Hlast;
      [|exact Hcase].
    destruct Hcase as [Hnb Hac]. split; [exact Hnb|]. split; [exact Hac|].
    destruct (last_filter_split _ _ _ Hlast) as (before & after & Hrem & Hm & Hafter).
    exists before, after. split; [exact Hrem|]. split; [by apply mode_eqb_eq|].
    eapply Forall_impl; [exact Hafter|]. intros n Hn Heq.
    apply mode_eqb_eq in Heq. unfold in_mode in Hn. congruence.
  - reflexivity.
  - intros acts p. apply events_order.
  - intros. apply init_ids.
  - intros f Hf.
    set (v := set_notebooks (map f (notebooks w)) w).
    destruct (Hgen v Hpend Hact eq_refl) as (_ & _ & _ & Hv). cbv zeta in Hv.
    assert (Hrem : List.filter (in_mode (mode w))
                     (List.filter (fun n => negb (has_id (Some id) n)) (notebooks v))
                   = map f (List.filter (in_mode (mode w)) remaining)).
    { unfold v. stw. rewrite !filter_map_same; [reflexivity| |].
      - intros n. unfold in_mode. by rewrite (proj2 (Hf n)).
      - intros n. by rewrite (has_id_set _ n (f n) (proj1 (Hf n))). }
    rewrite Hrem in Hv.
    change (map f) with (fmap (M := list) f) in Hv. rewrite fmap_last in Hv.
    destruct (last (List.filter (in_mode (mode w)) remaining)) as [recent|];
      cbn [fmap option_fmap option_map] in Hv.
    + destruct Hv as [_ ->]. destruct Hcase as [_ ->]. by rewrite (proj1 (Hf recent)).
    + destruct Hv as [_ ->]. by destruct Hcase as [_ ->].
Qed.

End OrderFacts.

(** The third of three plain notes is deleted while it is the active
    one: the second becomes the active note, the one that came to the
    collection after the first, although the first was modified later. *)
Lemma delete_active_witness :
  let w := manager DemoPage.three_notes in
  let w' := confirmDelete (js "n4") 10 w in
  pendingId w = Some (js "n3") /\ js "n3" <> [] /\ activeId w = Some (js "n3")
  /\ map Note.id (notebooks w) = [js "n1"; js "n2"; js "n3"]
  /\ map Note.id (notebooks w') = [js "n1"; js "n2"]
  /\ map Note.lastModified (notebooks w') = [8; 4]
  /\ activeId w' = Some (js "n2").
Proof.
  intros w w'.
  assert (H1 : pendingId w = Some (js "n3")) by (vm_compute; reflexivity).
  assert (H2 : js "n3" <> []) by discriminate.
  assert (H3 : activeId w = Some (js "n3")) by (vm_compute; reflexivity).
  destruct (delete_active w (js "n4") 10 (js "n3") H1 H2 H3) as (_ & _ & H & _).
  assert (Hlast : last (List.filter (in_mode (mode w))
                          (List.filter (fun n => negb (has_id (Some (js "n3")) n))
                             (notebooks w)))
                  = notebooks w !! 1%nat) by (vm_compute; reflexivity).
  rewrite Hlast in H.
  assert (Hn2 : notebooks w !! 1%nat
                = Some (default Demo.note1 (notebooks w !! 1%nat)))
    by (vm_compute; reflexivity).
  rewrite Hn2 in H. destruct H as (Hnb & Hac & _).
  split; [exact H1|]. split; [exact H2|]. split; [exact H3|].
  split; [vm_compute; reflexivity|].
  fold w' in Hnb, Hac. rewrite Hnb, Hac.
  split; [vm_compute; reflexivity|]. split; vm_compute; reflexivity.
Defined.

(** * The title an autosave gives *)

(** [split('\n')[0]]: the text up to its first line feed. *)
Lemma first_line_app first rest :
  (10 ∉ first) -> rest = [] \/ (exists r, rest = 10 :: r) ->
  Text.first_line (first ++ rest) = first.
Proof.
  intros Hfirst Hrest. induction first as [|c first IH]; cbn [app Text.first_line].
  - destruct Hrest as [->|[r ->]]; reflexivity.
  - destruct (c =? 10) eqn:Hc.
    + apply N.eqb_eq in Hc as ->. exfalso. apply Hfirst, list_elem_of_here.
    + rewrite IH; [reflexivity|]. intros Hin. by apply Hfirst, list_elem_of_further.
Qed.

Lemma first_line_split s :
  exists rest,
    s = Text.first_line s ++ rest
    /\ (10 ∉ Text.first_line s)
    /\ (rest = [] \/ exists r, rest = 10 :: r).
Proof.
  induction s as [|c s (rest & Hs & Hno & Hrest)]; cbn [Text.first_line].
  - exists []. split; [reflexivity|]. split; [|by left].
    intros H. by apply elem_of_nil in H.
  - destruct (c =? 10) eqn:Hc.
    + apply N.eqb_eq in Hc as ->. exists (10 :: s).
      split; [reflexivity|]. split; [|right; by eexists].
      intros H. by apply elem_of_nil in H.
    + exists rest. split; [cbn [app]; by rewrite <- Hs|]. split; [|exact Hrest].
      intros [<-|Hin]%elem_of_cons; [|by apply Hno].
      by rewrite N.eqb_refl in Hc.
Qed.

(** [trim] removes white space, and nothing else, at both ends. *)
Lemma trim_start_app lead s :
  Forall (fun c => Text.is_js_whitespace c = true) lead ->
  Text.trim_start (lead ++ s) = Text.trim_start s.
Proof.
  induction 1 as [|c lead Hc _ IH]; [reflexivity|].
  cbn [app Text.trim_start]. by rewrite Hc.
Qed.

Lemma trim_start_keep s :
  (forall c r, s = c :: r -> Text.is_js_whitespace c = false) ->
  Text.trim_start s = s.
Proof.
  intros H. destruct s as [|c r]; [reflexivity|].
  cbn [Text.trim_start]. by rewrite (H c r eq_refl).
Qed.

Lemma trim_start_all lead :
  Forall (fun c => Text.is_js_whitespace c = true) lead -> Text.trim_start lead = [].
Proof. intros H. rewrite <- (app_nil_r lead). by rewrite trim_start_app. Qed.

Lemma trim_app lead core trail :
  Forall (fun c => Text.is_js_whitespace c = true) lead ->
  Forall (fun c => Text.is_js_whitespace c = true) trail ->
  (forall c r, core = c :: r -> Text.is_js_whitespace c = false) ->
  (forall c r, core = r ++ [c] -> Text.is_js_whitespace c = false) ->
  Text.trim (lead ++ core ++ trail) = core.
Proof.
  intros Hlead Htrail Hhead Hlast. unfold Text.trim.
  rewrite (trim_start_app _ _ Hlead).
  assert (Hrt : Forall (fun c => Text.is_js_whitespace c = true) (rev trail)).
  { apply Forall_forall. intros c Hc. rewrite Forall_forall in Htrail.
    apply Htrail. apply list_elem_of_In. apply list_elem_of_In in Hc.
    by rewrite <- in_rev in Hc. }
  destruct core as [|c core].
  - cbn [app]. by rewrite (trim_start_all _ Htrail).
  - assert (E : Text.trim_start ((c :: core) ++ trail) = (c :: core) ++ trail).
    { apply trim_start_keep. intros c' r [= <- _]. by eapply Hhead. }
    rewrite E, rev_app_distr, (trim_start_app _ _ Hrt).
    rewrite trim_start_keep; [apply rev_involutive|].
    intros c' r Hr. apply (Hlast c' (rev r)).
    rewrite <- (rev_involutive (c :: core)), Hr. reflexivity.
Qed.

Lemma trim_start_split s :
  exists lead,
    s = lead ++ Text.trim_start s
    /\ Forall (fun c => Text.is_js_whitespace c = true) lead.
Proof.
  induction s as [|x s (lead & Hs & Hlead)]; [by exists []|].
  cbn [Text.trim_start]. destruct (Text.is_js_whitespace x) eqn:Hx; [|by exists []].
  exists (x :: lead). split; [cbn [app]; by rewrite <- Hs|]. by constructor.
Qed.

Lemma trim_split s :
  exists lead trail,
    s = lead ++ Text.trim s ++ trail
    /\ Forall (fun c => Text.is_js_whitespace c = true) lead
    /\ Forall (fun c => Text.is_js_whitespace c = true) trail.
Proof.
  destruct (trim_start_split s) as (lead & Hs & Hlead).
  destruct (trim_start_split (rev (Text.trim_start s))) as (back & Hr & Hback).
  exists lead, (rev back). split; [|split; [exact Hlead|]].
  - unfold Text.trim. rewrite <- rev_app_distr, <- Hr, rev_involutive. exact Hs.
  - apply Forall_forall. intros c Hc. rewrite Forall_forall in Hback.
    apply Hback. apply list_elem_of_In. apply list_elem_of_In in Hc.
    by rewrite <- in_rev in Hc.
Qed.

Section TitleFacts.
Context {P : Platform}.

(** C10.  Every text is, in one way only as far as the title goes, a
    first line followed by nothing or by a line feed and the rest, and
    the first line is white space, a core that neither begins nor ends
    with white space, and white space again.  With [line] the first 30
    code units of that core: the title of a note changes in an autosave
    only when it is exactly [Untitled Note] or [Shared Note] and [line]
    is longer than 2, and the title is then [line].  And whenever the
    autosave is carried out for the active note, its title becomes
    [line] under this condition and stays as it is otherwise. *)
Theorem auto_title_rule (w : State) (now : N) :
  (exists first rest lead core trail,
     innerText w = first ++ rest
     /\ (10 ∉ first) /\ (rest = [] \/ exists r, rest = 10 :: r)
     /\ first = lead ++ core ++ trail
     /\ Forall (fun c => Text.is_js_whitespace c = true) lead
     /\ Forall (fun c => Text.is_js_whitespace c = true) trail
     /\ (forall c r, core = c :: r -> Text.is_js_whitespace c = false)
     /\ (forall c r, core = r ++ [c] -> Text.is_js_whitespace c = false))
  /\ forall first rest lead core trail,
       innerText w = first ++ rest ->
       (10 ∉ first) -> (rest = [] \/ exists r, rest = 10 :: r) ->
       first = lead ++ core ++ trail ->
       Forall (fun c => Text.is_js_whitespace c = true) lead ->
       Forall (fun c => Text.is_js_whitespace c = true) trail ->
       (forall c r, core = c :: r -> Text.is_js_whitespace c = false) ->
       (forall c r, core = r ++ [c] -> Text.is_js_whitespace c = false) ->
       let line := take 30 core in
       let w' := saveAction now w in
       (forall i n n',
          notebooks w !! i = Some n -> notebooks w' !! i = Some n' ->
          Note.title n' = Note.title n
          \/ ((Note.title n = js "Untitled Note" \/ Note.title n = js "Shared Note")
              /\ (2 < length line)%nat /\ Note.title n' = line))
       /\ (forall i note,
             find (has_id (activeId w)) (notebooks w) = Some (i, note) ->
             contentEditable w <> ce_false ->
             save_proceeds w note ->
             exists n',
               notebooks w' !! i = Some n'
               /\ (((Note.title note = js "Untitled Note"
                     \/ Note.title note = js "Shared Note")
                    /\ (2 < length line)%nat -> Note.title n' = line)
                   /\ (~ ((Note.title note = js "Untitled Note"
                           \/ Note.title note = js "Shared Note")
                          /\ (2 < length line)%nat) ->
                       Note.title n' = Note.title note))).
Proof.
  split.
  { destruct (first_line_split (innerText w)) as (rest & Hs & Hno & Hrest).
    destruct (trim_split (Text.first_line (innerText w))) as (lead & trail & Hf & Hl & Ht).
    destruct (trim_ends (Text.first_line (innerText w))) as [Hhead Hlast].
    exists (Text.first_line (innerText w)), rest, lead,
      (Text.trim (Text.first_line (innerText w))), trail.
    repeat (split; [assumption|]). exact Hlast. }
  intros first rest lead core trail Htext Hno Hrest Hfirst Hlead Htrail Hhead Hlast
    line w'.
  assert (Hline : Text.title_line (innerText w) = line).
  { unfold Text.title_line. rewrite Htext, (first_line_app _ _ Hno Hrest), Hfirst.
    by rewrite (trim_app _ _ _ Hlead Htrail Hhead Hlast). }
  assert (Htitle : forall title,
    (auto_title title (innerText w) = title
     \/ (title = js "Untitled Note" \/ title = js "Shared Note")
        /\ (2 < length line)%nat /\ auto_title title (innerText w) = line)
    /\ ((title = js "Untitled Note" \/ title = js "Shared Note")
        /\ (2 < length line)%nat -> auto_title title (innerText w) = line)
    /\ (~ ((title = js "Untitled Note" \/ title = js "Shared Note")
           /\ (2 < length line)%nat) -> auto_title title (innerText w) = title)).
  { intros title. unfold auto_title. rewrite Hline.
    destruct (is_default_title title) eqn:Hd.
    - apply is_default_title_spec in Hd.
      destruct (Nat.ltb_spec 2 (length line)) as [Hlen|Hlen].
      + split; [by right|]. split; [done|]. intros Hn. by destruct Hn.
      + split; [by left|]. split; [|done]. intros [_ ?]. lia.
    - split; [by left|]. split; [|done].
      intros [Hd' _]. apply is_default_title_spec in Hd'. congruence. }
  split.
  - intros i n n' Hn Hn'. subst w'.
    destruct (saveAction_notebooks now w) as [Heq|(j & note & data & Hfind & Heq)];
      rewrite Heq in Hn'.
    + left. congruence.
    + destruct (find_Some _ _ _ _ Hfind) as [Hj _].
      destruct (decide (i = j)) as [->|Hne].
      * rewrite list_lookup_insert_eq in Hn' by (by eapply lookup_lt_Some).
        injection Hn' as <-. rewrite Hj in Hn. injection Hn as <-.
        rewrite saved_note_title. apply Htitle.
      * rewrite list_lookup_insert_ne in Hn' by done. left. congruence.
  - intros i note Hfind Hed Hgo. subst w'.
    destruct (saveAction_proceeds now w i note Hfind Hed Hgo) as [data ->].
    destruct (find_Some _ _ _ _ Hfind) as [Hi _].
    eexists. split.
    + apply list_lookup_insert_eq. by eapply lookup_lt_Some.
    + rewrite saved_note_title. apply Htitle.
Qed.

End TitleFacts.

(** The untitled note of the scenarios with three lines of text, the
    first of them a heading of thirteen characters between spaces: the
    autosave makes the heading its title, and nothing of the other
    lines. *)
Lemma auto_title_rule_witness :
  let text := js "  Shopping list " ++ [10] ++ js "milk" ++ [10] ++ js "eggs" in
  let w := set_innerText text Demo.start in
  find (has_id (activeId w)) (notebooks w) = Some (0%nat, Demo.note1)
  /\ contentEditable w <> ce_false
  /\ save_proceeds w Demo.note1
  /\ exists n',
       notebooks (saveAction 9 w) !! 0%nat = Some n'
       /\ Note.title n' = js "Shopping list".
Proof.
  intros text w.
  assert (H1 : find (has_id (activeId w)) (notebooks w) = Some (0%nat, Demo.note1))
    by (vm_compute; reflexivity).
  assert (H2 : contentEditable w <> ce_false) by discriminate.
  assert (H3 : save_proceeds w Demo.note1) by (left; reflexivity).
  destruct (auto_title_rule w 9) as [_ H].
  assert (Hws : Forall (fun c => Text.is_js_whitespace c = true) (js "  "))
    by (repeat constructor).
  assert (Hws' : Forall (fun c => Text.is_js_whitespace c = true) (js " "))
    by (repeat constructor).
  destruct (H (js "  Shopping list ") ([10] ++ js "milk" ++ [10] ++ js "eggs")
              (js "  ") (js "Shopping list") (js " ")) as [_ Hact].
  - reflexivity.
  - vm_compute. intros Hin.
    repeat (apply elem_of_cons in Hin as [Hin|Hin]; [discriminate Hin|]).
    by apply elem_of_nil in Hin.
  - right. by eexists.
  - reflexivity.
  - exact Hws.
  - exact Hws'.
  - intros c r [= <- _]. reflexivity.
  - intros c r Hr. apply (f_equal (@rev N)) in Hr.
    rewrite rev_app_distr in Hr. vm_compute in Hr. by injection Hr as <- _.
  - destruct (Hact 0%nat Demo.note1 H1 H2 H3) as (n' & Hn' & Hfire & _).
    split; [exact H1|]. split; [exact H2|]. split; [exact H3|].
    exists n'. split; [exact Hn'|].
    rewrite Hfire; [vm_compute; reflexivity|].
    split; [left; vm_compute; reflexivity|vm_compute; lia].
Defined.
